(* ===== verification/_CoqProject ===== *)
-Q . S2P
Prelude.v
RustStr.v
RustFmt.v
Errors.v
Types.v
Interfaces.v
TxDatabase.v
Text.v
Instances.v
TxScans.v
TxGrants.v
TxNonces.v
TxAudit.v
Storage.v
TxCache.v
AppState.v
AuditLog.v
Wallets.v
WalletFacts.v
DataValidation.v
DataValidationFacts.v
Mean.v
MeanFacts.v
Http.v
VerifiedFetch.v
FetchFacts.v
Runtime.v
RuntimeFacts.v
MeanHost.v
Query.v
QueryFacts.v
Auth.v
AuthFacts.v
DrtValidation.v
DrtProgram.v
DrtProgramFacts.v
Chain.v
ChainFacts.v
GrantApi.v
GrantFacts.v
PoolApi.v
PoolFacts.v
Upload.v
UploadFacts.v
EnclaveKey.v
Credentials.v
PoolViews.v
PoolExamples.v
PoolRegistry.v
PoolLife.v
CredFacts.v
PoolRaces.v
RaceProgress.v
ViewFacts.v
SolanaRpc.v
Lamports.v
Indexer.v
IndexerFacts.v
Transfers.v
TransferFacts.v
Background.v
Server.v
Router.v
ApiDocs.v
Footprint.v
Service.v
Trail.v
AuditTrail.v
Access.v
Lifecycle.v
Ledger.v
