(* ===== verification/Prelude.v ===== *)
(** * Relational-SDK: a verification library

    The program is a server that runs inside an enclave (src/src, Rust).  Pool
    owners hold wallets, create data pools on the Solana chain, register digital
    rights tokens (DRTs: WebAssembly scripts known by URL and SHA-256) and grant
    analysts the right to run one on a pool's data.  The server verifies the
    attestation token of each request, keeps its state in an embedded key-value
    database and in files, mirrors the on-chain grants in that database, fetches
    scripts, checks their digest, runs them in a sandbox and writes a signed
    audit log.  src/drt-examples/mean is a script for that sandbox.

    ** Parts, files and sources

    - [Prelude], [RustStr], [RustFmt]: Rust's [Result] and the state-and-error
      monad [act] of the handlers, byte strings, formatting, integers at their
      width, shared lemmas and tactics (hint databases [rsdk], [rsdk_rw]).
    - [Errors], [Types]: error.rs and the records of storage/*.rs.
    - [Interfaces], [Instances]: third-party crates as classes of operations with
      their documented laws (redb tables and transactions, serde_json, cursors),
      and an instance of each, on which the witnesses run.
    - [TxDatabase] is storage/tx_database.rs, one operation per method.  An
      environment says which step of a transaction fails; the laws of a write
      transaction make it atomic.  [TxScans] (paging, which tables an operation
      touches), [TxGrants] (the grant tables refine a finite map), [TxNonces]
      (replay protection, wallet owners), [TxAudit] (the audit tables).
    - [Storage] is storage/encrypted_fs.rs and paths.rs (files and directories as
      a map and a set, every call may fail, a crash may leave a temporary file);
      [TxCache] is storage/tx_cache.rs.
    - [AppState] is the shared state (files, database, cache, audit key) and
      storage/audit.rs; [AuditLog] its theorems.
    - [Wallets], [WalletFacts]: storage/repository/wallets.rs, ownership.rs,
      blockchain/signing.rs, api/wallets.rs, api/mod.rs and the wallet part of
      api/admin.rs; the wallet requests are the steps of a transition system.
    - [DataValidation], [DataValidationFacts]: data_validation.rs.
    - [Http], [VerifiedFetch], [FetchFacts]: http_client.rs, drt/verified_fetch.rs.
    - [Runtime], [RuntimeFacts]: drt/runtime.rs over an abstract wasmtime.
    - [Mean], [MeanFacts], [MeanHost]: the mean script, against its reference, and
      run by the host.
    - [Query], [QueryFacts]: the query endpoint of handlers.rs.
    - [Auth], [AuthFacts]: auth.rs and the JWKS settings of config.rs.
    - [DrtValidation]: blockchain/drt/validation.rs.
    - [DrtProgram], [DrtProgramFacts]: the on-chain program's accounts,
      instructions, addresses and events (blockchain/drt/*.rs).
    - [Chain], [ChainFacts]: confirmation polling (blockchain/transactions.rs) and
      the helpers of api/pools.rs shared by the handlers.
    - [GrantApi], [GrantFacts]: the grant endpoints of api/admin.rs.
    - [Text]: numbers, dates and JSON values as text; serde's [from_value].
    - [PoolApi], [PoolFacts]: creating and reading pools (api/pools.rs).
    - [Upload], [UploadFacts]: the encrypted multipart upload of handlers.rs and
      the decryption of crypto.rs, over an abstract curve, HKDF and AES-GCM.
      [EnclaveKey] is the once-filled key of crypto.rs: its generation and import,
      its JWK and JWKS, and the uses of it (uploads, cursors, bound tokens).
    - [Credentials]: schema upload, initialisation, issuance and revocation
      (api/credentials.rs); [PoolViews]: the endpoints of that file that only read.
      [PoolExamples] is a concrete run of them, [PoolRegistry] the abstract
      registry of pools, [PoolLife] the refinement and the invariants over all
      sequences of requests, [CredFacts] what issuance and revocation leave behind.
    - [SolanaRpc]: blockchain/rpc.rs.  [Lamports]: amounts in SOL through a double.
      [Indexer], [IndexerFacts]: indexer/poller.rs and the networks of
      blockchain/types.rs.
    - [Transfers], [TransferFacts]: native and token transfers
      (blockchain/transactions.rs, spl_token.rs, client.rs) and the endpoints of
      api/transactions.rs and api/balance.rs.
    - [PoolRaces]: concurrent updates of a pool's metadata, at their locks, loads
      and saves; [RaceProgress]: no schedule of them gets stuck.
    - [ViewFacts]: the theorems of the read-only pool endpoints.
    - [Background]: the two loops main.rs spawns, turn by turn.
    - [Server]: api/users.rs, health.rs, the start of main.rs with its state and its
      certificate, tls.rs.  [Router]: the route tables of main.rs and api/mod.rs, the
      way of a request through its token extractor to its handler, and the headers
      added to every response.  [ApiDocs]: the operations the handlers declare to
      utoipa, and the document api/mod.rs assembles from them.
    - [Footprint]: the kinds of files and the tables each handler may change.
      [Service]: the server as a whole - a request from its route through its token
      to its handler, with the parameters of its path, on the shared state, between
      turns of the background tasks, ends of the process and new starts.
    - Over whole histories of [Service], across restarts: [Trail] (the audit events each handler
      leaves) and [AuditTrail]; [Access]; [Lifecycle]; [Ledger].

    A handler is a function from its environment (the answers of the network, of
    the chain, of the clock, of random generators, and the I/O calls that fail),
    the caller's token and the request to an [act] on [AppState]: its result and
    the state it leaves, also when it fails.  Handlers run one after the other (so
    in [Service]), except in [PoolRaces], where a schedule interleaves them.

    ** What the theorems show

    - Who may query: after any history of the service an answered query carries an
      authentic analyst token, ran registered code on the pool's data, and goes back
      to an acknowledged grant by the pool's owner that was not revoked since
      ([Access], on top of [QueryFacts], [GrantFacts], [TxGrants], [RuntimeFacts]); a
      guarded handler is reached only with an authentic token of its role, bound to
      the enclave ([Router], on top of [AuthFacts]).
    - Who may change what: along any history of the service, whatever fails, a file
      of a wallet or of a pool, the audit log or an entry of a table changes only by
      a request with an authentic token of the role it takes, routed to a handler
      that may write it, or, for a nonce, by the purge ([Service], on top of
      [Footprint], [Router] and [Background]).
    - What runs: scripts have the registered digest ([FetchFacts]), a run stays
      within its limits and the artifact cache does not change results
      ([RuntimeFacts]), the mean script computes its reference and the host returns
      exactly that ([MeanFacts], [MeanHost]).
    - What is recorded: after any history of the service the log of a day is exactly
      the events of its requests, each in the name of its authenticated
      caller and signed with one key, which outlives the process ([AuditTrail], on top of [Trail] and [AuditLog]); every query is audited
      and the pages of the audit tables are slices of the whole ([QueryFacts],
      [TxAudit]); nonces cannot be replayed ([TxNonces]).
    - What is on chain: instructions, accounts and events agree with the program's
      layout ([DrtProgramFacts]); polling ends with the right verdict ([ChainFacts]).
    - Life of a pool: creation puts on chain what the metadata says ([PoolFacts]);
      any history of the service refines an abstract registry, whose entries keep
      their identity and stay well typed, and leaves datasets and logs unaltered
      ([Lifecycle], on top of [PoolLife]); issuance burns a right, stores
      exactly the decrypted dataset and counts it, a failure after the burn is on
      record, a revocation is recorded wherever it is read ([CredFacts]); what a
      client seals for the published key is what the process reads, whatever it did
      in between ([EnclaveKey], on top of [UploadFacts]); concurrent issuances are not
      lost and all of them finish ([PoolRaces], [RaceProgress]); the marketplace
      pages are slices of one sorted list and the audit trail of a pool is what was
      logged for it ([ViewFacts]).
    - What is documented: every operation of the API document is a route of the
      server, with the security it states up to listed exceptions, and the other
      way round ([ApiDocs]).
    - Transfers go out only from an active wallet of the caller, exactly as
      requested ([TransferFacts]); along any history of the service the recorded
      transactions stay, and each comes from a request of its wallet's owner, sent by
      it or returned by the node ([Ledger], on top of [IndexerFacts]); printed amounts are exact below [2 ^ 52]
      lamports ([Lamports], [TransferFacts]).
    - Wallets are not lost, belong to their user, and change their status only for
      who may change it ([Lifecycle], on top of [WalletFacts]); CSV files are
      judged as the schema says ([DataValidationFacts]); cache hits are fresh
      ([TxCache]).
    - Where the code does not do what it means to: [list_by_wallet_empty],
      [two_active_wallets], [global_allocator_overlaps], [parse_code_hash_panics],
      [unindexed_revocation_keeps_access], [repeated_revocation_counted_twice],
      [failed_detail_passed_over], [torn_line_hides_next],
      [recipient_cannot_query_transfer], [unlocked_updates_race].

    ** Bounds and fuel

    Recursion is structural except for confirmation polling: [AWAIT_FUEL] is 80
    rounds, enough since 60 s / 1 s and 30 s / 0.4 s are at most 75
    ([confirmation_decided] proves it from the sleeping rounds).  [lossy] and
    [dec_digits] take the length of their input, or the 20 digits of a u64.
    Unsigned and signed 64-bit values are in Z with wrapping or saturation written
    out where the code relies on it.

    ** Not modelled

    Below the HTTP client, the network; TLS records and the curve arithmetic,
    which are library calls; of main.rs the listener and the shutdown signal, and
    the timing of the two timers (a tick is an event of [Background]).  Of the
    router the body limit layer, and the decoding of queries and bodies into the
    arguments of a handler, which a request of [Service] carries (percent-decoding
    of a path segment is a parameter); of the API document the prose, the query
    parameters and the schemas.  Interleavings are modelled for the updates of pool
    metadata only, with each load and each save atomic; a crash in the middle of a
    request is not modelled beyond the failures of its calls: a process of [Service]
    ends between two of its requests or turns, and what it wrote stays; an append to
    the audit log is done when its call returns.  A panic is an error
    value where the code can reach one ([parse_code_hash], [get_account_data],
    [boot]). *)
From Stdlib Require Export ZArith Lia.
From stdpp Require Export base tactics strings list gmap sorting.

Local Open Scope Z_scope.

(** ** Rust's [Result] and the [?] operator *)

(** [Result<A, E>]; the error type comes first so that [result E] is a monad. *)
Inductive result (E A : Type) : Type :=
| Ok (a : A)
| Err (e : E).
Arguments Ok {E A} _.
Arguments Err {E A} _.

#[global] Instance result_ret {E} : MRet (result E) := λ A a, Ok a.
#[global] Instance result_bind {E} : MBind (result E) := λ A B f r,
  match r with Ok a => f a | Err e => Err e end.
#[global] Instance result_fmap {E} : FMap (result E) := λ A B f r,
  match r with Ok a => Ok (f a) | Err e => Err e end.
#[global] Instance result_eq_dec {E A} `{EqDecision E, EqDecision A} :
  EqDecision (result E A).
Proof. solve_decision. Defined.

Definition map_err {E F A} (f : E → F) (r : result E A) : result F A :=
  match r with Ok a => Ok a | Err e => Err (f e) end.
Definition ok_or {E A} (o : option A) (e : E) : result E A :=
  match o with Some a => Ok a | None => Err e end.
Definition ok {E A} (r : result E A) : option A :=
  match r with Ok a => Some a | Err _ => None end.
Definition is_ok {E A} (r : result E A) : bool :=
  match r with Ok _ => true | Err _ => false end.
Definition unwrap_or {E A} (r : result E A) (d : A) : A :=
  match r with Ok a => a | Err _ => d end.
(** [if cond { return Err(e) }]. *)
Definition reject_if {E} (b : bool) (e : E) : result E unit :=
  if b then Err e else Ok ().

(** ** Stateful fallible code

    A handler or a database operation is a function from the state to its
    outcome and the new state: an error keeps whatever was already written. *)
Definition act (S E A : Type) : Type := S → result E A * S.

#[global] Instance act_ret {S E} : MRet (act S E) := λ A a s, (Ok a, s).
#[global] Instance act_bind {S E} : MBind (act S E) := λ A B f m s,
  match m s with
  | (Ok a, s') => f a s'
  | (Err e, s') => (Err e, s')
  end.

Section Act.
Context {S E : Type}.

Definition lift {A} (r : result E A) : act S E A := λ s, (r, s).
Definition fail {A} (e : E) : act S E A := λ s, (Err e, s).
Definition reading {A} (f : S → result E A) : act S E A := λ s, (f s, s).
Definition updating (f : S → S) : act S E unit := λ s, (Ok (), f s).
(** [if let Err(e) = m { warn!(..) }]: the effects of [m] stay, its error goes. *)
Definition best_effort {F A} (m : act S F A) : act S E unit :=
  λ s, (Ok (), (m s).2).
(** [m.map_err(f)?]. *)
Definition act_map_err {F A} (f : F → E) (m : act S F A) : act S E A :=
  λ s, (map_err f (m s).1, (m s).2).
End Act.

Lemma act_bind_eq {S E A B} (m : act S E A) (f : A → act S E B) (s : S) :
  (m ≫= f) s = match m s with (Ok a, s') => f a s' | (Err e, s') => (Err e, s') end.
Proof. done. Qed.

Lemma act_bind_lift {S E A B} (r : result E A) (f : A → act S E B) (s : S) :
  (lift r ≫= f) s = match r with Ok a => f a s | Err e => (Err e, s) end.
Proof. by destruct r. Qed.

(** Running an action of a component on the field of a larger state. *)
Definition zoom {S T E A} (get : S → T) (set : T → S → S) (m : act T E A) :
    act S E A :=
  λ s, let r := m (get s) in (r.1, set r.2 s).

Lemma surjective_pairing_with {A B} (x : A * B) (a : A) : x.1 = a → x = (a, x.2).
Proof. destruct x. simpl. congruence. Qed.

(** ** Invariants of actions *)

(** [preserves I m]: [m] keeps [I], whether it succeeds or fails. *)
Definition preserves {S E A} (I : S → Prop) (m : act S E A) : Prop :=
  ∀ s, I s → I (m s).2.

Section Preserves.
Context {S E : Type} (I : S → Prop).

Lemma preserves_ret {A} (a : A) : preserves I (mret a : act S E A).
Proof. by intros s. Qed.
Lemma preserves_lift {A} (r : result E A) : preserves I (lift r).
Proof. by intros s. Qed.
Lemma preserves_fail {A} (e : E) : preserves I (fail e : act S E A).
Proof. by intros s. Qed.
Lemma preserves_reading {A} (f : S → result E A) : preserves I (reading f).
Proof. by intros s. Qed.
Lemma preserves_bind {A B} (m : act S E A) (f : A → act S E B) :
  preserves I m → (∀ a, preserves I (f a)) → preserves I (m ≫= f).
Proof.
  intros Hm Hf s Hs. specialize (Hm s Hs). unfold mbind, act_bind.
  destruct (m s) as [[a|e] s']; simpl in *; [by apply Hf|done].
Qed.
Lemma preserves_best_effort {F A} (m : act S F A) :
  preserves I m → preserves I (best_effort m : act S E unit).
Proof. intros Hm s Hs. by apply Hm. Qed.
Lemma preserves_map_err {F A} (f : F → E) (m : act S F A) :
  preserves I m → preserves I (act_map_err f m).
Proof. intros Hm s Hs. by apply Hm. Qed.
End Preserves.

(** ** Automation *)

Create HintDb rsdk discriminated.
Create Rewrite HintDb rsdk_rw.
#[export] Hint Resolve preserves_ret preserves_lift preserves_fail
  preserves_reading preserves_bind preserves_best_effort preserves_map_err : rsdk.

(** Break the innermost [match] of a hypothesis or of the goal, keeping the
    equation, and clean up. *)
Ltac crush_step :=
  match goal with
  | H : context [match ?x with _ => _ end] |- _ =>
      lazymatch x with context [match _ with _ => _ end] => fail | _ => idtac end;
      destruct x eqn:?; simplify_eq/=
  | |- context [match ?x with _ => _ end] =>
      lazymatch x with context [match _ with _ => _ end] => fail | _ => idtac end;
      destruct x eqn:?; simplify_eq/=
  end.
Ltac crush := simplify_eq/=; repeat (crush_step; try done).

(** Unfold the plumbing of the two monads. *)
Ltac unfold_act :=
  unfold mbind, mret, fmap, act_bind, act_ret, result_bind, result_ret,
    result_fmap, lift, fail, reading, updating, best_effort, act_map_err, zoom,
    reject_if, ok_or, map_err in *; simpl in *.

(** ** Inverting successful handlers *)

Lemma act_bind_ok {S E A B} (m : act S E A) (f : A → act S E B) s b s' :
  (m ≫= f) s = (Ok b, s') → ∃ a s1, m s = (Ok a, s1) ∧ f a s1 = (Ok b, s').
Proof. rewrite act_bind_eq. destruct (m s) as [[a|] s1]; [eauto|done]. Qed.
Lemma lift_bind_ok {S E A B} (r : result E A) (f : A → act S E B) s b s' :
  (lift r ≫= f) s = (Ok b, s') → ∃ a, r = Ok a ∧ f a s = (Ok b, s').
Proof. rewrite act_bind_lift. destruct r; [eauto|done]. Qed.
Lemma result_bind_ok {E A B} (r : result E A) (f : A → result E B) b :
  (r ≫= f) = Ok b → ∃ a, r = Ok a ∧ f a = Ok b.
Proof. destruct r; [eauto|done]. Qed.
Lemma ok_or_ok {E A} (o : option A) (e : E) a : ok_or o e = Ok a → o = Some a.
Proof. by destruct o; intros [= ->]. Qed.
Lemma map_err_ok {E F A} (f : E → F) (r : result E A) a : map_err f r = Ok a → r = Ok a.
Proof. by destruct r; intros [= ->]. Qed.
Lemma reject_if_ok {E} b (e : E) u : reject_if b e = Ok u → b = false.
Proof. by destruct b. Qed.

(** Peel the next step off a successful handler. *)
Tactic Notation "peel" hyp(H) "as" simple_intropattern(a) simple_intropattern(Ha) :=
  apply lift_bind_ok in H as (a & Ha & H).

(** ** Generic lemmas on lists *)

Section Lists.
Context {A B : Type}.

(** [Iterator::take_while]. *)
Fixpoint take_while (p : A → bool) (l : list A) : list A :=
  match l with
  | [] => []
  | x :: l' => if p x then x :: take_while p l' else []
  end.

Lemma take_while_filter (p : A → bool) (l : list A) :
  StronglySorted (λ x y, p y = true → p x = true) l →
  take_while p l = List.filter p l.
Proof.
  induction 1 as [|x l Hs IH Hx]; simpl; [done|].
  destruct (p x) eqn:Hp; [by rewrite IH|].
  clear IH Hs. induction Hx as [|y l Hy Hl IHl]; simpl; [done|].
  destruct (p y); [|done]. by specialize (Hy eq_refl); congruence.
Qed.

Lemma filter_filter_sub (p q : A → bool) (l : list A) :
  (∀ x, p x = true → q x = true) →
  List.filter p (List.filter q l) = List.filter p l.
Proof.
  intros Hpq. induction l as [|x l IH]; simpl; [done|].
  destruct (q x) eqn:Hq; simpl; rewrite IH; [done|].
  destruct (p x) eqn:Hp; [|done]. by rewrite (Hpq x Hp) in Hq.
Qed.

Lemma StronglySorted_weaken (R R' : A → A → Prop) (l : list A) :
  (∀ x y, R x y → R' x y) → StronglySorted R l → StronglySorted R' l.
Proof.
  intros HR. induction 1 as [|x l Hs IH Hx]; constructor; [done|].
  eapply Forall_impl; [exact Hx|]. auto.
Qed.

Lemma StronglySorted_filter (R : A → A → Prop) (p : A → bool) (l : list A) :
  StronglySorted R l → StronglySorted R (List.filter p l).
Proof.
  induction 1 as [|x l Hs IH Hx]; simpl; [constructor|].
  destruct (p x); [|done]. constructor; [done|].
  clear -Hx. induction Hx as [|y l Hy _ IHl]; simpl; [constructor|].
  destruct (p y); [by constructor|done].
Qed.

(** [filter_map]. *)
Fixpoint filter_map (f : A → option B) (l : list A) : list B :=
  match l with
  | [] => []
  | x :: l' =>
      match f x with Some y => y :: filter_map f l' | None => filter_map f l' end
  end.

Lemma elem_of_filter_map (f : A → option B) (l : list A) (y : B) :
  y ∈ filter_map f l ↔ ∃ x, x ∈ l ∧ f x = Some y.
Proof.
  induction l as [|x l IH]; simpl; [set_solver|].
  destruct (f x) eqn:Hf; set_solver.
Qed.

Lemma filter_map_all (f : A → option B) (g : A → B) (l : list A) :
  (∀ x, x ∈ l → f x = Some (g x)) → filter_map f l = g <$> l.
Proof.
  induction l as [|x l IH]; intros Hf; simpl; [done|].
  rewrite Hf by set_solver. rewrite IH by set_solver. done.
Qed.

(** When every element yields a value, [filter_map] commutes with [drop]. *)
Lemma filter_map_drop (f : A → option B) (l : list A) (k : nat) :
  (∀ x, x ∈ l → is_Some (f x)) → filter_map f (drop k l) = drop k (filter_map f l).
Proof.
  revert k. induction l as [|x l IH]; intros k Hd; [rewrite drop_nil; simpl; by rewrite drop_nil|].
  destruct k as [|k]; [done|]. simpl. destruct (Hd x) as [y ->]; [set_solver|].
  apply IH. set_solver.
Qed.
Lemma length_filter_map_total (f : A → option B) (l : list A) :
  (∀ x, x ∈ l → is_Some (f x)) → length (filter_map f l) = length l.
Proof.
  induction l as [|x l IH]; intros Hd; simpl; [done|].
  destruct (Hd x) as [y ->]; [set_solver|]. simpl. rewrite IH; set_solver.
Qed.
Lemma StronglySorted_filter_map (R : A → A → Prop) (R' : B → B → Prop) (f : A → option B)
    (l : list A) :
  (∀ x y a b, x ∈ l → y ∈ l → R x y → f x = Some a → f y = Some b → R' a b) →
  StronglySorted R l → StronglySorted R' (filter_map f l).
Proof.
  intros HR Hs. induction Hs as [|x l Hs IH Hx]; simpl; [constructor|].
  assert (IH' : StronglySorted R' (filter_map f l))
    by (apply IH; intros; eapply HR; [| |done..]; set_solver).
  destruct (f x) as [a|] eqn:Ha; [|done]. constructor; [done|].
  apply Forall_forall. intros b (y & Hy & Hb)%elem_of_filter_map.
  rewrite Forall_forall in Hx. eapply (HR x y); eauto; set_solver.
Qed.
Lemma StronglySorted_NoDup (R : A → A → Prop) (l : list A) :
  (∀ x, ¬ R x x) → StronglySorted R l → NoDup l.
Proof.
  intros HR. induction 1 as [|x l _ IH Hx]; constructor; [|done].
  intros Hin. rewrite Forall_forall in Hx. by apply (HR x), Hx.
Qed.

(** [slice::sort_by] for a total preorder given as a test: a stable sort. *)
Fixpoint insert_by (leb : A → A → bool) (x : A) (l : list A) : list A :=
  match l with
  | [] => [x]
  | y :: l' => if leb x y then x :: l else y :: insert_by leb x l'
  end.
Definition sort_by (leb : A → A → bool) (l : list A) : list A := foldr (insert_by leb) [] l.

Lemma insert_by_Permutation leb x l : insert_by leb x l ≡ₚ x :: l.
Proof.
  induction l as [|y l IH]; simpl; [done|]. destruct (leb x y); [done|].
  rewrite IH. apply Permutation_swap.
Qed.
Lemma sort_by_Permutation leb l : sort_by leb l ≡ₚ l.
Proof.
  induction l as [|x l IH]; simpl; [done|]. rewrite insert_by_Permutation. by constructor.
Qed.
Lemma sort_by_sorted leb l :
  (∀ x y, leb x y = true ∨ leb y x = true) →
  (∀ x y z, leb x y = true → leb y z = true → leb x z = true) →
  StronglySorted (λ x y, leb x y = true) (sort_by leb l).
Proof.
  intros Htot Htr. induction l as [|x l IH]; simpl; [constructor|].
  induction IH as [|y k Hk IHk Hy]; simpl; [repeat constructor|].
  destruct (leb x y) eqn:Hxy.
  - constructor; [by constructor|]. constructor; [done|].
    eapply Forall_impl; [exact Hy|]. simpl. intros z Hz. by apply (Htr x y).
  - constructor; [done|]. rewrite insert_by_Permutation. constructor; [|done].
    by destruct (Htot x y); [congruence|].
Qed.
(** Elements that compare equal keep their order. *)
Lemma insert_by_filter leb (p : A → bool) x l :
  (∀ y, p x = true → p y = true → leb x y = true) →
  List.filter p (insert_by leb x l) = List.filter p (x :: l).
Proof.
  intros Hp. induction l as [|y l IH]; [done|]. simpl. destruct (leb x y) eqn:Hxy; [done|].
  simpl. rewrite IH. simpl. destruct (p x) eqn:Hx, (p y) eqn:Hy; try done.
  by rewrite Hp in Hxy.
Qed.
Lemma sort_by_stable leb (p : A → bool) l :
  (∀ x y, p x = true → p y = true → leb x y = true) →
  List.filter p (sort_by leb l) = List.filter p l.
Proof.
  intros Hp. induction l as [|x l IH]; [done|]. simpl.
  rewrite (insert_by_filter leb p x) by auto. simpl. by rewrite IH.
Qed.

Lemma length_filter_map (f : A → option B) (l : list A) :
  (length (filter_map f l) ≤ length l)%nat.
Proof. induction l as [|x l IH]; simpl; [lia|]. destruct (f x); simpl; lia. Qed.
End Lists.

(** ** Machine integers *)

Definition U64_MAX : Z := 2 ^ 64 - 1.
Definition I64_MIN : Z := - 2 ^ 63.
Definition I64_MAX : Z := 2 ^ 63 - 1.
Definition wrap64 (z : Z) : Z := z mod 2 ^ 64.
Definition wrap32 (z : Z) : Z := z mod 2 ^ 32.
Definition u64_saturating_add (a b : Z) : Z := Z.min U64_MAX (a + b).
Definition u64_saturating_mul (a b : Z) : Z := Z.min U64_MAX (a * b).
Definition u64_saturating_sub (a b : Z) : Z := Z.max 0 (a - b).
(** [x as i32] for an integer [x], and [x as usize] (64 bits) for an i32. *)
Definition as_i32 (z : Z) : Z :=
  let w := wrap32 z in if w <? 2 ^ 31 then w else w - 2 ^ 32.
Definition i32_as_usize (z : Z) : Z := wrap64 z.
Definition is_u64 (z : Z) : Prop := 0 ≤ z ≤ U64_MAX.
Definition is_i64 (z : Z) : Prop := I64_MIN ≤ z ≤ I64_MAX.

Lemma wrap64_small (z : Z) : is_u64 z → wrap64 z = z.
Proof. unfold is_u64, U64_MAX, wrap64. intros. apply Z.mod_small. lia. Qed.
Lemma wrap64_range (z : Z) : is_u64 (wrap64 z).
Proof. unfold is_u64, U64_MAX, wrap64. pose proof (Z.mod_pos_bound z (2 ^ 64)). lia. Qed.
Lemma as_i32_small (z : Z) : 0 ≤ z < 2 ^ 31 → as_i32 z = z.
Proof.
  intros H. unfold as_i32, wrap32. rewrite Z.mod_small by lia.
  destruct (Z.ltb_spec z (2 ^ 31)); lia.
Qed.
#[export] Hint Resolve wrap64_range : rsdk.
