(* ===== verification/RustStr.v ===== *)
(** * The parts of Rust's [str] and integer formatting the sources use

    A [&str], a [String], a [&[u8]] and a [Vec<u8>] are all the [string] of
    their bytes (an [ascii] is a byte); [len] is the byte length and the order
    is the lexicographic order of the bytes, as in Rust.  [utf8_valid] is the
    test of [std::str::from_utf8]. *)
From S2P Require Import Prelude.
From Stdlib Require Export Ascii.

Local Open Scope Z_scope.
#[local] Arguments String.append : simpl nomatch.

(** ** Bytes *)

Definition byte (c : ascii) : Z := Z.of_N (N_of_ascii c).
Definition char_of (z : Z) : ascii := ascii_of_N (Z.to_N z).
Definition len (s : string) : Z := Z.of_nat (String.length s).

Lemma byte_char_of (z : Z) : 0 ≤ z < 256 → byte (char_of z) = z.
Proof. intros H. unfold byte, char_of. rewrite N_ascii_embedding by lia. lia. Qed.
Lemma byte_range (c : ascii) : 0 ≤ byte c < 256.
Proof. unfold byte. pose proof (N_ascii_bounded c). lia. Qed.

(** ** Append, length, prefixes *)

Lemma append_assoc (a b c : string) : (a +:+ b) +:+ c = a +:+ (b +:+ c).
Proof. induction a; simpl; congruence. Qed.
Lemma append_nil_r (a : string) : a +:+ "" = a.
Proof. induction a; simpl; congruence. Qed.
Lemma length_append (a b : string) :
  String.length (a +:+ b) = (String.length a + String.length b)%nat.
Proof. induction a; simpl; congruence. Qed.
Lemma append_inj_len (a b x y : string) :
  String.length a = String.length b → a +:+ x = b +:+ y → a = b ∧ x = y.
Proof.
  revert b. induction a as [|c a IH]; intros [|d b] Hl He; simplify_eq/=; [done|].
  by destruct (IH b) as [-> ->].
Qed.

Definition starts_with (p s : string) : bool := String.prefix p s.

Fixpoint strip_prefix (p s : string) : option string :=
  match p, s with
  | EmptyString, _ => Some s
  | String a p', String b s' => if decide (a = b) then strip_prefix p' s' else None
  | _, _ => None
  end.

Lemma starts_with_spec (p s : string) :
  starts_with p s = true ↔ ∃ r, s = p +:+ r.
Proof.
  unfold starts_with. revert s.
  induction p as [|a p IH]; intros [|b s]; simpl; try naive_solver.
  destruct (ascii_dec a b) as [->|Hne]; [|naive_solver].
  rewrite IH. naive_solver.
Qed.
Lemma starts_with_app (p r : string) : starts_with p (p +:+ r) = true.
Proof. apply starts_with_spec. eauto. Qed.
Lemma strip_prefix_spec (p s r : string) : strip_prefix p s = Some r ↔ s = p +:+ r.
Proof.
  revert s. induction p as [|a p IH]; intros [|b s]; simpl; try naive_solver.
  case_decide; subst; [rewrite IH|]; naive_solver.
Qed.
Lemma strip_prefix_app (p r : string) : strip_prefix p (p +:+ r) = Some r.
Proof. by apply strip_prefix_spec. Qed.
#[export] Hint Rewrite starts_with_app strip_prefix_app append_assoc : rsdk_rw.

(** ** Lexicographic order *)

Definition str_lt (a b : string) : Prop := String.compare a b = Lt.
Definition str_ltb (a b : string) : bool := String.ltb a b.
Definition str_leb (a b : string) : bool := String.leb a b.

#[export] Instance str_lt_dec : RelDecision str_lt.
Proof. intros a b. unfold str_lt. solve_decision. Defined.

Lemma compare_refl (a : string) : String.compare a a = Eq.
Proof.
  induction a as [|c a IH]; simpl; [done|].
  unfold Ascii.compare. by rewrite N.compare_refl.
Qed.
Lemma compare_append (p x y : string) :
  String.compare (p +:+ x) (p +:+ y) = String.compare x y.
Proof.
  induction p as [|a p IH]; simpl; [done|].
  unfold Ascii.compare. by rewrite N.compare_refl, IH.
Qed.
Lemma str_lt_append (a b x y : string) :
  String.length a = String.length b → str_lt a b → str_lt (a +:+ x) (b +:+ y).
Proof.
  unfold str_lt. revert b.
  induction a as [|c a IH]; intros [|d b] Hl; simplify_eq/=; try done.
  destruct (Ascii.compare c d); auto.
Qed.
Lemma str_leb_le (a b : string) : str_leb a b = true ↔ String.le a b.
Proof. unfold str_leb, String.le. by destruct (String.leb a b). Qed.
Lemma str_lt_le (a b : string) : str_lt a b → String.le a b.
Proof. unfold str_lt, String.le, String.leb. by intros ->. Qed.
Lemma str_ltb_lt (a b : string) : str_ltb a b = true ↔ str_lt a b.
Proof. unfold str_ltb, str_lt, String.ltb. by destruct (String.compare a b). Qed.
Lemma str_lt_irrefl (a : string) : ¬ str_lt a a.
Proof. unfold str_lt. by rewrite compare_refl. Qed.
Lemma str_lt_asym (a b : string) : str_lt a b → ¬ str_lt b a.
Proof. unfold str_lt. intros Hab Hba. pose proof (String.compare_antisym a b). by rewrite Hab, Hba in *. Qed.
Lemma str_lt_iff (a b : string) : str_lt a b ↔ String.le a b ∧ a ≠ b.
Proof.
  unfold str_lt, String.le, String.leb. split.
  - intros Hc. rewrite Hc. split; [done|]. intros ->. by rewrite compare_refl in Hc.
  - intros [Hle Hne]. destruct (String.compare a b) eqn:Hc; [|done|done].
    by apply String.compare_eq_iff in Hc.
Qed.
Lemma le_prefix (p r : string) : String.le p (p +:+ r).
Proof.
  unfold String.le, String.leb. rewrite <-(append_nil_r p) at 1.
  rewrite compare_append. by destruct r.
Qed.

(** The strings with a given prefix are an interval of the order. *)
Lemma prefix_interval (p s t : string) :
  String.le p s → String.le s t → starts_with p t = true → starts_with p s = true.
Proof.
  unfold starts_with, String.le, String.leb. revert s t.
  induction p as [|a p IH]; intros [|b s] [|c t]; simpl; try done.
  destruct (ascii_dec a c) as [->|Hne]; [|done].
  destruct (ascii_dec c b) as [->|Hne]; simpl.
  - unfold Ascii.compare. rewrite N.compare_refl. apply IH.
  - intros Hcb Hbc _. exfalso. apply Hne. revert Hcb Hbc. unfold Ascii.compare.
    destruct (N.compare_spec (N_of_ascii c) (N_of_ascii b)) as [He|Hlt|Hgt];
      destruct (N.compare_spec (N_of_ascii b) (N_of_ascii c)) as [He'|Hlt'|Hgt'];
      simpl; intros; try done; try (by apply (f_equal ascii_of_N) in He;
        rewrite !ascii_N_embedding in He); try (by apply (f_equal ascii_of_N) in He';
        rewrite !ascii_N_embedding in He'); lia.
Qed.

(** ** Searching and splitting *)

(** [c] does not occur in [s]. *)
Fixpoint no_char (c : ascii) (s : string) : bool :=
  match s with
  | EmptyString => true
  | String a s' => negb (bool_decide (a = c)) && no_char c s'
  end.

(** [s.split_once(c)]: at the first occurrence. *)
Fixpoint split_once (c : ascii) (s : string) : option (string * string) :=
  match s with
  | EmptyString => None
  | String a s' =>
      if decide (a = c) then Some (EmptyString, s')
      else match split_once c s' with
           | Some (x, y) => Some (String a x, y)
           | None => None
           end
  end.

(** [s.rsplit_once(c)]: at the last occurrence. *)
Fixpoint rsplit_once (c : ascii) (s : string) : option (string * string) :=
  match s with
  | EmptyString => None
  | String a s' =>
      match rsplit_once c s' with
      | Some (x, y) => Some (String a x, y)
      | None => if decide (a = c) then Some (EmptyString, s') else None
      end
  end.

(** [s.rsplit(c).next()], which always yields a segment. *)
Definition rsplit_next (c : ascii) (s : string) : string :=
  match rsplit_once c s with Some (_, y) => y | None => s end.

(** [s.split(c).next()], which always yields a segment. *)
Definition split_next (c : ascii) (s : string) : string :=
  match split_once c s with Some (x, _) => x | None => s end.

(** The three results of [splitn(3, c)] when there are three. *)
Definition splitn3 (c : ascii) (s : string) : option (string * string * string) :=
  match split_once c s with
  | Some (x, r) =>
      match split_once c r with Some (y, z) => Some (x, y, z) | None => None end
  | None => None
  end.

#[global] Arguments no_char c%_char s%_stdpp.
#[global] Arguments split_once c%_char s%_stdpp.
#[global] Arguments rsplit_once c%_char s%_stdpp.
#[global] Arguments rsplit_next c%_char s%_stdpp.
#[global] Arguments split_next c%_char s%_stdpp.
#[global] Arguments splitn3 c%_char s%_stdpp.

Lemma no_char_append (c : ascii) (a b : string) :
  no_char c (a +:+ b) = no_char c a && no_char c b.
Proof. induction a as [|d a IH]; simpl; [done|]. by rewrite IH, andb_assoc. Qed.

Lemma split_once_app (c : ascii) (a b : string) :
  no_char c a = true → split_once c (a +:+ String c b) = Some (a, b).
Proof.
  induction a as [|d a IH]; simpl; [by rewrite decide_True|].
  intros [Hd Ha]%andb_true_iff. apply negb_true_iff, bool_decide_eq_false in Hd.
  by rewrite decide_False, IH.
Qed.
Lemma split_once_none (c : ascii) (s : string) :
  split_once c s = None ↔ no_char c s = true.
Proof.
  induction s as [|d s IH]; simpl; [done|].
  case_decide as Hd; [subst; rewrite bool_decide_true by done; naive_solver|].
  rewrite bool_decide_false by done; simpl. rewrite <-IH.
  by destruct (split_once c s) as [[??]|].
Qed.
Lemma split_once_some (c : ascii) (s a b : string) :
  split_once c s = Some (a, b) → s = a +:+ String c b ∧ no_char c a = true.
Proof.
  revert a b. induction s as [|d s IH]; simpl; intros a b H; [done|].
  case_decide; simplify_eq/=; [done|].
  destruct (split_once c s) as [[x y]|]; simplify_eq/=.
  destruct (IH x b eq_refl) as [-> Hx]. rewrite bool_decide_false by done. by rewrite Hx.
Qed.
Lemma rsplit_once_none (c : ascii) (s : string) :
  no_char c s = true → rsplit_once c s = None.
Proof.
  induction s as [|d s IH]; simpl; [done|]. intros [Hd Hs]%andb_true_iff.
  apply negb_true_iff, bool_decide_eq_false in Hd. by rewrite IH, decide_False.
Qed.
Lemma rsplit_once_app (c : ascii) (a b : string) :
  no_char c b = true → rsplit_once c (a +:+ String c b) = Some (a, b).
Proof.
  intros Hb. induction a as [|d a IH]; simpl.
  - by rewrite rsplit_once_none, decide_True.
  - by rewrite IH.
Qed.
Lemma rsplit_next_app (c : ascii) (a b : string) :
  no_char c b = true → rsplit_next c (a +:+ String c b) = b.
Proof. intros Hb. unfold rsplit_next. by rewrite rsplit_once_app. Qed.
Lemma splitn3_app (c : ascii) (x y z : string) :
  no_char c x = true → no_char c y = true →
  splitn3 c (x +:+ String c (y +:+ String c z)) = Some (x, y, z).
Proof. intros Hx Hy. unfold splitn3. by rewrite !split_once_app. Qed.
(** Two keys with the same separator split in the same way. *)
Lemma split_inj (c : ascii) (a b x y : string) :
  no_char c a = true → no_char c b = true →
  a +:+ String c x = b +:+ String c y → a = b ∧ x = y.
Proof.
  intros Ha Hb He. apply (f_equal (split_once c)) in He.
  rewrite !split_once_app in He by done. by simplify_eq.
Qed.

(** [s.split(c).collect()]. *)
Fixpoint split_all (c : ascii) (s : string) : list string :=
  match s with
  | EmptyString => [EmptyString]
  | String a s' =>
      if bool_decide (a = c) then EmptyString :: split_all c s'
      else match split_all c s' with
           | x :: rest => String a x :: rest
           | [] => [String a EmptyString]
           end
  end.
#[global] Arguments split_all c%_char s%_stdpp.

Lemma split_all_none c s : no_char c s = true → split_all c s = [s].
Proof.
  induction s as [|a s IH]; simpl; [done|]. rewrite andb_true_iff, negb_true_iff.
  intros [Ha Hs]. by rewrite Ha, IH.
Qed.
Lemma split_all_app c a b :
  no_char c a = true → split_all c (a +:+ String c b) = a :: split_all c b.
Proof.
  induction a as [|d a IH]; simpl; [by rewrite bool_decide_eq_true_2|].
  rewrite andb_true_iff, negb_true_iff. intros [Hd Ha]. by rewrite Hd, IH.
Qed.
Lemma split_all_cases c s :
  (split_all c s = [s] ∧ no_char c s = true) ∨
  ∃ a b, s = a +:+ String c b ∧ no_char c a = true ∧ split_all c s = a :: split_all c b.
Proof.
  destruct (split_once c s) as [[a b]|] eqn:Hs.
  - right. apply split_once_some in Hs as [-> Ha]. exists a, b. by rewrite split_all_app.
  - left. apply split_once_none in Hs. split; [by apply split_all_none|done].
Qed.
Lemma split_all_not_nil c s : split_all c s ≠ [].
Proof. destruct (split_all_cases c s) as [[-> _]|(a & b & _ & _ & ->)]; done. Qed.
