(* ===== verification/RustFmt.v ===== *)
(** * Rust's integer formatting, UTF-8 test, character classes and trimming

    The definitions of the standard library that the key builders, the
    validators and the parsers of the sources use: [u64::to_be_bytes],
    [{:016x}], [Display] of integers, [std::str::from_utf8], [str::trim],
    [char::is_ascii_*], [u8::from_str_radix]. *)
From S2P Require Import Prelude.
From S2P Require Import RustStr.
From Stdlib Require Import Ascii.

Local Open Scope Z_scope.
#[local] Arguments String.append : simpl nomatch.

(** ** Fixed-width big-endian digits *)

(** The [n] digits of [z] in base [b], most significant first. *)
Fixpoint be_digits (b : Z) (n : nat) (z : Z) : list Z :=
  match n with
  | O => []
  | S m => z / b ^ Z.of_nat m :: be_digits b m (z mod b ^ Z.of_nat m)
  end.

Definition hex_char (d : Z) : ascii :=
  if d <? 10 then char_of (48 + d) else char_of (87 + d).

(** [z.to_be_bytes()] of a u64. *)
Definition u64_to_be_bytes (z : Z) : string :=
  String.string_of_list_ascii (char_of <$> be_digits 256 8 z).
(** [format!("{z:016x}")] of a u64. *)
Definition hex16 (z : Z) : string :=
  String.string_of_list_ascii (hex_char <$> be_digits 16 16 z).
(** [!ts as u64] of an i64. *)
Definition not_i64_as_u64 (ts : Z) : Z := wrap64 (Z.lnot ts).

Lemma length_be_digits (b : Z) (n : nat) (z : Z) : length (be_digits b n z) = n.
Proof. revert z. induction n as [|n IH]; intros z; simpl; [done|]. by rewrite IH. Qed.
Lemma length_of_list_ascii (l : list ascii) :
  String.length (String.string_of_list_ascii l) = length l.
Proof. induction l; simpl; congruence. Qed.
Lemma length_hex16 (z : Z) : String.length (hex16 z) = 16%nat.
Proof. unfold hex16. by rewrite length_of_list_ascii, length_fmap, length_be_digits. Qed.
Lemma length_be_bytes (z : Z) : String.length (u64_to_be_bytes z) = 8%nat.
Proof.
  unfold u64_to_be_bytes. by rewrite length_of_list_ascii, length_fmap, length_be_digits.
Qed.

Lemma be_digits_range (b : Z) (n : nat) (z : Z) :
  1 < b → 0 ≤ z < b ^ Z.of_nat n → Forall (λ d, 0 ≤ d < b) (be_digits b n z).
Proof.
  intros Hb. revert z. induction n as [|n IH]; intros z Hz; simpl; constructor.
  - rewrite Nat2Z.inj_succ, Z.pow_succ_r in Hz by lia.
    assert (0 < b ^ Z.of_nat n) by (apply Z.pow_pos_nonneg; lia).
    split; [apply Z.div_pos; lia|]. apply Z.div_lt_upper_bound; lia.
  - apply IH, Z.mod_pos_bound, Z.pow_pos_nonneg; lia.
Qed.

(** Formatting with an order-preserving digit map preserves the order. *)
Lemma be_digits_lt (f : Z → ascii) (b : Z) (n : nat) (u v : Z) :
  1 < b →
  (∀ d e, 0 ≤ d < e → e < b → Ascii.compare (f d) (f e) = Lt) →
  0 ≤ u < v → v < b ^ Z.of_nat n →
  str_lt (String.string_of_list_ascii (f <$> be_digits b n u))
         (String.string_of_list_ascii (f <$> be_digits b n v)).
Proof.
  intros Hb Hf. revert u v. induction n as [|n IH]; intros u v Huv Hv.
  { simpl in Hv. lia. }
  unfold str_lt in *. simpl.
  assert (Hp : 0 < b ^ Z.of_nat n) by (apply Z.pow_pos_nonneg; lia).
  rewrite Nat2Z.inj_succ, Z.pow_succ_r in Hv by lia.
  set (B := b ^ Z.of_nat n) in *.
  assert (Hle : u / B ≤ v / B) by (apply Z.div_le_mono; lia).
  assert (Hv' : v / B < b) by (apply Z.div_lt_upper_bound; lia).
  assert (0 ≤ u / B) by (apply Z.div_pos; lia).
  destruct (decide (u / B = v / B)) as [He|Hne].
  - rewrite He. unfold Ascii.compare at 1. rewrite N.compare_refl.
    pose proof (Z.div_mod u B). pose proof (Z.div_mod v B).
    apply IH; [|apply Z.mod_pos_bound; lia].
    pose proof (Z.mod_pos_bound u B). rewrite He in *. lia.
  - by rewrite Hf by lia.
Qed.

Lemma hex16_lt (u v : Z) : 0 ≤ u < v → v ≤ U64_MAX → str_lt (hex16 u) (hex16 v).
Proof.
  unfold U64_MAX. intros Huv Hv.
  apply be_digits_lt; [lia| |lia|change (16 ^ Z.of_nat 16) with (2 ^ 64); lia].
  intros d e Hd He. unfold Ascii.compare. apply N.compare_lt_iff.
  pose proof (byte_char_of (48 + d)). pose proof (byte_char_of (48 + e)).
  pose proof (byte_char_of (87 + d)). pose proof (byte_char_of (87 + e)).
  unfold byte, hex_char in *.
  destruct (Z.ltb_spec d 10), (Z.ltb_spec e 10); lia.
Qed.

(** For non-negative timestamps the complement reverses the order. *)
Lemma not_i64_nonneg (ts : Z) : 0 ≤ ts ≤ I64_MAX → not_i64_as_u64 ts = U64_MAX - ts.
Proof.
  unfold I64_MAX, U64_MAX, not_i64_as_u64, wrap64. intros H.
  unfold Z.lnot. replace (Z.pred (- ts)) with (2 ^ 64 - 1 - ts + (-1) * 2 ^ 64) by lia.
  rewrite Z.mod_add by lia. apply Z.mod_small. lia.
Qed.

(** The first byte of a big-endian u64 with its top bit set is 0x80 or more. *)
Lemma be_bytes_head (z : Z) :
  0 ≤ z ≤ U64_MAX →
  ∃ c s, u64_to_be_bytes z = String c s ∧ byte c = z / 2 ^ 56.
Proof.
  intros Hz. unfold U64_MAX in Hz. unfold u64_to_be_bytes. simpl.
  eexists _, _. split; [reflexivity|].
  change (256 ^ 7%Z) with (2 ^ 56). apply byte_char_of.
  split; [apply Z.div_pos; lia|]. apply Z.div_lt_upper_bound; lia.
Qed.

(** ** UTF-8 *)

Definition in_range (lo hi : Z) (c : ascii) : bool := (lo <=? byte c) && (byte c <=? hi).
Definition is_cont : ascii → bool := in_range 128 191.

(** The well-formedness test of [std::str::from_utf8] (Unicode, table 3-7). *)
Fixpoint utf8_valid (s : string) : bool :=
  match s with
  | EmptyString => true
  | String a s1 =>
      if byte a <? 128 then utf8_valid s1
      else match s1 with
           | EmptyString => false
           | String b s2 =>
               if in_range 194 223 a then is_cont b && utf8_valid s2
               else match s2 with
                    | EmptyString => false
                    | String c s3 =>
                        if in_range 224 239 a then
                          (if byte a =? 224 then in_range 160 191 b
                           else if byte a =? 237 then in_range 128 159 b
                           else is_cont b) && is_cont c && utf8_valid s3
                        else match s3 with
                             | EmptyString => false
                             | String d s4 =>
                                 in_range 240 244 a &&
                                 (if byte a =? 240 then in_range 144 191 b
                                  else if byte a =? 244 then in_range 128 143 b
                                  else is_cont b)
                                 && is_cont c && is_cont d && utf8_valid s4
                             end
                    end
           end
  end.

(** The ASCII strings are well formed. *)
Definition is_ascii_str (s : string) : bool :=
  forallb (λ c, byte c <? 128) (String.list_ascii_of_string s).
Lemma utf8_ascii_app (a s : string) :
  is_ascii_str a = true → utf8_valid (a +:+ s) = utf8_valid s.
Proof.
  unfold is_ascii_str. induction a as [|c a IH]; simpl; [done|].
  intros [Hc Ha]%andb_true_iff. rewrite Hc. by apply IH.
Qed.

Section Utf8Extend.
(** A well-formed string followed by [t] is well formed iff [t] is. *)
Lemma utf8_app (a t : string) :
  utf8_valid a = true → utf8_valid (a +:+ t) = utf8_valid t.
Proof.
  remember (String.length a) as n eqn:Hn. revert a Hn.
  induction n as [n IH] using lt_wf_ind. intros [|c0 a] -> Ha; [done|].
  simpl in *. destruct (byte c0 <? 128); [apply (IH (String.length a)); [simpl; lia|done|done]|].
  destruct a as [|c1 a]; simpl in *; [done|].
  destruct (in_range 194 223 c0).
  { apply andb_true_iff in Ha as [-> Ha]. apply (IH (String.length a)); [simpl; lia|done|done]. }
  destruct a as [|c2 a]; simpl in *; [done|].
  destruct (in_range 224 239 c0).
  { apply andb_true_iff in Ha as [[H1 H2]%andb_true_iff Ha]. rewrite H1, H2.
    apply (IH (String.length a)); [simpl; lia|done|done]. }
  destruct a as [|c3 a]; simpl in *; [done|].
  rewrite !andb_true_iff in Ha. destruct Ha as [[[[H1 H2] H3] H4] Ha].
  rewrite H1, H2, H3, H4. simpl. apply (IH (String.length a)); [simpl; lia|done|done].
Qed.
End Utf8Extend.

(** [chars().count()]: the bytes that are not continuation bytes. *)
Definition char_count (s : string) : Z :=
  Z.of_nat (length (List.filter (λ c, negb (is_cont c)) (String.list_ascii_of_string s))).

(** ** Character classes *)

Definition is_ascii_digit (c : ascii) : bool := in_range 48 57 c.
Definition is_ascii_alphanumeric (c : ascii) : bool :=
  in_range 48 57 c || in_range 65 90 c || in_range 97 122 c.
Definition to_ascii_lowercase_char (c : ascii) : ascii :=
  if in_range 65 90 c then char_of (byte c + 32) else c.
Fixpoint string_map (f : ascii → ascii) (s : string) : string :=
  match s with EmptyString => EmptyString | String c s' => String (f c) (string_map f s') end.
Definition to_ascii_lowercase : string → string := string_map to_ascii_lowercase_char.
Fixpoint string_forallb (p : ascii → bool) (s : string) : bool :=
  match s with EmptyString => true | String c s' => p c && string_forallb p s' end.
Definition string_existsb (p : ascii → bool) (s : string) : bool :=
  negb (string_forallb (λ c, negb (p c)) s).

(** ** [str::trim]: the code points with the White_Space property *)

Definition ws1 (a : ascii) : bool := in_range 9 13 a || (byte a =? 32).
Definition ws2 (a b : ascii) : bool :=
  (byte a =? 194) && ((byte b =? 133) || (byte b =? 160)).
Definition ws3 (a b c : ascii) : bool :=
  ((byte a =? 225) && (byte b =? 154) && (byte c =? 128))
  || ((byte a =? 226) && (byte b =? 128)
      && (in_range 128 138 c || (byte c =? 168) || (byte c =? 169) || (byte c =? 175)))
  || ((byte a =? 226) && (byte b =? 129) && (byte c =? 159))
  || ((byte a =? 227) && (byte b =? 128) && (byte c =? 128)).

(** Drop leading white space; [flip] reads the bytes of a character backwards. *)
Fixpoint trim_dir (flip : bool) (s : string) : string :=
  match s with
  | EmptyString => s
  | String a s1 =>
      if ws1 a then trim_dir flip s1
      else match s1 with
           | EmptyString => s
           | String b s2 =>
               if (if flip then ws2 b a else ws2 a b) then trim_dir flip s2
               else match s2 with
                    | EmptyString => s
                    | String c s3 =>
                        if (if flip then ws3 c b a else ws3 a b c)
                        then trim_dir flip s3 else s
                    end
           end
  end.
Definition trim_start (s : string) : string := trim_dir false s.
Definition trim_end (s : string) : string := String.rev (trim_dir true (String.rev s)).
Definition trim (s : string) : string := trim_end (trim_start s).

(** ** Decimal printing of integers *)

Definition digit_char (d : Z) : ascii := char_of (48 + d).
Fixpoint dec_digits (fuel : nat) (z : Z) (acc : string) : string :=
  match fuel with
  | O => acc
  | S f =>
      let acc' := String (digit_char (z mod 10)) acc in
      if z / 10 =? 0 then acc' else dec_digits f (z / 10) acc'
  end.
(** [Display] of a non-negative integer below [2^64] (at most 20 digits). *)
Definition show_u64 (z : Z) : string := dec_digits 20 z EmptyString.
Definition show_i64 (z : Z) : string :=
  if z <? 0 then String (char_of 45) (show_u64 (- z)) else show_u64 z.

(** ** [u8::from_str_radix(s, 16)] *)

Definition hex_val (c : ascii) : option Z :=
  if in_range 48 57 c then Some (byte c - 48)
  else if in_range 97 102 c then Some (byte c - 87)
  else if in_range 65 70 c then Some (byte c - 55)
  else None.
Fixpoint parse_hex (s : string) (acc : Z) : option Z :=
  match s with
  | EmptyString => Some acc
  | String c s' =>
      match hex_val c with
      | Some d => let acc' := acc * 16 + d in
                  if acc' <=? 255 then parse_hex s' acc' else None
      | None => None
      end
  end.
(** A single leading [+] is accepted, an empty digit string is not. *)
Definition u8_from_str_radix16 (s : string) : option Z :=
  match s with
  | EmptyString => None
  | String c s' =>
      if byte c =? 43 then match s' with EmptyString => None | _ => parse_hex s' 0 end
      else parse_hex s 0
  end.
(** Two lower-case hex digits per byte. *)
Fixpoint hex_pairs (s : string) : string :=
  match s with
  | EmptyString => EmptyString
  | String c r => String (hex_char (byte c / 16)) (String (hex_char (byte c mod 16)) (hex_pairs r))
  end.
