(* ===== verification/Errors.v ===== *)
(** * Error types of the storage layer and of the HTTP API

    [ApiError] (src/src/error.rs), [StorageError]
    (src/src/storage/encrypted_fs.rs) and [TxDbError]
    (src/src/storage/tx_database.rs) with their [Display] and their conversions
    into [ApiError].  The payload of a third-party error is its message. *)
From S2P Require Import Prelude.

Local Open Scope Z_scope.

(** ** [ApiError] *)

Record ApiError := mkApiError { status : Z; message : string }.
#[export] Instance ApiError_eq_dec : EqDecision ApiError.
Proof. solve_decision. Defined.

Module Api.
Definition bad_request (msg : string) : ApiError := mkApiError 400 msg.
Definition forbidden (msg : string) : ApiError := mkApiError 403 msg.
Definition not_found (msg : string) : ApiError := mkApiError 404 msg.
Definition conflict (msg : string) : ApiError := mkApiError 409 msg.
Definition unprocessable (msg : string) : ApiError := mkApiError 422 msg.
Definition internal (msg : string) : ApiError := mkApiError 500 msg.
Definition service_unavailable (msg : string) : ApiError := mkApiError 503 msg.
End Api.

(** ** [StorageError] *)

Inductive StorageError :=
| StIo (msg : string)
| StJson (msg : string)
| StNotFound (r : string)
| StAlreadyExists (r : string)
| StPermissionDenied (user_id resource : string).
#[export] Instance StorageError_eq_dec : EqDecision StorageError.
Proof. solve_decision. Defined.

Definition display_storage (e : StorageError) : string :=
  match e with
  | StIo m => "I/O error: " +:+ m
  | StJson m => "JSON error: " +:+ m
  | StNotFound r => "not found: " +:+ r
  | StAlreadyExists r => "already exists: " +:+ r
  | StPermissionDenied u r => "user " +:+ u +:+ " denied access to " +:+ r
  end.

Definition api_of_storage (e : StorageError) : ApiError :=
  match e with
  | StNotFound m => Api.not_found m
  | StAlreadyExists m => Api.conflict m
  | StPermissionDenied _ _ => Api.forbidden "you do not own this resource"
  | StIo _ | StJson _ => Api.internal "internal storage error"
  end.

(** ** [TxDbError] *)

Inductive TxDbError :=
| DbRedb (msg : string)
| DbDatabase (msg : string)
| DbTableError (msg : string)
| DbStorageError (msg : string)
| DbTransactionError (msg : string)
| DbCommitError (msg : string)
| DbJson (msg : string)
| DbInvalidCursor
| DbDuplicateWallet (wallet_id : string).
#[export] Instance TxDbError_eq_dec : EqDecision TxDbError.
Proof. solve_decision. Defined.

Definition display_txdb (e : TxDbError) : string :=
  match e with
  | DbRedb m => "redb: " +:+ m
  | DbDatabase m => "database: " +:+ m
  | DbTableError m => "table: " +:+ m
  | DbStorageError m => "storage: " +:+ m
  | DbTransactionError m => "transaction: " +:+ m
  | DbCommitError m => "commit: " +:+ m
  | DbJson m => "json: " +:+ m
  | DbInvalidCursor => "invalid pagination cursor"
  | DbDuplicateWallet id => "user already has wallet: " +:+ id
  end.

Definition api_of_txdb (e : TxDbError) : ApiError :=
  match e with
  | DbInvalidCursor => Api.bad_request "invalid pagination cursor"
  | DbDuplicateWallet id => Api.bad_request ("user already has a wallet: " +:+ id)
  | _ => Api.internal "internal database error"
  end.

(** The errors the redb crate itself can raise. *)
Definition is_redb_error (e : TxDbError) : bool :=
  match e with
  | DbRedb _ | DbDatabase _ | DbTableError _ | DbStorageError _
  | DbTransactionError _ | DbCommitError _ => true
  | _ => false
  end.
