(* ===== verification/Types.v ===== *)
(** * The data the enclave stores

    Records and enums of src/src/storage (grants.rs, pool_metadata.rs, audit.rs,
    repository/transactions.rs, repository/wallets.rs) and of
    src/src/data_validation.rs, with decidable equality.  A [BTreeMap] is a
    [gmap]; a [DateTime<Utc>] is an instant in seconds and nanoseconds; a
    [serde_json::Value] is a [Json] tree. *)
From S2P Require Import Prelude.

Local Open Scope Z_scope.

(** ** Common data *)

Record DateTime := mkDateTime { dt_secs : Z; dt_nanos : Z }.
#[export] Instance DateTime_eq_dec : EqDecision DateTime.
Proof. solve_decision. Defined.
(** [DateTime::timestamp]. *)
Definition timestamp (d : DateTime) : Z := dt_secs d.
(** [a < b] on instants. *)
Definition dt_ltb (a b : DateTime) : bool :=
  (dt_secs a <? dt_secs b) || ((dt_secs a =? dt_secs b) && (dt_nanos a <? dt_nanos b)).

Inductive Json :=
| JNull
| JBool (b : bool)
| JNum (z : Z)
| JStr (s : string)
| JArr (l : list Json)
| JObj (l : list (string * Json)).

Section JsonInd.
Context (P : Json → Prop).
Context (Hnull : P JNull) (Hbool : ∀ b, P (JBool b)) (Hnum : ∀ z, P (JNum z))
  (Hstr : ∀ s, P (JStr s)) (Harr : ∀ l, Forall P l → P (JArr l))
  (Hobj : ∀ l, Forall (λ kv : string * Json, P kv.2) l → P (JObj l)).
(** Induction through the lists of a JSON tree. *)
Fixpoint Json_nested_ind (j : Json) : P j :=
  match j with
  | JNull => Hnull
  | JBool b => Hbool b
  | JNum z => Hnum z
  | JStr s => Hstr s
  | JArr l => Harr l
      ((fix go l := match l return Forall P l with
                    | [] => Forall_nil_2 _
                    | x :: l' => Forall_cons_2 _ _ _ (Json_nested_ind x) (go l')
                    end) l)
  | JObj l => Hobj l
      ((fix go l := match l return Forall (λ kv : string * Json, P kv.2) l with
                    | [] => Forall_nil_2 _
                    | kv :: l' => Forall_cons_2 _ _ _ (Json_nested_ind kv.2) (go l')
                    end) l)
  end.
End JsonInd.

(** A JSON tree as a tree of atoms, and back. *)
Fixpoint json_tree (j : Json) : gen_tree (bool + Z + string) :=
  match j with
  | JNull => GenNode 0 []
  | JBool b => GenLeaf (inl (inl b))
  | JNum z => GenLeaf (inl (inr z))
  | JStr s => GenLeaf (inr s)
  | JArr l => GenNode 1 (map json_tree l)
  | JObj l => GenNode 2 (map (λ kv, GenNode 3 [GenLeaf (inr kv.1); json_tree kv.2]) l)
  end.
Fixpoint tree_json (t : gen_tree (bool + Z + string)) : Json :=
  match t with
  | GenLeaf (inl (inl b)) => JBool b
  | GenLeaf (inl (inr z)) => JNum z
  | GenLeaf (inr s) => JStr s
  | GenNode 1 l => JArr (map tree_json l)
  | GenNode 2 l =>
      JObj (map (λ t, match t with
                      | GenNode _ [GenLeaf (inr k); v] => (k, tree_json v)
                      | _ => (EmptyString, JNull)
                      end) l)
  | GenNode _ _ => JNull
  end.
Lemma tree_json_tree (j : Json) : tree_json (json_tree j) = j.
Proof.
  induction j as [| | | |l IH|l IH] using Json_nested_ind; simpl; try done; f_equal;
    induction IH as [|x l Hx _ IHl]; simpl; [done| |done|];
    [by rewrite Hx, IHl|rewrite Hx, IHl; by destruct x].
Qed.
#[export] Instance Json_eq_dec : EqDecision Json.
Proof.
  refine (λ x y, cast_if (decide (json_tree x = json_tree y))); [|by intros ->].
  by rewrite <-(tree_json_tree x), <-(tree_json_tree y), e.
Defined.
#[export] Instance Json_countable : Countable Json :=
  inj_countable' json_tree tree_json tree_json_tree.

(** ** Grants (storage/grants.rs) *)

Inductive GrantStatus := GActive | GRevoked.
#[export] Instance GrantStatus_eq_dec : EqDecision GrantStatus.
Proof. solve_decision. Defined.

Record GrantRecord := mkGrantRecord {
  g_pool_pda : string;
  g_analyst_id : string;
  g_drt_name : string;
  g_grant_pda : string;
  g_commitment_hex : string;
  g_owner_wallet_id : string;
  g_granted_at : Z;
  g_granted_sig : string;
  g_status : GrantStatus;
  g_revoked_at : option Z;
  g_revoked_sig : option string;
}.
#[export] Instance GrantRecord_eq_dec : EqDecision GrantRecord.
Proof. solve_decision. Defined.

(** ** Transactions (storage/repository/transactions.rs) *)

Inductive TokenType := Native | SplToken (mint : string).
#[export] Instance TokenType_eq_dec : EqDecision TokenType.
Proof. solve_decision. Defined.
Inductive TxStatus := TxPending | TxConfirmed | TxFailed.
#[export] Instance TxStatus_eq_dec : EqDecision TxStatus.
Proof. solve_decision. Defined.

Record StoredTransaction := mkStoredTransaction {
  tx_signature : string;
  tx_wallet_id : string;
  tx_counterparty_wallet_id : option string;
  tx_from : string;
  tx_to : string;
  tx_amount : string;
  tx_amount_lamports : option Z;
  tx_token : TokenType;
  tx_network : string;
  tx_status : TxStatus;
  tx_slot : option Z;
  tx_fee_lamports : option Z;
  tx_explorer_url : string;
  tx_created_at : DateTime;
  tx_updated_at : DateTime;
}.
#[export] Instance StoredTransaction_eq_dec : EqDecision StoredTransaction.
Proof. solve_decision. Defined.

(** ** Wallets (storage/repository/wallets.rs) *)

Inductive WalletStatus := WActive | WSuspended | WDeleted.
#[export] Instance WalletStatus_eq_dec : EqDecision WalletStatus.
Proof. solve_decision. Defined.

Record WalletMetadata := mkWalletMetadata {
  w_wallet_id : string;
  w_owner_user_id : string;
  w_public_address : string;
  w_created_at : DateTime;
  w_status : WalletStatus;
  w_label : option string;
}.
#[export] Instance WalletMetadata_eq_dec : EqDecision WalletMetadata.
Proof. solve_decision. Defined.

(** ** Pools (storage/pool_metadata.rs, data_validation.rs) *)

Inductive ValidationMode := VNone | VHeadersOnly | VStrict.
#[export] Instance ValidationMode_eq_dec : EqDecision ValidationMode.
Proof. solve_decision. Defined.
Inductive PoolKind := Malta | IobErp.
#[export] Instance PoolKind_eq_dec : EqDecision PoolKind.
Proof. solve_decision. Defined.
Inductive PoolState := NeedsInit | Ready.
#[export] Instance PoolState_eq_dec : EqDecision PoolState.
Proof. solve_decision. Defined.

Record DrtMetadata := mkDrtMetadata {
  d_right_id_hex : string;
  d_mint : string;
  d_supply : Z;
  d_code_repo_url : string;
  d_code_hash_hex : string;
}.
#[export] Instance DrtMetadata_eq_dec : EqDecision DrtMetadata.
Proof. solve_decision. Defined.

Record PoolMetadata := mkPoolMetadata {
  p_pool_pda : string;
  p_pool_name : string;
  p_kind : PoolKind;
  p_pool_uuid_hex : string;
  p_drts : gmap string DrtMetadata;
  p_owner_wallet_id : string;
  p_owner_pubkey : option string;
  p_schema_id : string;
  p_validation_mode : ValidationMode;
  p_state : PoolState;
  p_created_onchain_at : DateTime;
  p_initialized_at : option DateTime;
  p_last_issue_at : option DateTime;
  p_total_credentials : Z;
  p_revoked_count : Z;
}.
#[export] Instance PoolMetadata_eq_dec : EqDecision PoolMetadata.
Proof. solve_decision. Defined.

(** ** Audit events (storage/audit.rs) *)

Inductive AuditEventType :=
| WalletCreated | WalletDeleted | WalletAccessed | TransactionSigned
| TransactionBroadcast | PermissionDenied | AdminAccess
| PoolCreated | PoolClosed | DatasetInitialized | CredentialIssued
| CredentialIssuanceFailed | CredentialRevoked | RoleAssigned
| DrtPurchased | DrtRedeemed | SchemaUploaded
| RightGranted | RightRevoked
| DrtExecuted.
#[export] Instance AuditEventType_eq_dec : EqDecision AuditEventType.
Proof. solve_decision. Defined.

Record AuditEvent := mkAuditEvent {
  a_event_id : string;
  a_timestamp : DateTime;
  a_event_type : AuditEventType;
  a_user_id : option string;
  a_resource_type : option string;
  a_resource_id : option string;
  a_details : option Json;
  a_success : bool;
  a_hmac : option string;
  a_correlation_id : option string;
  a_pool_pda : option string;
}.
#[export] Instance AuditEvent_eq_dec : EqDecision AuditEvent.
Proof. solve_decision. Defined.
