(* ===== verification/Interfaces.v ===== *)
(** * Interfaces of the third-party crates

    The sources call [redb] (an embedded ordered key-value store with ACID
    transactions) and [serde_json].  Their code is not part of the repository,
    so the development is parametric in it: each crate is a class of operations
    and a class of the laws that its documentation promises.  The models of the
    components are proved against these classes; [Instances.v] shows that they
    can be implemented. *)
From S2P Require Import Prelude.
From S2P Require Import RustStr.
From S2P Require Import RustFmt.
From S2P Require Import Errors.

(** ** redb tables

    All keys and values of the sources are byte strings ([&str] or [&[u8]]). *)
Class RedbTable (T : Type) := {
  t_empty : T;
  t_get : T → string → option string;
  t_insert : string → string → T → T;
  t_remove : string → T → T;
  (** [table.iter()], in key order *)
  t_iter : T → list (string * string);
  (** [table.range(lo..)] and [table.range(lo..hi)] *)
  t_range_from : string → T → list (string * string);
  t_range : string → string → T → list (string * string);
}.

Definition key_lt (x y : string * string) : Prop := str_lt x.1 y.1.

Class RedbTableLaws (T : Type) `{RedbTable T} := {
  t_get_empty k : t_get t_empty k = None;
  t_get_insert k v t j :
    t_get (t_insert k v t) j = if decide (k = j) then Some v else t_get t j;
  t_get_remove k t j :
    t_get (t_remove k t) j = if decide (k = j) then None else t_get t j;
  t_iter_get t k v : (k, v) ∈ t_iter t ↔ t_get t k = Some v;
  t_iter_sorted t : StronglySorted key_lt (t_iter t);
  t_range_from_spec lo t :
    t_range_from lo t = List.filter (λ e, str_leb lo e.1) (t_iter t);
  t_range_spec lo hi t :
    t_range lo hi t = List.filter (λ e, str_leb lo e.1 && str_ltb e.1 hi) (t_iter t);
}.

(** ** redb transactions

    [S] is the committed content of the database file.  An environment decides
    which of the I/O steps of a transaction fail.  A write transaction whose
    body or commit fails is dropped and leaves the database as it was. *)
Class RedbTxn (S : Type) := {
  renv : Type;
  reliable : renv → Prop;
  run_write {A} : renv → act S TxDbError A → act S TxDbError A;
  run_read {A} : renv → (S → result TxDbError A) → S → result TxDbError A;
}.
#[global] Arguments renv S {_}.

Class RedbTxnLaws (S : Type) `{RedbTxn S} := {
  run_write_ok {A} env (m : act S TxDbError A) s a s' :
    run_write env m s = (Ok a, s') → m s = (Ok a, s');
  run_write_err {A} env (m : act S TxDbError A) s e s' :
    run_write env m s = (Err e, s') →
    s' = s ∧ (is_redb_error e = true ∨ ∃ s'', m s = (Err e, s''));
  run_write_reliable {A} env (m : act S TxDbError A) s :
    reliable env →
    run_write env m s =
      match m s with (Ok a, s') => (Ok a, s') | (Err e, _) => (Err e, s) end;
  run_read_ok {A} env (f : S → result TxDbError A) s a :
    run_read env f s = Ok a → f s = Ok a;
  run_read_err {A} env (f : S → result TxDbError A) s e :
    run_read env f s = Err e → is_redb_error e = true ∨ f s = Err e;
  run_read_reliable {A} env (f : S → result TxDbError A) s :
    reliable env → run_read env f s = f s;
}.

(** ** serde_json

    [to_vec] (also [to_string]), [to_vec_pretty] and [from_slice] (also
    [from_str]) of a type that derives [Serialize] and [Deserialize]:
    serialisation of such a type does not fail, deserialisation reads it back,
    and the compact form is UTF-8 text without control characters (they are
    escaped in strings and the compact form has no other white space). *)
Class Serde (A : Type) := {
  to_vec : A → result string string;
  to_vec_pretty : A → result string string;
  from_slice : string → result string A;
}.
Class SerdeLaws (A : Type) `{Serde A} := {
  to_vec_total (a : A) : ∃ b, to_vec a = Ok b;
  from_to (a : A) (b : string) : to_vec a = Ok b → from_slice b = Ok a;
  to_vec_pretty_total (a : A) : ∃ b, to_vec_pretty a = Ok b;
  from_to_pretty (a : A) (b : string) : to_vec_pretty a = Ok b → from_slice b = Ok a;
  to_vec_text (a : A) (b : string) :
    to_vec a = Ok b → utf8_valid b = true ∧ string_forallb (λ c, (32 <=? byte c)%Z) b = true;
  to_vec_pretty_text (a : A) (b : string) : to_vec_pretty a = Ok b → utf8_valid b = true;
}.

(** ** Consequences *)

Section TableFacts.
Context {T : Type} `{RedbTableLaws T}.

Lemma t_get_insert_eq k v (t : T) : t_get (t_insert k v t) k = Some v.
Proof. by rewrite t_get_insert, decide_True. Qed.
Lemma t_get_insert_ne k v (t : T) j : k ≠ j → t_get (t_insert k v t) j = t_get t j.
Proof. intros. by rewrite t_get_insert, decide_False. Qed.
Lemma t_get_remove_eq k (t : T) : t_get (t_remove k t) k = None.
Proof. by rewrite t_get_remove, decide_True. Qed.
Lemma t_get_remove_ne k (t : T) j : k ≠ j → t_get (t_remove k t) j = t_get t j.
Proof. intros. by rewrite t_get_remove, decide_False. Qed.

(** The entries of a table whose key has a given prefix, in key order. *)
Definition prefixed (p : string) (t : T) : list (string * string) :=
  List.filter (λ e, starts_with p e.1) (t_iter t).

Lemma elem_of_prefixed p (t : T) k v :
  (k, v) ∈ prefixed p t ↔ starts_with p k = true ∧ t_get t k = Some v.
Proof.
  unfold prefixed. rewrite list_elem_of_In, filter_In, <-list_elem_of_In, t_iter_get.
  simpl. tauto.
Qed.
Lemma prefixed_sorted p (t : T) : StronglySorted key_lt (prefixed p t).
Proof. apply StronglySorted_filter, t_iter_sorted. Qed.

(** Scanning [range(p..)] until the prefix is left visits exactly the entries
    with the prefix. *)
Lemma prefix_scan p (t : T) :
  take_while (λ e, starts_with p e.1) (t_range_from p t) = prefixed p t.
Proof.
  rewrite t_range_from_spec. unfold prefixed.
  rewrite take_while_filter; [apply filter_filter_sub|].
  - intros [k v]. simpl. rewrite starts_with_spec, str_leb_le.
    intros [r ->]. apply le_prefix.
  - assert (Hs : StronglySorted key_lt
      (List.filter (λ e, str_leb p e.1) (t_iter t)))
      by apply StronglySorted_filter, t_iter_sorted.
    assert (Hp : Forall (λ e : string * string, String.le p e.1)
      (List.filter (λ e, str_leb p e.1) (t_iter t))).
    { apply Forall_forall. intros e. rewrite list_elem_of_In, filter_In.
      intros [_ ?]. by apply str_leb_le. }
    induction Hs as [|x l Hs IH Hx]; constructor;
      apply Forall_cons in Hp as [Hpx Hpl]; [by apply IH|].
    eapply Forall_impl; [exact Hx|]. intros y Hxy.
    apply prefix_interval; [done|by apply str_lt_le].
Qed.
End TableFacts.

Section TxnFacts.
Context {S : Type} `{RedbTxnLaws S}.

Lemma run_write_preserves {A} (I : S → Prop) env (m : act S TxDbError A) :
  (∀ s a s', I s → m s = (Ok a, s') → I s') → preserves I (run_write env m).
Proof.
  intros Hm s Hs. destruct (run_write env m s) as [[a|e] s'] eqn:Hr; simpl.
  - apply run_write_ok in Hr. eauto.
  - by apply run_write_err in Hr as [-> _].
Qed.
(** A transaction whose body answers [a] either does so or is rolled back. *)
Lemma run_write_cases {A} env (m : act S TxDbError A) db a db' :
  m db = (Ok a, db') →
  run_write env m db = (Ok a, db') ∨
  ∃ e, ¬ reliable env ∧ run_write env m db = (Err e, db).
Proof.
  intros Hm. destruct (run_write env m db) as [[b|e] db''] eqn:Hr.
  - apply run_write_ok in Hr. left. congruence.
  - right. exists e. split; [|by apply run_write_err in Hr as [-> _]].
    intros Hrel. rewrite run_write_reliable, Hm in Hr by done. done.
Qed.
End TxnFacts.

Section SerdeFacts.
Context {A : Type} `{SerdeLaws A}.

Lemma to_vec_inj (a b : A) s : to_vec a = Ok s → to_vec b = Ok s → a = b.
Proof. intros Ha%from_to Hb%from_to. congruence. Qed.
End SerdeFacts.
