(* ===== verification/TxDatabase.v ===== *)
(** * The embedded transaction database (src/src/storage/tx_database.rs)

    The fifteen redb tables and every operation on them.  The content of the
    database is a table per [TableDefinition]; an operation is an [act] on it
    that runs one write transaction ([run_write]) or reads a snapshot
    ([run_read]), with the same order of serialisation, lookups, insertions and
    early returns as the source.  [Utc::now()] is an argument [now] in seconds. *)
From S2P Require Import Prelude.
From S2P Require Import RustStr.
From S2P Require Import RustFmt.
From S2P Require Import Errors.
From S2P Require Import Types.
From S2P Require Import Interfaces.

Local Open Scope Z_scope.

(** ** Tables *)

Inductive TableDefinition :=
| TRANSACTIONS | WALLET_TX_INDEX | ADDRESS_WALLET_MAP | INDEXER_STATE | NONCES
| WALLET_BY_OWNER
| POOL_METADATA | POOL_BY_OWNER | ISSUANCE_RECORDS | REVOCATIONS
| AUDIT_EVENTS | AUDIT_BY_RESOURCE | AUDIT_BY_DATE
| GRANTS_BY_POOL | GRANTS_BY_ANALYST.
#[export] Instance TableDefinition_eq_dec : EqDecision TableDefinition.
Proof. solve_decision. Defined.

(** The committed content of the database. *)
Definition Db (T : Type) : Type := TableDefinition → T.

Definition set_table {T} (n : TableDefinition) (t : T) (db : Db T) : Db T :=
  λ m, if decide (n = m) then t else db m.

Lemma set_table_eq {T} n (t : T) db : set_table n t db n = t.
Proof. unfold set_table. by rewrite decide_True. Qed.
Lemma set_table_ne {T} n m (t : T) db : n ≠ m → set_table n t db m = db m.
Proof. intros. unfold set_table. by rewrite decide_False. Qed.
#[export] Hint Rewrite @set_table_eq : rsdk_rw.

(** ** Third-party code the cursors and the date index use *)

(** [base64::URL_SAFE_NO_PAD], [Hmac<Sha256>] keyed with the enclave's cursor
    key, [hex::encode] and chrono's [format("%Y-%m-%d")]. *)
Class DbCrates := {
  b64_encode : string → string;
  b64_decode : string → option string;
  cursor_hmac : string → string;
  hex_encode : string → string;
  fmt_ymd : DateTime → string;
}.
Class DbCratesLaws `{DbCrates} := {
  b64_round (s : string) : b64_decode (b64_encode s) = Some s;
  hex_no_dot (s : string) : no_char "." (hex_encode s) = true;
  hex_inj (s t : string) : hex_encode s = hex_encode t → s = t;
  ymd_no_bar (d : DateTime) : no_char "|" (fmt_ymd d) = true;
  ymd_no_slash (d : DateTime) : no_char "/" (fmt_ymd d) = true;
}.

(** ** Index keys *)

Definition bar : string := "|".

Definition make_index_key (address : string) (ts : Z) (signature : string) : string :=
  address +:+ bar +:+ u64_to_be_bytes (not_i64_as_u64 ts) +:+ bar +:+ signature.

Definition make_pool_ts_key (pre : string) (ts : Z) (suffix : string) : string :=
  let inverted_ts := not_i64_as_u64 ts in
  pre +:+ bar +:+ hex16 inverted_ts +:+ bar +:+ suffix.

(** [format!("{a}|{b}")] and [format!("{a}|{b}|{c}")]. *)
Definition key2 (a b : string) : string := a +:+ bar +:+ b.
Definition key3 (a b c : string) : string := a +:+ bar +:+ b +:+ bar +:+ c.

(** ** Little-endian [i64] stamps of the nonce table *)

Fixpoint le_bytes (n : nat) (z : Z) : string :=
  match n with
  | O => EmptyString
  | S n => String (char_of (z mod 256)) (le_bytes n (z / 256))
  end.
Definition i64_to_le_bytes (z : Z) : string := le_bytes 8 z.
Fixpoint le_value (s : string) : Z :=
  match s with
  | EmptyString => 0
  | String c s' => byte c + 256 * le_value s'
  end.
(** [value.try_into().unwrap_or([0u8; 8])], then [i64::from_le_bytes]. *)
Definition i64_from_le_bytes (s : string) : Z :=
  if (String.length s =? 8)%nat then
    let u := le_value s in if u <? 2 ^ 63 then u else u - 2 ^ 64
  else 0.
(** [a - b] on [i64] in a release build. *)
Definition i64_sub (a b : Z) : Z :=
  let w := wrap64 (a - b) in if w <? 2 ^ 63 then w else w - 2 ^ 64.

(** ** Signed cursors *)

Section Cursors.
Context `{DbCrates}.

Definition sign_cursor (raw : string) : string :=
  b64_encode raw +:+ "." +:+ hex_encode (cursor_hmac raw).

Definition verify_cursor (token : string) : option string :=
  '(encoded, tag) ← rsplit_once "." token;
  raw_bytes ← b64_decode encoded;
  raw ← (if utf8_valid raw_bytes then Some raw_bytes else None);
  let expected := hex_encode (cursor_hmac raw) in
  if decide (expected = tag) then Some raw else None.
End Cursors.

(** ** Operations *)

Section Operations.
Context {T : Type} `{RedbTable T, RedbTxn (Db T), DbCrates}.
Context `{Serde StoredTransaction, Serde PoolMetadata, Serde AuditEvent,
          Serde GrantRecord, Serde Json}.

Abbreviation op := (act (Db T) TxDbError).

(** [table.insert(k, v)] and [table.remove(k)] inside a write transaction. *)
Definition tbl_insert (n : TableDefinition) (k v : string) : op unit :=
  updating (λ db, set_table n (t_insert k v (db n)) db).
Definition tbl_remove (n : TableDefinition) (k : string) : op unit :=
  updating (λ db, set_table n (t_remove k (db n)) db).
Definition tbl_get (n : TableDefinition) (k : string) : op (option string) :=
  reading (λ db, Ok (t_get (db n) k)).

Definition json_err {A} (r : result string A) : result TxDbError A :=
  map_err DbJson r.

(** [TxDatabase::open] on a fresh file. *)
Definition open_fresh : Db T := λ _, t_empty.

(** *** Transactions *)

Fixpoint insert_directions (tx : StoredTransaction)
    (directions : list (string * string)) : op unit :=
  match directions with
  | [] => mret ()
  | (address, direction) :: rest =>
      let key := make_index_key address (timestamp (tx_created_at tx)) (tx_signature tx) in
      tbl_insert WALLET_TX_INDEX key direction;; insert_directions tx rest
  end.

Definition upsert_transaction (env : renv (Db T)) (tx : StoredTransaction)
    (directions : list (string * string)) : op unit :=
  json_bytes ← lift (json_err (to_vec tx));
  run_write env
    (tbl_insert TRANSACTIONS (tx_signature tx) json_bytes;;
     insert_directions tx directions).

Definition get_transaction (env : renv (Db T)) (signature : string) :
    op (option StoredTransaction) :=
  reading (run_read env (λ db,
    match t_get (db TRANSACTIONS) signature with
    | Some bytes => tx ← json_err (from_slice bytes); Ok (Some tx)
    | None => Ok None
    end)).

(** The loop of [list_by_wallet] over the entries of [idx.range(start..)]. *)
Fixpoint list_by_wallet_loop (tx_table : T) (pre : string) (limit : nat)
    (entries : list (string * string)) (results : list (StoredTransaction * string)) :
    list (StoredTransaction * string) * option string :=
  match entries with
  | [] => (results, None)
  | (key_bytes, val) :: rest =>
      let key_str := if utf8_valid key_bytes then key_bytes else "" in
      if negb (starts_with pre key_str) then (results, None)
      else if (limit <=? length results)%nat then (results, Some (sign_cursor key_str))
      else
        let direction := val in
        let sig := rsplit_next "|" key_str in
        let results' :=
          match t_get tx_table sig with
          | Some bytes =>
              match from_slice bytes with
              | Ok tx => results ++ [(tx, direction)]
              | Err _ => results
              end
          | None => results
          end in
        list_by_wallet_loop tx_table pre limit rest results'
  end.

Definition list_by_wallet (env : renv (Db T)) (address : string)
    (cursor : option string) (limit : nat) :
    op (list (StoredTransaction * string) * option string) :=
  reading (run_read env (λ db,
    let idx := db WALLET_TX_INDEX in
    let tx_table := db TRANSACTIONS in
    let pre := address +:+ bar in
    start ← match cursor with
            | Some c => ok_or (verify_cursor c) DbInvalidCursor
            | None => Ok pre
            end;
    Ok (list_by_wallet_loop tx_table pre limit (t_range_from start idx) []))).

Definition update_status (env : renv (Db T)) (now : DateTime) (signature : string)
    (st : TxStatus) (slot fee : option Z) : op unit :=
  run_write env
    (existing_bytes ← tbl_get TRANSACTIONS signature;
     match existing_bytes with
     | Some bytes =>
         tx ← lift (json_err (from_slice (A:=StoredTransaction) bytes));
         let tx' := mkStoredTransaction (tx_signature tx) (tx_wallet_id tx)
           (tx_counterparty_wallet_id tx) (tx_from tx) (tx_to tx) (tx_amount tx)
           (tx_amount_lamports tx) (tx_token tx) (tx_network tx) st
           (match slot with Some s => Some s | None => tx_slot tx end)
           (match fee with Some f => Some f | None => tx_fee_lamports tx end)
           (tx_explorer_url tx) (tx_created_at tx) now in
         json_bytes ← lift (json_err (to_vec tx'));
         tbl_insert TRANSACTIONS signature json_bytes
     | None => mret ()
     end).

(** *** Addresses and the indexer checkpoint *)

Definition register_address (env : renv (Db T)) (address wallet_id : string) : op unit :=
  run_write env (tbl_insert ADDRESS_WALLET_MAP address wallet_id).
Definition get_wallet_id_for_address (env : renv (Db T)) (address : string) :
    op (option string) :=
  reading (run_read env (λ db, Ok (t_get (db ADDRESS_WALLET_MAP) address))).
Definition get_all_addresses (env : renv (Db T)) : op (list (string * string)) :=
  reading (run_read env (λ db, Ok (t_iter (db ADDRESS_WALLET_MAP)))).
Definition get_indexer_state (env : renv (Db T)) (key : string) : op (option string) :=
  reading (run_read env (λ db, Ok (t_get (db INDEXER_STATE) key))).
Definition set_indexer_state (env : renv (Db T)) (key value : string) : op unit :=
  run_write env (tbl_insert INDEXER_STATE key value).

(** *** Wallet owner index *)

Definition register_wallet_owner (env : renv (Db T)) (owner_user_id wallet_id : string) :
    op unit :=
  run_write env
    (existing ← tbl_get WALLET_BY_OWNER owner_user_id;
     match existing with
     | Some existing_id => fail (DbDuplicateWallet existing_id)
     | None => tbl_insert WALLET_BY_OWNER owner_user_id wallet_id
     end).
Definition get_wallet_id_by_owner (env : renv (Db T)) (owner_user_id : string) :
    op (option string) :=
  reading (run_read env (λ db, Ok (t_get (db WALLET_BY_OWNER) owner_user_id))).
Definition remove_wallet_owner (env : renv (Db T)) (owner_user_id : string) : op unit :=
  run_write env (tbl_remove WALLET_BY_OWNER owner_user_id).

(** *** Pool metadata *)

Definition upsert_pool_meta (env : renv (Db T)) (meta : PoolMetadata) : op unit :=
  json_bytes ← lift (json_err (to_vec meta));
  run_write env
    (tbl_insert POOL_METADATA (p_pool_pda meta) json_bytes;;
     tbl_insert POOL_BY_OWNER (key2 (p_owner_wallet_id meta) (p_pool_pda meta)) "").

Definition get_pool_meta (env : renv (Db T)) (pool_pda : string) :
    op (option PoolMetadata) :=
  reading (run_read env (λ db,
    match t_get (db POOL_METADATA) pool_pda with
    | Some bytes => meta ← json_err (from_slice bytes); Ok (Some meta)
    | None => Ok None
    end)).

Definition list_all_pool_metas (env : renv (Db T)) : op (list PoolMetadata) :=
  reading (run_read env (λ db,
    Ok (filter_map (λ e, ok (from_slice (A:=PoolMetadata) e.2)) (t_iter (db POOL_METADATA))))).

Fixpoint list_pools_loop (meta_table : T) (pre : string)
    (entries : list (string * string)) (res : list PoolMetadata) : list PoolMetadata :=
  match entries with
  | [] => res
  | (key_str, _) :: rest =>
      if negb (starts_with pre key_str) then res
      else
        let res' :=
          match strip_prefix pre key_str with
          | Some pool_pda =>
              match t_get meta_table pool_pda with
              | Some bytes =>
                  match from_slice bytes with Ok meta => res ++ [meta] | Err _ => res end
              | None => res
              end
          | None => res
          end in
        list_pools_loop meta_table pre rest res'
  end.

Definition list_pools_by_owner (env : renv (Db T)) (owner_wallet_id : string) :
    op (list PoolMetadata) :=
  reading (run_read env (λ db,
    let pre := owner_wallet_id +:+ bar in
    Ok (list_pools_loop (db POOL_METADATA) pre
          (t_range_from pre (db POOL_BY_OWNER)) []))).

Definition delete_pool_meta (env_r env_w : renv (Db T)) (pool_pda : string) : op unit :=
  owner_wallet_id ← reading (run_read env_r (λ db,
    Ok (bytes ← t_get (db POOL_METADATA) pool_pda;
        p_owner_wallet_id <$> ok (from_slice bytes))));
  run_write env_w
    (tbl_remove POOL_METADATA pool_pda;;
     match owner_wallet_id with
     | Some owner => tbl_remove POOL_BY_OWNER (key2 owner pool_pda)
     | None => mret ()
     end).

(** *** Paginated prefix scans

    The four [list_*] operations with [limit] and [offset] run the same loop;
    [extract] is the body that turns an entry into a result. *)
Fixpoint page_loop {A} (pre : string) (limit offset : nat)
    (extract : string → string → option A)
    (entries : list (string * string)) (skipped : nat) (results : list A) : list A :=
  match entries with
  | [] => results
  | (key_str, val) :: rest =>
      if negb (starts_with pre key_str) then results
      else if (skipped <? offset)%nat then
        page_loop pre limit offset extract rest (S skipped) results
      else if (limit <=? length results)%nat then results
      else
        page_loop pre limit offset extract rest skipped
          (match extract key_str val with Some a => results ++ [a] | None => results end)
  end.

Fixpoint count_loop (pre : string) (entries : list (string * string)) (count : nat) : nat :=
  match entries with
  | [] => count
  | (key_str, _) :: rest =>
      if negb (starts_with pre key_str) then count else count_loop pre rest (S count)
  end.

Definition count_prefix (env : renv (Db T)) (n : TableDefinition) (x : string) : op nat :=
  reading (run_read env (λ db,
    let pre := x +:+ bar in Ok (count_loop pre (t_range_from pre (db n)) 0))).

(** *** Issuance records and revocations *)

Definition json_value (_ val : string) : option Json := ok (from_slice val).

Definition upsert_issuance_record (env : renv (Db T)) (pool_pda record_id : string)
    (ts : Z) (json_bytes : string) : op unit :=
  let key := make_pool_ts_key pool_pda ts record_id in
  run_write env (tbl_insert ISSUANCE_RECORDS key json_bytes).
Definition list_issuance_records (env : renv (Db T)) (pool_pda : string)
    (limit offset : nat) : op (list Json) :=
  reading (run_read env (λ db,
    let pre := pool_pda +:+ bar in
    Ok (page_loop pre limit offset json_value
          (t_range_from pre (db ISSUANCE_RECORDS)) 0 []))).
Definition count_issuance_records (env : renv (Db T)) (pool_pda : string) : op nat :=
  count_prefix env ISSUANCE_RECORDS pool_pda.

Definition upsert_revocation (env : renv (Db T)) (pool_pda credential_id json_bytes : string) :
    op unit :=
  let key := key2 pool_pda credential_id in
  run_write env (tbl_insert REVOCATIONS key json_bytes).
Definition list_revocations (env : renv (Db T)) (pool_pda : string)
    (limit offset : nat) : op (list Json) :=
  reading (run_read env (λ db,
    let pre := pool_pda +:+ bar in
    Ok (page_loop pre limit offset json_value
          (t_range_from pre (db REVOCATIONS)) 0 []))).
Definition count_revocations (env : renv (Db T)) (pool_pda : string) : op nat :=
  count_prefix env REVOCATIONS pool_pda.

(** *** Audit trail *)

Definition log_audit_event (env : renv (Db T)) (event : AuditEvent) : op unit :=
  json_bytes ← lift (json_err (to_vec event));
  run_write env
    (tbl_insert AUDIT_EVENTS (a_event_id event) json_bytes;;
     match a_resource_id event with
     | Some resource_id =>
         let key := make_pool_ts_key resource_id (timestamp (a_timestamp event))
                      (a_event_id event) in
         tbl_insert AUDIT_BY_RESOURCE key ""
     | None => mret ()
     end;;
     let date := fmt_ymd (a_timestamp event) in
     tbl_insert AUDIT_BY_DATE (key2 date (a_event_id event)) "").

Definition event_of_id (events : T) (event_id : string) : option AuditEvent :=
  bytes ← t_get events event_id; ok (from_slice bytes).

Definition list_audit_by_resource (env : renv (Db T)) (resource_id : string)
    (limit offset : nat) : op (list AuditEvent) :=
  reading (run_read env (λ db,
    let pre := resource_id +:+ bar in
    Ok (page_loop pre limit offset
          (λ key_str _, event_of_id (db AUDIT_EVENTS) (rsplit_next "|" key_str))
          (t_range_from pre (db AUDIT_BY_RESOURCE)) 0 []))).
Definition count_audit_by_resource (env : renv (Db T)) (resource_id : string) : op nat :=
  count_prefix env AUDIT_BY_RESOURCE resource_id.

Definition list_audit_by_date (env : renv (Db T)) (date : string)
    (limit offset : nat) : op (list AuditEvent) :=
  reading (run_read env (λ db,
    let pre := date +:+ bar in
    Ok (page_loop pre limit offset
          (λ key_str _, event_id ← strip_prefix pre key_str;
                        event_of_id (db AUDIT_EVENTS) event_id)
          (t_range_from pre (db AUDIT_BY_DATE)) 0 []))).
Definition count_audit_by_date (env : renv (Db T)) (date : string) : op nat :=
  count_prefix env AUDIT_BY_DATE date.

(** *** Nonces *)

Definition record_nonce (env : renv (Db T)) (now : Z) (nonce : string) : op bool :=
  run_write env
    (existing ← tbl_get NONCES nonce;
     match existing with
     | Some _ => mret false
     | None => tbl_insert NONCES nonce (i64_to_le_bytes now);; mret true
     end).

Fixpoint remove_keys (n : TableDefinition) (keys : list string) (removed : nat) : op nat :=
  match keys with
  | [] => mret removed
  | k :: rest => tbl_remove n k;; remove_keys n rest (S removed)
  end.

Definition purge_expired_nonces (env : renv (Db T)) (now max_age_secs : Z) : op nat :=
  let cutoff := i64_sub now max_age_secs in
  run_write env
    (entries ← reading (λ db : Db T, Ok (t_iter (db NONCES)));
     remove_keys NONCES (List.filter (λ e, i64_from_le_bytes e.2 <? cutoff) entries).*1 0).

(** *** Grants *)

Definition upsert_grant (env : renv (Db T)) (rec : GrantRecord) : op unit :=
  let pool_key := key3 (g_pool_pda rec) (g_analyst_id rec) (g_drt_name rec) in
  let analyst_key := key3 (g_analyst_id rec) (g_pool_pda rec) (g_drt_name rec) in
  bytes ← lift (json_err (to_vec rec));
  run_write env
    (tbl_insert GRANTS_BY_POOL pool_key bytes;;
     match g_status rec with
     | GActive => tbl_insert GRANTS_BY_ANALYST analyst_key ""
     | GRevoked => tbl_remove GRANTS_BY_ANALYST analyst_key
     end).

Definition revoked_record (now : Z) (revoked_sig : string) (rec : GrantRecord) : GrantRecord :=
  mkGrantRecord (g_pool_pda rec) (g_analyst_id rec) (g_drt_name rec) (g_grant_pda rec)
    (g_commitment_hex rec) (g_owner_wallet_id rec) (g_granted_at rec) (g_granted_sig rec)
    GRevoked (Some now) (Some revoked_sig).

Definition revoke_grant_local (env : renv (Db T)) (now : Z)
    (pool_pda analyst_id drt_name revoked_sig : string) : op bool :=
  let pool_key := key3 pool_pda analyst_id drt_name in
  let analyst_key := key3 analyst_id pool_pda drt_name in
  run_write env
    (existing_bytes ← tbl_get GRANTS_BY_POOL pool_key;
     updated ← match existing_bytes with
               | Some bytes =>
                   rec ← lift (json_err (from_slice bytes));
                   new_bytes ← lift (json_err (to_vec (revoked_record now revoked_sig rec)));
                   tbl_insert GRANTS_BY_POOL pool_key new_bytes;; mret true
               | None => mret false
               end;
     tbl_remove GRANTS_BY_ANALYST analyst_key;;
     mret updated).

(** [for entry in range { out.push(f(entry)?) }], entries without a value skipped. *)
Fixpoint collect {A} (f : string * string → result TxDbError (option A))
    (entries : list (string * string)) : result TxDbError (list A) :=
  match entries with
  | [] => Ok []
  | e :: rest =>
      o ← f e;
      out ← collect f rest;
      Ok (match o with Some a => a :: out | None => out end)
  end.

(** The UTF-8 encoding of U+10FFFF. *)
Definition max_char : string :=
  String (char_of 244) (String (char_of 143) (String (char_of 191)
    (String (char_of 191) EmptyString))).

Definition list_pool_grants (env : renv (Db T)) (pool_pda : string) :
    op (list GrantRecord) :=
  reading (run_read env (λ db,
    let prefix_start := pool_pda +:+ bar in
    let prefix_end := pool_pda +:+ bar +:+ max_char in
    collect (λ e, rec ← json_err (from_slice e.2); Ok (Some rec))
      (t_range prefix_start prefix_end (db GRANTS_BY_POOL)))).

Definition list_grants_by_analyst (env : renv (Db T)) (analyst_id : string) :
    op (list GrantRecord) :=
  reading (run_read env (λ db,
    let prefix_start := analyst_id +:+ bar in
    let prefix_end := analyst_id +:+ bar +:+ max_char in
    collect (λ e,
        match splitn3 "|" e.1 with
        | Some (_, pool, drt) =>
            match t_get (db GRANTS_BY_POOL) (key3 pool analyst_id drt) with
            | Some v =>
                rec ← json_err (from_slice v);
                Ok (match g_status rec with GActive => Some rec | GRevoked => None end)
            | None => Ok None
            end
        | None => Ok None
        end)
      (t_range prefix_start prefix_end (db GRANTS_BY_ANALYST)))).

Definition is_grant_active (env : renv (Db T)) (analyst_id pool_pda drt_name : string) :
    op bool :=
  reading (run_read env (λ db,
    Ok (bool_decide (is_Some (t_get (db GRANTS_BY_ANALYST)
          (key3 analyst_id pool_pda drt_name)))))).
End Operations.
