(* ===== verification/Text.v ===== *)
(** * Text helpers of the endpoints

    [u64::from_str], [str::split], [char] search, the accessors of
    [serde_json::Value], and the crates that format times and fold case. *)
From S2P Require Import Prelude.
From S2P Require Import RustStr.
From S2P Require Import RustFmt.
From S2P Require Import Types.
From S2P Require Import Interfaces.

Local Open Scope Z_scope.
#[local] Arguments String.append : simpl nomatch.

(** ** [u64::from_str] *)

Fixpoint parse_digits (s : string) (acc : Z) : option Z :=
  match s with
  | EmptyString => Some acc
  | String c s' =>
      if in_range 48 57 c then
        let acc' := acc * 10 + (byte c - 48) in
        if acc' <=? U64_MAX then parse_digits s' acc' else None
      else None
  end.
(** One leading [+] is accepted; no digits are not. *)
Definition parse_u64 (s : string) : option Z :=
  match s with
  | EmptyString => None
  | String c s' =>
      if byte c =? 43 then match s' with EmptyString => None | _ => parse_digits s' 0 end
      else parse_digits s 0
  end.

(** ** [s.split(c)] *)

Fixpoint split_from (cur : string) (c : ascii) (s : string) : list string :=
  match s with
  | EmptyString => [cur]
  | String d s' => if bool_decide (d = c) then cur :: split_from "" c s'
                   else split_from (cur +:+ String d EmptyString) c s'
  end.
Definition split_char (c : ascii) (s : string) : list string := split_from "" c s.

(** ** [serde_json::Value] *)

(** [value.get(key)]: the map has no duplicates. *)
Definition json_get (key : string) (v : Json) : option Json :=
  match v with JObj l => snd <$> List.find (λ e, bool_decide (e.1 = key)) l | _ => None end.
Definition as_str (v : Json) : option string := match v with JStr s => Some s | _ => None end.
Definition as_u64 (v : Json) : option Z :=
  match v with JNum z => if (0 <=? z) && (z <=? U64_MAX) then Some z else None | _ => None end.
(** An [Option<String>] in [json!]. *)
Definition json_opt (o : option string) : Json := match o with Some s => JStr s | None => JNull end.
(** The fields of a serialised struct, with those skipped when [None]. *)
Definition skip_none (key : string) (o : option string) : list (string * Json) :=
  match o with Some s => [(key, JStr s)] | None => [] end.

(** [serde_json::from_value] of a type. *)
Class FromValue (A : Type) := { from_value : Json → result string A }.
(** The text of a value of [A] reads as the value [to_value a], and a type that
    is read from values reads it back. *)
Class ValueLaws (A : Type) (to_value : A → Json) `{Serde A, Serde Json} := {
  text_value (a : A) (b : string) : to_vec a = Ok b → from_slice b = Ok (to_value a);
}.
Class FromValueLaws (A : Type) (to_value : A → Json) `{FromValue A} := {
  from_to_value (a : A) : from_value (to_value a) = Ok a;
}.

(** ** Times and case *)

(** [chrono]: [to_rfc3339], [parse_from_rfc3339(..).with_timezone(&Utc)] and
    [DateTime::from_timestamp(t, 0)].
    [str::to_lowercase] is driven by the tables of Unicode. *)
Class TextCrates := {
  to_rfc3339 : DateTime → string;
  parse_from_rfc3339 : string → option DateTime;
  from_timestamp : Z → option DateTime;
  to_lowercase : string → string;
}.

(** ** Facts *)

Lemma json_get_head k v l : json_get k (JObj ((k, v) :: l)) = Some v.
Proof. simpl. by rewrite bool_decide_eq_true_2. Qed.

Lemma parse_digits_bound s acc z :
  0 ≤ acc ≤ U64_MAX → parse_digits s acc = Some z → is_u64 z.
Proof.
  revert acc. induction s as [|c s IH]; intros acc Ha Hp; simpl in Hp; [by simplify_eq|].
  unfold in_range in Hp.
  destruct (Z.leb_spec 48 (byte c)), (Z.leb_spec (byte c) 57); try done. cbn [andb] in Hp.
  destruct (Z.leb_spec (acc * 10 + (byte c - 48)) U64_MAX); [|done].
  eapply IH; [|exact Hp]. lia.
Qed.
(** What parses is in range. *)
Lemma parse_u64_bound s z : parse_u64 s = Some z → is_u64 z.
Proof.
  assert (Hz : 0 ≤ 0 ≤ U64_MAX) by done.
  destruct s as [|c s]; [done|]. unfold parse_u64. destruct (byte c =? 43).
  - destruct s; [done|]. by apply parse_digits_bound.
  - by apply parse_digits_bound.
Qed.

Lemma split_from_app cur c a s :
  no_char c a = true → split_from cur c (a +:+ String c s) = (cur +:+ a) :: split_from "" c s.
Proof.
  revert cur. induction a as [|d a IH]; intros cur Ha; simpl.
  - rewrite bool_decide_eq_true_2 by done. by rewrite append_nil_r.
  - simpl in Ha. apply andb_true_iff in Ha as [Hd%negb_true_iff Ha]. rewrite Hd, IH by done.
    by rewrite append_assoc.
Qed.
