(* ===== verification/Instances.v ===== *)
(** * Instances of the third-party interfaces

    A table over [gmap], transactions that fail when the environment says so,
    and a serialiser for every countable type: the laws of [Interfaces.v] hold
    of them, so the hypotheses of the theorems proved against those laws can be
    met, and concrete inputs can be run. *)
From S2P Require Import Prelude.
From S2P Require Import RustStr.
From S2P Require Import RustFmt.
From S2P Require Import Errors.
From S2P Require Import Interfaces.
From S2P Require Import Types.
From S2P Require Import TxDatabase.

(** ** Tables *)

Definition key_le (x y : string * string) : Prop := String.le x.1 y.1.
#[export] Instance key_le_dec : RelDecision key_le.
Proof. intros x y. unfold key_le. apply _. Defined.
#[export] Instance key_le_trans : Transitive key_le.
Proof. intros x y z. unfold key_le. apply transitivity. Qed.
#[export] Instance key_le_total : Total key_le.
Proof. intros x y. apply String.le_total. Qed.

Definition sorted_entries (m : gmap string string) : list (string * string) :=
  merge_sort key_le (map_to_list m).

#[export] Instance gmap_table : RedbTable (gmap string string) := {
  t_empty := ∅;
  t_get m k := m !! k;
  t_insert k v m := <[k:=v]> m;
  t_remove k m := delete k m;
  t_iter m := sorted_entries m;
  t_range_from lo m := List.filter (λ e, str_leb lo e.1) (sorted_entries m);
  t_range lo hi m :=
    List.filter (λ e, str_leb lo e.1 && str_ltb e.1 hi) (sorted_entries m);
}.

Lemma sorted_entries_strict (m : gmap string string) :
  StronglySorted key_lt (sorted_entries m).
Proof.
  unfold sorted_entries.
  assert (Hs := StronglySorted_merge_sort key_le (map_to_list m)).
  assert (Hn : NoDup (merge_sort key_le (map_to_list m)).*1).
  { rewrite merge_sort_Permutation. apply NoDup_fst_map_to_list. }
  induction Hs as [|x l Hs IH Hx]; constructor.
  - apply IH. simpl in Hn. by apply NoDup_cons in Hn as [_ ?].
  - simpl in Hn. apply NoDup_cons in Hn as [Hn _]. apply Forall_forall. intros y Hy.
    rewrite Forall_forall in Hx. specialize (Hx y Hy). unfold key_lt, key_le in *.
    apply str_lt_iff. split; [done|]. intros He. apply Hn. rewrite He.
    apply list_elem_of_fmap. eauto.
Qed.

#[export] Instance gmap_table_laws : RedbTableLaws (gmap string string).
Proof.
  split; simpl; intros.
  - apply lookup_empty.
  - apply lookup_insert.
  - apply lookup_delete.
  - unfold sorted_entries. rewrite merge_sort_Permutation. apply elem_of_map_to_list.
  - apply sorted_entries_strict.
  - done.
  - done.
Qed.

(** ** Transactions: [Some e] makes the transaction fail with [e] *)

Inductive fault := NoFault | BeginFails (m : string) | CommitFails (m : string).

#[export] Instance fault_txn (S : Type) : RedbTxn S := {
  renv := fault;
  reliable f := f = NoFault;
  run_write A f m s :=
    match f with
    | BeginFails e => (Err (DbTransactionError e), s)
    | _ =>
        match m s with
        | (Err e, _) => (Err e, s)
        | (Ok a, s') =>
            match f with CommitFails e => (Err (DbCommitError e), s) | _ => (Ok a, s') end
        end
    end;
  run_read A f g s :=
    match f with BeginFails e => Err (DbTransactionError e) | _ => g s end;
}.

#[export] Instance fault_txn_laws (S : Type) : RedbTxnLaws S.
Proof.
  split; simpl; intros.
  - destruct env; crush.
  - destruct env; crush; split; eauto.
  - by subst.
  - by destruct env.
  - destruct env; simplify_eq; eauto.
  - by subst.
Qed.

(** ** Serialisation of countable types *)

Fixpoint bits_of_pos (p : positive) : string :=
  match p with
  | xH => EmptyString
  | xO p => String "0"%char (bits_of_pos p)
  | xI p => String "1"%char (bits_of_pos p)
  end.
Fixpoint pos_of_bits (s : string) : positive :=
  match s with
  | EmptyString => xH
  | String c s' => if decide (c = "1"%char) then xI (pos_of_bits s') else xO (pos_of_bits s')
  end.
Lemma pos_of_bits_of_pos p : pos_of_bits (bits_of_pos p) = p.
Proof. induction p; unfold bits_of_pos; fold bits_of_pos; simpl; congruence. Qed.

#[global] Arguments bits_of_pos : simpl never.
Definition countable_serde (A : Type) `{Countable A} : Serde A := {|
  to_vec a := Ok (bits_of_pos (encode a));
  to_vec_pretty a := Ok (bits_of_pos (encode a));
  from_slice s := match decode (pos_of_bits s) with Some a => Ok a | None => Err "decode" end;
|}.
Lemma bits_text p :
  utf8_valid (bits_of_pos p) = true ∧
  string_forallb (λ c, (32 <=? byte c)%Z) (bits_of_pos p) = true.
Proof.
  induction p as [p [IH1 IH2]|p [IH1 IH2]|]; unfold bits_of_pos; fold bits_of_pos; [..|done];
    (split; [exact IH1|exact IH2]).
Qed.
Lemma countable_serde_laws (A : Type) `{Countable A} :
  @SerdeLaws A (countable_serde A).
Proof.
  assert (Hr : ∀ a b, Ok (bits_of_pos (encode a)) = (Ok b : result string string) →
    from_slice (Serde:=countable_serde A) b = Ok a).
  { intros a b [= <-]. simpl. by rewrite pos_of_bits_of_pos, decode_encode. }
  split; simpl; [eauto|exact Hr|eauto|exact Hr| |]; intros a b [= <-]; apply bits_text.
Qed.

(** *** The stored records are countable *)

(** A record is the list of its encoded fields. *)
Ltac solve_fields :=
  cbv beta iota; repeat (rewrite decode_encode; cbn [mbind option_bind]); reflexivity.

#[export] Instance DateTime_countable : Countable DateTime.
Proof.
  by refine (inj_countable' (λ d, (dt_secs d, dt_nanos d)) (λ '(s, n), mkDateTime s n) _);
    intros [].
Defined.
#[export] Instance GrantStatus_countable : Countable GrantStatus.
Proof.
  by refine (inj_countable' (λ s, match s with GActive => true | GRevoked => false end)
    (λ b : bool, if b then GActive else GRevoked) _); intros [].
Defined.
#[export] Instance GrantRecord_countable : Countable GrantRecord.
Proof.
  refine (inj_countable
    (λ '(mkGrantRecord a b c d e f g h i j k),
      [encode a; encode b; encode c; encode d; encode e; encode f; encode g; encode h; encode i;
      encode j; encode k])
    (λ l, match l with
          | [a; b; c; d; e; f; g; h; i; j; k] =>
              a ← decode a; b ← decode b; c ← decode c; d ← decode d; e ← decode e; f ← decode
              f; g ← decode g; h ← decode h; i ← decode i; j ← decode j; k ← decode k;
              Some (mkGrantRecord a b c d e f g h i j k)
          | _ => None
          end) _).
  intros []. solve_fields.
Defined.
#[export] Instance TokenType_countable : Countable TokenType.
Proof.
  by refine (inj_countable' (λ t, match t with Native => None | SplToken m => Some m end)
    (λ o, match o with None => Native | Some m => SplToken m end) _); intros [].
Defined.
#[export] Instance TxStatus_countable : Countable TxStatus.
Proof.
  by refine (inj_countable'
    (λ s, match s with TxPending => None | TxConfirmed => Some true | TxFailed => Some false end)
    (λ o, match o with None => TxPending | Some true => TxConfirmed | Some false => TxFailed end)
    _); intros [].
Defined.
#[export] Instance StoredTransaction_countable : Countable StoredTransaction.
Proof.
  refine (inj_countable
    (λ '(mkStoredTransaction a b c d e f g h i j k l m n o),
      [encode a; encode b; encode c; encode d; encode e; encode f; encode g; encode h; encode i;
      encode j; encode k; encode l; encode m; encode n; encode o])
    (λ l, match l with
          | [a; b; c; d; e; f; g; h; i; j; k; l; m; n; o] =>
              a ← decode a; b ← decode b; c ← decode c; d ← decode d; e ← decode e; f ← decode
              f; g ← decode g; h ← decode h; i ← decode i; j ← decode j; k ← decode k; l ←
              decode l; m ← decode m; n ← decode n; o ← decode o;
              Some (mkStoredTransaction a b c d e f g h i j k l m n o)
          | _ => None
          end) _).
  intros []. solve_fields.
Defined.
#[export] Instance DrtMetadata_countable : Countable DrtMetadata.
Proof.
  refine (inj_countable
    (λ '(mkDrtMetadata a b c d e),
      [encode a; encode b; encode c; encode d; encode e])
    (λ l, match l with
          | [a; b; c; d; e] =>
              a ← decode a; b ← decode b; c ← decode c; d ← decode d; e ← decode e;
              Some (mkDrtMetadata a b c d e)
          | _ => None
          end) _).
  intros []. solve_fields.
Defined.
#[export] Instance WalletStatus_countable : Countable WalletStatus.
Proof.
  by refine (inj_countable'
    (λ s, match s with WActive => None | WSuspended => Some true | WDeleted => Some false end)
    (λ o, match o with None => WActive | Some true => WSuspended | Some false => WDeleted end)
    _); intros [].
Defined.
#[export] Instance WalletMetadata_countable : Countable WalletMetadata.
Proof.
  refine (inj_countable
    (λ '(mkWalletMetadata a b c d e f),
      [encode a; encode b; encode c; encode d; encode e; encode f])
    (λ l, match l with
          | [a; b; c; d; e; f] =>
              a ← decode a; b ← decode b; c ← decode c; d ← decode d; e ← decode e; f ← decode
              f;
              Some (mkWalletMetadata a b c d e f)
          | _ => None
          end) _).
  intros []. solve_fields.
Defined.
#[export] Instance ValidationMode_countable : Countable ValidationMode.
Proof.
  by refine (inj_countable'
    (λ s, match s with VNone => None | VHeadersOnly => Some true | VStrict => Some false end)
    (λ o, match o with None => VNone | Some true => VHeadersOnly | Some false => VStrict end)
    _); intros [].
Defined.
#[export] Instance PoolKind_countable : Countable PoolKind.
Proof.
  by refine (inj_countable' (λ k, match k with Malta => true | IobErp => false end)
    (λ b : bool, if b then Malta else IobErp) _); intros [].
Defined.
#[export] Instance PoolState_countable : Countable PoolState.
Proof.
  by refine (inj_countable' (λ k, match k with NeedsInit => true | Ready => false end)
    (λ b : bool, if b then NeedsInit else Ready) _); intros [].
Defined.
#[export] Instance PoolMetadata_countable : Countable PoolMetadata.
Proof.
  refine (inj_countable
    (λ '(mkPoolMetadata a b c d e f g h i j k l m n o),
      [encode a; encode b; encode c; encode d; encode e; encode f; encode g; encode h; encode i;
      encode j; encode k; encode l; encode m; encode n; encode o])
    (λ l, match l with
          | [a; b; c; d; e; f; g; h; i; j; k; l; m; n; o] =>
              a ← decode a; b ← decode b; c ← decode c; d ← decode d; e ← decode e; f ← decode
              f; g ← decode g; h ← decode h; i ← decode i; j ← decode j; k ← decode k; l ←
              decode l; m ← decode m; n ← decode n; o ← decode o;
              Some (mkPoolMetadata a b c d e f g h i j k l m n o)
          | _ => None
          end) _).
  intros []. solve_fields.
Defined.
Definition event_types : list AuditEventType :=
  [WalletCreated; WalletDeleted; WalletAccessed; TransactionSigned; TransactionBroadcast;
   PermissionDenied; AdminAccess; PoolCreated; PoolClosed; DatasetInitialized;
   CredentialIssued; CredentialIssuanceFailed; CredentialRevoked; RoleAssigned;
   DrtPurchased; DrtRedeemed; SchemaUploaded; RightGranted; RightRevoked; DrtExecuted].
#[export] Instance AuditEventType_countable : Countable AuditEventType.
Proof.
  by refine (inj_countable
    (λ t, default 0%nat (fst <$> list_find (λ u, t = u) event_types))
    (λ n, event_types !! n) _); intros [].
Defined.
#[export] Instance AuditEvent_countable : Countable AuditEvent.
Proof.
  refine (inj_countable
    (λ '(mkAuditEvent a b c d e f g h i j k),
      [encode a; encode b; encode c; encode d; encode e; encode f; encode g; encode h; encode i;
      encode j; encode k])
    (λ l, match l with
          | [a; b; c; d; e; f; g; h; i; j; k] =>
              a ← decode a; b ← decode b; c ← decode c; d ← decode d; e ← decode e; f ← decode
              f; g ← decode g; h ← decode h; i ← decode i; j ← decode j; k ← decode k;
              Some (mkAuditEvent a b c d e f g h i j k)
          | _ => None
          end) _).
  intros []. solve_fields.
Defined.

(** ** Cursor and date crates *)

Definition bool_char (b : bool) : ascii := if b then "1"%char else "0"%char.
Fixpoint bin_encode (s : string) : string :=
  match s with
  | EmptyString => EmptyString
  | String (Ascii a b c d e f g h) s' =>
      String.string_of_list_ascii (bool_char <$> [a; b; c; d; e; f; g; h]) +:+ bin_encode s'
  end.
#[local] Arguments String.append : simpl nomatch.
Lemma bool_char_inj a b : bool_char a = bool_char b → a = b.
Proof. by destruct a, b. Qed.
Lemma bin_encode_inj (s t : string) : bin_encode s = bin_encode t → s = t.
Proof.
  revert t. induction s as [|[a b c d e f g h] s IH];
    intros [|[a' b' c' d' e' f' g' h'] t]; simpl; try done.
  injection 1 as Ha Hb Hc Hd He Hf Hg Hh Hs. f_equal; [|by apply IH].
  f_equal; by apply bool_char_inj.
Qed.
Lemma bin_encode_no_dot (s : string) : no_char "." (bin_encode s) = true.
Proof.
  induction s as [|[a b c d e f g h] s IH]; simpl; [done|].
  by rewrite IH; destruct a, b, c, d, e, f, g, h.
Qed.
#[export] Instance crates0 : DbCrates := {
  b64_encode s := s;
  b64_decode s := Some s;
  cursor_hmac s := s;
  hex_encode := bin_encode;
  fmt_ymd _ := "1970-01-01";
}.
#[export] Instance crates0_laws : DbCratesLaws.
Proof. split; [done|apply bin_encode_no_dot|apply bin_encode_inj|done|done]. Qed.

(** ** One concrete world, for the examples *)

Definition table0 : Type := gmap string string.
#[export] Existing Instance countable_serde | 10.
#[export] Existing Instance countable_serde_laws | 10.
Definition db0 : Db table0 := open_fresh.
Definition env0 : renv (Db table0) := NoFault.
Lemma env0_reliable : reliable env0.
Proof. done. Qed.
Lemma db0_get n k v : db0 n !! k = Some v → False.
Proof. apply lookup_empty_Some. Qed.
