(* ===== verification/TxScans.v ===== *)
(** * Facts on the database: frame, cursors, keys and paginated scans

    Which tables an operation may change; signed cursors verify and cannot be
    altered; keys sort newest first; the pagination loops compute a slice of the
    prefix scan; the per-wallet transaction listing. *)
From S2P Require Import Prelude.
From S2P Require Import RustStr.
From S2P Require Import RustFmt.
From S2P Require Import Errors.
From S2P Require Import Types.
From S2P Require Import Interfaces.
From S2P Require Import TxDatabase.
From S2P Require Import Instances.

Local Open Scope Z_scope.
#[local] Arguments String.append : simpl nomatch.

(** ** Frame *)

Section Frame.
Context {T : Type} `{RedbTable T, RedbTxnLaws (Db T)}.

(** [m] changes no table outside [ts], on success or on failure. *)
Definition touches {E A} (ts : list TableDefinition) (m : act (Db T) E A) : Prop :=
  ∀ db n, n ∉ ts → (m db).2 n = db n.

Lemma touches_read {E A} ts (f : Db T → result E A) : touches ts (reading f).
Proof. by intros db n. Qed.
Lemma touches_lift {E A} ts (r : result E A) : touches ts (lift r).
Proof. by intros db n. Qed.
Lemma touches_ret {E A} ts (a : A) : touches ts (mret a : act (Db T) E A).
Proof. by intros db n. Qed.
Lemma touches_fail {E A} ts (e : E) : touches ts (fail e : act (Db T) E A).
Proof. by intros db n. Qed.
Lemma touches_get ts n k : touches ts (tbl_get n k).
Proof. by intros db m. Qed.
Lemma touches_insert ts n k v : n ∈ ts → touches ts (tbl_insert n k v).
Proof. intros Hn db m Hm. apply set_table_ne. set_solver. Qed.
Lemma touches_remove ts n k : n ∈ ts → touches ts (tbl_remove n k).
Proof. intros Hn db m Hm. apply set_table_ne. set_solver. Qed.
Lemma touches_bind {E A B} ts (m : act (Db T) E A) (f : A → act (Db T) E B) :
  touches ts m → (∀ a, touches ts (f a)) → touches ts (m ≫= f).
Proof.
  intros Hm Hf db n Hn. specialize (Hm db n Hn). unfold mbind, act_bind.
  destruct (m db) as [[a|e] db']; simpl in *; [rewrite (Hf a db' n Hn)|]; done.
Qed.
Lemma touches_write {A} ts env (m : act (Db T) TxDbError A) :
  touches ts m → touches ts (run_write env m).
Proof.
  intros Hm db n Hn. destruct (run_write env m db) as [[a|e] db'] eqn:Hr; simpl.
  - apply run_write_ok in Hr. specialize (Hm db n Hn). by rewrite Hr in Hm.
  - by apply run_write_err in Hr as [-> _].
Qed.
Lemma touches_remove_keys ts n keys c : n ∈ ts → touches ts (remove_keys n keys c).
Proof.
  intros Hn. revert c. induction keys as [|k keys IH]; intros c; simpl;
    [apply touches_ret|]. apply touches_bind; [by apply touches_remove|auto].
Qed.
Lemma touches_directions ts tx dirs :
  WALLET_TX_INDEX ∈ ts → touches ts (insert_directions tx dirs).
Proof.
  intros Hn. induction dirs as [|[a d] dirs IH]; simpl; [apply touches_ret|].
  apply touches_bind; [by apply touches_insert|auto].
Qed.
End Frame.

#[export] Hint Resolve touches_read touches_lift touches_ret touches_fail touches_get
  touches_insert touches_remove touches_bind touches_write touches_remove_keys
  touches_directions : rsdk.

(** Decide the tables an operation touches by following its body. *)
Ltac solve_touches :=
  repeat first
    [ progress intros
    | apply touches_write | apply touches_read | apply touches_lift | apply touches_ret
    | apply touches_fail | apply touches_get
    | apply touches_insert; set_solver | apply touches_remove; set_solver
    | apply touches_remove_keys; set_solver | apply touches_directions; set_solver
    | apply touches_bind
    | match goal with |- touches _ (match ?x with _ => _ end) => destruct x end ].

(** ** Signed cursors *)

Section CursorFacts.
Context `{DbCratesLaws}.

Lemma verify_sign (raw : string) :
  utf8_valid raw = true → verify_cursor (sign_cursor raw) = Some raw.
Proof.
  intros Hu. unfold verify_cursor, sign_cursor.
  change ("." +:+ hex_encode (cursor_hmac raw)) with
    (String "." (hex_encode (cursor_hmac raw))).
  rewrite rsplit_once_app by apply hex_no_dot. simpl.
  rewrite b64_round. simpl. rewrite Hu. simpl. by rewrite decide_True.
Qed.

Lemma rsplit_once_some (c : ascii) (s a b : string) :
  rsplit_once c s = Some (a, b) → s = a +:+ String c b.
Proof.
  revert a b. induction s as [|d s IH]; simpl; intros a b Hs; [done|].
  destruct (rsplit_once c s) as [[x y]|] eqn:Hr; simplify_eq/=.
  - by rewrite (IH x b eq_refl).
  - case_decide; by simplify_eq/=.
Qed.

Lemma verify_sound (token raw : string) :
  verify_cursor token = Some raw →
  ∃ encoded, b64_decode encoded = Some raw ∧
    token = encoded +:+ "." +:+ hex_encode (cursor_hmac raw).
Proof.
  unfold verify_cursor. intros Hv.
  destruct (rsplit_once "." token) as [[enc tag]|] eqn:Hr; simplify_eq/=.
  destruct (b64_decode enc) as [rb|] eqn:Hb; simplify_eq/=.
  destruct (utf8_valid rb); simplify_eq/=. case_decide; simplify_eq/=.
  exists enc. split; [done|]. by apply rsplit_once_some.
Qed.
End CursorFacts.

(** ** Keys *)

Lemma key_newest_first (p : string) (ts1 ts2 : Z) (x1 x2 : string) :
  0 ≤ ts2 < ts1 → ts1 ≤ I64_MAX →
  str_lt (make_pool_ts_key p ts1 x1) (make_pool_ts_key p ts2 x2).
Proof.
  intros H1 H2. unfold make_pool_ts_key, str_lt. rewrite !compare_append.
  apply str_lt_append; [by rewrite !length_hex16|].
  rewrite !not_i64_nonneg by lia. apply hex16_lt; unfold U64_MAX, I64_MAX in *; lia.
Qed.

Lemma no_bar_hex16 (z : Z) : 0 ≤ z ≤ U64_MAX → no_char "|" (hex16 z) = true.
Proof.
  intros Hz. unfold hex16.
  assert (Hd : Forall (λ d, 0 ≤ d < 16) (be_digits 16 16 z)).
  { apply be_digits_range; [lia|]. unfold U64_MAX in Hz. simpl. lia. }
  revert Hd. generalize (be_digits 16 16 z). induction 1 as [|d l Hd _ IH]; csimpl; [done|].
  rewrite IH, andb_true_r.
  apply negb_true_iff, bool_decide_eq_false. intros He. apply (f_equal byte) in He.
  revert He. unfold hex_char. destruct (Z.ltb_spec d 10); rewrite byte_char_of by lia;
    change (byte "|") with 124; lia.
Qed.

Lemma not_i64_range (ts : Z) : 0 ≤ not_i64_as_u64 ts ≤ U64_MAX.
Proof. apply wrap64_range. Qed.

(** A timestamped key determines its resource and its suffix. *)
Lemma pool_ts_key_inj (p q : string) (t u : Z) (x y : string) :
  no_char "|" p = true → no_char "|" q = true →
  make_pool_ts_key p t x = make_pool_ts_key q u y →
  p = q ∧ hex16 (not_i64_as_u64 t) = hex16 (not_i64_as_u64 u) ∧ x = y.
Proof.
  unfold make_pool_ts_key, bar. intros Hp Hq He.
  apply (split_inj "|") in He as [-> He]; [|done..].
  apply (split_inj "|") in He as [He ->]; [done|..]; apply no_bar_hex16, not_i64_range.
Qed.

Lemma rsplit_ts_key (p : string) (t : Z) (x : string) :
  no_char "|" x = true → rsplit_next "|" (make_pool_ts_key p t x) = x.
Proof.
  intros Hx. unfold make_pool_ts_key, bar.
  change (p +:+ "|" +:+ hex16 (not_i64_as_u64 t) +:+ "|" +:+ x) with
    (p +:+ ("|" +:+ (hex16 (not_i64_as_u64 t) +:+ String "|" x))).
  rewrite <-!append_assoc. by apply rsplit_next_app.
Qed.

Lemma starts_with_key2 (p q x : string) :
  no_char "|" p = true → no_char "|" q = true →
  starts_with (p +:+ bar) (q +:+ bar +:+ x) = true ↔ p = q.
Proof.
  intros Hp Hq. rewrite starts_with_spec. split.
  - intros [r Hr]. rewrite append_assoc in Hr. unfold bar in Hr.
    apply (split_inj "|") in Hr as [-> _]; done.
  - intros ->. exists x. by rewrite append_assoc.
Qed.

(** ** Paginated scans *)

Section Pages.
Context {T : Type} `{RedbTableLaws T, RedbTxnLaws (Db T)}.

(** The pagination loop: skip [offset] entries, then decode up to [limit]. *)
Lemma page_loop_spec {A} pre limit offset (ex : string → string → option A)
    entries skipped results :
  page_loop pre limit offset ex entries skipped results =
  results ++ take (limit - length results)
    (filter_map (λ e, ex e.1 e.2)
      (drop (offset - skipped) (take_while (λ e, starts_with pre e.1) entries))).
Proof.
  revert skipped results. induction entries as [|[k v] rest IH]; intros sk res; simpl.
  { rewrite drop_nil. simpl. by rewrite take_nil, app_nil_r. }
  destruct (starts_with pre k); simpl; [|rewrite drop_nil; simpl; by rewrite take_nil, app_nil_r].
  destruct (Nat.ltb_spec sk offset) as [Hlt|Hge].
  { rewrite IH. replace (offset - sk)%nat with (S (offset - S sk)) by lia. done. }
  replace (offset - sk)%nat with 0%nat by lia. simpl.
  destruct (Nat.leb_spec limit (length res)) as [Hl|Hl].
  { replace (limit - length res)%nat with 0%nat by lia. by rewrite app_nil_r. }
  rewrite IH. replace (offset - sk)%nat with 0%nat by lia. rewrite drop_0.
  destruct (ex k v) as [a|]; [|done].
  replace (limit - length res)%nat with (S (limit - length (res ++ [a])))
    by (rewrite length_app; simpl; lia).
  by rewrite <-app_assoc.
Qed.

Lemma count_loop_spec pre entries c :
  count_loop pre entries c =
  (c + length (take_while (λ e, starts_with pre e.1) entries))%nat.
Proof.
  revert c. induction entries as [|[k v] rest IH]; intros c; simpl; [lia|].
  destruct (starts_with pre k); simpl; [rewrite IH; lia|lia].
Qed.

(** What a paginated listing answers, and a count. *)
Lemma page_of_table {A} pre limit offset (ex : string → string → option A) (t : T) :
  page_loop pre limit offset ex (t_range_from pre t) 0 [] =
  take limit (filter_map (λ e, ex e.1 e.2) (drop offset (prefixed pre t))).
Proof. rewrite page_loop_spec, prefix_scan, !Nat.sub_0_r. done. Qed.
Lemma count_of_table pre (t : T) :
  count_loop pre (t_range_from pre t) 0 = length (prefixed pre t).
Proof. by rewrite count_loop_spec, prefix_scan. Qed.

(** Consecutive pages of a list glue together. *)
Lemma pages_glue {A} (l : list A) (limit n : nat) :
  concat ((λ i, take limit (drop (i * limit) l)) <$> seq 0 n) = take (n * limit) l.
Proof.
  induction n as [|n IH]; [done|].
  rewrite seq_S, fmap_app, concat_app, IH. simpl. rewrite app_nil_r.
  rewrite take_take_drop. f_equal. lia.
Qed.
End Pages.

Section Listings.
Context {T : Type} `{RedbTableLaws T, RedbTxnLaws (Db T), DbCrates}.
Context `{Serde StoredTransaction, Serde Json}.

Lemma decode_all (l : list (string * string)) :
  (∀ e, e ∈ l → ∃ j : Json, from_slice e.2 = Ok j) →
  Forall2 (λ e j, from_slice e.2 = Ok j) l (filter_map (λ e, json_value e.1 e.2) l).
Proof.
  induction l as [|e l IH]; intros Hd; simpl; [constructor|].
  destruct (Hd e) as [j Hj]; [set_solver|]. unfold json_value at 1. rewrite Hj. simpl.
  constructor; [done|]. apply IH. set_solver.
Qed.
(** The paginated issuance log.  Walking the pages of a pool's issuance
    records with any page size returns every stored record exactly once, in
    key order, no page is longer than the limit, and the count operation
    reports their number; none of the reads changes the database. *)
Theorem issuance_pages (env : renv (Db T)) (db : Db T) (pool : string) (limit : nat)
    (Henv : reliable env)
    (Hdec : ∀ k v, t_get (db ISSUANCE_RECORDS) k = Some v →
       ∃ j : Json, from_slice v = Ok j) :
  ∃ (pages : nat → list Json) (total : nat),
    (∀ i, list_issuance_records env pool limit (i * limit) db = (Ok (pages i), db)) ∧
    (∀ i, (length (pages i) ≤ limit)%nat) ∧
    count_issuance_records env pool db = (Ok total, db) ∧
    ∀ n, (total ≤ n * limit)%nat →
      Forall2 (λ e j, from_slice e.2 = Ok j)
        (prefixed (pool +:+ bar) (db ISSUANCE_RECORDS))
        (concat (pages <$> seq 0 n)).
Proof.
  set (l := prefixed (pool +:+ bar) (db ISSUANCE_RECORDS)).
  assert (Hl : ∀ e, e ∈ l → ∃ j : Json, from_slice e.2 = Ok j).
  { intros [k v] [_ Hv]%elem_of_prefixed. by apply (Hdec k). }
  set (all := filter_map (λ e, json_value e.1 e.2) l).
  exists (λ i, take limit (drop (i * limit) all)), (length l). repeat split.
  - intros i. unfold list_issuance_records, reading. rewrite (run_read_reliable env _ _ Henv).
    rewrite page_of_table, filter_map_drop; [done|].
    intros e He. destruct (Hl e He) as [j Hj]. unfold json_value. rewrite Hj. by eexists.
  - intros i. rewrite length_take. lia.
  - unfold count_issuance_records, count_prefix, reading.
    rewrite (run_read_reliable env _ _ Henv). by rewrite count_of_table.
  - intros n Hn. pose proof (decode_all l Hl) as Hall. rewrite pages_glue.
    rewrite take_ge; [done|]. unfold all. by rewrite <-(Forall2_length _ _ _ Hall).
Qed.

(** A key of the wallet index stamped with a date before the year 2 billion
    is not valid UTF-8. *)
Lemma index_key_not_utf8 (address : string) (ts : Z) (sig : string) :
  utf8_valid address = true → 0 ≤ ts < 2 ^ 56 →
  utf8_valid (make_index_key address ts sig) = false.
Proof.
  intros Ha Hts. unfold make_index_key. rewrite utf8_app by done.
  rewrite utf8_ascii_app by done.
  destruct (be_bytes_head (not_i64_as_u64 ts)) as (c & s & -> & Hc);
    [apply not_i64_range|].
  rewrite not_i64_nonneg in Hc by (unfold I64_MAX; lia).
  assert (Hb : byte c = 255).
  { rewrite Hc. unfold U64_MAX. symmetry. apply (Z.div_unique _ _ _ (2 ^ 56 - 1 - ts)); lia. }
  change (String c s +:+ bar +:+ sig) with (String c (s +:+ bar +:+ sig)).
  generalize (s +:+ bar +:+ sig). intros r. simpl. unfold in_range. rewrite !Hb. simpl.
  by destruct r as [|? [|? [|? ?]]].
Qed.

(** C36: the transaction history endpoint's scan.  When the wallet index
    holds keys built by [make_index_key] (dates up to 2^56 s), the listing of
    any address from the start answers an empty page without a cursor: the
    binary timestamp makes the key invalid UTF-8, so the loop stops at the
    first entry although the index has entries of that address. *)
Theorem list_by_wallet_empty (env : renv (Db T)) (db : Db T) (address : string) (limit : nat)
    (Henv : reliable env)
    (Hidx : ∀ k v, t_get (db WALLET_TX_INDEX) k = Some v →
       ∃ a ts sig, k = make_index_key a ts sig ∧ utf8_valid a = true ∧ 0 ≤ ts < 2 ^ 56) :
  list_by_wallet env address None limit db = (Ok ([], None), db).
Proof.
  unfold list_by_wallet, reading. rewrite (run_read_reliable env _ _ Henv). simpl. do 2 f_equal.
  destruct (t_range_from (address +:+ bar) (db WALLET_TX_INDEX)) as [|[k v] rest] eqn:Hr;
    [done|].
  assert (Hk : t_get (db WALLET_TX_INDEX) k = Some v).
  { apply t_iter_get. rewrite t_range_from_spec in Hr.
    apply list_elem_of_In. eapply proj1, filter_In. rewrite Hr. by left. }
  destruct (Hidx k v Hk) as (a & ts & sig & -> & Ha & Hts). simpl.
  rewrite index_key_not_utf8 by done. by destruct address.
Qed.
End Listings.

(** *** Witnesses *)

Definition db_issued : Db table0 :=
  (upsert_issuance_record env0 "pool" "r1" 7 (unwrap_or (to_vec (JStr "a")) "") db0).2.

Lemma db_issued_get k v :
  t_get (db_issued ISSUANCE_RECORDS) k = Some v → v = unwrap_or (to_vec (JStr "a")) "".
Proof.
  unfold db_issued, upsert_issuance_record. simpl. rewrite set_table_eq. simpl.
  intros [[_ <-]|[_ Hx]]%lookup_insert_Some; [done|by apply db0_get in Hx].
Qed.
Lemma issuance_pages_witness :
  ∃ (pages : nat → list Json) (total : nat),
    (∀ i, list_issuance_records env0 "pool" 1 (i * 1) db_issued = (Ok (pages i), db_issued)) ∧
    (∀ i, (length (pages i) ≤ 1)%nat) ∧
    count_issuance_records env0 "pool" db_issued = (Ok total, db_issued) ∧
    ∀ n, (total ≤ n * 1)%nat →
      Forall2 (λ e j, from_slice e.2 = Ok j)
        (prefixed ("pool" +:+ bar) (db_issued ISSUANCE_RECORDS)) (concat (pages <$> seq 0 n)).
Proof.
  apply (issuance_pages env0 db_issued "pool" 1 env0_reliable).
  intros k v ->%db_issued_get. exists (JStr "a"). by vm_compute.
Defined.

Definition tx0 : StoredTransaction :=
  mkStoredTransaction "sig" "w" None "A" "B" "1.0" None Native "devnet" TxPending None None ""
    (mkDateTime 1700000000 0) (mkDateTime 1700000000 0).
Definition db_sent : Db table0 :=
  (upsert_transaction env0 tx0 [("A", "sent"); ("B", "received")] db0).2.
Lemma db_sent_get k v :
  t_get (db_sent WALLET_TX_INDEX) k = Some v →
  ∃ a, (a = "A" ∨ a = "B") ∧ k = make_index_key a 1700000000 "sig".
Proof.
  unfold db_sent, upsert_transaction. simpl. rewrite set_table_eq.
  intros [[<- _]|[_ Hx]]%lookup_insert_Some; [by eauto|].
  rewrite set_table_eq in Hx. apply lookup_insert_Some in Hx as [[<- _]|[_ Hx]]; [by eauto|].
  rewrite set_table_ne in Hx by done. by apply db0_get in Hx.
Qed.
Lemma list_by_wallet_empty_witness :
  is_Some (t_get (db_sent WALLET_TX_INDEX) (make_index_key "A" 1700000000 "sig")) ∧
  list_by_wallet env0 "A" None 20 db_sent = (Ok ([], None), db_sent).
Proof.
  split; [eexists; vm_compute; reflexivity|]. apply (list_by_wallet_empty env0 db_sent "A" 20 env0_reliable).
  intros k v (a & Ha & ->)%db_sent_get. exists a, 1700000000, "sig".
  split; [done|]. split; [by destruct Ha; subst|lia].
Defined.
