(* ===== verification/TxGrants.v ===== *)
(** * The grant mirror refines a map of grants

    The database keeps grants in two tables: the records by
    (pool, analyst, DRT), and an index of the active ones by
    (analyst, pool, DRT).  The specification is one finite map; every sequence
    of insertions and revocations, whatever transactions fail, leaves the two
    tables representing the map that the successful ones build, and the three
    queries answer from that map. *)
From S2P Require Import Prelude.
From S2P Require Import RustStr.
From S2P Require Import RustFmt.
From S2P Require Import Errors.
From S2P Require Import Types.
From S2P Require Import Interfaces.
From S2P Require Import TxDatabase.
From S2P Require Import Instances.
From S2P Require Import TxScans.

Local Open Scope Z_scope.
#[local] Arguments String.append : simpl nomatch.

(** ** Specification *)

(** (pool_pda, analyst_id, drt_name) *)
Abbreviation gkey := (string * string * string)%type.
Definition key_of (r : GrantRecord) : gkey := (g_pool_pda r, g_analyst_id r, g_drt_name r).
Definition is_active (r : GrantRecord) : bool := bool_decide (g_status r = GActive).

(** Identifiers that may be parts of a key: ASCII without the separator, as
    base58 addresses and user ids are. *)
Definition plain (s : string) : bool := no_char "|" s && is_ascii_str s.

Inductive grant_op :=
| OpUpsert (r : GrantRecord)
| OpRevoke (now : Z) (pool_pda analyst_id drt_name revoked_sig : string).

Definition op_wf (o : grant_op) : Prop :=
  match o with
  | OpUpsert r => plain (g_pool_pda r) = true ∧ plain (g_analyst_id r) = true
  | OpRevoke _ p a _ _ => plain p = true ∧ plain a = true
  end.

(** The effect of an operation on the map, and its answer. *)
Definition spec_op (o : grant_op) (m : gmap gkey GrantRecord) :
    bool * gmap gkey GrantRecord :=
  match o with
  | OpUpsert r => (true, <[key_of r := r]> m)
  | OpRevoke now p a d sig =>
      (bool_decide (is_Some (m !! (p, a, d))), alter (revoked_record now sig) (p, a, d) m)
  end.

(** A trace of operations with the ones that succeeded. *)
Fixpoint spec_trace (ops : list (grant_op * bool)) (m : gmap gkey GrantRecord) :
    gmap gkey GrantRecord :=
  match ops with
  | [] => m
  | (o, succeeded) :: rest =>
      spec_trace rest (if succeeded : bool then (spec_op o m).2 else m)
  end.

(** ** Keys *)

Lemma plain_no_bar s : plain s = true → no_char "|" s = true.
Proof. by intros [? _]%andb_true_iff. Qed.
#[local] Hint Resolve plain_no_bar : rsdk.

Lemma key3_inj a b c x y z :
  plain a = true → plain b = true → plain x = true → plain y = true →
  key3 a b c = key3 x y z → a = x ∧ b = y ∧ c = z.
Proof.
  unfold key3, bar. intros Ha Hb Hx Hy He.
  apply (split_inj "|") in He as [-> He]; [|by auto using plain_no_bar..].
  apply (split_inj "|") in He as [-> ->]; by auto using plain_no_bar.
Qed.

Lemma splitn3_key3 a b c :
  plain a = true → plain b = true → splitn3 "|" (key3 a b c) = Some (a, b, c).
Proof. intros. by apply splitn3_app; apply plain_no_bar. Qed.

(** The scanned interval [a| .. a|U+10FFFF) holds the keys with the prefix. *)
Lemma key3_in_range a x y z :
  plain a = true → plain x = true → plain y = true →
  str_leb (a +:+ bar) (key3 x y z) && str_ltb (key3 x y z) (a +:+ bar +:+ max_char) = true ↔
  x = a.
Proof.
  intros Ha Hx Hy. rewrite andb_true_iff, str_leb_le, str_ltb_lt. split.
  - intros [Hlo Hhi]. symmetry.
    apply (starts_with_key2 a x (y +:+ bar +:+ z)); [by apply plain_no_bar..|].
    apply (prefix_interval _ _ (a +:+ bar +:+ max_char)); [done|by apply str_lt_le|].
    rewrite <-append_assoc. apply starts_with_app.
  - intros ->. unfold key3. split.
    + rewrite <-append_assoc. apply le_prefix.
    + unfold str_lt. rewrite !compare_append.
      destruct y as [|c y]; [done|].
      apply andb_true_iff in Hy as [_ Hy]. unfold is_ascii_str in Hy. simpl in Hy.
      apply andb_true_iff in Hy as [Hc _]. apply Z.ltb_lt in Hc.
      unfold byte in Hc. simpl. unfold Ascii.compare.
      assert (Hlt : (N_of_ascii c ?= N_of_ascii (char_of 244))%N = Lt).
      { apply N.compare_lt_iff. change (N_of_ascii (char_of 244)) with 244%N. lia. }
      by rewrite Hlt.
Qed.

(** ** Representation *)

Section Rep.
Context {T : Type} `{RedbTableLaws T, RedbTxnLaws (Db T), SerdeLaws GrantRecord}.

Record grants_rep (db : Db T) (m : gmap gkey GrantRecord) : Prop := {
  gr_wf k r : m !! k = Some r →
    k = key_of r ∧ plain (g_pool_pda r) = true ∧ plain (g_analyst_id r) = true;
  gr_pool key v : t_get (db GRANTS_BY_POOL) key = Some v ↔
    ∃ p a d r, key = key3 p a d ∧ m !! (p, a, d) = Some r ∧ to_vec r = Ok v;
  gr_analyst key : is_Some (t_get (db GRANTS_BY_ANALYST) key) ↔
    ∃ p a d r, key = key3 a p d ∧ m !! (p, a, d) = Some r ∧ is_active r = true;
}.

Lemma rep_fresh : grants_rep open_fresh ∅.
Proof.
  split; unfold open_fresh.
  - intros k r Hk. by rewrite lookup_empty in Hk.
  - intros key v. rewrite t_get_empty. split; [done|].
    intros (p & a & d & r & _ & Hr & _). by rewrite lookup_empty in Hr.
  - intros key. rewrite t_get_empty. split; [by intros []|].
    intros (p & a & d & r & _ & Hr & _). by rewrite lookup_empty in Hr.
Qed.

Lemma rep_frame db db' m :
  db' GRANTS_BY_POOL = db GRANTS_BY_POOL → db' GRANTS_BY_ANALYST = db GRANTS_BY_ANALYST →
  grants_rep db m → grants_rep db' m.
Proof. intros Hdp Hda [? ? ?]. split; rewrite ?Hdp, ?Hda; done. Qed.

Lemma rep_plain db m p a d r :
  grants_rep db m → m !! (p, a, d) = Some r → plain p = true ∧ plain a = true.
Proof. intros Hr Hm. destruct (gr_wf _ _ Hr _ _ Hm) as (Hk & ? & ?). by injection Hk as -> -> ->. Qed.

(** Storing a record under its key and fixing the index accordingly. *)
Lemma rep_store db m r v (pt at' : T) :
  grants_rep db m → plain (g_pool_pda r) = true → plain (g_analyst_id r) = true →
  to_vec r = Ok v →
  pt = t_insert (key3 (g_pool_pda r) (g_analyst_id r) (g_drt_name r)) v (db GRANTS_BY_POOL) →
  at' = (if is_active r
         then t_insert (key3 (g_analyst_id r) (g_pool_pda r) (g_drt_name r)) ""
                (db GRANTS_BY_ANALYST)
         else t_remove (key3 (g_analyst_id r) (g_pool_pda r) (g_drt_name r))
                (db GRANTS_BY_ANALYST)) →
  ∀ db', db' GRANTS_BY_POOL = pt → db' GRANTS_BY_ANALYST = at' →
  grants_rep db' (<[key_of r := r]> m).
Proof.
  intros Hrep Hp Ha Hv -> -> db' Hdp Hda. split.
  - intros k r' [[<- <-]|[_ Hk]]%lookup_insert_Some; [done|]. by apply (gr_wf _ _ Hrep).
  - intros key w. rewrite Hdp, t_get_insert. case_decide as Hd.
    + subst key. split.
      * intros [= <-]. exists (g_pool_pda r), (g_analyst_id r), (g_drt_name r), r.
        by rewrite lookup_insert_eq.
      * intros (p & a & d & r' & He & Hl & Hw).
        apply lookup_insert_Some in Hl as [[Hk <-]|[Hne Hl]]; [congruence|].
        destruct (rep_plain _ _ _ _ _ _ Hrep Hl).
        apply key3_inj in He as (<- & <- & <-); done.
    + rewrite (gr_pool _ _ Hrep). split; intros (p & a & d & r' & He & Hl & Hw);
        exists p, a, d, r'; (split; [done|]); split; try done.
      * rewrite lookup_insert_ne; [done|]. intros Hk. injection Hk as <- <- <-. by subst.
      * apply lookup_insert_Some in Hl as [[Hk _]|[_ Hl]]; [|done].
        injection Hk as <- <- <-. by subst.
  - intros key. rewrite Hda.
    destruct (decide (key = key3 (g_analyst_id r) (g_pool_pda r) (g_drt_name r))) as [->|Hne].
    + transitivity (is_active r = true).
      { destruct (is_active r);
          rewrite ?t_get_insert_eq, ?t_get_remove_eq; split; naive_solver. }
      split.
      * intros Hact. exists (g_pool_pda r), (g_analyst_id r), (g_drt_name r), r.
        by rewrite lookup_insert_eq.
      * intros (p & a & d & r' & He & Hl & Hact).
        apply lookup_insert_Some in Hl as [[Hk <-]|[Hk Hl]]; [done|].
        destruct (rep_plain _ _ _ _ _ _ Hrep Hl).
        apply key3_inj in He as (<- & <- & <-); done.
    + transitivity (is_Some (t_get (db GRANTS_BY_ANALYST) key)).
      { destruct (is_active r); by rewrite ?t_get_insert_ne, ?t_get_remove_ne. }
      rewrite (gr_analyst _ _ Hrep). split; intros (p & a & d & r' & He & Hl & Hw);
        exists p, a, d, r'; (split; [done|]); split; try done.
      * rewrite lookup_insert_ne; [done|]. intros Hk. injection Hk as <- <- <-. by subst.
      * apply lookup_insert_Some in Hl as [[Hk _]|[_ Hl]]; [|done].
        injection Hk as <- <- <-. by subst.
Qed.

(** Removing an index key that belongs to no record changes nothing. *)
Lemma rep_remove_absent db m p a d db' :
  grants_rep db m → plain p = true → plain a = true → m !! (p, a, d) = None →
  db' GRANTS_BY_POOL = db GRANTS_BY_POOL →
  db' GRANTS_BY_ANALYST = t_remove (key3 a p d) (db GRANTS_BY_ANALYST) →
  grants_rep db' m.
Proof.
  intros Hrep Hp Ha Hn Hdp Hda. split.
  - apply (gr_wf _ _ Hrep).
  - intros key v. rewrite Hdp. apply (gr_pool _ _ Hrep).
  - intros key. rewrite Hda, t_get_remove. case_decide as Hk; [|apply (gr_analyst _ _ Hrep)].
    subst. split; [by intros []|]. intros (p' & a' & d' & r & He & Hl & _).
    destruct (rep_plain _ _ _ _ _ _ Hrep Hl).
    apply key3_inj in He as (<- & <- & <-); [congruence|done..].
Qed.

(** ** The operations on a representing database *)

Definition exec_op (env : renv (Db T)) (o : grant_op) : act (Db T) TxDbError bool :=
  match o with
  | OpUpsert r => upsert_grant env r;; mret true
  | OpRevoke now p a d sig => revoke_grant_local env now p a d sig
  end.

Lemma upsert_body_rep db m r v :
  grants_rep db m → op_wf (OpUpsert r) → to_vec r = Ok v →
  ∃ db', (tbl_insert GRANTS_BY_POOL (key3 (g_pool_pda r) (g_analyst_id r) (g_drt_name r)) v;;
          match g_status r with
          | GActive => tbl_insert GRANTS_BY_ANALYST
              (key3 (g_analyst_id r) (g_pool_pda r) (g_drt_name r)) ""
          | GRevoked => tbl_remove GRANTS_BY_ANALYST
              (key3 (g_analyst_id r) (g_pool_pda r) (g_drt_name r))
          end : act (Db T) TxDbError unit) db = (Ok (), db') ∧
         grants_rep db' (<[key_of r := r]> m).
Proof.
  intros Hrep [Hp Ha] Hv.
  destruct (g_status r) eqn:Hs; eexists; (split; [reflexivity|]);
    eapply (rep_store db m r v); try done; unfold is_active; rewrite Hs;
    rewrite ?bool_decide_eq_true_2, ?bool_decide_eq_false_2 by done;
    autorewrite with rsdk_rw; rewrite ?set_table_ne by done; done.
Qed.

Lemma exec_upsert env db m r :
  grants_rep db m → op_wf (OpUpsert r) →
  (∃ db', upsert_grant env r db = (Ok (), db') ∧ grants_rep db' (<[key_of r := r]> m)) ∨
  (∃ e, ¬ reliable env ∧ upsert_grant env r db = (Err e, db)).
Proof.
  intros Hrep Hwf. destruct (to_vec_total r) as [v Hv].
  destruct (upsert_body_rep db m r v Hrep Hwf Hv) as (db' & Hb & Hrep').
  unfold upsert_grant. unfold mbind at 1, act_bind at 1, lift, json_err. rewrite Hv. simpl.
  destruct (run_write_cases env _ _ _ _ Hb) as [Hr|(e & Hn & Hr)]; eauto 10.
Qed.

Lemma revoked_key now sig r : key_of (revoked_record now sig r) = key_of r.
Proof. done. Qed.

Lemma exec_revoke env db m now p a d sig :
  grants_rep db m → op_wf (OpRevoke now p a d sig) →
  (∃ db', revoke_grant_local env now p a d sig db =
            (Ok (bool_decide (is_Some (m !! (p, a, d)))), db') ∧
          grants_rep db' (alter (revoked_record now sig) (p, a, d) m)) ∨
  (∃ e, ¬ reliable env ∧ revoke_grant_local env now p a d sig db = (Err e, db)).
Proof.
  intros Hrep [Hp Ha]. unfold revoke_grant_local.
  destruct (m !! (p, a, d)) as [r|] eqn:Hm.
  - destruct (gr_wf _ _ Hrep _ _ Hm) as (Hk & Hpr & Har). injection Hk as -> -> ->.
    destruct (to_vec_total r) as [v Hv].
    destruct (to_vec_total (revoked_record now sig r)) as [w Hw].
    assert (Hget : t_get (db GRANTS_BY_POOL)
      (key3 (g_pool_pda r) (g_analyst_id r) (g_drt_name r)) = Some v).
    { apply (gr_pool _ _ Hrep). eauto 10. }
    edestruct (run_write_cases (A:=bool) env) as [Hr|(e & Hn & Hr)];
      [|left; rewrite Hr|right; rewrite Hr; by eauto].
    + unfold_act. rewrite Hget. unfold json_err. rewrite (from_to _ _ Hv). simpl.
      rewrite Hw. simpl. reflexivity.
    + rewrite bool_decide_eq_true_2 by eauto. eexists. split; [done|].
      replace (alter _ _ m) with (<[key_of (revoked_record now sig r) := revoked_record now sig r]> m).
      2:{ apply map_eq. intros k. rewrite revoked_key.
          destruct (decide (k = key_of r)) as [->|Hne].
          - rewrite lookup_insert_eq. unfold key_of. by rewrite lookup_alter_eq, Hm.
          - by rewrite lookup_insert_ne, lookup_alter_ne. }
      eapply (rep_store db m _ w); try done; simpl;
        autorewrite with rsdk_rw; rewrite ?set_table_ne by done; done.
  - assert (Hget : t_get (db GRANTS_BY_POOL) (key3 p a d) = None).
    { apply eq_None_not_Some. intros [v (p' & a' & d' & r & He & Hl & _)%(gr_pool _ _ Hrep)].
      destruct (rep_plain _ _ _ _ _ _ Hrep Hl).
      apply key3_inj in He as (<- & <- & <-); [congruence|done..]. }
    edestruct (run_write_cases (A:=bool) env) as [Hr|(e & Hn & Hr)];
      [|left; rewrite Hr|right; rewrite Hr; by eauto].
    + unfold_act. rewrite Hget. reflexivity.
    + rewrite bool_decide_eq_false_2 by (by intros []). eexists. split; [done|].
      replace (alter _ _ m) with m.
      2:{ apply map_eq. intros k. destruct (decide (k = (p, a, d))) as [->|Hne];
          [by rewrite lookup_alter_eq, Hm|by rewrite lookup_alter_ne]. }
      eapply (rep_remove_absent db m p a d); try done; simpl;
        autorewrite with rsdk_rw; rewrite ?set_table_ne by done; done.
Qed.

(** Simulation: an operation answers as the specification and leaves the new
    map represented, or fails and leaves the database as it was. *)
Lemma exec_op_refines env db m o :
  grants_rep db m → op_wf o →
  (∃ db', exec_op env o db = (Ok (spec_op o m).1, db') ∧ grants_rep db' (spec_op o m).2) ∨
  (∃ e, ¬ reliable env ∧ exec_op env o db = (Err e, db)).
Proof.
  intros Hrep Hwf. destruct o as [r|now p a d sig]; simpl.
  - destruct (exec_upsert env db m r Hrep Hwf) as [(db' & Hu & Hr)|(e & Hn & Hu)];
      unfold mbind, act_bind; rewrite Hu; simpl; eauto.
  - by apply exec_revoke.
Qed.

(** Traces: each operation runs under its own environment. *)
Fixpoint exec_trace (tr : list (renv (Db T) * grant_op)) (db : Db T) :
    list (grant_op * bool) * Db T :=
  match tr with
  | [] => ([], db)
  | (env, o) :: rest =>
      let '(r, db1) := exec_op env o db in
      let '(outs, db2) := exec_trace rest db1 in
      ((o, is_ok r) :: outs, db2)
  end.

Lemma exec_trace_refines tr db m :
  grants_rep db m → Forall (λ eo, op_wf eo.2) tr →
  grants_rep (exec_trace tr db).2 (spec_trace (exec_trace tr db).1 m).
Proof.
  revert db m. induction tr as [|[env o] tr IH]; intros db m Hrep Hwf; [done|].
  apply Forall_cons in Hwf as [Ho Hwf]. simpl in Ho |- *.
  destruct (exec_op_refines env db m o Hrep Ho) as [(db' & -> & Hrep')|(e & _ & ->)].
  - specialize (IH db' _ Hrep' Hwf). by destruct (exec_trace tr db').
  - specialize (IH db _ Hrep Hwf). by destruct (exec_trace tr db).
Qed.

(** ** Queries *)

Lemma is_grant_active_spec env db m a p d :
  reliable env → grants_rep db m → plain p = true → plain a = true →
  is_grant_active env a p d db =
    (Ok (match m !! (p, a, d) with Some r => is_active r | None => false end), db).
Proof.
  intros Henv Hrep Hp Ha. unfold is_grant_active, reading.
  rewrite (run_read_reliable env _ _ Henv). do 2 f_equal. apply eq_true_iff_eq.
  rewrite bool_decide_eq_true, (gr_analyst _ _ Hrep). split.
  - intros (p' & a' & d' & r & He & Hl & Hact). destruct (rep_plain _ _ _ _ _ _ Hrep Hl).
    apply key3_inj in He as (<- & <- & <-); [by rewrite Hl|done..].
  - destruct (m !! (p, a, d)) as [r|] eqn:Hm; [|done]. eauto 10.
Qed.

Lemma collect_spec {A} (f : string * string → result TxDbError (option A)) l
    (g : string * string → option A) :
  (∀ e, e ∈ l → f e = Ok (g e)) → collect f l = Ok (filter_map g l).
Proof.
  induction l as [|e l IH]; intros Hf; [done|]. simpl. rewrite Hf by set_solver. simpl.
  rewrite IH by set_solver. simpl. by destruct (g e).
Qed.

Definition decode_grant (v : string) : option GrantRecord := ok (from_slice v).

Lemma elem_of_range lo hi (t : T) k v :
  (k, v) ∈ t_range lo hi t ↔
  t_get t k = Some v ∧ str_leb lo k && str_ltb k hi = true.
Proof. rewrite t_range_spec, list_elem_of_In, filter_In, <-list_elem_of_In, t_iter_get. done. Qed.

Lemma list_pool_grants_spec env db m p :
  reliable env → grants_rep db m → plain p = true →
  ∃ out, list_pool_grants env p db = (Ok out, db) ∧
    ∀ r, r ∈ out ↔ ∃ a d, m !! (p, a, d) = Some r.
Proof.
  intros Henv Hrep Hp. unfold list_pool_grants, reading.
  rewrite (run_read_reliable env _ _ Henv).
  rewrite (collect_spec _ _ (λ e, decode_grant e.2)).
  2:{ intros [k v] [Hk _]%elem_of_range. apply (gr_pool _ _ Hrep) in Hk as (? & ? & ? & r & _ & _ & Hv).
      unfold decode_grant. simpl. by rewrite (from_to _ _ Hv). }
  eexists. split; [done|]. intros r. rewrite elem_of_filter_map. split.
  - intros ([k v] & [Hk Hin]%elem_of_range & Hd).
    apply (gr_pool _ _ Hrep) in Hk as (p' & a & d & r' & -> & Hl & Hv).
    destruct (rep_plain _ _ _ _ _ _ Hrep Hl).
    apply key3_in_range in Hin as ->; [|done..]. exists a, d.
    unfold decode_grant in Hd. simpl in Hd. rewrite (from_to _ _ Hv) in Hd. by simplify_eq/=.
  - intros (a & d & Hl). destruct (to_vec_total r) as [v Hv].
    destruct (rep_plain _ _ _ _ _ _ Hrep Hl). exists (key3 p a d, v). split.
    + apply elem_of_range. split; [apply (gr_pool _ _ Hrep); eauto 10|by apply key3_in_range].
    + unfold decode_grant. simpl. by rewrite (from_to _ _ Hv).
Qed.

Definition analyst_entry (by_pool : T) (a : string) (e : string * string) :
    option GrantRecord :=
  '(_, p, d) ← splitn3 "|" e.1;
  v ← t_get by_pool (key3 p a d);
  r ← decode_grant v;
  if is_active r then Some r else None.

(** An entry of the analyst index leads to its active record. *)
Lemma analyst_entry_spec db m a k v :
  grants_rep db m → plain a = true →
  (k, v) ∈ t_range (a +:+ bar) (a +:+ bar +:+ max_char) (db GRANTS_BY_ANALYST) →
  ∃ p d r w, k = key3 a p d ∧ m !! (p, a, d) = Some r ∧ is_active r = true ∧
    splitn3 "|" k = Some (a, p, d) ∧ t_get (db GRANTS_BY_POOL) (key3 p a d) = Some w ∧
    from_slice w = Ok r.
Proof.
  intros Hrep Ha [Hk Hin]%elem_of_range.
  destruct (proj1 (gr_analyst _ _ Hrep k)) as (p & a' & d & r & -> & Hl & Hact); [by eauto|].
  destruct (rep_plain _ _ _ _ _ _ Hrep Hl). apply key3_in_range in Hin as ->; [|done..].
  destruct (to_vec_total r) as [w Hw]. exists p, d, r, w. repeat split; try done.
  - by apply splitn3_key3.
  - apply (gr_pool _ _ Hrep). eauto 10.
  - by apply from_to.
Qed.

Lemma list_grants_by_analyst_spec env db m a :
  reliable env → grants_rep db m → plain a = true →
  ∃ out, list_grants_by_analyst env a db = (Ok out, db) ∧
    ∀ r, r ∈ out ↔ ∃ p d, m !! (p, a, d) = Some r ∧ is_active r = true.
Proof.
  intros Henv Hrep Ha. unfold list_grants_by_analyst, reading.
  rewrite (run_read_reliable env _ _ Henv).
  rewrite (collect_spec _ _ (analyst_entry (db GRANTS_BY_POOL) a)).
  2:{ intros [k v] Hin. destruct (analyst_entry_spec _ _ _ _ _ Hrep Ha Hin)
        as (p & d & r & w & -> & _ & Hact & Hs & Hw & Hr).
      unfold analyst_entry, decode_grant. simpl. rewrite Hs. simpl. rewrite Hw. simpl.
      rewrite Hr. simpl. rewrite Hact. unfold is_active in Hact.
      apply bool_decide_eq_true in Hact. by rewrite Hact. }
  eexists. split; [done|]. intros r. rewrite elem_of_filter_map. split.
  - intros ([k v] & Hin & He). destruct (analyst_entry_spec _ _ _ _ _ Hrep Ha Hin)
      as (p & d & r' & w & -> & Hl & Hact & Hs & Hw & Hr).
    unfold analyst_entry, decode_grant in He. simpl in He. rewrite Hs in He. simpl in He.
    rewrite Hw in He. simpl in He. rewrite Hr in He. simpl in He. rewrite Hact in He.
    simplify_eq. eauto.
  - intros (p & d & Hl & Hact). destruct (rep_plain _ _ _ _ _ _ Hrep Hl).
    destruct (proj2 (gr_analyst _ _ Hrep (key3 a p d))) as [v Hv]; [by eauto 10|].
    assert (Hin : (key3 a p d, v) ∈
      t_range (a +:+ bar) (a +:+ bar +:+ max_char) (db GRANTS_BY_ANALYST)).
    { apply elem_of_range. split; [done|by apply key3_in_range]. }
    exists (key3 a p d, v). split; [done|].
    destruct (analyst_entry_spec _ _ _ _ _ Hrep Ha Hin)
      as (p' & d' & r' & w & He & Hl' & Hact' & Hs & Hw & Hr).
    destruct (rep_plain _ _ _ _ _ _ Hrep Hl').
    apply key3_inj in He as (_ & <- & <-); [|done..].
    unfold analyst_entry, decode_grant. simpl. rewrite Hs. simpl. rewrite Hw. simpl.
    rewrite Hr. simpl. rewrite Hact'. congruence.
Qed.
End Rep.

(** ** Properties *)

Section Claims.
Context {T : Type} `{RedbTableLaws T, RedbTxnLaws (Db T), SerdeLaws GrantRecord}.

Lemma spec_op_stays_revoked o m k :
  (∀ r, o = OpUpsert r → key_of r ≠ k) →
  (match m !! k with Some r => is_active r | None => false end) = false →
  (match (spec_op o m).2 !! k with Some r => is_active r | None => false end) = false.
Proof.
  intros Ho Hm. destruct o as [r|now p a d sig]; simpl.
  - rewrite lookup_insert_ne by eauto. done.
  - destruct (decide (k = (p, a, d))) as [->|Hne].
    + rewrite lookup_alter_eq. by destruct (m !! (p, a, d)).
    + by rewrite lookup_alter_ne.
Qed.

Lemma spec_trace_stays_revoked ops m k :
  (∀ r b, (OpUpsert r, b) ∈ ops → key_of r ≠ k) →
  (match m !! k with Some r => is_active r | None => false end) = false →
  (match spec_trace ops m !! k with Some r => is_active r | None => false end) = false.
Proof.
  revert m. induction ops as [|[o b] ops IH]; intros m Ho Hm; [done|]. simpl.
  apply IH; [set_solver|]. destruct b; [|done].
  apply spec_op_stays_revoked; [|done]. intros r ->. set_solver.
Qed.

Lemma exec_trace_ops (tr : list (renv (Db T) * grant_op)) db o b :
  (o, b) ∈ (exec_trace tr db).1 → ∃ env, (env, o) ∈ tr.
Proof.
  revert db. induction tr as [|[env o'] tr IH]; intros db; simpl; [set_solver|].
  destruct (exec_op env o' db) as [r db1]. specialize (IH db1).
  destruct (exec_trace tr db1) as [outs db2]. simpl in *. set_solver.
Qed.

(** Access decisions follow the grant history.  Starting from a fresh
    database and running any sequence of grant insertions and revocations, with
    any of their transactions failing, the access check of a DRT execution
    answers true exactly when the map built by the operations that succeeded
    holds an active grant for that pool, analyst and DRT. *)
Theorem grant_history_decides_access (tr : list (renv (Db T) * grant_op)) (env : renv (Db T))
    (p a d : string)
    (Hwf : Forall (λ eo, op_wf eo.2) tr) (Henv : reliable env)
    (Hp : plain p = true) (Ha : plain a = true) :
  let outs := (exec_trace tr open_fresh).1 in
  let db := (exec_trace tr open_fresh).2 in
  is_grant_active env a p d db =
    (Ok (match spec_trace outs ∅ !! (p, a, d) with
         | Some r => is_active r
         | None => false
         end), db).
Proof.
  intros outs db. apply is_grant_active_spec; try done.
  apply exec_trace_refines; [apply rep_fresh|done].
Qed.

(** Revocation is final.  Once a revocation of a grant has committed,
    whatever happened before, the access check refuses the analyst on that pool
    and DRT after any further sequence of grant operations that does not insert
    a grant for the same pool, analyst and DRT. *)
Theorem revocation_is_final (tr1 tr2 : list (renv (Db T) * grant_op)) (env1 env : renv (Db T))
    (now : Z) (p a d sig : string) (b : bool) (db1 : Db T)
    (Hwf1 : Forall (λ eo, op_wf eo.2) tr1) (Hwf2 : Forall (λ eo, op_wf eo.2) tr2)
    (Hp : plain p = true) (Ha : plain a = true) (Henv : reliable env)
    (Hrev : revoke_grant_local env1 now p a d sig (exec_trace tr1 open_fresh).2 = (Ok b, db1))
    (Hno : ∀ e r, (e, OpUpsert r) ∈ tr2 → key_of r ≠ (p, a, d)) :
  is_grant_active env a p d (exec_trace tr2 db1).2 = (Ok false, (exec_trace tr2 db1).2).
Proof.
  assert (Hrep : grants_rep (exec_trace tr1 open_fresh).2
    (spec_trace (exec_trace tr1 open_fresh).1 ∅))
    by (apply exec_trace_refines; [apply rep_fresh|done]).
  destruct (exec_revoke env1 _ _ now p a d sig Hrep (conj Hp Ha)) as [(db' & He & Hr)|(e & _ & He)];
    rewrite Hrev in He; simplify_eq.
  rewrite (is_grant_active_spec env _ _ a p d Henv (exec_trace_refines tr2 _ _ Hr Hwf2) Hp Ha).
  do 2 f_equal. apply spec_trace_stays_revoked.
  - intros r b [e Hin]%exec_trace_ops. eauto.
  - rewrite lookup_alter_eq. by destruct (_ !! (p, a, d)).
Qed.

(** The grant listings are exact.  After any sequence of grant
    operations, the analyst's listing holds precisely the active grants of that
    analyst and the pool's listing precisely the grants of that pool, active or
    revoked, of the map the successful operations built. *)
Theorem grant_listings_exact (tr : list (renv (Db T) * grant_op)) (env : renv (Db T))
    (p a : string)
    (Hwf : Forall (λ eo, op_wf eo.2) tr) (Henv : reliable env)
    (Hp : plain p = true) (Ha : plain a = true) :
  let m := spec_trace (exec_trace tr open_fresh).1 ∅ in
  let db := (exec_trace tr open_fresh).2 in
  (∃ mine, list_grants_by_analyst env a db = (Ok mine, db) ∧
     ∀ r, r ∈ mine ↔ ∃ p' d, m !! (p', a, d) = Some r ∧ is_active r = true) ∧
  (∃ all, list_pool_grants env p db = (Ok all, db) ∧
     ∀ r, r ∈ all ↔ ∃ a' d, m !! (p, a', d) = Some r).
Proof.
  intros m db.
  assert (Hrep : grants_rep db m) by (apply exec_trace_refines; [apply rep_fresh|done]).
  split; [by apply list_grants_by_analyst_spec|by apply list_pool_grants_spec].
Qed.
End Claims.

(** *** Witnesses: a grant whose commit fails, one that succeeds, a revocation *)

Definition grant0 : GrantRecord :=
  mkGrantRecord "pool" "ana" "mean" "pda" "00" "w" 5 "sig" GActive None None.
Definition trace0 : list (renv (Db table0) * grant_op) :=
  [(CommitFails "disk", OpUpsert grant0); (env0, OpUpsert grant0)].
Lemma trace0_wf : Forall (λ eo, op_wf eo.2) trace0.
Proof. repeat constructor. Qed.

Lemma grant_history_decides_access_witness :
  is_grant_active env0 "ana" "pool" "mean" (exec_trace trace0 open_fresh).2 =
    (Ok true, (exec_trace trace0 open_fresh).2).
Proof.
  rewrite (grant_history_decides_access trace0 env0 "pool" "ana" "mean" trace0_wf
    env0_reliable eq_refl eq_refl).
  reflexivity.
Defined.

Definition db_revoked : Db table0 :=
  (revoke_grant_local env0 9 "pool" "ana" "mean" "sig2" (exec_trace trace0 open_fresh).2).2.
Lemma revocation_is_final_witness :
  is_grant_active env0 "ana" "pool" "mean" (exec_trace [] db_revoked).2 =
    (Ok false, (exec_trace [] db_revoked).2).
Proof.
  apply (revocation_is_final trace0 [] env0 env0 9 "pool" "ana" "mean" "sig2" true db_revoked
    trace0_wf (Forall_nil_2 _) eq_refl eq_refl env0_reliable).
  - apply surjective_pairing_with. vm_compute. reflexivity.
  - intros e r Hin. by apply not_elem_of_nil in Hin.
Defined.
Lemma grant_listings_exact_witness :
  let m := spec_trace (exec_trace trace0 open_fresh).1 ∅ in
  let db := (exec_trace trace0 open_fresh).2 in
  (∃ mine, list_grants_by_analyst env0 "ana" db = (Ok mine, db) ∧
     ∀ r, r ∈ mine ↔ ∃ p' d, m !! (p', "ana", d) = Some r ∧ is_active r = true) ∧
  (∃ all, list_pool_grants env0 "pool" db = (Ok all, db) ∧
     ∀ r, r ∈ all ↔ ∃ a' d, m !! ("pool", a', d) = Some r).
Proof.
  exact (grant_listings_exact trace0 env0 "pool" "ana" trace0_wf env0_reliable
    eq_refl eq_refl).
Defined.
