(* ===== verification/TxNonces.v ===== *)
(** * Replay protection and the one-wallet-per-user index

    The nonce table of the transaction database ([record_nonce],
    [purge_expired_nonces]) over sequences of operations with failing
    transactions, and the owner index behind the 1-wallet-per-user rule. *)
From S2P Require Import Prelude.
From S2P Require Import RustStr.
From S2P Require Import RustFmt.
From S2P Require Import Errors.
From S2P Require Import Types.
From S2P Require Import Interfaces.
From S2P Require Import TxDatabase.
From S2P Require Import Instances.
From S2P Require Import TxScans.

Local Open Scope Z_scope.

(** ** Stamps *)

Lemma le_value_bytes (n : nat) (z : Z) : le_value (le_bytes n z) = z mod 256 ^ Z.of_nat n.
Proof.
  revert z. induction n as [|n IH]; intros z; [by rewrite Z.mod_1_r|].
  cbn [le_bytes le_value]. rewrite IH, byte_char_of by (apply Z.mod_pos_bound; lia).
  rewrite Nat2Z.inj_succ, Z.pow_succ_r by lia.
  rewrite Z.rem_mul_r; [done|lia|]. apply Z.pow_pos_nonneg; lia.
Qed.
Lemma length_le_bytes n z : String.length (le_bytes n z) = n.
Proof. revert z. induction n as [|n IH]; intros z; simpl; [done|]. by rewrite IH. Qed.

Lemma i64_le_round (z : Z) : is_i64 z → i64_from_le_bytes (i64_to_le_bytes z) = z.
Proof.
  unfold is_i64, I64_MIN, I64_MAX, i64_from_le_bytes, i64_to_le_bytes. intros Hz.
  rewrite length_le_bytes, le_value_bytes. change (256 ^ Z.of_nat 8) with (2 ^ 64).
  cbn [Nat.eqb]. destruct (decide (0 ≤ z)).
  - rewrite Z.mod_small by lia. destruct (Z.ltb_spec z (2 ^ 63)); lia.
  - rewrite <-(Z.mod_add z 1) by lia. rewrite Z.mod_small by lia.
    destruct (Z.ltb_spec (z + 1 * 2 ^ 64) (2 ^ 63)); lia.
Qed.
Lemma i64_sub_small (a b : Z) : is_i64 (a - b) → i64_sub a b = a - b.
Proof.
  unfold is_i64, I64_MIN, I64_MAX, i64_sub, wrap64. intros Hz. destruct (decide (0 ≤ a - b)).
  - rewrite Z.mod_small by lia. destruct (Z.ltb_spec (a - b) (2 ^ 63)); lia.
  - rewrite <-(Z.mod_add (a - b) 1) by lia. rewrite Z.mod_small by lia.
    destruct (Z.ltb_spec (a - b + 1 * 2 ^ 64) (2 ^ 63)); lia.
Qed.

(** ** Operations *)

Section Nonces.
Context {T : Type} `{RedbTableLaws T, RedbTxnLaws (Db T)}.

Definition expired (cutoff : Z) (e : string * string) : bool := i64_from_le_bytes e.2 <? cutoff.

Lemma remove_keys_spec keys c (db : Db T) :
  ∃ db', remove_keys NONCES keys c db = (Ok (c + length keys)%nat, db') ∧
    (∀ k, t_get (db' NONCES) k = if decide (k ∈ keys) then None else t_get (db NONCES) k) ∧
    ∀ n, n ≠ NONCES → db' n = db n.
Proof.
  revert c db. induction keys as [|k keys IH]; intros c db.
  - exists db. cbn. rewrite Nat.add_0_r. split; [done|]. split; [|done].
    intros k. destruct (decide (k ∈ [])); [set_solver|done].
  - destruct (IH (S c) (set_table NONCES (t_remove k (db NONCES)) db)) as (db' & Hr & Hg & Hf).
    exists db'. cbn [remove_keys length].
    unfold mbind, act_bind, tbl_remove, updating. rewrite Hr.
    split; [f_equal; f_equal; lia|]. split.
    + intros j. rewrite Hg, set_table_eq, t_get_remove.
      destruct (decide (j ∈ keys)), (decide (k = j)), (decide (j ∈ k :: keys)); set_solver.
    + intros n Hn. rewrite Hf by done. by apply set_table_ne.
Qed.

Lemma purge_body (cutoff : Z) (db : Db T) :
  ∃ db' n,
    (entries ← reading (λ db : Db T, Ok (t_iter (db NONCES)));
     remove_keys NONCES (List.filter (λ e, i64_from_le_bytes e.2 <? cutoff) entries).*1 0
       : act (Db T) TxDbError nat) db = (Ok n, db') ∧
    n = length (List.filter (expired cutoff) (t_iter (db NONCES))) ∧
    ∀ k v, t_get (db' NONCES) k = Some v ↔
      t_get (db NONCES) k = Some v ∧ cutoff ≤ i64_from_le_bytes v.
Proof.
  destruct (remove_keys_spec (List.filter (expired cutoff) (t_iter (db NONCES))).*1 0 db)
    as (db' & Hr & Hg & _).
  exists db', (length (List.filter (expired cutoff) (t_iter (db NONCES)))).
  split; [|split; [done|]].
  { unfold mbind, act_bind, reading. fold (expired cutoff). rewrite Hr. by rewrite length_fmap. }
  intros k v. rewrite Hg. case_decide as Hin.
  - split; [done|]. intros [Hv Hc]. apply list_elem_of_fmap in Hin as ([k' v'] & -> & Hin).
    apply list_elem_of_In, filter_In in Hin as [Hin He].
    apply list_elem_of_In, t_iter_get in Hin. unfold expired in He. simpl in *.
    apply Z.ltb_lt in He. simplify_eq. lia.
  - split; [|by intros []]. intros Hv. split; [done|].
    destruct (decide (cutoff ≤ i64_from_le_bytes v)); [done|]. exfalso. apply Hin.
    apply list_elem_of_fmap. exists (k, v). split; [done|].
    apply list_elem_of_In, filter_In. rewrite <-list_elem_of_In, t_iter_get.
    split; [done|]. unfold expired. simpl. apply Z.ltb_lt. lia.
Qed.

(** The nonce operations in any order, each with its own environment. *)
Inductive nonce_op :=
| OpRecord (now : Z) (nonce : string)
| OpPurge (now max_age_secs : Z).
Definition exec_nonce (env : renv (Db T)) (o : nonce_op) (db : Db T) : Db T :=
  match o with
  | OpRecord now n => (record_nonce env now n db).2
  | OpPurge now age => (purge_expired_nonces env now age db).2
  end.
Definition exec_nonces (tr : list (renv (Db T) * nonce_op)) (db : Db T) : Db T :=
  foldl (λ db eo, exec_nonce eo.1 eo.2 db) db tr.

(** The operation is not a purge that would drop a stamp of time [t]. *)
Definition spares (t : Z) (o : nonce_op) : Prop :=
  match o with OpRecord _ _ => True | OpPurge now age => i64_sub now age ≤ t end.

Lemma record_body now n (db : Db T) :
  (existing ← tbl_get NONCES n;
   match existing with
   | Some _ => mret false
   | None => tbl_insert NONCES n (i64_to_le_bytes now);; mret true
   end : act (Db T) TxDbError bool) db =
  match t_get (db NONCES) n with
  | Some _ => (Ok false, db)
  | None => (Ok true, set_table NONCES (t_insert n (i64_to_le_bytes now) (db NONCES)) db)
  end.
Proof. unfold_act. by destruct (t_get (db NONCES) n). Qed.

Lemma nonce_kept env o (db : Db T) t n :
  is_i64 t → spares t o → t_get (db NONCES) n = Some (i64_to_le_bytes t) →
  t_get (exec_nonce env o db NONCES) n = Some (i64_to_le_bytes t).
Proof.
  intros Ht Ho Hn. destruct o as [now k|now age]; simpl.
  - apply (run_write_preserves (λ db, t_get (db NONCES) n = Some (i64_to_le_bytes t))); [|done].
    intros s b s' Hs. rewrite record_body. destruct (t_get (s NONCES) k) eqn:Hk;
      intros Hx; simplify_eq; [done|]. rewrite set_table_eq, t_get_insert_ne; [done|congruence].
  - apply (run_write_preserves (λ db, t_get (db NONCES) n = Some (i64_to_le_bytes t))); [|done].
    intros s b s' Hs Hx.
    destruct (purge_body (i64_sub now age) s) as (db' & m & Hb & _ & Hg).
    rewrite Hb in Hx. simplify_eq. apply Hg. split; [done|]. rewrite i64_le_round; done.
Qed.

Lemma nonces_kept tr (db : Db T) t n :
  is_i64 t → Forall (λ eo, spares t eo.2) tr →
  t_get (db NONCES) n = Some (i64_to_le_bytes t) →
  t_get (exec_nonces tr db NONCES) n = Some (i64_to_le_bytes t).
Proof.
  intros Ht Htr. revert db. induction Htr as [|[e o] tr Ho _ IH]; intros db Hn; [done|].
  apply IH. by apply nonce_kept.
Qed.

(** Replay protection.  A nonce that was recorded as new at time [t] is
    reported as a replay after any sequence of further recordings and purges,
    with any of them failing, as long as no purge has a cutoff after [t]; the
    replay changes nothing. *)
Theorem nonce_replay_detected (env1 env : renv (Db T)) (db db1 : Db T)
    (t now : Z) (n : string) (tr : list (renv (Db T) * nonce_op))
    (Ht : is_i64 t) (Henv : reliable env)
    (Hrec : record_nonce env1 t n db = (Ok true, db1))
    (Htr : Forall (λ eo, spares t eo.2) tr) :
  record_nonce env now n (exec_nonces tr db1) = (Ok false, exec_nonces tr db1).
Proof.
  assert (Hn : t_get (db1 NONCES) n = Some (i64_to_le_bytes t)).
  { apply run_write_ok in Hrec. rewrite record_body in Hrec.
    destruct (t_get (db NONCES) n); simplify_eq. by rewrite set_table_eq, t_get_insert_eq. }
  unfold record_nonce. rewrite (run_write_reliable env _ _ Henv), record_body.
  by rewrite (nonces_kept tr db1 t n).
Qed.

(** Purging is exact.  A purge removes the nonces whose stamp is older
    than [now - max_age], reports how many there were, keeps every other nonce
    with its stamp, and a second purge at the same time removes nothing. *)
Theorem purge_expired_nonces_exact (env : renv (Db T)) (db : Db T) (now age : Z)
    (Henv : reliable env) (Hcut : is_i64 (now - age)) :
  ∃ db',
    purge_expired_nonces env now age db =
      (Ok (length (List.filter (expired (now - age)) (t_iter (db NONCES)))), db') ∧
    (∀ k v, t_get (db' NONCES) k = Some v ↔
       t_get (db NONCES) k = Some v ∧ now - age ≤ i64_from_le_bytes v) ∧
    (purge_expired_nonces env now age db').1 = Ok 0%nat.
Proof.
  unfold purge_expired_nonces. rewrite i64_sub_small by done.
  rewrite !(run_write_reliable env _ _ Henv).
  destruct (purge_body (now - age) db) as (db' & n & Hb & -> & Hg).
  exists db'. rewrite Hb. split; [done|]. split; [done|].
  rewrite (run_write_reliable env _ _ Henv).
  destruct (purge_body (now - age) db') as (db'' & n & -> & -> & _). simpl. f_equal.
  apply length_zero_iff_nil, elem_of_nil_inv. intros [k v] Hin.
  apply list_elem_of_In, filter_In in Hin as [Hin He].
  apply list_elem_of_In, t_iter_get, Hg in Hin as [_ Hc].
  unfold expired in He. simpl in He. lia.
Qed.

(** ** The owner index *)

Lemma register_body u w (db : Db T) :
  (existing ← tbl_get WALLET_BY_OWNER u;
   match existing with
   | Some existing_id => fail (DbDuplicateWallet existing_id)
   | None => tbl_insert WALLET_BY_OWNER u w
   end : act (Db T) TxDbError unit) db =
  match t_get (db WALLET_BY_OWNER) u with
  | Some x => (Err (DbDuplicateWallet x), db)
  | None => (Ok (), set_table WALLET_BY_OWNER (t_insert u w (db WALLET_BY_OWNER)) db)
  end.
Proof. unfold_act. by destruct (t_get (db WALLET_BY_OWNER) u). Qed.

(** One wallet per user.  Registering an owner succeeds exactly when the
    user has no wallet, and then the lookup finds the new wallet and every other
    user's entry is kept; otherwise it fails with the existing wallet's id and
    changes nothing.  After removing the entry the user may register again. *)
Theorem one_wallet_per_user (env : renv (Db T)) (db : Db T) (u w w2 : string)
    (Henv : reliable env) :
  match t_get (db WALLET_BY_OWNER) u with
  | Some x => register_wallet_owner env u w db = (Err (DbDuplicateWallet x), db)
  | None => ∃ db1, register_wallet_owner env u w db = (Ok (), db1) ∧
      get_wallet_id_by_owner env u db1 = (Ok (Some w), db1) ∧
      (∀ u', u' ≠ u → t_get (db1 WALLET_BY_OWNER) u' = t_get (db WALLET_BY_OWNER) u') ∧
      register_wallet_owner env u w2 db1 = (Err (DbDuplicateWallet w), db1) ∧
      (register_wallet_owner env u w2 (remove_wallet_owner env u db1).2).1 = Ok ()
  end.
Proof.
  unfold register_wallet_owner, remove_wallet_owner, get_wallet_id_by_owner, reading.
  rewrite !(run_write_reliable env _ _ Henv), !register_body.
  destruct (t_get (db WALLET_BY_OWNER) u) eqn:Hu; [done|].
  eexists. split; [done|]. rewrite (run_read_reliable env _ _ Henv), set_table_eq, t_get_insert_eq.
  split; [done|]. split; [intros u' Hu'; rewrite ?set_table_eq; by apply t_get_insert_ne|].
  rewrite !(run_write_reliable env _ _ Henv), !register_body. simpl.
  rewrite !set_table_eq, t_get_insert_eq. split; [done|].
  by rewrite t_get_remove_eq.
Qed.
End Nonces.

(** *** Witnesses *)

Lemma nonce_replay_detected_witness :
  let db1 := (record_nonce env0 100 "n" db0).2 in
  let tr := [(CommitFails "disk" : renv (Db table0), OpRecord 120 "m"); (env0, OpPurge 130 60)] in
  record_nonce env0 140 "n" (exec_nonces tr db1) = (Ok false, exec_nonces tr db1).
Proof.
  intros db1 tr. apply (nonce_replay_detected env0 env0 db0 db1 100).
  - by vm_compute.
  - done.
  - apply surjective_pairing_with. vm_compute. reflexivity.
  - unfold tr. repeat constructor; simpl; by vm_compute.
Defined.
Lemma purge_expired_nonces_exact_witness :
  let db := (record_nonce env0 100 "n" db0).2 in
  ∃ db', purge_expired_nonces env0 500 60 db =
      (Ok (length (List.filter (expired (500 - 60)) (t_iter (db NONCES)))), db') ∧
    (∀ k v, t_get (db' NONCES) k = Some v ↔
       t_get (db NONCES) k = Some v ∧ 500 - 60 ≤ i64_from_le_bytes v) ∧
    (purge_expired_nonces env0 500 60 db').1 = Ok 0%nat.
Proof.
  intros db. apply (purge_expired_nonces_exact env0 db 500 60 env0_reliable). by vm_compute.
Defined.
Lemma one_wallet_per_user_witness :
  ∃ db1, register_wallet_owner env0 "u" "w" db0 = (Ok (), db1) ∧
    get_wallet_id_by_owner env0 "u" db1 = (Ok (Some "w"), db1) ∧
    (∀ u', u' ≠ "u" → t_get (db1 WALLET_BY_OWNER) u' = t_get (db0 WALLET_BY_OWNER) u') ∧
    register_wallet_owner env0 "u" "w2" db1 = (Err (DbDuplicateWallet "w"), db1) ∧
    (register_wallet_owner env0 "u" "w2" (remove_wallet_owner env0 "u" db1).2).1 = Ok ().
Proof. exact (one_wallet_per_user env0 db0 "u" "w" "w2" env0_reliable). Defined.
