(* ===== verification/TxAudit.v ===== *)
(** * The audit tables refine an append-only log

    [log_audit_event] writes an event to three tables in one transaction; the
    listings by resource and by date read an index and then the event store.
    The specification is the list of the events whose transaction committed. *)
From S2P Require Import Prelude.
From S2P Require Import RustStr.
From S2P Require Import RustFmt.
From S2P Require Import Errors.
From S2P Require Import Types.
From S2P Require Import Interfaces.
From S2P Require Import TxDatabase.
From S2P Require Import Instances.
From S2P Require Import TxScans.

Local Open Scope Z_scope.
#[local] Arguments String.append : simpl nomatch.

(** What the server logs: an event id (a UUID) and a resource id without the
    separator, and a date after 1970. *)
Definition event_wf (ev : AuditEvent) : Prop :=
  no_char "|" (a_event_id ev) = true ∧ 0 ≤ timestamp (a_timestamp ev) ≤ I64_MAX ∧
  ∀ r, a_resource_id ev = Some r → no_char "|" r = true.

Definition resource_key (ev : AuditEvent) (r : string) : string :=
  make_pool_ts_key r (timestamp (a_timestamp ev)) (a_event_id ev).

Section AuditRep.
Context {T : Type} `{RedbTableLaws T, RedbTxnLaws (Db T), SerdeLaws AuditEvent}.
Context `{DbCratesLaws}.

Definition date_key (ev : AuditEvent) : string := key2 (fmt_ymd (a_timestamp ev)) (a_event_id ev).

Record audit_rep (db : Db T) (log : list AuditEvent) : Prop := {
  au_ids : NoDup (a_event_id <$> log);
  au_wf : Forall event_wf log;
  au_events id v : t_get (db AUDIT_EVENTS) id = Some v ↔
    ∃ ev, ev ∈ log ∧ id = a_event_id ev ∧ to_vec ev = Ok v;
  au_resource k : is_Some (t_get (db AUDIT_BY_RESOURCE) k) ↔
    ∃ ev r, ev ∈ log ∧ a_resource_id ev = Some r ∧ k = resource_key ev r;
  au_date k : is_Some (t_get (db AUDIT_BY_DATE) k) ↔ ∃ ev, ev ∈ log ∧ k = date_key ev;
}.

Lemma audit_fresh : audit_rep open_fresh [].
Proof.
  split; unfold open_fresh; [constructor..| | |]; intros; rewrite t_get_empty;
    rewrite <-?not_eq_None_Some; set_solver.
Qed.

Lemma id_inj db log ev ev' :
  audit_rep db log → ev ∈ log → ev' ∈ log → a_event_id ev = a_event_id ev' → ev = ev'.
Proof.
  intros Hrep Hev Hev' He. apply list_elem_of_lookup in Hev as [i Hi].
  apply list_elem_of_lookup in Hev' as [j Hj].
  assert (i = j) as ->; [|congruence].
  apply (NoDup_lookup (a_event_id <$> log) i j (a_event_id ev));
    [apply (au_ids _ _ Hrep)|by rewrite list_lookup_fmap, Hi|].
  by rewrite list_lookup_fmap, Hj, He.
Qed.

Lemma is_Some_insert (t : T) k v j :
  is_Some (t_get (t_insert k v t) j) ↔ j = k ∨ is_Some (t_get t j).
Proof. rewrite t_get_insert. case_decide; naive_solver. Qed.

(** Adding a fresh event to the three tables extends the log. *)
Lemma audit_store db log ev v db' :
  audit_rep db log → event_wf ev → a_event_id ev ∉ a_event_id <$> log → to_vec ev = Ok v →
  db' AUDIT_EVENTS = t_insert (a_event_id ev) v (db AUDIT_EVENTS) →
  db' AUDIT_BY_RESOURCE = match a_resource_id ev with
                          | Some r => t_insert (resource_key ev r) "" (db AUDIT_BY_RESOURCE)
                          | None => db AUDIT_BY_RESOURCE
                          end →
  db' AUDIT_BY_DATE = t_insert (date_key ev) "" (db AUDIT_BY_DATE) →
  audit_rep db' (ev :: log).
Proof.
  intros Hrep Hwf Hid Hv He Hr Hd. split.
  - apply NoDup_cons. split; [done|apply (au_ids _ _ Hrep)].
  - constructor; [done|apply (au_wf _ _ Hrep)].
  - intros id w. rewrite He, t_get_insert. case_decide as Hx.
    + subst id. split; [intros [= <-]; exists ev; set_solver|].
      intros (ev' & [->|Hin]%elem_of_cons & Hi & Hw); [congruence|].
      exfalso. apply Hid. rewrite Hi. apply list_elem_of_fmap. eauto.
    + rewrite (au_events _ _ Hrep). set_solver.
  - intros k. rewrite Hr. destruct (a_resource_id ev) as [r|] eqn:Hres.
    + rewrite is_Some_insert, (au_resource _ _ Hrep). split.
      * intros [->|(ev' & r' & ? & ? & ?)]; [exists ev, r|exists ev', r']; set_solver.
      * intros (ev' & r' & [->|Hin]%elem_of_cons & Hr' & ->); [left; congruence|eauto 10].
    + rewrite (au_resource _ _ Hrep). split; intros (ev' & r' & Hin & Hr' & ->);
        exists ev', r'; [set_solver|]. apply elem_of_cons in Hin as [->|?]; [congruence|done].
  - intros k. rewrite Hd, is_Some_insert, (au_date _ _ Hrep). set_solver.
Qed.

Lemma log_body db log ev :
  audit_rep db log → event_wf ev → a_event_id ev ∉ a_event_id <$> log → ∀ env,
  (∃ db', log_audit_event env ev db = (Ok (), db') ∧ audit_rep db' (ev :: log)) ∨
  (∃ e, log_audit_event env ev db = (Err e, db)).
Proof.
  intros Hrep Hwf Hid env. destruct (to_vec_total ev) as [v Hv].
  unfold log_audit_event. unfold mbind at 1, act_bind at 1, lift, json_err. rewrite Hv. simpl.
  match goal with |- context [run_write env ?m db] => set (body := m) end.
  assert (Hb : ∃ db', body db = (Ok (), db') ∧ audit_rep db' (ev :: log)).
  { unfold body. destruct (a_resource_id ev) as [r|] eqn:Hr; unfold_act;
      eexists; (split; [reflexivity|]); eapply (audit_store db log ev v); try done;
      rewrite ?Hr; autorewrite with rsdk_rw; rewrite ?set_table_ne by done; done. }
  destruct Hb as (db' & Hb & Hrep').
  destruct (run_write_cases env _ _ _ _ Hb) as [Hw|(e & _ & Hw)]; rewrite Hw; eauto.
Qed.

(** Logging a sequence of events, each under its own environment. *)
Fixpoint log_all (evs : list (renv (Db T) * AuditEvent)) (db : Db T)
    (logged : list AuditEvent) : Db T * list AuditEvent :=
  match evs with
  | [] => (db, logged)
  | (env, ev) :: rest =>
      match log_audit_event env ev db with
      | (Ok _, db') => log_all rest db' (ev :: logged)
      | (Err _, db') => log_all rest db' logged
      end
  end.

Lemma log_all_rep evs db log :
  audit_rep db log → Forall (λ ee, event_wf ee.2) evs →
  NoDup ((a_event_id <$> log) ++ ((λ ee, a_event_id ee.2) <$> evs)) →
  audit_rep (log_all evs db log).1 (log_all evs db log).2.
Proof.
  revert db log. induction evs as [|[env ev] evs IH]; intros db log Hrep Hwf Hnd; [done|].
  apply Forall_cons in Hwf as [Hev Hwf]. simpl in *.
  assert (Hid : a_event_id ev ∉ a_event_id <$> log).
  { intros Hin. apply NoDup_app in Hnd as (_ & Hd & _). apply (Hd _ Hin). by left. }
  destruct (log_body db log ev Hrep Hev Hid env) as [(db' & -> & Hrep')|[e ->]].
  - apply IH; [done..|]. csimpl. by rewrite Permutation_middle.
  - apply IH; [done..|]. rewrite <-Permutation_middle in Hnd. by apply NoDup_cons in Hnd as [_ ?].
Qed.

(** ** Listings *)

Definition by_resource (r : string) (log : list AuditEvent) : list AuditEvent :=
  filter (λ ev, a_resource_id ev = Some r) log.

(** Newest first, no event twice. *)
Definition newer (a b : AuditEvent) : Prop :=
  timestamp (a_timestamp b) ≤ timestamp (a_timestamp a) ∧ a ≠ b.

Lemma event_of_id_spec db log ev :
  audit_rep db log → ev ∈ log → event_of_id (db AUDIT_EVENTS) (a_event_id ev) = Some ev.
Proof.
  intros Hrep Hev. destruct (to_vec_total ev) as [v Hv]. unfold event_of_id.
  rewrite (proj2 (au_events _ _ Hrep (a_event_id ev) v)) by eauto. simpl.
  by rewrite (from_to _ _ Hv).
Qed.

(** An entry found by the scan for [r] belongs to one logged event of [r]. *)
Lemma resource_entry db log r k v :
  audit_rep db log → no_char "|" r = true →
  (k, v) ∈ prefixed (r +:+ bar) (db AUDIT_BY_RESOURCE) →
  ∃ ev, ev ∈ by_resource r log ∧ k = resource_key ev r ∧
    event_of_id (db AUDIT_EVENTS) (rsplit_next "|" k) = Some ev.
Proof.
  intros Hrep Hr [Hs Hk]%elem_of_prefixed.
  destruct (proj1 (au_resource _ _ Hrep k)) as (ev & r' & Hev & Hres & ->); [by eauto|].
  destruct (proj1 (Forall_forall _ _) (au_wf _ _ Hrep) ev Hev) as (Hid & _ & Hplain).
  apply starts_with_key2 in Hs as <-; [|by auto..].
  exists ev. split; [apply list_elem_of_filter; auto|]. split; [done|].
  unfold resource_key. rewrite rsplit_ts_key by done. by apply (event_of_id_spec db log).
Qed.

Lemma resource_listing db log r :
  audit_rep db log → no_char "|" r = true →
  let all := filter_map (λ e, event_of_id (db AUDIT_EVENTS) (rsplit_next "|" e.1))
               (prefixed (r +:+ bar) (db AUDIT_BY_RESOURCE)) in
  StronglySorted newer all ∧ all ≡ₚ by_resource r log.
Proof.
  intros Hrep Hr all.
  assert (Hs : StronglySorted newer all).
  { eapply StronglySorted_filter_map; [|apply prefixed_sorted].
    intros [k1 v1] [k2 v2] a b H1' H2' Hlt Ha Hb. unfold key_lt in Hlt. simpl in *.
    destruct (resource_entry _ _ _ _ _ Hrep Hr H1') as (x & Hx & -> & Hx').
    destruct (resource_entry _ _ _ _ _ Hrep Hr H2') as (y & Hy & -> & Hy').
    rewrite Hx' in Ha. rewrite Hy' in Hb. simplify_eq.
    apply list_elem_of_filter in Hx as [_ Hx], Hy as [_ Hy].
    destruct (proj1 (Forall_forall _ _) (au_wf _ _ Hrep) a Hx) as (_ & Hta & _).
    destruct (proj1 (Forall_forall _ _) (au_wf _ _ Hrep) b Hy) as (_ & Htb & _).
    split; [|intros ->; by apply str_lt_irrefl in Hlt].
    destruct (decide (timestamp (a_timestamp b) ≤ timestamp (a_timestamp a))); [done|].
    exfalso. apply (str_lt_asym _ _ Hlt). apply key_newest_first; lia. }
  split; [done|]. apply NoDup_Permutation.
  - eapply StronglySorted_NoDup; [|done]. by intros x [_ ?].
  - apply NoDup_filter. eapply NoDup_fmap_1, (au_ids _ _ Hrep).
  - intros ev. unfold all. rewrite elem_of_filter_map. split.
    + intros ([k v] & Hin & He).
      destruct (resource_entry _ _ _ _ _ Hrep Hr Hin) as (x & Hx & _ & Hx').
      simpl in He. by simplify_eq.
    + intros [Hres Hev]%list_elem_of_filter.
      destruct (proj1 (Forall_forall _ _) (au_wf _ _ Hrep) ev Hev) as (Hid & _ & _).
      destruct (proj2 (au_resource _ _ Hrep (resource_key ev r))) as [v Hv]; [by eauto|].
      exists (resource_key ev r, v). split.
      * apply elem_of_prefixed. split; [|done]. by apply starts_with_key2.
      * simpl. unfold resource_key. rewrite rsplit_ts_key by done.
        by apply (event_of_id_spec db log).
Qed.

(** The events that a page of the audit trail of [r] is cut from. *)
Definition trail (r : string) (db : Db T) : list AuditEvent :=
  filter_map (λ e, event_of_id (db AUDIT_EVENTS) (rsplit_next "|" e.1))
    (prefixed (r +:+ bar) (db AUDIT_BY_RESOURCE)).
Lemma trail_read (env : renv (Db T)) r db log :
  audit_rep db log → no_char "|" r = true → reliable env →
  count_audit_by_resource env r db = (Ok (length (trail r db)), db) ∧
  ∀ limit offset, list_audit_by_resource env r limit offset db =
    (Ok (take limit (drop offset (trail r db))), db).
Proof.
  intros Hrep Hr Henv.
  assert (Htot : ∀ e, e ∈ prefixed (r +:+ bar) (db AUDIT_BY_RESOURCE) →
    is_Some (event_of_id (db AUDIT_EVENTS) (rsplit_next "|" e.1))).
  { intros [k v] Hin. destruct (resource_entry _ _ _ _ _ Hrep Hr Hin) as (x & _ & _ & Hx).
    simpl. eauto. }
  unfold count_audit_by_resource, count_prefix, list_audit_by_resource, reading, trail. split.
  - rewrite (run_read_reliable env _ _ Henv). simpl. rewrite count_of_table.
    by rewrite length_filter_map_total.
  - intros limit offset. rewrite (run_read_reliable env _ _ Henv). simpl.
    by rewrite page_of_table, filter_map_drop.
Qed.

(** The audit trail of a resource.  After logging any sequence of events
    with distinct ids, with any of their transactions failing, there is one
    list holding exactly the committed events of the resource, each once and
    newest first, such that every page of [list_audit_by_resource] is the slice
    of that list and [count_audit_by_resource] is its length. *)
Theorem audit_trail_of_resource (evs : list (renv (Db T) * AuditEvent)) (env : renv (Db T))
    (r : string)
    (Hwf : Forall (λ ee, event_wf ee.2) evs)
    (Hids : NoDup ((λ ee, a_event_id ee.2) <$> evs))
    (Henv : reliable env) (Hr : no_char "|" r = true) :
  let '(db, log) := log_all evs open_fresh [] in
  ∃ all, StronglySorted newer all ∧ all ≡ₚ by_resource r log ∧
    count_audit_by_resource env r db = (Ok (length all), db) ∧
    ∀ limit offset, list_audit_by_resource env r limit offset db =
      (Ok (take limit (drop offset all)), db).
Proof.
  pose proof (log_all_rep evs open_fresh [] audit_fresh Hwf Hids) as Hrep.
  destruct (log_all evs open_fresh []) as [db log]. simpl in Hrep.
  destruct (resource_listing db log r Hrep Hr) as [Hs Hp].
  exists (trail r db). split; [exact Hs|]. split; [exact Hp|]. by eapply trail_read.
Qed.
End AuditRep.

Definition ev0 (id : string) (ts : Z) : AuditEvent :=
  mkAuditEvent id (mkDateTime ts 0) PoolCreated (Some "u") (Some "pool") (Some "P") None true
    None None None.
Definition evs0 : list (renv (Db table0) * AuditEvent) :=
  [(env0, ev0 "e1" 10); (CommitFails "disk", ev0 "e2" 20); (env0, ev0 "e3" 30)].
Lemma ev0_wf id ts :
  no_char "|" id = true → 0 ≤ ts ≤ I64_MAX → event_wf (ev0 id ts).
Proof. intros Hid Hts. split; [done|]. split; [done|]. by intros r [= <-]. Qed.
Lemma audit_trail_of_resource_witness :
  let '(db, log) := log_all evs0 open_fresh [] in
  ∃ all, StronglySorted newer all ∧ all ≡ₚ by_resource "P" log ∧
    count_audit_by_resource env0 "P" db = (Ok (length all), db) ∧
    ∀ limit offset, list_audit_by_resource env0 "P" limit offset db =
      (Ok (take limit (drop offset all)), db).
Proof.
  apply (audit_trail_of_resource evs0 env0 "P").
  - unfold evs0. repeat (apply Forall_cons_2; [by apply ev0_wf|]). apply Forall_nil_2.
  - vm_compute. repeat (constructor; [set_solver|]). constructor.
  - done.
  - done.
Defined.
