(* ===== verification/Storage.v ===== *)
(** * The encrypted filesystem and its layout

    src/src/storage/encrypted_fs.rs and src/src/storage/paths.rs over a model of
    the [std::fs] calls they make.  A filesystem is a map from paths to contents
    with the set of directories; a call may fail at any of its system calls, as
    its [io_fault] says, and then keeps what it did before. *)
From S2P Require Import Prelude.
From S2P Require Import RustStr.
From S2P Require Import RustFmt.
From S2P Require Import Errors.
From S2P Require Import Types.
From S2P Require Import Interfaces.

Local Open Scope Z_scope.
#[local] Arguments String.append : simpl nomatch.

(** ** Paths *)

Fixpoint ends_slash (s : string) : bool :=
  match s with
  | EmptyString => false
  | String c EmptyString => bool_decide (c = "/"%char)
  | String _ s' => ends_slash s'
  end.
(** [Path::join]: an absolute second path replaces the first. *)
Definition join (p c : string) : string :=
  if starts_with "/" c then c
  else if ends_slash p || bool_decide (p = "") then p +:+ c
  else p +:+ "/" +:+ c.
(** [Path::parent] of a path with a directory part. *)
Definition parent (p : string) : option string := fst <$> rsplit_once "/" p.
(** [Path::with_extension]. *)
Definition with_extension (p ext : string) : string :=
  let file := rsplit_next "/" p in
  let stem := match rsplit_once "." file with
              | Some (EmptyString, _) | None => file
              | Some (x, _) => x
              end in
  match rsplit_once "/" p with
  | Some (dir, _) => dir +:+ "/" +:+ stem +:+ "." +:+ ext
  | None => stem +:+ "." +:+ ext
  end.

(** [StoragePaths]: the layout under a root. *)
Definition wallets_dir (root : string) : string := join root "wallets".
Definition wallet_dir (root wallet_id : string) : string := join (wallets_dir root) wallet_id.
Definition wallet_meta (root wallet_id : string) : string :=
  join (wallet_dir root wallet_id) "meta.json".
Definition wallet_keypair (root wallet_id : string) : string :=
  join (wallet_dir root wallet_id) "keypair.json".
Definition audit_dir (root : string) : string := join root "audit".
Definition audit_events_file (root date : string) : string :=
  join (audit_dir root) (date +:+ ".jsonl").
Definition pools_dir (root : string) : string := join root "pools".
Definition pool_dir (root pda : string) : string := join (pools_dir root) pda.
Definition pool_dataset_dir (root pda : string) : string := join (pool_dir root pda) "dataset".
Definition pool_meta (root pda : string) : string := join (pool_dir root pda) "pool.meta.json".
Definition pool_revocations (root pda : string) : string :=
  join (pool_dir root pda) "revocations.jsonl".
Definition pool_schema (root pda : string) : string := join (pool_dir root pda) "schema.json".
Definition tx_db_path (root : string) : string := join root "tx.redb".

(** A path component: what a UUID or a base58 address is. *)
Definition safe_name (s : string) : bool :=
  no_char "/" s && negb (bool_decide (s = "")) && negb (bool_decide (s = "."))
  && negb (bool_decide (s = "..")).

(** ** The filesystem *)

Record Fs := mkFs { files : gmap string string; dirs : gset string }.
Definition set_files (f : gmap string string → gmap string string) (s : Fs) : Fs :=
  mkFs (f (files s)) (dirs s).

(** Where a call fails, if it does.  A failed [fs::write] may leave a partial
    temporary file. *)
Inductive io_fault :=
| IoOk
| IoRead (msg : string)
| IoMkdir (msg : string)
| IoWrite (msg : string) (partial : option string)
| IoRename (msg : string).

(** The directories above a path, and the path. *)
Fixpoint ancestors_from (acc s : string) : list string :=
  match s with
  | EmptyString => [acc]
  | String c s' =>
      if bool_decide (c = "/"%char) then acc :: ancestors_from (acc +:+ String c EmptyString) s'
      else ancestors_from (acc +:+ String c EmptyString) s'
  end.
Definition create_dir_all (p : string) (s : Fs) : Fs :=
  mkFs (files s) (list_to_set (ancestors_from "" p) ∪ dirs s).

Section EncryptedStorage.
Abbreviation fs A := (act Fs StorageError A).

(** [EncryptedStorage::initialize]. *)
Definition initialize (io : io_fault) (root : string) : fs unit := λ s,
  match io with
  | IoMkdir m => (Err (StIo m), s)
  | _ => (Ok (), create_dir_all (pools_dir root)
                   (create_dir_all (audit_dir root) (create_dir_all (wallets_dir root) s)))
  end.

(** [fs::read] with its errors. *)
Definition read_raw (io : io_fault) (path : string) : fs string := reading (λ s,
  match io with
  | IoRead m => Err (StIo m)
  | _ => ok_or (files s !! path) (StNotFound path)
  end).

Definition read_json {A} `{Serde A} (io : io_fault) (path : string) : fs A :=
  data ← read_raw io path;
  lift (map_err StJson (from_slice data)).

(** Write to a sibling, then rename over the target. *)
Definition atomic_write (io : io_fault) (path data : string) : fs unit := λ s,
  match io with
  | IoMkdir m => (Err (StIo m), s)
  | _ =>
      let s1 := match parent path with Some d => create_dir_all d s | None => s end in
      let tmp := with_extension path "tmp" in
      match io with
      | IoWrite m partial =>
          (Err (StIo m),
           match partial with Some x => set_files (insert tmp x) s1 | None => s1 end)
      | IoRename m => (Err (StIo m), set_files (insert tmp data) s1)
      | _ => (Ok (), set_files (λ f, <[path:=data]> (delete tmp f)) s1)
      end
  end.

Definition write_json {A} `{Serde A} (io : io_fault) (path : string) (value : A) : fs unit :=
  data ← lift (map_err StJson (to_vec_pretty value));
  atomic_write io path data.

Definition write_raw (io : io_fault) (path data : string) : fs unit := atomic_write io path data.

(** [File::open(path).is_ok()]. *)
Definition exists_path (io : io_fault) (path : string) (s : Fs) : bool :=
  match io with
  | IoRead _ => false
  | _ => bool_decide (is_Some (files s !! path)) || bool_decide (path ∈ dirs s)
  end.

Definition create_dir (io : io_fault) (path : string) : fs unit := λ s,
  match io with
  | IoMkdir m => (Err (StIo m), s)
  | _ => (Ok (), create_dir_all path s)
  end.

(** The names of the immediate subdirectories of [dir]. *)
Definition list_dirs (io : io_fault) (dir : string) : fs (list string) := reading (λ s,
  match io with
  | IoRead m => Err (StIo m)
  | _ =>
      if bool_decide (dir ∈ dirs s) then
        Ok (filter_map (λ d,
              name ← strip_prefix (dir +:+ "/") d;
              if safe_name name then Some name else None) (elements (dirs s)))
      else Err (StNotFound dir)
  end).
End EncryptedStorage.

(** ** Facts *)

Lemma ends_slash_app (a b : string) : b ≠ "" → ends_slash (a +:+ b) = ends_slash b.
Proof.
  intros Hb. induction a as [|c a IH]; [done|]. simpl. rewrite <-IH.
  destruct (a +:+ b) as [|d r] eqn:He; [|done].
  destruct a, b; done.
Qed.
Lemma join_dir (p c d : string) :
  starts_with "/" c = false → c ≠ "" → ends_slash c = false → starts_with "/" d = false →
  join (join p c) d = join p c +:+ "/" +:+ d.
Proof.
  intros Hc Hne Hs Hd. unfold join at 1. rewrite Hd.
  assert (He : ends_slash (join p c) = false ∧ join p c ≠ "").
  { unfold join. rewrite Hc. destruct (ends_slash p || bool_decide (p = "")).
    - rewrite ends_slash_app by done. split; [done|]. destruct p, c; done.
    - change (p +:+ "/" +:+ c) with (p +:+ String "/" c). rewrite ends_slash_app by done.
      split; [by destruct c|]. by destruct p. }
  destruct He as [-> He]. simpl. by rewrite bool_decide_eq_false_2.
Qed.

Lemma safe_name_facts (s : string) :
  safe_name s = true →
  no_char "/" s = true ∧ s ≠ "" ∧ starts_with "/" s = false ∧ ends_slash s = false.
Proof.
  unfold safe_name. rewrite !andb_true_iff, !negb_true_iff, !bool_decide_eq_false.
  intros [[[Hn He] _] _]. repeat split; [done..| |].
  - apply not_true_iff_false. intros [r ->]%starts_with_spec. done.
  - clear He. induction s as [|c s IH]; [done|]. simpl in Hn |- *.
    apply andb_true_iff in Hn as [Hc Hn]. apply negb_true_iff in Hc.
    destruct s; [done|by apply IH].
Qed.

(** The files of a wallet directory. *)
Definition wallet_file (root id name : string) : string :=
  wallets_dir root +:+ "/" +:+ id +:+ "/" +:+ name.

Lemma wallet_path (root id name : string) :
  safe_name id = true → starts_with "/" name = false →
  join (wallet_dir root id) name = wallet_file root id name.
Proof.
  intros (Hn & Hne & Hs & He)%safe_name_facts Hname. unfold wallet_dir, wallet_file.
  rewrite join_dir by done. unfold wallets_dir at 1. rewrite join_dir by done.
  by rewrite !append_assoc.
Qed.
Lemma wallet_file_inj (root i j n m : string) :
  safe_name i = true → safe_name j = true →
  wallet_file root i n = wallet_file root j m → i = j ∧ n = m.
Proof.
  intros (Hi & _)%safe_name_facts (Hj & _)%safe_name_facts He.
  unfold wallet_file in He. apply append_inj_len in He as [_ He]; [|done].
  apply (append_inj_len "/" "/") in He as [_ He]; [|done].
  by apply (split_inj "/") in He.
Qed.

Lemma wallet_file_parts (root id : string) :
  safe_name id = true →
  rsplit_once "/" (wallet_file root id "meta.json") =
    Some (wallets_dir root +:+ "/" +:+ id, "meta.json") ∧
  rsplit_once "/" (wallet_file root id "keypair.json") =
    Some (wallets_dir root +:+ "/" +:+ id, "keypair.json").
Proof.
  intros _. unfold wallet_file.
  split; rewrite <-2!append_assoc; change ("/" +:+ ?x) with (String "/" x);
    rewrite rsplit_once_app by done; by rewrite !append_assoc.
Qed.
(** The temporary files of the two wallet files. *)
Lemma wallet_meta_tmp (root id : string) :
  safe_name id = true →
  with_extension (wallet_file root id "meta.json") "tmp" = wallet_file root id "meta.tmp".
Proof.
  intros Hid. unfold with_extension, rsplit_next.
  rewrite (proj1 (wallet_file_parts root id Hid)). simpl. unfold wallet_file.
  by rewrite !append_assoc.
Qed.
Lemma wallet_keypair_tmp (root id : string) :
  safe_name id = true →
  with_extension (wallet_file root id "keypair.json") "tmp" = wallet_file root id "keypair.tmp".
Proof.
  intros Hid. unfold with_extension, rsplit_next.
  rewrite (proj2 (wallet_file_parts root id Hid)). simpl. unfold wallet_file.
  by rewrite !append_assoc.
Qed.

(** What a write leaves in the files: the target on success; at most the
    temporary file on failure. *)
Lemma atomic_write_files (io : io_fault) (path data : string) (s : Fs) p :
  p ≠ with_extension path "tmp" →
  files (atomic_write io path data s).2 !! p =
    if is_ok (atomic_write io path data s).1 then
      if decide (p = path) then Some data else files s !! p
    else files s !! p.
Proof.
  intros Hp. assert (Hc : ∀ d, files (match d with Some d => create_dir_all d s | None => s end)
    = files s) by (by intros []).
  destruct io as [|m|m|m part|m]; simpl; try done.
  1,2: case_decide as Hd; [subst; by rewrite lookup_insert_eq|];
    rewrite lookup_insert_ne, lookup_delete_ne by done; by rewrite Hc.
  - destruct part; simpl; [rewrite lookup_insert_ne by done|]; by rewrite Hc.
  - rewrite lookup_insert_ne by done. by rewrite Hc.
Qed.
Lemma atomic_write_ok (path data : string) (s : Fs) :
  (atomic_write IoOk path data s).1 = Ok ().
Proof. done. Qed.
