(* ===== verification/TxCache.v ===== *)
(** * The first-page transaction cache (src/src/storage/tx_cache.rs)

    The [lru] crate is a class: a bounded map whose last insertion is present
    and that may have dropped any other entry.  Instants are in nanoseconds. *)
From S2P Require Import Prelude.
From S2P Require Import RustStr.
From S2P Require Import Types.

Local Open Scope Z_scope.

(** ** The [lru] crate *)

Class Lru (C V : Type) := {
  lru_new : nat → C;
  (** the entry of a key, without touching the recency *)
  lru_peek : string → C → option V;
  (** [get] marks the entry as the most recently used one *)
  lru_touch : string → C → C;
  lru_put : string → V → C → C;
  lru_pop : string → C → C;
}.
Class LruLaws (C V : Type) `{Lru C V} := {
  lru_peek_new n k : lru_peek k (lru_new n) = None;
  lru_peek_touch k j c : lru_peek j (lru_touch k c) = lru_peek j c;
  lru_peek_put_eq k v c : lru_peek k (lru_put k v c) = Some v;
  lru_peek_put_ne k j v c :
    j ≠ k → lru_peek j (lru_put k v c) = lru_peek j c ∨ lru_peek j (lru_put k v c) = None;
  lru_peek_pop_eq k c : lru_peek k (lru_pop k c) = None;
  lru_peek_pop_ne k j c : j ≠ k → lru_peek j (lru_pop k c) = lru_peek j c;
}.

Definition Page : Type := list (StoredTransaction * string).
Record CacheEntry := mkCacheEntry { ce_txs : Page; ce_inserted_at : Z }.

Record TxCache (C : Type) := mkTxCache { cache : C; ttl : Z }.
Arguments mkTxCache {C} _ _.
Arguments cache {C} _.
Arguments ttl {C} _.

Section TxCacheOps.
Context {C : Type} `{Lru C CacheEntry}.

Definition cache_new (capacity : nat) (t : Z) : TxCache C := mkTxCache (lru_new capacity) t.

Definition get_first_page (now : Z) (addr : string) (tc : TxCache C) :
    option Page * TxCache C :=
  match lru_peek addr (cache tc) with
  | None => (None, mkTxCache (lru_touch addr (cache tc)) (ttl tc))
  | Some entry =>
      if ttl tc <? now - ce_inserted_at entry then
        (None, mkTxCache (lru_pop addr (lru_touch addr (cache tc))) (ttl tc))
      else (Some (ce_txs entry), mkTxCache (lru_touch addr (cache tc)) (ttl tc))
  end.

Definition put_first_page (now : Z) (addr : string) (txs : Page) (tc : TxCache C) : TxCache C :=
  mkTxCache (lru_put addr (mkCacheEntry txs now) (cache tc)) (ttl tc).

Definition invalidate (addr : string) (tc : TxCache C) : TxCache C :=
  mkTxCache (lru_pop addr (cache tc)) (ttl tc).
End TxCacheOps.

(** ** Facts *)

Section TxCacheFacts.
Context {C : Type} `{LruLaws C CacheEntry}.

(** A history of cache operations, with the clock at each. *)
Inductive cache_op :=
| CGet (now : Z) (addr : string)
| CPut (now : Z) (addr : string) (txs : Page)
| CInvalidate (addr : string).
Definition cache_step (o : cache_op) (tc : TxCache C) : TxCache C :=
  match o with
  | CGet now a => (get_first_page now a tc).2
  | CPut now a txs => put_first_page now a txs tc
  | CInvalidate a => invalidate a tc
  end.
Definition cache_run (ops : list cache_op) (tc : TxCache C) : TxCache C :=
  foldl (λ tc o, cache_step o tc) tc ops.

(** The page last stored for an address and not invalidated since. *)
Definition put_step (addr : string) (acc : option CacheEntry) (o : cache_op) :
    option CacheEntry :=
  match o with
  | CGet _ _ => acc
  | CPut now a txs => if decide (a = addr) then Some (mkCacheEntry txs now) else acc
  | CInvalidate a => if decide (a = addr) then None else acc
  end.
Definition last_put (addr : string) (ops : list cache_op) : option CacheEntry :=
  foldl (put_step addr) None ops.

Lemma cache_step_peek o tc addr :
  lru_peek addr (cache (cache_step o tc)) = None ∨
  lru_peek addr (cache (cache_step o tc)) = put_step addr (lru_peek addr (cache tc)) o.
Proof.
  destruct o as [now a|now a txs|a]; simpl.
  - unfold get_first_page. destruct (lru_peek a (cache tc)) as [e|] eqn:He; simpl;
      [|right; by rewrite lru_peek_touch].
    destruct (ttl tc <? now - ce_inserted_at e); simpl; [|right; by rewrite lru_peek_touch].
    destruct (decide (addr = a)) as [->|Hne]; [left; apply lru_peek_pop_eq|].
    right. by rewrite lru_peek_pop_ne, lru_peek_touch.
  - case_decide as Hd; [subst; right; apply lru_peek_put_eq|].
    destruct (lru_peek_put_ne a addr (mkCacheEntry txs now) (cache tc)); auto.
  - case_decide as Hd; [subst; left; apply lru_peek_pop_eq|].
    right. by apply lru_peek_pop_ne.
Qed.

(** The entry of an address is lost or the specified one. *)
Lemma cache_run_peek ops tc addr acc :
  (lru_peek addr (cache tc) = None ∨ lru_peek addr (cache tc) = acc) →
  lru_peek addr (cache (cache_run ops tc)) = None ∨
  lru_peek addr (cache (cache_run ops tc)) = foldl (put_step addr) acc ops.
Proof.
  revert tc acc. induction ops as [|o ops IH]; intros tc acc Hp; [done|].
  apply IH. destruct (cache_step_peek o tc addr) as [Hs|Hs]; [by left|].
  destruct Hp as [Hp|Hp]; rewrite Hs, Hp; [|by right].
  destruct o; simpl; try case_decide; auto.
Qed.

Lemma cache_run_ttl ops (tc : TxCache C) : ttl (cache_run ops tc) = ttl tc.
Proof.
  revert tc. induction ops as [|o ops IH]; intros tc; [done|]. simpl. rewrite IH.
  destruct o; simpl; try done. unfold get_first_page. by repeat case_match.
Qed.

(** The cache answers only fresh data.  After any history of lookups,
    insertions and invalidations of a new cache of any capacity, a hit for an
    address returns the page of the last insertion for that address, no
    invalidation of it came after that insertion, and the page is at most [ttl]
    old. *)
Theorem cache_hit_is_last_put (capacity : nat) (t now : Z) (ops : list cache_op)
    (addr : string) (txs : Page) (tc' : TxCache C)
    (Hhit : get_first_page now addr (cache_run ops (cache_new capacity t)) = (Some txs, tc')) :
  ∃ at_, last_put addr ops = Some (mkCacheEntry txs at_) ∧ now - at_ ≤ t.
Proof.
  unfold get_first_page in Hhit. rewrite cache_run_ttl in Hhit. simpl in Hhit.
  destruct (cache_run_peek ops (cache_new capacity t) addr None) as [Hp|Hp];
    [left; apply lru_peek_new|rewrite Hp in Hhit; done|].
  fold (last_put addr ops) in Hp. rewrite Hp in Hhit. destruct (last_put addr ops) as [[ts at_]|]; [|done].
  simpl in Hhit. destruct (Z.ltb_spec t (now - at_)); simplify_eq. by exists at_.
Qed.
End TxCacheFacts.

(** A cache of capacity one, most recent first. *)
Definition lru1 : Type := option (string * CacheEntry).
#[export] Instance lru1_ops : Lru lru1 CacheEntry := {
  lru_new _ := None;
  lru_peek k c := '(j, v) ← c; if decide (j = k) then Some v else None;
  lru_touch _ c := c;
  lru_put k v _ := Some (k, v);
  lru_pop k c := match c with Some (j, _) => if decide (j = k) then None else c | None => None end;
}.
#[export] Instance lru1_laws : LruLaws lru1 CacheEntry.
Proof.
  split; simpl; try done.
  - intros. by rewrite decide_True.
  - intros. right. by rewrite decide_False.
  - intros k [[j v]|]; [|done]. simpl. case_decide; simpl; [done|]. by rewrite decide_False.
  - intros k j [[i v]|] Hj; [|done]. simpl. case_decide; simpl; [|done].
    subst. by rewrite decide_False.
Qed.
Lemma cache_hit_is_last_put_witness :
  ∃ at_, last_put "A" [CPut 5 "A" []; CGet 6 "B"] = Some (mkCacheEntry [] at_) ∧
    7 - at_ ≤ 30.
Proof.
  apply (cache_hit_is_last_put (C:=lru1) 1 30 7 [CPut 5 "A" []; CGet 6 "B"] "A" []
    (mkTxCache (Some ("A", mkCacheEntry [] 5)) 30)).
  vm_compute. reflexivity.
Defined.
