(* ===== verification/AppState.v ===== *)
(** * The server's shared state and the audit log

    [AppState] (src/src/state.rs) as the handlers see it, the environment of a
    request, and the audit repository (src/src/storage/audit.rs): signed events
    appended to a daily JSONL file and written to the database tables. *)
From S2P Require Import Prelude.
From S2P Require Import RustStr.
From S2P Require Import RustFmt.
From S2P Require Import Errors.
From S2P Require Import Types.
From S2P Require Import Interfaces.
From S2P Require Import TxDatabase.
From S2P Require Import Storage.
From S2P Require Import TxCache.

Local Open Scope Z_scope.
#[local] Arguments String.append : simpl nomatch.

(** [config::DATA_DIR]. *)
Definition DATA_DIR : string := "/data".

(** Rewriting a handler's run, one step at a time. *)
Create Rewrite HintDb rsdk_run.

(** ** State *)

Record AppState (T C : Type) := mkAppState {
  storage : Fs;
  tx_db : Db T;
  tx_cache : TxCache C;
  (** the process-wide [AUDIT_HMAC_KEY] cell *)
  audit_key : option string;
}.
Arguments mkAppState {T C} _ _ _ _.
Arguments storage {T C} _.
Arguments tx_db {T C} _.
Arguments tx_cache {T C} _.
Arguments audit_key {T C} _.

Section State.
Context {T C : Type}.
Abbreviation St := (AppState T C).

Definition set_storage (fs : Fs) (st : St) : St :=
  mkAppState fs (tx_db st) (tx_cache st) (audit_key st).
Definition set_tx_db (db : Db T) (st : St) : St :=
  mkAppState (storage st) db (tx_cache st) (audit_key st).
Definition set_tx_cache (c : TxCache C) (st : St) : St :=
  mkAppState (storage st) (tx_db st) c (audit_key st).
Definition set_audit_key (k : string) (st : St) : St :=
  mkAppState (storage st) (tx_db st) (tx_cache st) (Some k).

(** [state.storage.f(..)?] and [state.tx_db.f(..)?] in a handler. *)
Definition on_storage {A} (m : act Fs StorageError A) : act St ApiError A :=
  act_map_err api_of_storage (zoom storage set_storage m).
Definition on_db {A} (m : act (Db T) TxDbError A) : act St ApiError A :=
  act_map_err api_of_txdb (zoom tx_db set_tx_db m).

Lemma on_storage_run {A} (m : act Fs StorageError A) (st : St) :
  on_storage m st =
    (map_err api_of_storage (m (storage st)).1, set_storage (m (storage st)).2 st).
Proof. done. Qed.
Lemma on_db_run {A} (m : act (Db T) TxDbError A) (st : St) :
  on_db m st = (map_err api_of_txdb (m (tx_db st)).1, set_tx_db (m (tx_db st)).2 st).
Proof. done. Qed.
Lemma set_storage_id (st : St) : set_storage (storage st) st = st.
Proof. by destruct st. Qed.
Lemma set_tx_db_id (st : St) : set_tx_db (tx_db st) st = st.
Proof. by destruct st. Qed.
End State.
#[export] Hint Rewrite @act_bind_eq @on_storage_run @on_db_run @set_storage_id @set_tx_db_id
  : rsdk_run.

(** ** Authenticated callers (src/src/auth.rs) *)

Record TokenData := mkTokenData { sub : string; role : string }.

(** ** The audit repository *)

(** [Hmac<Sha256>] keyed with its first argument. *)
Class AuditCrates := { hmac_sha256 : string → string → string }.

(** The system calls of one [log]: reading, generating and writing the key,
    creating the directory, appending the line. *)
Record AuditIo := mkAuditIo {
  ai_key_read : io_fault;
  ai_rng : string;
  ai_key_write : io_fault;
  ai_mkdir : io_fault;
  ai_append : io_fault;
}.

Definition newline : string := String (char_of 10) EmptyString.

(** [str::lines]. *)
Definition strip_cr (s : string) : string :=
  match String.rev s with
  | String c r => if byte c =? 13 then String.rev r else s
  | EmptyString => s
  end.
Fixpoint lines_from (cur s : string) : list string :=
  match s with
  | EmptyString => if bool_decide (cur = "") then [] else [cur]
  | String c s' =>
      if byte c =? 10 then strip_cr cur :: lines_from "" s'
      else lines_from (cur +:+ String c EmptyString) s'
  end.
Definition lines (s : string) : list string := lines_from "" s.

Definition event_new (event_id : string) (now : DateTime) (ty : AuditEventType) : AuditEvent :=
  mkAuditEvent event_id now ty None None None None true None None None.
Definition with_user (u : string) (e : AuditEvent) : AuditEvent :=
  mkAuditEvent (a_event_id e) (a_timestamp e) (a_event_type e) (Some u) (a_resource_type e)
    (a_resource_id e) (a_details e) (a_success e) (a_hmac e) (a_correlation_id e) (a_pool_pda e).
Definition with_resource (rt ri : string) (e : AuditEvent) : AuditEvent :=
  mkAuditEvent (a_event_id e) (a_timestamp e) (a_event_type e) (a_user_id e) (Some rt)
    (Some ri) (a_details e) (a_success e) (a_hmac e) (a_correlation_id e) (a_pool_pda e).
Definition with_details (d : Json) (e : AuditEvent) : AuditEvent :=
  mkAuditEvent (a_event_id e) (a_timestamp e) (a_event_type e) (a_user_id e) (a_resource_type e)
    (a_resource_id e) (Some d) (a_success e) (a_hmac e) (a_correlation_id e) (a_pool_pda e).
Definition with_pool_pda (p : string) (e : AuditEvent) : AuditEvent :=
  mkAuditEvent (a_event_id e) (a_timestamp e) (a_event_type e) (a_user_id e) (a_resource_type e)
    (a_resource_id e) (a_details e) (a_success e) (a_hmac e) (a_correlation_id e) (Some p).
(** [event.success = false] and the [hmac] field. *)
Definition with_success (b : bool) (e : AuditEvent) : AuditEvent :=
  mkAuditEvent (a_event_id e) (a_timestamp e) (a_event_type e) (a_user_id e) (a_resource_type e)
    (a_resource_id e) (a_details e) b (a_hmac e) (a_correlation_id e) (a_pool_pda e).
Definition with_hmac (h : option string) (e : AuditEvent) : AuditEvent :=
  mkAuditEvent (a_event_id e) (a_timestamp e) (a_event_type e) (a_user_id e) (a_resource_type e)
    (a_resource_id e) (a_details e) (a_success e) h (a_correlation_id e) (a_pool_pda e).

Section Audit.
Context {T C : Type} `{RedbTable T, RedbTxn (Db T), DbCrates, AuditCrates, Serde AuditEvent}.
Abbreviation St := (AppState T C).

Definition audit_key_path : string := join (join DATA_DIR "audit") ".hmac-key".

(** [AUDIT_HMAC_KEY.get_or_init]: read the key file, or make a key and try to
    persist it; a failure to persist is only logged. *)
Definition generate_key (ai : AuditIo) (fs : Fs) : string * Fs :=
  let fs1 := match ai_mkdir ai with IoMkdir _ => fs | _ => create_dir_all (join DATA_DIR "audit") fs end in
  let fs2 := match ai_key_write ai with
             | IoOk => set_files (insert audit_key_path (ai_rng ai)) fs1
             | IoWrite _ (Some partial) => set_files (insert audit_key_path partial) fs1
             | _ => fs1
             end in
  (ai_rng ai, fs2).
Definition audit_hmac_key (ai : AuditIo) (st : St) : string * St :=
  match audit_key st with
  | Some k => (k, st)
  | None =>
      let existing := match ai_key_read ai with
                      | IoRead _ => None
                      | _ => files (storage st) !! audit_key_path
                      end in
      match existing with
      | Some bytes =>
          if (String.length bytes =? 32)%nat then (bytes, set_audit_key bytes st)
          else let '(k, fs) := generate_key ai (storage st) in
               (k, set_audit_key k (set_storage fs st))
      | None => let '(k, fs) := generate_key ai (storage st) in
                (k, set_audit_key k (set_storage fs st))
      end
  end.
Definition compute_hmac (ai : AuditIo) (json_bytes : string) (st : St) : string * St :=
  let '(key, st') := audit_hmac_key ai st in
  (hex_encode (hmac_sha256 key json_bytes), st').

(** Appending to a file opened with [create(true).append(true)]. *)
Definition append_line (io : io_fault) (path line : string) (fs : Fs) : Fs :=
  let old := default "" (files fs !! path) in
  match io with
  | IoOk => set_files (insert path (old +:+ line)) fs
  | IoWrite _ (Some partial) => set_files (insert path (old +:+ partial)) fs
  | IoWrite _ None => set_files (insert path old) fs
  | _ => fs
  end.

(** [AuditRepository::log]; [db] is the environment of the attached database. *)
Definition audit_log_event (ai : AuditIo) (db : option (renv (Db T))) (event : AuditEvent)
    (st : St) : St :=
  let path := audit_events_file DATA_DIR (fmt_ymd (a_timestamp event)) in
  let st1 := match parent path, ai_mkdir ai with
             | Some d, IoMkdir _ => st
             | Some d, _ => set_storage (create_dir_all d (storage st)) st
             | None, _ => st
             end in
  match to_vec (with_hmac None event) with
  | Err _ => st1
  | Ok canonical_json =>
      let '(tag, st2) := compute_hmac ai canonical_json st1 in
      let signed := with_hmac (Some tag) event in
      let st3 := match to_vec signed with
                 | Ok line => set_storage (append_line (ai_append ai) path (line +:+ newline)
                                (storage st2)) st2
                 | Err _ => st2
                 end in
      match db with
      | Some env => set_tx_db (log_audit_event env signed (tx_db st3)).2 st3
      | None => st3
      end
  end.

(** [read_verified_events]: one line at a time; the key cell is initialised by
    the first event that carries a tag. *)
Definition verify_line (ai : AuditIo) (st : St) (line : string) : option AuditEvent * St :=
  match from_slice line with
  | Err _ => (None, st)
  | Ok event =>
      match a_hmac event with
      | None => (None, st)
      | Some tag =>
          match to_vec (with_hmac None event) with
          | Err _ => (None, st)
          | Ok canonical_json =>
              let '(expected, st') := compute_hmac ai canonical_json st in
              (if bool_decide (tag = expected) then Some event else None, st')
          end
      end
  end.
Fixpoint verify_lines (ai : AuditIo) (ls : list string) (st : St) : list AuditEvent * St :=
  match ls with
  | [] => ([], st)
  | l :: rest =>
      let '(o, st1) := verify_line ai st l in
      let '(evs, st2) := verify_lines ai rest st1 in
      (match o with Some e => e :: evs | None => evs end, st2)
  end.
Definition read_verified_events (io : io_fault) (ai : AuditIo) (date : string) (st : St) :
    list AuditEvent * St :=
  match io with
  | IoRead _ => ([], st)
  | _ =>
      match files (storage st) !! audit_events_file DATA_DIR date with
      | Some data => if utf8_valid data then verify_lines ai (lines data) st else ([], st)
      | None => ([], st)
      end
  end.

(** The [audit_log!] macro of the handlers. *)
Definition audit_log (ai : AuditIo) (env : renv (Db T)) (event_id : string) (now : DateTime)
    (ty : AuditEventType) (user rt ri : string) (st : St) : St :=
  audit_log_event ai (Some env)
    (with_resource rt ri (with_user user (event_new event_id now ty))) st.

(** ** Facts *)

Lemma audit_key_set ai st : audit_key (audit_hmac_key ai st).2 = Some (audit_hmac_key ai st).1.
Proof.
  unfold audit_hmac_key, generate_key. destruct (audit_key st) eqn:Hk; [done|].
  by repeat case_match; simplify_eq/=.
Qed.

(** Once the key cell is set it does not change, nor does computing a tag then
    change anything. *)
Lemma compute_hmac_cached ai json st k :
  audit_key st = Some k → compute_hmac ai json st = (hex_encode (hmac_sha256 k json), st).
Proof. intros Hk. unfold compute_hmac, audit_hmac_key. by rewrite Hk. Qed.

(** Computing a tag touches the key cell and the key file only. *)
Lemma compute_hmac_frame ai json st :
  let st' := (compute_hmac ai json st).2 in
  tx_db st' = tx_db st ∧ tx_cache st' = tx_cache st ∧
  ∀ p, p ≠ audit_key_path → files (storage st') !! p = files (storage st) !! p.
Proof.
  assert (Hg : ∀ p, p ≠ audit_key_path →
    files (generate_key ai (storage st)).2 !! p = files (storage st) !! p).
  { intros p Hp. unfold generate_key. simpl.
    assert (Hm : files (match ai_mkdir ai with
                        | IoMkdir _ => storage st
                        | _ => create_dir_all (join DATA_DIR "audit") (storage st)
                        end) = files (storage st)) by (by destruct (ai_mkdir ai)).
    destruct (ai_key_write ai) as [| | |m [x|]|]; simpl; rewrite ?lookup_insert_ne by done;
      by rewrite Hm. }
  unfold compute_hmac, audit_hmac_key.
  destruct (audit_key st); [done|].
  destruct (generate_key ai (storage st)) as [k fs]. simpl in Hg.
  destruct (match ai_key_read ai with
            | IoRead _ => None | _ => files (storage st) !! audit_key_path end) as [b|];
    [destruct (String.length b =? 32)%nat|]; simpl; split_and!; auto.
Qed.

(** Auditing touches the day's file, the key file, the audit tables and the key
    cell only. *)
Lemma audit_log_event_frame ai db ev st :
  let st' := audit_log_event ai db ev st in
  tx_cache st' = tx_cache st ∧
  ∀ p, p ≠ audit_key_path → p ≠ audit_events_file DATA_DIR (fmt_ymd (a_timestamp ev)) →
    files (storage st') !! p = files (storage st) !! p.
Proof.
  unfold audit_log_event. cbv zeta.
  match goal with |- context [compute_hmac _ _ ?x] => set (st1 := x) end.
  assert (Hst1 : tx_cache st1 = tx_cache st ∧ files (storage st1) = files (storage st)).
  { unfold st1. by destruct (parent _), (ai_mkdir ai). }
  destruct Hst1 as [Hc1 Hf1]. destruct (to_vec (with_hmac None ev)) as [j|]; [|by rewrite Hf1].
  pose proof (compute_hmac_frame ai j st1) as (_ & Hc2 & Hf2).
  destruct (compute_hmac ai j st1) as [tag st2]. simpl in *.
  assert (Ha : ∀ io path l fs p, p ≠ path → files (append_line io path l fs) !! p = files fs !! p).
  { intros io path l fs p Hp. by destruct io as [| | |m [x|]|]; simpl; rewrite ?lookup_insert_ne. }
  destruct (to_vec (with_hmac (Some tag) ev)), db; simpl; (split; [congruence|]);
    intros p Hk Hp; rewrite ?Ha, Hf2, Hf1; done.
Qed.
Lemma audit_log_event_db ai db ev st :
  tx_db (audit_log_event ai db ev st) = tx_db st ∨
  ∃ env ev', tx_db (audit_log_event ai db ev st) = (log_audit_event env ev' (tx_db st)).2.
Proof.
  unfold audit_log_event. cbv zeta.
  match goal with |- context [compute_hmac _ _ ?x] => set (st1 := x) end.
  assert (Hst1 : tx_db st1 = tx_db st) by (unfold st1; by destruct (parent _), (ai_mkdir ai)).
  destruct (to_vec (with_hmac None ev)) as [j|]; [|by left].
  pose proof (compute_hmac_frame ai j st1) as (Hd & _ & _).
  destruct (compute_hmac ai j st1) as [tag st2]. simpl in Hd.
  assert (Hst3 : ∀ fs, tx_db (set_storage fs st2) = tx_db st) by (intros; simpl; congruence).
  destruct (to_vec (with_hmac (Some tag) ev)), db as [env|]; simpl; try (left; congruence);
    right; exists env, (with_hmac (Some tag) ev); by rewrite Hd, Hst1.
Qed.
End Audit.
