(* ===== verification/AuditLog.v ===== *)
(** * The audit files: what is logged is what is read back, verified

    Events appended by [AuditRepository::log] to the daily JSONL files and read
    by [read_verified_events]: every event returned carries a valid tag whatever
    the file holds, and a history of events is read back completely and in
    order. *)
From S2P Require Import Prelude.
From S2P Require Import RustStr.
From S2P Require Import RustFmt.
From S2P Require Import Errors.
From S2P Require Import Types.
From S2P Require Import Interfaces.
From S2P Require Import TxDatabase.
From S2P Require Import Instances.
From S2P Require Import Storage.
From S2P Require Import TxCache.
From S2P Require Import AppState.

Local Open Scope Z_scope.
#[local] Arguments String.append : simpl nomatch.

(** ** Lines *)

Fixpoint unlines (ls : list string) : string :=
  match ls with [] => "" | l :: ls' => l +:+ newline +:+ unlines ls' end.
Definition text_line (l : string) : Prop := string_forallb (λ c, 32 <=? byte c) l = true.

Lemma string_forallb_app p a b :
  string_forallb p (a +:+ b) = string_forallb p a && string_forallb p b.
Proof. induction a as [|c a IH]; simpl; [done|]. by rewrite IH, andb_assoc. Qed.

Lemma string_forallb_rev p s : string_forallb p (String.rev s) = string_forallb p s.
Proof.
  assert (Hg : ∀ a b, string_forallb p (String.rev_app a b) = string_forallb p a && string_forallb p b).
  { intros a. induction a as [|c a IH]; intros b; simpl; [done|].
    rewrite IH. simpl. by destruct (p c), (string_forallb p a), (string_forallb p b). }
  unfold String.rev. rewrite Hg. simpl. apply andb_true_r.
Qed.

Lemma strip_cr_text l : text_line l → strip_cr l = l.
Proof.
  unfold text_line, strip_cr. rewrite <-string_forallb_rev.
  destruct (String.rev l) as [|c r]; [done|]. simpl. rewrite andb_true_iff, Z.leb_le.
  intros [Hc _]. destruct (Z.eqb_spec (byte c) 13); [lia|done].
Qed.

Lemma lines_from_text l rest cur :
  text_line l → text_line cur →
  lines_from cur (l +:+ newline +:+ rest) = (cur +:+ l) :: lines_from "" rest.
Proof.
  revert cur. induction l as [|c l IH]; intros cur Hl Hc.
  - change ("" +:+ newline +:+ rest) with (String (char_of 10) rest). cbn [lines_from].
    change (byte (char_of 10) =? 10) with true. cbn [lines_from].
    by rewrite strip_cr_text, append_nil_r.
  - unfold text_line in Hl. simpl in Hl. apply andb_true_iff in Hl as [Hb Hl].
    apply Z.leb_le in Hb. change (String c l +:+ newline +:+ rest) with
      (String c (l +:+ newline +:+ rest)). cbn [lines_from].
    destruct (Z.eqb_spec (byte c) 10); [lia|]. rewrite IH; [|done|].
    + by rewrite append_assoc.
    + unfold text_line. rewrite string_forallb_app. rewrite Hc. simpl.
      by rewrite (proj2 (Z.leb_le _ _) Hb).
Qed.
Lemma lines_unlines ls : Forall text_line ls → lines (unlines ls) = ls.
Proof.
  unfold lines. induction 1 as [|l ls Hl _ IH]; [done|]. cbn [unlines].
  by rewrite lines_from_text, IH.
Qed.
Lemma unlines_snoc ls l : unlines (ls ++ [l]) = unlines ls +:+ (l +:+ newline).
Proof.
  induction ls as [|x ls IH]; [done|]. cbn [unlines app].
  by rewrite IH, !append_assoc.
Qed.
Lemma unlines_utf8 ls :
  Forall (λ l, utf8_valid l = true) ls → utf8_valid (unlines ls) = true.
Proof.
  induction 1 as [|l ls Hl _ IH]; [done|]. cbn [unlines]. by rewrite utf8_app.
Qed.

(** ** Paths *)

Lemma not_starts_slash (a b : string) :
  no_char "/" a = true → starts_with "/" b = false → starts_with "/" (a +:+ b) = false.
Proof.
  destruct a as [|c a]; [done|]. intros Ha _. apply not_true_iff_false.
  intros [r Hr]%starts_with_spec. simplify_eq/=.
Qed.
Lemma audit_file_path (d : string) :
  no_char "/" d = true → audit_events_file DATA_DIR d = "/data/audit/" +:+ (d +:+ ".jsonl").
Proof.
  intros Hd. unfold audit_events_file, join at 1.
  rewrite not_starts_slash by done. reflexivity.
Qed.
Lemma audit_file_inj (d e : string) :
  no_char "/" d = true → no_char "/" e = true →
  audit_events_file DATA_DIR d = audit_events_file DATA_DIR e → d = e.
Proof.
  intros Hd He. rewrite !audit_file_path by done. intros Heq.
  apply append_inj_len in Heq as [_ Heq]; [|done].
  assert (Hl : String.length d = String.length e).
  { apply (f_equal String.length) in Heq. rewrite !length_append in Heq. lia. }
  by apply append_inj_len in Heq as [? _].
Qed.
Lemma audit_file_not_key (d : string) :
  no_char "/" d = true → audit_events_file DATA_DIR d ≠ audit_key_path.
Proof.
  intros Hd. rewrite audit_file_path by done. intros Heq.
  change audit_key_path with ("/data/audit/" +:+ ".hmac-key") in Heq.
  apply append_inj_len in Heq as [_ Heq]; [|done].
  assert (Hl : String.length d = 3%nat).
  { apply (f_equal String.length) in Heq. rewrite !length_append in Heq. simpl in Heq. lia. }
  destruct d as [|? [|? [|? [|? ?]]]]; simplify_eq/=.
Qed.

(** ** Tags *)

Section AuditFiles.
Context {T C : Type} `{RedbTable T, RedbTxn (Db T), DbCratesLaws, AuditCrates}.
Context `{SerdeLaws AuditEvent}.
Abbreviation St := (AppState T C).

(** The tag of an event under a key. *)
Definition tag_of (k : string) (ev : AuditEvent) : string :=
  hex_encode (hmac_sha256 k (unwrap_or (to_vec (with_hmac None ev)) "")).
Definition signed (k : string) (ev : AuditEvent) : AuditEvent :=
  with_hmac (Some (tag_of k ev)) ev.

Lemma canonical_signed k ev : with_hmac None (signed k ev) = with_hmac None ev.
Proof. done. Qed.

Lemma verify_line_key ai (st : St) line o st' :
  verify_line ai st line = (o, st') →
  (∀ ev, o = Some ev → ∃ k, audit_key st' = Some k ∧ a_hmac ev = Some (tag_of k ev)) ∧
  (∀ k, audit_key st = Some k → st' = st).
Proof.
  unfold verify_line. intros Hv. destruct (from_slice line) as [ev|]; simplify_eq; [|done].
  destruct (a_hmac ev) as [tag|] eqn:Ht; simplify_eq; [|done].
  destruct (to_vec (with_hmac None ev)) as [j|] eqn:Hj; simplify_eq; [|done].
  destruct (compute_hmac ai j st) as [exp st1] eqn:Hc.
  injection Hv as <- <-. split.
  - intros ev' Ho. case_bool_decide; simplify_eq.
    unfold compute_hmac in Hc. pose proof (audit_key_set ai st) as Hk.
    destruct (audit_hmac_key ai st) as [k st2]. simplify_eq/=.
    exists k. split; [done|]. unfold tag_of. by rewrite Hj.
  - intros k Hk. rewrite (compute_hmac_cached ai j st k Hk) in Hc. by simplify_eq.
Qed.

Lemma verify_lines_key ai ls (st : St) evs st' :
  verify_lines ai ls st = (evs, st') →
  (∀ k, audit_key st = Some k → st' = st) ∧
  ∀ ev, ev ∈ evs → ∃ k, audit_key st' = Some k ∧ a_hmac ev = Some (tag_of k ev).
Proof.
  revert st evs. induction ls as [|l ls IH]; intros st evs Hv; simpl in Hv.
  { simplify_eq. split; [done|]. set_solver. }
  destruct (verify_line ai st l) as [o st1] eqn:Hv1.
  destruct (verify_lines ai ls st1) as [evs1 st2] eqn:Hv2. simplify_eq.
  destruct (verify_line_key _ _ _ _ _ Hv1) as [Ho Hs].
  destruct (IH _ _ Hv2) as [Hs2 Hin]. split.
  { intros k Hk. rewrite <-(Hs k Hk). apply (Hs2 k). by rewrite (Hs k Hk). }
  intros ev Hev. destruct o as [e|]; [|by apply Hin].
  apply elem_of_cons in Hev as [->|Hev]; [|by apply Hin].
  destruct (Ho e eq_refl) as (k & Hk & Ht). exists k. by rewrite (Hs2 k Hk).
Qed.

(** Only authentic audit events are reported.  Whatever bytes the day's
    file holds, every event that [read_verified_events] returns carries the
    HMAC tag of its own canonical form under the server's audit key. *)
Theorem verified_events_authentic (io : io_fault) (ai : AuditIo) (date : string) (st : St)
    (ev : AuditEvent)
    (Hev : ev ∈ (read_verified_events io ai date st).1) :
  ∃ k, audit_key (read_verified_events io ai date st).2 = Some k ∧
    a_hmac ev = Some (tag_of k ev).
Proof.
  unfold read_verified_events in *.
  destruct io; try (by apply not_elem_of_nil in Hev);
    (destruct (files (storage st) !! _) as [data|]; [|by apply not_elem_of_nil in Hev]);
    (destruct (utf8_valid data); [|by apply not_elem_of_nil in Hev]);
    (destruct (verify_lines ai (lines data) st) as [evs st'] eqn:Hv);
    apply verify_lines_key in Hv as [_ Hv]; by apply Hv.
Qed.

(** ** Round trip *)

(** The effect of a [log] whose file operations succeed. *)
Lemma audit_log_effect ai db ev (st : St) :
  ai_append ai = IoOk →
  let path := audit_events_file DATA_DIR (fmt_ymd (a_timestamp ev)) in
  let st' := audit_log_event ai db ev st in
  ∃ k line, audit_key st' = Some k ∧ (∀ k', audit_key st = Some k' → k = k') ∧
    to_vec (signed k ev) = Ok line ∧
    files (storage st') !! path =
      Some (default "" (files (storage st) !! path) +:+ (line +:+ newline)).
Proof.
  intros Hio path st'. unfold st', audit_log_event. fold path.
  match goal with |- context [compute_hmac _ _ ?x] => set (st1 := x) end.
  assert (Hst1 : audit_key st1 = audit_key st ∧ files (storage st1) = files (storage st))
    by (unfold st1; by destruct (parent _), (ai_mkdir ai)).
  destruct Hst1 as [Hk1 Hf1].
  destruct (to_vec_total (with_hmac None ev)) as [j Hj]. rewrite Hj.
  pose proof (compute_hmac_frame ai j st1) as (_ & _ & Hf2).
  pose proof (audit_key_set ai st1) as Hk2.
  assert (Hsame : ∀ k', audit_key st = Some k' → (audit_hmac_key ai st1).1 = k').
  { intros k' Hk'. rewrite <-Hk1 in Hk'. unfold audit_hmac_key. by rewrite Hk'. }
  unfold compute_hmac in *. destruct (audit_hmac_key ai st1) as [k st2]. simpl in *.
  assert (Htag : with_hmac (Some (hex_encode (hmac_sha256 k j))) ev = signed k ev)
    by (unfold signed, tag_of; by rewrite Hj).
  rewrite Htag. destruct (to_vec_total (signed k ev)) as [line Hl]. rewrite Hl. rewrite Hio.
  exists k, line. split; [by destruct db|]. split; [done|]. split; [done|].
  assert (Hp : path ≠ audit_key_path) by apply audit_file_not_key, ymd_no_slash.
  destruct db; simpl; rewrite lookup_insert_eq, Hf2, Hf1; done.
Qed.

Definition log_run (tr : list (AuditIo * option (renv (Db T)) * AuditEvent)) (st : St) : St :=
  foldl (λ st x, audit_log_event x.1.1 x.1.2 x.2 st) st tr.
Definition of_day (d : string) (tr : list (AuditIo * option (renv (Db T)) * AuditEvent)) :
    list AuditEvent :=
  filter (λ ev, fmt_ymd (a_timestamp ev) = d) tr.*2.

(** The file of a day holds the signed lines of the day's events. *)
Definition day_file (d : string) (k : string) (evs : list AuditEvent) (st : St) : Prop :=
  ∃ ls, default "" (files (storage st) !! audit_events_file DATA_DIR d) = unlines ls ∧
    Forall2 (λ ev l, to_vec (signed k ev) = Ok l) evs ls.

Lemma log_step_day d ai db ev (st : St) k evs :
  no_char "/" d = true → ai_append ai = IoOk →
  day_file d k evs st → audit_key (audit_log_event ai db ev st) = Some k →
  day_file d k (evs ++ (if decide (fmt_ymd (a_timestamp ev) = d) then [ev] else []))
    (audit_log_event ai db ev st).
Proof.
  intros Hd Hio (ls & Hls & Hall) Hkey.
  destruct (audit_log_effect ai db ev st Hio) as (k1 & line & Hk1 & _ & Hl & Hf).
  assert (k1 = k) as -> by congruence. case_decide as Hdate.
  - subst d. exists (ls ++ [line]). rewrite Hf, Hls, unlines_snoc. split; [done|].
    apply Forall2_app; [done|]. by constructor.
  - exists ls. rewrite app_nil_r. split; [|done].
    rewrite (proj2 (audit_log_event_frame ai db ev st)); [done| |].
    + by apply audit_file_not_key.
    + intros He. apply Hdate. symmetry. apply audit_file_inj; [done|apply ymd_no_slash|done].
Qed.

Lemma log_run_day d tr (st : St) k evs :
  no_char "/" d = true → Forall (λ x, ai_append x.1.1 = IoOk) tr →
  audit_key st = Some k → day_file d k evs st →
  audit_key (log_run tr st) = Some k ∧ day_file d k (evs ++ of_day d tr) (log_run tr st).
Proof.
  intros Hd Hio. revert st evs. induction Hio as [|[[ai db] ev] tr Hai _ IH]; intros st evs Hk Hf.
  { unfold of_day. simpl. by rewrite app_nil_r. }
  simpl in Hai.
  assert (Hk' : audit_key (audit_log_event ai db ev st) = Some k).
  { destruct (audit_log_effect ai db ev st Hai) as (k1 & _ & Hk1 & Hs & _).
    rewrite Hk1. by rewrite (Hs k Hk). }
  pose proof (log_step_day d ai db ev st k evs Hd Hai) as Hstep.
  destruct (IH (audit_log_event ai db ev st)
    (evs ++ (if decide (fmt_ymd (a_timestamp ev) = d) then [ev] else []))) as [Hr1 Hr2].
  { done. }
  { by apply Hstep. }
  split; [done|]. rewrite <-app_assoc in Hr2.
  replace (of_day d ((ai, db, ev) :: tr)) with
    ((if decide (fmt_ymd (a_timestamp ev) = d) then [ev] else []) ++ of_day d tr); [done|].
  unfold of_day. rewrite fmap_cons, filter_cons. simpl. by case_decide.
Qed.

Lemma verify_signed ai k ev l (st st' : St) :
  audit_hmac_key ai st = (k, st') → to_vec (signed k ev) = Ok l →
  verify_line ai st l = (Some (signed k ev), st').
Proof.
  intros Hk Hl. unfold verify_line. rewrite (from_to _ _ Hl). simpl.
  rewrite canonical_signed. destruct (to_vec_total (with_hmac None ev)) as [j Hj].
  rewrite Hj. unfold compute_hmac. rewrite Hk.
  rewrite bool_decide_eq_true_2; [done|]. unfold tag_of. by rewrite Hj.
Qed.
Lemma key_again ai (st : St) k st' : audit_hmac_key ai st = (k, st') → audit_hmac_key ai st' = (k, st').
Proof.
  intros Hk. pose proof (audit_key_set ai st) as Hs. rewrite Hk in Hs. cbn in Hs.
  unfold audit_hmac_key at 1. by rewrite Hs.
Qed.
Lemma verify_signed_lines ai k evs ls (st st' : St) :
  audit_hmac_key ai st = (k, st') → Forall2 (λ ev l, to_vec (signed k ev) = Ok l) evs ls →
  (verify_lines ai ls st).1 = signed k <$> evs.
Proof.
  intros Hk Hall. revert st Hk. induction Hall as [|ev l evs ls Hl _ IH]; intros st Hk; [done|]. simpl.
  rewrite (verify_signed ai k ev l st st' Hk Hl). specialize (IH st' (key_again _ _ _ _ Hk)).
  destruct (verify_lines ai ls st') as [evs' st2]. cbn in *. by rewrite IH.
Qed.

Lemma day_file_read ai d k evs (st : St) :
  (audit_hmac_key ai st).1 = k → day_file d k evs st →
  (read_verified_events IoOk ai d st).1 = signed k <$> evs.
Proof.
  intros Hk (ls & Hls & Hall). destruct (audit_hmac_key ai st) as [k' st'] eqn:Hkey. cbn in Hk. subst k'.
  assert (Htext : Forall text_line ls ∧ Forall (λ l, utf8_valid l = true) ls).
  { split; apply Forall_forall; intros l Hl;
      apply list_elem_of_lookup in Hl as [i Hi];
      destruct (Forall2_lookup_r _ _ _ _ _ Hall Hi) as (ev & _ & Hj);
      by destruct (to_vec_text _ _ Hj). }
  destruct Htext as [Htext Hutf]. unfold read_verified_events.
  destruct (files (storage st) !! audit_events_file DATA_DIR d) as [data|] eqn:Hd.
  - simpl in Hls. subst. rewrite unlines_utf8, lines_unlines by done.
    by apply (verify_signed_lines ai k evs ls st st').
  - simpl in Hls. destruct ls as [|l ls]; [by inversion Hall|].
    exfalso. destruct l; done.
Qed.

Lemma log_then_read tr (st : St) k d ai :
  no_char "/" d = true → Forall (λ x, ai_append x.1.1 = IoOk) tr →
  audit_key st = Some k → files (storage st) !! audit_events_file DATA_DIR d = None →
  (read_verified_events IoOk ai d (log_run tr st)).1 = signed k <$> of_day d tr.
Proof.
  intros Hd Hio Hk Hfresh. destruct (log_run_day d tr st k [] Hd Hio Hk) as [Hk' Hf].
  { exists []. by rewrite Hfresh. }
  apply day_file_read; [|done]. unfold audit_hmac_key. by rewrite Hk'.
Qed.

(** ** The key across processes *)

(** The key of the log is stored, and is the one in memory when there is one. *)
Definition key_kept (k : string) (st : St) : Prop :=
  files (storage st) !! audit_key_path = Some k ∧ String.length k = 32%nat ∧
  ∀ k', audit_key st = Some k' → k' = k.
(** The system calls on the log and on its key succeed. *)
Definition works (ai : AuditIo) : Prop :=
  ai_key_read ai = IoOk ∧ ai_key_write ai = IoOk ∧ String.length (ai_rng ai) = 32%nat ∧ ai_append ai = IoOk.
Lemma key_kept_loaded ai k (st : St) :
  works ai → key_kept k st → audit_hmac_key ai st = (k, set_audit_key k st).
Proof.
  intros (Hr & _) (Hf & Hl & Hk). unfold audit_hmac_key. destruct (audit_key st) as [k'|] eqn:Hc.
  - rewrite (Hk k' eq_refl) in *. unfold set_audit_key. rewrite <-Hc. by destruct st.
  - rewrite Hr, Hf, Hl. done.
Qed.
(** Asked for its key, a process without one makes and stores it, or loads it. *)
Lemma hmac_key_kept ai (st : St) :
  works ai → audit_key st = None ∨ (∃ k, key_kept k st) →
  key_kept (audit_hmac_key ai st).1 (audit_hmac_key ai st).2.
Proof.
  intros Hai [Hc|[k Hk]].
  2:{ rewrite (key_kept_loaded ai k st Hai Hk). destruct Hk as (Hf & Hl & _).
      split_and!; [done|done|]. by intros k' [= <-]. }
  destruct Hai as (Hr & Hw & Hg & _). unfold audit_hmac_key. rewrite Hc, Hr.
  assert (Hn : ∀ s, key_kept (generate_key ai s).1
    (set_audit_key (generate_key ai s).1 (set_storage (generate_key ai s).2 st))).
  { intros s. unfold key_kept, generate_key. rewrite Hw. cbn [fst snd storage audit_key set_audit_key set_storage files set_files].
    rewrite lookup_insert_eq. split_and!; [done|done|]. by intros k' [= <-]. }
  specialize (Hn (storage st)). destruct (generate_key ai (storage st)) as [k fs].
  destruct (files (storage st) !! audit_key_path) as [b|] eqn:Hf; [|exact Hn].
  destruct (Nat.eqb_spec (String.length b) 32) as [He|He]; [|exact Hn].
  split_and!; [done|done|]. by intros k' [= <-].
Qed.
(** Logging leaves the key in memory and on disk, and is signed with the key that
    was there. *)
Lemma log_key_kept ai db ev (st : St) :
  works ai → audit_key st = None ∨ (∃ k, key_kept k st) →
  let st' := audit_log_event ai db ev st in
  ∃ k, audit_key st' = Some k ∧ key_kept k st' ∧ ∀ k', key_kept k' st → k = k'.
Proof.
  intros Hai Hst. cbv zeta. unfold audit_log_event. cbv zeta.
  match goal with |- context [compute_hmac _ _ ?x] => set (st1 := x) end.
  assert (Hst1 : audit_key st1 = audit_key st ∧ files (storage st1) = files (storage st))
    by (unfold st1; by destruct (parent _), (ai_mkdir ai)).
  destruct Hst1 as [Hk1 Hf1]. assert (Hkk : ∀ k, key_kept k st → key_kept k st1).
  { intros k. unfold key_kept. by rewrite Hk1, Hf1. }
  destruct (to_vec_total (with_hmac None ev)) as [j Hj]. rewrite Hj. unfold compute_hmac.
  pose proof (audit_key_set ai st1) as Hset.
  assert (Hkept : key_kept (audit_hmac_key ai st1).1 (audit_hmac_key ai st1).2).
  { apply hmac_key_kept; [done|]. destruct Hst as [Hc|[k Hk]]; [left; congruence|right; eauto]. }
  assert (Hsame : ∀ k', key_kept k' st → (audit_hmac_key ai st1).1 = k')
    by (intros k' Hk'; by rewrite (key_kept_loaded ai k' st1 Hai (Hkk k' Hk'))).
  destruct (audit_hmac_key ai st1) as [k st2]. cbn [fst snd] in *. exists k.
  destruct Hai as (_ & _ & _ & Ha). rewrite Ha.
  assert (Happ : ∀ line, key_kept k (set_storage
    (append_line IoOk (audit_events_file DATA_DIR (fmt_ymd (a_timestamp ev))) (line +:+ newline) (storage st2)) st2)).
  { intros line. destruct Hkept as (Hf & Hl & Hc). split; [|done]. cbn. rewrite lookup_insert_ne; [done|].
    apply audit_file_not_key, ymd_no_slash. }
  destruct (to_vec (with_hmac (Some _) ev)) as [line|], db as [env|]; (split; [done|]); (split; [|done]);
    first [apply Happ|exact Hkept].
Qed.

(** The audit file round trip.  Starting from any state with an
    initialised audit key and no file for the day, after logging any sequence
    of events of any days (the database writes may fail), reading the day back
    returns exactly the day's events in logging order, each with its tag. *)
Theorem audit_file_round_trip (tr : list (AuditIo * option (renv (Db T)) * AuditEvent))
    (st : St) (k d : string) (ai : AuditIo)
    (Hd : no_char "/" d = true)
    (Hio : Forall (λ x, ai_append x.1.1 = IoOk) tr)
    (Hk : audit_key st = Some k)
    (Hfresh : files (storage st) !! audit_events_file DATA_DIR d = None) :
  (read_verified_events IoOk ai d (log_run tr st)).1 = signed k <$> of_day d tr.
Proof. by apply log_then_read. Qed.
End AuditFiles.

(** *** Witnesses *)

#[export] Instance audit_crates0 : AuditCrates := { hmac_sha256 _ _ := "mac" }.
Definition ai0 : AuditIo := mkAuditIo IoOk "0123456789abcdef0123456789abcdef" IoOk IoOk IoOk.
Definition st0 : AppState table0 lru1 :=
  mkAppState (mkFs ∅ ∅) db0 (mkTxCache None 30) (Some "0123456789abcdef0123456789abcdef").
Definition audit_ev0 : AuditEvent :=
  with_user "u" (event_new "e1" (mkDateTime 5 0) WalletCreated).

Lemma verified_events_authentic_witness :
  let st := log_run [(ai0, Some env0, audit_ev0)] st0 in
  let ev := signed "0123456789abcdef0123456789abcdef" audit_ev0 in
  ∃ k, audit_key (read_verified_events IoOk ai0 "1970-01-01" st).2 = Some k ∧
    a_hmac ev = Some (tag_of k ev).
Proof.
  intros st ev. apply (verified_events_authentic IoOk ai0 "1970-01-01" st ev).
  unfold st, ev. rewrite (log_then_read _ st0 "0123456789abcdef0123456789abcdef");
    [by left|reflexivity|by repeat constructor|reflexivity|reflexivity].
Defined.
Lemma audit_file_round_trip_witness :
  (read_verified_events IoOk ai0 "1970-01-01"
     (log_run [(ai0, Some env0, audit_ev0); (ai0, None, audit_ev0)] st0)).1 =
  signed "0123456789abcdef0123456789abcdef" <$>
    of_day "1970-01-01" [(ai0, Some env0, audit_ev0); (ai0, None, audit_ev0)].
Proof.
  apply (audit_file_round_trip [(ai0, Some env0, audit_ev0); (ai0, None, audit_ev0)] st0
    "0123456789abcdef0123456789abcdef" "1970-01-01" ai0).
  - reflexivity.
  - repeat constructor.
  - reflexivity.
  - reflexivity.
Defined.
(** A write that fails midway leaves a torn line, and the event logged next, which
    is written in full, is lost with it: the two are read as one line. *)
Example torn_line_hides_next :
  let torn := mkAuditIo IoOk (ai_rng ai0) IoOk IoOk (IoWrite "disk full" (Some "{")) in
  (read_verified_events IoOk ai0 "1970-01-01" (log_run [(ai0, None, audit_ev0)] st0)).1 ≠ [] ∧
  (read_verified_events IoOk ai0 "1970-01-01"
     (log_run [(torn, None, audit_ev0); (ai0, None, audit_ev0)] st0)).1 = [].
Proof. split; vm_compute; done. Qed.
