(* ===== verification/Wallets.v ===== *)
(** * Wallets: repository, endpoints and the admin actions on them

    src/src/storage/repository/wallets.rs, src/src/storage/ownership.rs,
    src/src/blockchain/signing.rs, src/src/api/wallets.rs, the shared helpers of
    src/src/api/mod.rs and the wallet part of src/src/api/admin.rs.  Every
    handler is an [act] on [AppState]; the failures of its storage and database
    calls come from its [ReqEnv]. *)
From S2P Require Import Prelude.
From S2P Require Import RustStr.
From S2P Require Import RustFmt.
From S2P Require Import Errors.
From S2P Require Import Types.
From S2P Require Import Interfaces.
From S2P Require Import TxDatabase.
From S2P Require Import Storage.
From S2P Require Import TxCache.
From S2P Require Import AppState.

Local Open Scope Z_scope.

(** ** Third-party: Ed25519 keypairs *)

(** [solana_keypair::Keypair]. *)
Class SolanaKeys (K : Type) := {
  kp_try_from : list Z → result string K;
  kp_to_bytes : K → list Z;
  kp_pubkey : K → string;
}.
Class SolanaKeysLaws (K : Type) `{SolanaKeys K} := {
  kp_round k : kp_try_from (kp_to_bytes k) = Ok k;
}.

(** ** Requests *)

(** What the environment decides during one request: the outcome of each
    filesystem call and database transaction, in order, and of the audit log. *)
Record ReqEnv (T : Type) `{RedbTxn (Db T)} := mkReqEnv {
  re_io : nat → io_fault;
  re_db : nat → renv (Db T);
  re_audit : AuditIo;
  re_event_id : string;
  re_now : DateTime;
  re_explorer : string → string;
}.
Arguments mkReqEnv {T _} _ _ _ _ _ _.
Arguments re_io {T _} _.
Arguments re_db {T _} _.
Arguments re_audit {T _} _.
Arguments re_event_id {T _} _.
Arguments re_now {T _} _.
Arguments re_explorer {T _} _.

(** ** Keypairs (blockchain/signing.rs) *)

Section Signing.
Context {K : Type} `{SolanaKeys K}.

Definition keypair_from_bytes (bytes : list Z) : result ApiError K :=
  map_err (λ e, Api.internal ("invalid keypair data: " +:+ e)) (kp_try_from bytes).

Definition keypair_from_bytes_verified (bytes : list Z) (expected_address : string) :
    result ApiError K :=
  kp ← keypair_from_bytes bytes;
  let derived := kp_pubkey kp in
  if bool_decide (derived = expected_address) then Ok kp
  else Err (Api.internal
    "keypair integrity check failed: derived public key does not match wallet address").

(** [Keypair::new()] is the random [fresh_kp]. *)
Definition generate_solana_keypair (fresh_kp : K) : result ApiError (list Z * string) :=
  let public_address := kp_pubkey fresh_kp in
  let keypair_bytes := kp_to_bytes fresh_kp in
  Ok (keypair_bytes, public_address).
End Signing.

(** ** Ownership *)

Definition verify_ownership (owner_user_id user_sub : string) : result StorageError unit :=
  if bool_decide (owner_user_id = user_sub) then Ok ()
  else Err (StPermissionDenied user_sub ("resource owned by " +:+ owner_user_id)).

(** ** Repository *)

Definition with_status (s : WalletStatus) (m : WalletMetadata) : WalletMetadata :=
  mkWalletMetadata (w_wallet_id m) (w_owner_user_id m) (w_public_address m) (w_created_at m)
    s (w_label m).

Section WalletRepository.
Context `{Serde WalletMetadata, Serde (list Z)}.
Abbreviation fs A := (act Fs StorageError A).

Definition wallet_exists (io : io_fault) (wallet_id : string) (s : Fs) : bool :=
  exists_path io (wallet_meta DATA_DIR wallet_id) s.

Definition rename_not_found (msg : string) (e : StorageError) : StorageError :=
  match e with StNotFound _ => StNotFound msg | other => other end.

Definition wallet_get (io : io_fault) (wallet_id : string) : fs WalletMetadata :=
  act_map_err (rename_not_found ("wallet " +:+ wallet_id +:+ " not found"))
    (read_json io (wallet_meta DATA_DIR wallet_id)).

Definition wallet_get_owned (io : io_fault) (wallet_id user_sub : string) : fs WalletMetadata :=
  meta ← wallet_get io wallet_id;
  _ ← lift (verify_ownership (w_owner_user_id meta) user_sub);
  mret meta.

(** The four storage calls of [create] fail independently. *)
Definition wallet_create (io : nat → io_fault) (metadata : WalletMetadata)
    (keypair_bytes : list Z) : fs unit :=
  let wallet_id := w_wallet_id metadata in
  already ← reading (λ s, Ok (wallet_exists (io 0%nat) wallet_id s));
  if already : bool then
    fail (StAlreadyExists ("wallet " +:+ wallet_id +:+ " already exists"))
  else
    create_dir (io 1%nat) (wallet_dir DATA_DIR wallet_id);;
    write_json (io 2%nat) (wallet_meta DATA_DIR wallet_id) metadata;;
    write_json (io 3%nat) (wallet_keypair DATA_DIR wallet_id) keypair_bytes.

Definition wallet_update (io : nat → io_fault) (metadata : WalletMetadata) : fs unit :=
  let wallet_id := w_wallet_id metadata in
  present ← reading (λ s, Ok (wallet_exists (io 0%nat) wallet_id s));
  if negb present then fail (StNotFound ("wallet " +:+ wallet_id +:+ " not found"))
  else write_json (io 1%nat) (wallet_meta DATA_DIR wallet_id) metadata.

Definition wallet_soft_delete (io : nat → io_fault) (wallet_id : string) : fs unit :=
  meta ← wallet_get (io 0%nat) wallet_id;
  wallet_update (λ n, io (S n)) (with_status WDeleted meta).

(** The loop of [list_all_wallets]: a wallet that is gone is skipped. *)
Fixpoint wallets_of_ids (io : nat → io_fault) (ids : list string) : fs (list WalletMetadata) :=
  match ids with
  | [] => mret []
  | id :: rest => λ s,
      match wallet_get (io 0%nat) id s with
      | (Ok meta, s') =>
          (more ← wallets_of_ids (λ n, io (S n)) rest; mret (meta :: more)) s'
      | (Err (StNotFound _), s') => wallets_of_ids (λ n, io (S n)) rest s'
      | (Err e, s') => (Err e, s')
      end
  end.
Definition wallet_list_all (io : nat → io_fault) : fs (list WalletMetadata) :=
  wallet_ids ← list_dirs (io 0%nat) (wallets_dir DATA_DIR);
  wallets_of_ids (λ n, io (S n)) wallet_ids.

Definition wallet_list_by_owner (io : nat → io_fault) (user_id : string) :
    fs (list WalletMetadata) :=
  wallets ← wallet_list_all io;
  mret (List.filter (λ w, bool_decide (w_owner_user_id w = user_id)
                          && negb (bool_decide (w_status w = WDeleted))) wallets).

Definition wallet_read_keypair (io : io_fault) (wallet_id : string) : fs (list Z) :=
  act_map_err (rename_not_found ("keypair for wallet " +:+ wallet_id +:+ " not found"))
    (read_json io (wallet_keypair DATA_DIR wallet_id)).
End WalletRepository.

(** ** Responses *)

Record WalletResponse := mkWalletResponse {
  wr_wallet_id : string;
  wr_public_address : string;
  wr_created_at : DateTime;
  wr_status : string;
  wr_label : option string;
}.
Definition status_name (s : WalletStatus) : string :=
  match s with WActive => "active" | WSuspended => "suspended" | WDeleted => "deleted" end.
Definition wallet_response (m : WalletMetadata) : WalletResponse :=
  mkWalletResponse (w_wallet_id m) (w_public_address m) (w_created_at m)
    (status_name (w_status m)) (w_label m).

Record WalletStatsResponse := mkStats {
  total_wallets : nat; active_wallets : nat; suspended_wallets : nat; deleted_wallets : nat }.

(** [PaginationQuery::clamped_limit]. *)
Definition clamped_limit (limit : nat) : nat := Nat.max 1 (Nat.min limit 200).

(** ** Handlers *)

Section Handlers.
Context {T C K : Type} `{RedbTable T, RedbTxn (Db T), SolanaKeys K}.
Context `{DbCrates, AuditCrates, Serde AuditEvent, Serde WalletMetadata, Serde (list Z)}.
Abbreviation St := (AppState T C).
Abbreviation handler A := (act St ApiError A).

Definition audit (e : ReqEnv T) (env : renv (Db T)) (ty : AuditEventType)
    (user rt ri : string) : handler unit :=
  updating (audit_log (re_audit e) env (re_event_id e) (re_now e) ty user rt ri).

(** [enforce_owner_active]. *)
Definition enforce_owner_active (wallet : WalletMetadata) (caller_sub : string) :
    result ApiError unit :=
  _ ← map_err api_of_storage (verify_ownership (w_owner_user_id wallet) caller_sub);
  _ ← reject_if (bool_decide (w_status wallet = WDeleted))
        (Api.not_found ("wallet " +:+ w_wallet_id wallet +:+ " not found"));
  reject_if (bool_decide (w_status wallet = WSuspended))
    (Api.forbidden ("wallet " +:+ w_wallet_id wallet +:+ " is suspended")).

(** [get_active_wallet_for_user]. *)
Definition get_active_wallet_for_user (io : io_fault) (env : renv (Db T)) (user_id : string) :
    handler WalletMetadata :=
  found ← on_db (get_wallet_id_by_owner env user_id);
  wallet_id ← lift (ok_or found (Api.bad_request "no wallet found for user"));
  meta ← on_storage (wallet_get io wallet_id);
  _ ← lift (reject_if (negb (bool_decide (w_status meta = WActive)))
              (Api.bad_request "wallet is not active"));
  mret meta.

(** [POST /v1/wallets]. *)
Definition create_wallet (e : ReqEnv T) (token : TokenData) (label : option string)
    (fresh_kp : K) (wallet_id : string) : handler (WalletResponse * string) :=
  _ ← lift (match label with
            | Some l => reject_if (64 <? len l)
                          (Api.bad_request "label must be at most 64 characters")
            | None => Ok ()
            end);
  '(keypair_bytes, public_address) ← lift (generate_solana_keypair fresh_kp);
  let metadata :=
    mkWalletMetadata wallet_id (sub token) public_address (re_now e) WActive label in
  on_storage (wallet_create (re_io e) metadata keypair_bytes);;
  best_effort (on_db (register_address (re_db e 0%nat) public_address wallet_id));;
  (λ st,
    match register_wallet_owner (re_db e 1%nat) (sub token) wallet_id (tx_db st) with
    | (Ok _, db) => (Ok (), set_tx_db db st)
    | (Err (DbDuplicateWallet existing), db) =>
        (Err (Api.bad_request ("user already has a wallet: " +:+ existing)), set_tx_db db st)
    | (Err _, db) => (Ok (), set_tx_db db st)
    end);;
  audit e (re_db e 2%nat) WalletCreated (sub token) "wallet" wallet_id;;
  mret (wallet_response metadata, re_explorer e public_address).

(** [GET /v1/wallets]. *)
Definition list_wallets (e : ReqEnv T) (token : TokenData) : handler (list WalletResponse * nat) :=
  found ← on_db (get_wallet_id_by_owner (re_db e 0%nat) (sub token));
  wallets ← reading (λ st : St, Ok (match found with
            | Some wallet_id =>
                match (wallet_get (re_io e 0%nat) wallet_id (storage st)).1 with
                | Ok meta => if bool_decide (w_status meta = WDeleted) then [] else [meta]
                | Err _ => []
                end
            | None => []
            end));
  let total := length wallets in
  mret (wallet_response <$> wallets, total).

(** [GET /v1/wallets/{id}]. *)
Definition get_wallet (e : ReqEnv T) (token : TokenData) (wallet_id : string) :
    handler WalletResponse :=
  metadata ← on_storage (wallet_get_owned (re_io e 0%nat) wallet_id (sub token));
  _ ← lift (reject_if (bool_decide (w_status metadata = WDeleted))
              (Api.not_found ("wallet " +:+ wallet_id +:+ " not found")));
  mret (wallet_response metadata).

(** [DELETE /v1/wallets/{id}]. *)
Definition delete_wallet (e : ReqEnv T) (token : TokenData) (wallet_id : string) :
    handler (string * string) :=
  _ ← on_storage (wallet_get_owned (re_io e 0%nat) wallet_id (sub token));
  on_storage (wallet_soft_delete (λ n, re_io e (1 + n)%nat) wallet_id);;
  best_effort (on_db (remove_wallet_owner (re_db e 0%nat) (sub token)));;
  audit e (re_db e 1%nat) WalletDeleted (sub token) "wallet" wallet_id;;
  mret ("deleted", wallet_id).

(** *** Admin *)

Definition count_status (s : WalletStatus) (all : list WalletMetadata) : nat :=
  length (List.filter (λ w, bool_decide (w_status w = s)) all).

Definition get_wallet_stats (e : ReqEnv T) (token : TokenData) : handler WalletStatsResponse :=
  all ← on_storage (wallet_list_all (re_io e));
  audit e (re_db e 0%nat) AdminAccess (sub token) "system" "wallet-stats";;
  mret (mkStats (length all) (count_status WActive all) (count_status WSuspended all)
          (count_status WDeleted all)).

Definition admin_list_all_wallets (e : ReqEnv T) (token : TokenData) (limit offset : nat) :
    handler (list (string * WalletResponse) * nat) :=
  all ← on_storage (wallet_list_all (re_io e));
  let total := length all in
  let entries :=
    (λ w, (w_owner_user_id w, wallet_response w)) <$> take (clamped_limit limit) (drop offset all) in
  audit e (re_db e 0%nat) AdminAccess (sub token) "system" "list-all-wallets";;
  mret (entries, total).

(** [chrono::NaiveDate::parse_from_str(&date, "%Y-%m-%d").is_ok()] is [valid_date]. *)
Definition query_audit_logs (e : ReqEnv T) (valid_date : string → bool)
    (date : option string) (limit offset : nat) : handler (list AuditEvent * nat) :=
  let date := match date with Some d => d | None => fmt_ymd (re_now e) end in
  _ ← lift (reject_if (negb (valid_date date))
              (Api.bad_request "date must be in YYYY-MM-DD format"));
  let limit := Nat.max 1 (Nat.min limit 200) in
  events ← act_map_err (λ e, Api.internal ("failed to query audit events: " +:+ display_txdb e))
             (zoom tx_db set_tx_db (list_audit_by_date (re_db e 0%nat) date limit offset));
  mret (events, length events).

(** [suspend_wallet] and [activate_wallet] differ in the status and the texts. *)
Definition suspend_wallet (e : ReqEnv T) (token : TokenData) (wallet_id : string) :
    handler (string * string) :=
  wallet ← on_storage (wallet_get (re_io e 0%nat) wallet_id);
  _ ← lift (reject_if (bool_decide (w_status wallet = WDeleted))
              (Api.bad_request "cannot suspend a deleted wallet"));
  on_storage (wallet_update (λ n, re_io e (1 + n)%nat) (with_status WSuspended wallet));;
  audit e (re_db e 0%nat) AdminAccess (sub token) "wallet" wallet_id;;
  mret (wallet_id, "suspended").

Definition activate_wallet (e : ReqEnv T) (token : TokenData) (wallet_id : string) :
    handler (string * string) :=
  wallet ← on_storage (wallet_get (re_io e 0%nat) wallet_id);
  _ ← lift (reject_if (bool_decide (w_status wallet = WDeleted))
              (Api.bad_request "cannot activate a deleted wallet"));
  on_storage (wallet_update (λ n, re_io e (1 + n)%nat) (with_status WActive wallet));;
  audit e (re_db e 0%nat) AdminAccess (sub token) "wallet" wallet_id;;
  mret (wallet_id, "active").

(** [log_role_change] writes to the audit file only: no database is attached. *)
Definition log_role_change (e : ReqEnv T) (token : TokenData)
    (target_user_id old_role new_role : string) : handler bool :=
  let audit_event :=
    with_details (JObj [("target_user", JStr target_user_id); ("old_role", JStr old_role);
                        ("new_role", JStr new_role); ("assigned_by", JStr (sub token))])
      (with_resource "user" target_user_id
        (with_user (sub token) (event_new (re_event_id e) (re_now e) RoleAssigned))) in
  updating (audit_log_event (re_audit e) None audit_event);;
  mret true.
End Handlers.
