(* ===== verification/WalletFacts.v ===== *)
(** * Wallets: lifecycle, key material, ownership

    The wallet endpoints as steps of a transition system over the stored
    wallets, with any storage or database call of a step failing. *)
From S2P Require Import Prelude.
From S2P Require Import RustStr.
From S2P Require Import RustFmt.
From S2P Require Import Errors.
From S2P Require Import Types.
From S2P Require Import Interfaces.
From S2P Require Import TxDatabase.
From S2P Require Import Instances.
From S2P Require Import TxScans.
From S2P Require Import Storage.
From S2P Require Import TxCache.
From S2P Require Import AppState.
From S2P Require Import AuditLog.
From S2P Require Import Wallets.
From stdpp Require Import relations.

Local Open Scope Z_scope.
#[local] Arguments String.append : simpl nomatch.

(** ** The wallet files *)

Definition mf (s : Fs) (id : string) : option string :=
  files s !! wallet_file DATA_DIR id "meta.json".
Definition kf (s : Fs) (id : string) : option string :=
  files s !! wallet_file DATA_DIR id "keypair.json".

Lemma wallet_meta_file id :
  safe_name id = true → wallet_meta DATA_DIR id = wallet_file DATA_DIR id "meta.json".
Proof. intros. by apply wallet_path. Qed.
Lemma wallet_keypair_file id :
  safe_name id = true → wallet_keypair DATA_DIR id = wallet_file DATA_DIR id "keypair.json".
Proof. intros. by apply wallet_path. Qed.

(** Writing one wallet file changes that file or nothing among the wallet files. *)
Lemma write_meta_view io id data s :
  safe_name id = true →
  let r := atomic_write io (wallet_meta DATA_DIR id) data s in
  (∀ j, safe_name j = true → kf r.2 j = kf s j) ∧
  (∀ j, safe_name j = true →
     mf r.2 j = if is_ok r.1 then if decide (j = id) then Some data else mf s j else mf s j).
Proof.
  intros Hid r. unfold r. rewrite wallet_meta_file by done.
  pose proof (wallet_meta_tmp DATA_DIR id Hid) as Htmp.
  split; intros j Hj; unfold kf, mf; rewrite atomic_write_files; rewrite ?Htmp.
  - destruct (is_ok _); [|done]. rewrite decide_False; [done|].
    intros [_ ?]%wallet_file_inj; done.
  - intros [_ ?]%wallet_file_inj; done.
  - destruct (is_ok _); [|done]. destruct (decide (j = id)) as [->|Hne].
    + by rewrite decide_True.
    + rewrite decide_False; [done|]. intros [? _]%wallet_file_inj; done.
  - intros [_ ?]%wallet_file_inj; done.
Qed.
Lemma write_key_view io id data s :
  safe_name id = true →
  let r := atomic_write io (wallet_keypair DATA_DIR id) data s in
  (∀ j, safe_name j = true → mf r.2 j = mf s j) ∧
  (∀ j, safe_name j = true →
     kf r.2 j = if is_ok r.1 then if decide (j = id) then Some data else kf s j else kf s j).
Proof.
  intros Hid r. unfold r. rewrite wallet_keypair_file by done.
  pose proof (wallet_keypair_tmp DATA_DIR id Hid) as Htmp.
  split; intros j Hj; unfold kf, mf; rewrite atomic_write_files; rewrite ?Htmp.
  - destruct (is_ok _); [|done]. rewrite decide_False; [done|].
    intros [_ ?]%wallet_file_inj; done.
  - intros [_ ?]%wallet_file_inj; done.
  - destruct (is_ok _); [|done]. destruct (decide (j = id)) as [->|Hne].
    + by rewrite decide_True.
    + rewrite decide_False; [done|]. intros [? _]%wallet_file_inj; done.
  - intros [_ ?]%wallet_file_inj; done.
Qed.

(** The wallet files are not the audit files. *)
Lemma wallet_not_audit id n d :
  no_char "/" d = true → wallet_file DATA_DIR id n ≠ audit_events_file DATA_DIR d.
Proof. intros Hd. rewrite audit_file_path by done. intros He. by simplify_eq/=. Qed.
Lemma wallet_not_key id n : wallet_file DATA_DIR id n ≠ audit_key_path.
Proof. intros He. by simplify_eq/=. Qed.

Section Facts.
Context {T C K : Type} `{RedbTableLaws T, RedbTxnLaws (Db T), SolanaKeysLaws K}.
Context `{DbCratesLaws, AuditCrates, SerdeLaws AuditEvent, SerdeLaws WalletMetadata}.
Context `{SerdeLaws (list Z)}.
Abbreviation St := (AppState T C).

Definition on_disk (s : Fs) (id : string) (m : WalletMetadata) : Prop :=
  ∃ data, mf s id = Some data ∧ from_slice data = Ok m.

(** Every metadata file parses and names its own wallet. *)
Definition fs_wf (s : Fs) : Prop :=
  ∀ id data, safe_name id = true → mf s id = Some data →
    ∃ m, from_slice data = Ok m ∧ w_wallet_id m = id.

Lemma on_disk_det s id m m' : on_disk s id m → on_disk s id m' → m = m'.
Proof. intros (d & Hd & Hm) (d' & Hd' & Hm'). congruence. Qed.

(** ** Repository *)

Lemma wallet_get_spec io id s :
  safe_name id = true →
  (wallet_get io id s).2 = s ∧ ∀ m, (wallet_get io id s).1 = Ok m → on_disk s id m.
Proof.
  intros Hid. unfold wallet_get, read_json, read_raw. rewrite wallet_meta_file by done.
  unfold on_disk, mf. unfold_act.
  destruct io as [|e|e|e p|e]; simpl; try done;
    (destruct (files s !! _) as [data|]; simpl; [|done]); (split; [done|]);
    intros m Hm; exists data; (split; [done|]); by destruct (from_slice data); simplify_eq/=.
Qed.

(** The view of a change of one wallet's metadata. *)
Definition only_meta (id : string) (s s' : Fs) : Prop :=
  (∀ j, safe_name j = true → kf s' j = kf s j) ∧
  (∀ j, safe_name j = true → j ≠ id → mf s' j = mf s j).

Lemma wallet_update_spec io m s :
  safe_name (w_wallet_id m) = true →
  let r := wallet_update io m s in
  only_meta (w_wallet_id m) s r.2 ∧
  (mf r.2 (w_wallet_id m) = mf s (w_wallet_id m) ∨ on_disk r.2 (w_wallet_id m) m) ∧
  (r.1 = Ok () → on_disk r.2 (w_wallet_id m) m).
Proof.
  intros Hid. unfold wallet_update, write_json. destruct (to_vec_pretty_total m) as [data Hd].
  unfold_act. destruct (wallet_exists _ _ _); simpl; [|split_and!; [by split|by left|done]].
  rewrite Hd. simpl.
  destruct (write_meta_view (io 1%nat) (w_wallet_id m) data s Hid) as [Hk Hm].
  specialize (Hm (w_wallet_id m) Hid) as Hm'. rewrite decide_True in Hm' by done.
  assert (Hdisk : is_ok (atomic_write (io 1%nat) (wallet_meta DATA_DIR (w_wallet_id m)) data s).1
    = true → on_disk (atomic_write (io 1%nat) (wallet_meta DATA_DIR (w_wallet_id m)) data s).2
        (w_wallet_id m) m).
  { intros Hok. exists data. rewrite Hok in Hm'. split; [done|by apply from_to_pretty]. }
  split_and!.
  - split; [done|]. intros j Hj Hne. rewrite (Hm j Hj). destruct (is_ok _); [|done].
    by rewrite decide_False.
  - destruct (is_ok _) eqn:Hok; auto.
  - intros Hok. apply Hdisk. by rewrite Hok.
Qed.

Lemma wallet_create_spec io m kp s :
  safe_name (w_wallet_id m) = true →
  let r := wallet_create io m kp s in
  (∀ j, safe_name j = true → j ≠ w_wallet_id m → mf r.2 j = mf s j ∧ kf r.2 j = kf s j) ∧
  (mf r.2 (w_wallet_id m) = mf s (w_wallet_id m) ∨ on_disk r.2 (w_wallet_id m) m) ∧
  (r.1 = Ok () → on_disk r.2 (w_wallet_id m) m ∧
     ∃ kd, kf r.2 (w_wallet_id m) = Some kd ∧ from_slice kd = Ok kp).
Proof.
  intros Hid. unfold wallet_create, write_json, create_dir.
  destruct (to_vec_pretty_total m) as [data Hd]. destruct (to_vec_pretty_total kp) as [kd Hkd].
  unfold_act. destruct (wallet_exists _ _ _); simpl; [split_and!; [done|by left|done]|].
  rewrite Hd, Hkd. simpl.
  set (s1 := create_dir_all (wallet_dir DATA_DIR (w_wallet_id m)) s).
  assert (Hs1 : mf s1 = mf s ∧ kf s1 = kf s) by done. destruct Hs1 as [Hs1 Hs1'].
  destruct (io 1%nat); simpl; try (split_and!; [done|by left|done]);
    fold s1;
    destruct (write_meta_view (io 2%nat) (w_wallet_id m) data s1 Hid) as [Hk Hm];
    destruct (atomic_write (io 2%nat) _ data s1) as [[[]|e] s2]; simpl in *;
    rewrite ?Hs1, ?Hs1' in *;
    try (split_and!; [intros j Hj _; by rewrite Hk, Hm|left; by apply Hm|done]);
    destruct (write_key_view (io 3%nat) (w_wallet_id m) kd s2 Hid) as [Hm3 Hk3];
    destruct (atomic_write (io 3%nat) _ kd s2) as [r3 s3]; simpl in *;
    (assert (Hdisk : on_disk s3 (w_wallet_id m) m);
      [exists data; rewrite Hm3, Hm, decide_True by done; split; [done|by apply from_to_pretty]|]);
    (split_and!;
     [intros j Hj Hne; rewrite Hm3, Hm, Hk3, Hk by done;
        rewrite !(decide_False (P:=j = w_wallet_id m)) by done; by destruct (is_ok r3)
     |by right
     |intros ->; simpl in *; split; [done|]; exists kd; rewrite Hk3, decide_True by done;
        split; [done|by apply from_to_pretty]]).
Qed.

(** ** The audit log leaves wallets alone *)

Lemma audit_view e env ty u rt ri (st : St) :
  let st' := (audit e env ty u rt ri st).2 in
  (∀ j, mf (storage st') j = mf (storage st) j ∧ kf (storage st') j = kf (storage st) j).
Proof.
  intros st' j. unfold st', audit, updating. simpl. unfold audit_log, mf, kf.
  split; apply (proj2 (audit_log_event_frame _ _ _ _));
    (apply wallet_not_key || apply wallet_not_audit, ymd_no_slash).
Qed.
Lemma log_audit_touches env ev :
  touches (T:=T) [AUDIT_EVENTS; AUDIT_BY_RESOURCE; AUDIT_BY_DATE] (log_audit_event env ev).
Proof. unfold log_audit_event. solve_touches. Qed.
Lemma audit_db e env ty u rt ri (st : St) n :
  n ∉ [AUDIT_EVENTS; AUDIT_BY_RESOURCE; AUDIT_BY_DATE] →
  tx_db (audit e env ty u rt ri st).2 n = tx_db st n.
Proof.
  intros Hn. unfold audit, updating. cbn [snd]. unfold audit_log.
  destruct (audit_log_event_db (re_audit e) (Some env)
    (with_resource rt ri (with_user u (event_new (re_event_id e) (re_now e) ty))) st)
    as [->|(env' & ev' & ->)]; [done|]. by apply log_audit_touches.
Qed.

(** ** Evolution of the stored wallets *)

(** A wallet that is on disk stays there with the same identity and the same
    key material; a deleted one stays deleted. *)
Definition evolves (s s' : Fs) : Prop :=
  ∀ id m, safe_name id = true → on_disk s id m →
    kf s' id = kf s id ∧
    ∃ m', on_disk s' id m' ∧ m' = with_status (w_status m') m ∧
      (w_status m = WDeleted → w_status m' = WDeleted).

#[local] Instance evolves_refl : Reflexive evolves.
Proof. intros s id m Hid Hm. split; [done|]. exists m. by destruct m. Qed.
#[local] Instance evolves_trans : Transitive evolves.
Proof.
  intros s1 s2 s3 Hab Hbc id m Hid Hm.
  destruct (Hab id m Hid Hm) as (Hk & m2 & Hd2 & He2 & Hs2).
  destruct (Hbc id m2 Hid Hd2) as (Hk' & m3 & Hd3 & He3 & Hs3).
  split; [congruence|]. exists m3. split; [done|]. split; [by rewrite He3, He2|auto].
Qed.

Definition same_view (s s' : Fs) : Prop :=
  ∀ j, safe_name j = true → mf s' j = mf s j ∧ kf s' j = kf s j.
Lemma same_view_evolves s s' : same_view s s' → evolves s s'.
Proof.
  intros Hv id m Hid (d & Hd & Hm). destruct (Hv id Hid) as [Hvm Hvk]. split; [done|].
  exists m. split; [exists d; by rewrite Hvm|]. by destruct m.
Qed.
Lemma same_view_wf s s' : same_view s s' → fs_wf s → fs_wf s'.
Proof. intros Hv Hwf id d Hid. rewrite (proj1 (Hv id Hid)). by apply Hwf. Qed.

Lemma update_evolves io id m new s :
  safe_name id = true → on_disk s id m → w_wallet_id m = id →
  (w_status m = WDeleted → new = WDeleted) → fs_wf s →
  let r := wallet_update io (with_status new m) s in evolves s r.2 ∧ fs_wf r.2.
Proof.
  intros Hid Hm Heq Hst Hwf r.
  destruct (wallet_update_spec io (with_status new m) s) as ([Hk Hj] & Hor & _);
    [by simpl; rewrite Heq|]. fold r in Hk, Hj, Hor. simpl in *. rewrite Heq in *.
  split.
  - intros j m0 Hjs Hm0. split; [by apply Hk|]. destruct (decide (j = id)) as [->|Hne].
    + rewrite <-(on_disk_det _ _ _ _ Hm Hm0). destruct Hor as [Hsame|Hd].
      * exists m. destruct Hm as (d & Hd & Hm). split; [exists d; by rewrite Hsame|].
        by destruct m.
      * exists (with_status new m). auto.
    + exists m0. destruct Hm0 as (d & Hd & Hm0). split; [exists d; by rewrite Hj|].
      by destruct m0.
  - intros j d Hjs Hd. destruct (decide (j = id)) as [->|Hne].
    + destruct Hor as [Hsame|(d' & Hd' & Hm')]; [rewrite Hsame in Hd; by apply Hwf|].
      rewrite Hd' in Hd. simplify_eq. eauto.
    + rewrite Hj in Hd by done. by apply Hwf.
Qed.

Lemma create_evolves io m kp s :
  safe_name (w_wallet_id m) = true → mf s (w_wallet_id m) = None → fs_wf s →
  let r := wallet_create io m kp s in
  evolves s r.2 ∧ fs_wf r.2 ∧ (r.1 = Ok () → on_disk r.2 (w_wallet_id m) m).
Proof.
  intros Hid Hfresh Hwf r.
  destruct (wallet_create_spec io m kp s Hid) as (Hj & Hor & Hok). fold r in Hj, Hor, Hok.
  split_and!.
  - intros j m0 Hjs (d & Hd & Hm0). assert (Hne : j ≠ w_wallet_id m) by congruence.
    destruct (Hj j Hjs Hne) as [Hm' Hk']. split; [done|]. exists m0.
    split; [exists d; by rewrite Hm'|]. by destruct m0.
  - intros j d Hjs Hd. destruct (decide (j = w_wallet_id m)) as [->|Hne].
    + destruct Hor as [Hsame|(d' & Hd' & Hm')]; [congruence|].
      rewrite Hd' in Hd. simplify_eq. eauto.
    + destruct (Hj j Hjs Hne) as [Hm' _]. rewrite Hm' in Hd. by apply Hwf.
  - intros Hr. by apply Hok.
Qed.

(** ** Handlers *)

Definition owner_at (st : St) (u : string) : option string := t_get (tx_db st WALLET_BY_OWNER) u.

(** The invariant: the metadata files are well formed, and the owner index
    leads each user to a wallet of theirs. *)
Record wallets_ok (st : St) : Prop := {
  ok_wf : fs_wf (storage st);
  ok_owner u w : owner_at st u = Some w →
    safe_name w = true ∧ ∃ m, on_disk (storage st) w m ∧ w_owner_user_id m = u;
}.

Lemma evolves_owner st st' :
  wallets_ok st → evolves (storage st) (storage st') → fs_wf (storage st') →
  (∀ u w, owner_at st' u = Some w → owner_at st u = Some w ∨
     safe_name w = true ∧ ∃ m, on_disk (storage st') w m ∧ w_owner_user_id m = u) →
  wallets_ok st'.
Proof.
  intros [_ Ho] Hev Hwf Hown. split; [done|]. intros u w Hw.
  destruct (Hown u w Hw) as [Hold|?]; [|done].
  destruct (Ho u w Hold) as (Hs & m & Hm & Hu). split; [done|].
  destruct (Hev w m Hs Hm) as (_ & m' & Hm' & He & _). exists m'. by rewrite He at 2.
Qed.

Lemma audit_same e env ty u rt ri (st : St) :
  same_view (storage st) (storage (audit e env ty u rt ri st).2) ∧
  ∀ v, owner_at (audit e env ty u rt ri st).2 v = owner_at st v.
Proof.
  split; [intros j _; by apply audit_view|].
  intros v. unfold owner_at. rewrite audit_db; [done|set_solver].
Qed.

(** What every request preserves. *)
Definition keeps (st st' : St) : Prop :=
  wallets_ok st' ∧ evolves (storage st) (storage st').
Lemma keeps_same (st : St) : wallets_ok st → keeps st st.
Proof. by split. Qed.

Lemma audit_then {A} e env ty u rt ri (k : unit → act St ApiError A) (st : St) :
  (audit e env ty u rt ri ≫= k) st = k () (audit e env ty u rt ri st).2.
Proof. done. Qed.

(** Ending a handler with an audit event keeps what holds before it. *)
Lemma audit_ok e env ty u rt ri (st st1 : St) :
  wallets_ok st1 → evolves (storage st) (storage st1) →
  wallets_ok (audit e env ty u rt ri st1).2 ∧
  evolves (storage st) (storage (audit e env ty u rt ri st1).2).
Proof.
  intros Hok Hev. destruct (audit_same e env ty u rt ri st1) as [Hv Ho].
  assert (Hev1 : evolves (storage st1) (storage (audit e env ty u rt ri st1).2))
    by (by apply same_view_evolves).
  split; [|by etransitivity]. apply (evolves_owner st1); [done..| |].
  - eapply same_view_wf; [done|apply Hok].
  - intros v w. rewrite Ho. by left.
Qed.

(** Reading a wallet that is on disk. *)
Lemma wallet_get_wf io id s m :
  safe_name id = true → fs_wf s → (wallet_get io id s).1 = Ok m →
  on_disk s id m ∧ w_wallet_id m = id.
Proof.
  intros Hid Hwf Hm. destruct (wallet_get_spec io id s Hid) as [_ Hg].
  destruct (Hg m Hm) as (d & Hd & Hf). destruct (Hwf id d Hid Hd) as (m' & Hm' & Heq).
  assert (m' = m) as -> by congruence. split; [by exists d|done].
Qed.

(** The common part of the two admin actions. *)
Definition set_status (e : ReqEnv T) (token : TokenData) (new : WalletStatus)
    (err msg wallet_id : string) : act St ApiError (string * string) :=
  wallet ← on_storage (wallet_get (re_io e 0%nat) wallet_id);
  _ ← lift (reject_if (bool_decide (w_status wallet = WDeleted)) (Api.bad_request err));
  on_storage (wallet_update (λ n, re_io e (1 + n)%nat) (with_status new wallet));;
  audit e (re_db e 0%nat) AdminAccess (sub token) "wallet" wallet_id;;
  mret (wallet_id, msg).

Lemma set_status_ok e token new err msg id (st : St) :
  safe_name id = true → wallets_ok st →
  let st' := (set_status e token new err msg id st).2 in
  wallets_ok st' ∧ evolves (storage st) (storage st').
Proof.
  intros Hid Hok st'. unfold st', set_status. rewrite act_bind_eq, on_storage_run.
  rewrite (proj1 (wallet_get_spec _ id (storage st) Hid)), set_storage_id.
  destruct (wallet_get _ id (storage st)).1 as [m|er] eqn:Hg; cbn [map_err]; [|by split].
  destruct (wallet_get_wf _ _ _ _ Hid (ok_wf _ Hok) Hg) as [Hm Hidm].
  rewrite act_bind_eq. unfold lift, reject_if. case_bool_decide; cbn [snd]; [by split|].
  destruct (update_evolves (λ n, re_io e (1 + n)%nat) id m new (storage st)) as [Hev Hwf];
    [done..|apply Hok|].
  rewrite act_bind_eq, on_storage_run.
  destruct (wallet_update _ _ (storage st)) as [[[]|er] s'] eqn:Hu; cbn [fst snd map_err] in *.
  - rewrite audit_then. apply audit_ok; [|done]. apply (evolves_owner st); auto.
  - split; [|done]. apply (evolves_owner st); auto.
Qed.

Lemma remove_owner_at env u (st : St) v w :
  owner_at (set_tx_db (remove_wallet_owner env u (tx_db st)).2 st) v = Some w →
  owner_at st v = Some w.
Proof.
  unfold owner_at. simpl. apply (run_write_preserves
    (λ db, t_get (db WALLET_BY_OWNER) v = Some w → t_get (tx_db st WALLET_BY_OWNER) v = Some w));
    [|done]. intros db [] db' Hdb Hr. unfold tbl_remove, updating in Hr. simplify_eq.
  rewrite set_table_eq, t_get_remove. case_decide; [done|auto].
Qed.

Lemma soft_delete_evolves io id s :
  safe_name id = true → fs_wf s →
  let r := wallet_soft_delete io id s in evolves s r.2 ∧ fs_wf r.2.
Proof.
  intros Hid Hwf r. unfold r, wallet_soft_delete. rewrite act_bind_eq.
  pose proof (proj1 (wallet_get_spec (io 0%nat) id s Hid)) as Hs.
  destruct (wallet_get (io 0%nat) id s) as [[m|er] s1] eqn:Hg; simpl in Hs; subst s1; [|by split].
  destruct (wallet_get_wf (io 0%nat) id s m Hid Hwf) as [Hm Hidm]; [by rewrite Hg|].
  by apply (update_evolves _ id).
Qed.
Lemma get_owned_same io id u s :
  safe_name id = true → (wallet_get_owned io id u s).2 = s.
Proof.
  intros Hid. unfold wallet_get_owned. rewrite act_bind_eq.
  pose proof (proj1 (wallet_get_spec io id s Hid)) as Hs.
  destruct (wallet_get _ _ _) as [[m|er] s1]; simpl in *; subst; [|done].
  rewrite act_bind_eq. unfold lift. by destruct (verify_ownership _ _).
Qed.

Lemma delete_wallet_ok e token id (st : St) :
  safe_name id = true → wallets_ok st →
  let st' := (delete_wallet e token id st).2 in
  wallets_ok st' ∧ evolves (storage st) (storage st').
Proof.
  intros Hid Hok st'. unfold st', delete_wallet. rewrite act_bind_eq, on_storage_run.
  rewrite (get_owned_same _ id _ _ Hid), set_storage_id.
  destruct (wallet_get_owned _ _ _ _).1; cbn [map_err]; [|by split].
  rewrite act_bind_eq, on_storage_run.
  destruct (soft_delete_evolves (λ n, re_io e (1 + n)%nat) id (storage st) Hid (ok_wf _ Hok))
    as [Hev Hwf].
  destruct (wallet_soft_delete _ _ (storage st)) as [[[]|er] s'];
    cbn [fst snd map_err] in *; [|split; [|done]; apply (evolves_owner st); auto].
  rewrite act_bind_eq. unfold best_effort. rewrite on_db_run. cbn [snd]. rewrite audit_then.
  apply audit_ok; [|done]. apply (evolves_owner st); [done..|].
  intros u w Hw. left. by apply remove_owner_at in Hw.
Qed.

Lemma register_owner_at env u w (db : Db T) v x :
  t_get ((register_wallet_owner env u w db).2 WALLET_BY_OWNER) v = Some x →
  t_get (db WALLET_BY_OWNER) v = Some x ∨ v = u ∧ x = w.
Proof.
  apply (run_write_preserves (λ db', t_get (db' WALLET_BY_OWNER) v = Some x →
    t_get (db WALLET_BY_OWNER) v = Some x ∨ v = u ∧ x = w)); [|by left].
  intros db1 [] db' Hdb Hr. unfold_act. destruct (t_get (db1 WALLET_BY_OWNER) u); [done|].
  unfold tbl_insert, updating in Hr. simplify_eq. rewrite set_table_eq, t_get_insert.
  case_decide; [intros; simplify_eq; by right|auto].
Qed.
Lemma register_address_touches env a w : touches (T:=T) [ADDRESS_WALLET_MAP] (register_address env a w).
Proof. unfold register_address. solve_touches. Qed.

Lemma create_wallet_ok e token label kp id (st : St) :
  safe_name id = true → mf (storage st) id = None → wallets_ok st →
  keeps st (create_wallet (K:=K) e token label kp id st).2.
Proof.
  intros Hid Hfresh Hok. unfold create_wallet. rewrite act_bind_eq. unfold lift at 1.
  destruct (match label with Some l => _ | None => _ end); [|by apply keeps_same].
  rewrite act_bind_eq. cbn [lift generate_solana_keypair].
  set (m := mkWalletMetadata id (sub token) _ _ _ _).
  rewrite act_bind_eq, on_storage_run.
  destruct (create_evolves (re_io e) m (kp_to_bytes kp) (storage st) Hid Hfresh (ok_wf _ Hok))
    as (Hev & Hwf & Hdisk).
  destruct (wallet_create _ _ _ (storage st)) as [[[]|er] s'];
    cbn [fst snd map_err] in *; [|split; [|done]; apply (evolves_owner st); auto].
  rewrite act_bind_eq. unfold best_effort. rewrite on_db_run. cbn [snd].
  pose proof (register_address_touches (re_db e 0%nat) (kp_pubkey kp) id (tx_db st)
    WALLET_BY_OWNER) as Ht.
  cbn [tx_db set_storage]. set (db1 := (register_address _ _ _ _).2) in *.
  rewrite act_bind_eq. cbn [tx_db set_tx_db].
  pose proof (register_owner_at (re_db e 1%nat) (sub token) id db1) as Hreg.
  assert (Hok1 : wallets_ok (set_tx_db (register_wallet_owner (re_db e 1%nat) (sub token) id db1).2
    (set_storage s' st))).
  { apply (evolves_owner st); [done..|]. intros u w Hw. unfold owner_at in Hw. simpl in Hw.
    destruct (Hreg u w Hw) as [Hold|[-> ->]].
    - left. unfold owner_at. rewrite <-Ht; [done|set_solver].
    - right. split; [done|]. exists m. split; [by apply Hdisk|done]. }
  assert (Hev1 : evolves (storage st) (storage (set_tx_db
    (register_wallet_owner (re_db e 1%nat) (sub token) id db1).2 (set_storage s' st)))) by done.
  destruct (register_wallet_owner _ _ _ _) as [[[]|er] db2]; cbn [snd] in *.
  - rewrite audit_then. by apply audit_ok.
  - destruct er; try (rewrite audit_then; by apply audit_ok). by split.
Qed.

(** ** The transition system of the wallet endpoints *)

(** One request to a wallet endpoint, with any failures; a new wallet gets an
    id (a fresh UUID) that is not in use. *)
Inductive wallet_step : St → St → Prop :=
| StepCreate e token label kp id st :
    safe_name id = true → mf (storage st) id = None →
    wallet_step st (create_wallet (K:=K) e token label kp id st).2
| StepDelete e token id st :
    safe_name id = true → wallet_step st (delete_wallet e token id st).2
| StepSuspend e token id st :
    safe_name id = true → wallet_step st (suspend_wallet e token id st).2
| StepActivate e token id st :
    safe_name id = true → wallet_step st (activate_wallet e token id st).2.

Lemma wallet_step_ok st st' :
  wallet_step st st' → wallets_ok st → wallets_ok st' ∧ evolves (storage st) (storage st').
Proof.
  intros [e token label kp id st1 Hid Hf|e token id st1 Hid|e token id st1 Hid|e token id st1 Hid] Hok.
  - by apply create_wallet_ok.
  - by apply delete_wallet_ok.
  - by apply (set_status_ok e token WSuspended "cannot suspend a deleted wallet" "suspended").
  - by apply (set_status_ok e token WActive "cannot activate a deleted wallet" "active").
Qed.
Lemma wallet_steps_ok st st' :
  rtc wallet_step st st' → wallets_ok st → wallets_ok st' ∧ evolves (storage st) (storage st').
Proof.
  induction 1 as [st|st1 st2 st3 H12' _ IH]; intros Hok; [by split|].
  destruct (wallet_step_ok _ _ H12' Hok) as [Hok2 Hev].
  destruct (IH Hok2) as [Hok3 Hev']. split; [done|by etransitivity].
Qed.

(** Wallets are never lost, and deletion is final.  Along any sequence
    of wallet requests (creations, deletions, suspensions, activations, by any
    callers, with any storage or database failures), a stored wallet keeps its
    id, owner, address and label, its key file keeps its content, and once it
    is deleted it is deleted for ever. *)
Theorem wallet_lifecycle (st st' : St) (id : string) (m : WalletMetadata)
    (Hok : wallets_ok st) (Hsteps : rtc wallet_step st st')
    (Hid : safe_name id = true) (Hm : on_disk (storage st) id m) :
  kf (storage st') id = kf (storage st) id ∧
  ∃ m', on_disk (storage st') id m' ∧
    w_wallet_id m' = w_wallet_id m ∧ w_owner_user_id m' = w_owner_user_id m ∧
    w_public_address m' = w_public_address m ∧ w_label m' = w_label m ∧
    (w_status m = WDeleted → w_status m' = WDeleted).
Proof.
  destruct (wallet_steps_ok st st' Hsteps Hok) as [_ Hev].
  destruct (Hev id m Hid Hm) as (Hk & m' & Hm' & He & Hs). split; [done|].
  exists m'. split; [done|]. rewrite He. by split_and!.
Qed.

Lemma active_wallet_owned (st : St) (io : io_fault) (env : renv (Db T)) (u : string) (m : WalletMetadata)
    (st' : St) :
  wallets_ok st → get_active_wallet_for_user io env u st = (Ok m, st') →
  w_owner_user_id m = u ∧ w_status m = WActive ∧ st' = st.
Proof.
  intros [Hwf Hown] Hget.
  unfold get_active_wallet_for_user in Hget.
  rewrite act_bind_eq, on_db_run in Hget. unfold get_wallet_id_by_owner, reading in Hget.
  cbn [fst snd] in Hget. rewrite set_tx_db_id in Hget.
  destruct (run_read env _ (tx_db st)) as [o|er] eqn:Hr; cbn [map_err] in Hget; [|done].
  apply run_read_ok in Hr. injection Hr as Hr.
  rewrite act_bind_eq in Hget. unfold lift at 1 in Hget.
  destruct o as [w|]; cbn [ok_or] in Hget; [|done].
  destruct (Hown u w Hr) as (Hw & m0 & Hm0 & Hu).
  rewrite act_bind_eq, on_storage_run in Hget.
  destruct (wallet_get_spec io w (storage st) Hw) as [Hs Hg].
  rewrite Hs, set_storage_id in Hget.
  destruct (wallet_get io w (storage st)).1 as [m1|er]; cbn [map_err] in Hget; [|done].
  specialize (Hg m1 eq_refl). rewrite act_bind_eq in Hget. unfold lift, reject_if in Hget.
  case_bool_decide as Hact; cbn in Hget; [|done]. injection Hget as <- <-.
  assert (m1 = m0) as -> by (by apply (on_disk_det (storage st) w)). done.
Qed.
(** A user acts only on wallets of theirs.  In every state reachable by
    wallet requests from a state where the invariant holds, the wallet that the
    server resolves for a user from the owner index belongs to that user and is
    active; resolving it changes nothing. *)
Theorem active_wallet_belongs_to_user (st0 st : St) (io : io_fault) (env : renv (Db T))
    (u : string) (m : WalletMetadata) (st' : St)
    (Hok : wallets_ok st0) (Hsteps : rtc wallet_step st0 st)
    (Hget : get_active_wallet_for_user io env u st = (Ok m, st')) :
  w_owner_user_id m = u ∧ w_status m = WActive ∧ st' = st.
Proof.
  destruct (wallet_steps_ok st0 st Hsteps Hok) as [Hst _]. by eapply active_wallet_owned.
Qed.

(** Only the owner reads or deletes a wallet.  A get or delete request
    for a stored wallet by another user fails and leaves the whole state
    unchanged; a successful get returns the stored wallet, which is not deleted. *)
Theorem wallet_owner_only (e : ReqEnv T) (token : TokenData) (id : string) (m : WalletMetadata)
    (st : St) (Hid : safe_name id = true) (Hm : on_disk (storage st) id m) :
  (w_owner_user_id m ≠ sub token →
     (∃ err, get_wallet e token id st = (Err err, st)) ∧
     (∃ err, delete_wallet e token id st = (Err err, st))) ∧
  (∀ r, (get_wallet e token id st).1 = Ok r →
     r = wallet_response m ∧ w_owner_user_id m = sub token ∧ w_status m ≠ WDeleted).
Proof.
  assert (Hg : ∀ m', (wallet_get_owned (re_io e 0%nat) id (sub token) (storage st)).1 = Ok m' →
    m' = m ∧ w_owner_user_id m = sub token).
  { intros m'. unfold wallet_get_owned. rewrite act_bind_eq.
    destruct (wallet_get_spec (re_io e 0%nat) id (storage st) Hid) as [_ Hg].
    destruct (wallet_get _ _ _) as [[m1|er] s1]; simpl in *; [|done].
    rewrite <-(on_disk_det _ _ _ _ (Hg m1 eq_refl) Hm). rewrite act_bind_eq.
    unfold lift, verify_ownership. case_bool_decide; simpl; [|done]. by intros [= ->]. }
  unfold get_wallet, delete_wallet.
  pose proof (get_owned_same (re_io e 0%nat) id (sub token) (storage st) Hid) as Hs.
  rewrite !act_bind_eq, !on_storage_run, !Hs, !set_storage_id.
  destruct (wallet_get_owned _ id (sub token) (storage st)).1 as [m'|er]; cbn [map_err].
  - destruct (Hg m' eq_refl) as [-> Hu]. split; [done|]. intros r.
    rewrite act_bind_eq. unfold lift, reject_if. case_bool_decide; cbn; [done|].
    by intros [= <-].
  - split; [|done]. by eauto.
Qed.
End Facts.

(** ** Witnesses *)

#[export] Instance keys0 : SolanaKeys (list Z) := {
  kp_try_from b := Ok b;
  kp_to_bytes k := k;
  kp_pubkey _ := "A";
}.
#[export] Instance keys0_laws : SolanaKeysLaws (list Z).
Proof. by split. Qed.

Definition req0 : ReqEnv table0 :=
  mkReqEnv (λ _, IoOk) (λ _, env0) ai0 "e" (mkDateTime 5 0) (λ a, a).
Definition alice : TokenData := mkTokenData "al" "user".
Definition bob : TokenData := mkTokenData "bo" "user".
Definition wst0 : AppState table0 lru1 :=
  mkAppState (mkFs ∅ ∅) db0 (mkTxCache None 30) (Some "k").
Definition create0 (id : string) (st : AppState table0 lru1) : AppState table0 lru1 :=
  (create_wallet (K:=list Z) req0 alice None [1] id st).2.
Definition meta0 (id : string) (s : WalletStatus) : WalletMetadata :=
  mkWalletMetadata id "al" "A" (mkDateTime 5 0) s None.

Lemma wst0_ok : wallets_ok wst0.
Proof.
  split.
  - intros id d _ Hd. unfold mf, wst0 in Hd. simpl in Hd. by rewrite lookup_empty in Hd.
  - intros u w Hw. by apply db0_get in Hw.
Qed.
Lemma create0_ok : wallets_ok (create0 "w1" wst0).
Proof. by apply create_wallet_ok; [..|apply wst0_ok]. Qed.
Lemma create0_disk : on_disk (storage (create0 "w1" wst0)) "w1" (meta0 "w1" WActive).
Proof. eexists. split; vm_compute; reflexivity. Qed.
Lemma delete0_steps :
  rtc (wallet_step (K:=list Z)) (create0 "w1" wst0)
    (delete_wallet req0 alice "w1" (create0 "w1" wst0)).2.
Proof. apply rtc_once. by constructor. Qed.

Lemma wallet_lifecycle_witness :
  let st' := (delete_wallet req0 alice "w1" (create0 "w1" wst0)).2 in
  kf (storage st') "w1" = kf (storage (create0 "w1" wst0)) "w1" ∧
  ∃ m', on_disk (storage st') "w1" m' ∧ w_wallet_id m' = "w1" ∧ w_owner_user_id m' = "al" ∧
    w_public_address m' = "A" ∧ w_label m' = None ∧ (WActive = WDeleted → w_status m' = WDeleted).
Proof.
  exact (wallet_lifecycle (K:=list Z) (create0 "w1" wst0) _ "w1" (meta0 "w1" WActive) create0_ok
    delete0_steps eq_refl create0_disk).
Defined.
Lemma active_wallet_belongs_to_user_witness :
  w_owner_user_id (meta0 "w1" WActive) = "al" ∧ w_status (meta0 "w1" WActive) = WActive ∧
  create0 "w1" wst0 = create0 "w1" wst0.
Proof.
  apply (active_wallet_belongs_to_user (K:=list Z) (create0 "w1" wst0) (create0 "w1" wst0) IoOk env0
    "al" (meta0 "w1" WActive) (create0 "w1" wst0) create0_ok (rtc_refl _ _)).
  vm_compute. reflexivity.
Defined.
Lemma wallet_owner_only_witness :
  ("al" ≠ sub bob →
     (∃ err, get_wallet req0 bob "w1" (create0 "w1" wst0) = (Err err, create0 "w1" wst0)) ∧
     (∃ err, delete_wallet req0 bob "w1" (create0 "w1" wst0) = (Err err, create0 "w1" wst0))) ∧
  (∀ r, (get_wallet req0 bob "w1" (create0 "w1" wst0)).1 = Ok r →
     r = wallet_response (meta0 "w1" WActive) ∧ "al" = sub bob ∧ WActive ≠ WDeleted).
Proof.
  exact (wallet_owner_only req0 bob "w1" (meta0 "w1" WActive) (create0 "w1" wst0) eq_refl
    create0_disk).
Defined.

