(* ===== verification/DataValidation.v ===== *)
(** * CSV schema validation (src/src/data_validation.rs)

    The csv crate's strict reader and chrono's date parser are parameters; the
    parsers of the standard library ([i64::from_str], [f64::from_str] as a test)
    are modelled. *)
From S2P Require Import Prelude.
From S2P Require Import RustStr.
From S2P Require Import RustFmt.
From S2P Require Import Types.
From S2P Require Import Interfaces.
From S2P Require Import Storage.

Local Open Scope Z_scope.

Definition MAX_VALIDATION_ERRORS : nat := 100.

Inductive FieldType :=
| Char (max : Z)
| Varchar (max : Z)
| Integer
| Decimal (precision scale : Z)
| DateDdMmYyyy
| Flag01.
Record FieldSchema := mkFieldSchema { f_name : string; f_type : FieldType; f_nullable : bool }.
Record ValidationError := mkVErr { v_row : nat; v_field : string; v_message : string }.
Record ValidationSummary := mkSummary {
  valid : bool; errors : list ValidationError; rows_validated : nat }.

(** ** Standard library parsers *)

Definition all_digits (s : string) : bool := string_forallb is_ascii_digit s.
Fixpoint digits_value (s : string) (acc : Z) : Z :=
  match s with
  | EmptyString => acc
  | String c s' => digits_value s' (acc * 10 + (byte c - 48))
  end.
(** One leading sign. *)
Definition split_sign (s : string) : string * string :=
  match s with
  | String c s' =>
      if bool_decide (c = "+"%char) || bool_decide (c = "-"%char)
      then (String c EmptyString, s') else (EmptyString, s)
  | EmptyString => (EmptyString, EmptyString)
  end.
(** [str::parse::<i64>]. *)
Definition parse_i64 (s : string) : option Z :=
  let '(sg, ds) := split_sign s in
  if bool_decide (ds = "") || negb (all_digits ds) then None
  else
    let v := digits_value ds 0 in
    let z := if bool_decide (sg = "-") then - v else v in
    if (I64_MIN <=? z) && (z <=? I64_MAX) then Some z else None.

(** [Digit+ | Digit+ '.' Digit* | Digit* '.' Digit+]. *)
Definition is_number (s : string) : bool :=
  match split_once "." s with
  | Some (a, b) => all_digits a && all_digits b && negb (bool_decide (a = "") && bool_decide (b = ""))
  | None => all_digits s && negb (bool_decide (s = ""))
  end.
(** Splitting at the first [e] or [E]. *)
Fixpoint split_exp (s : string) : option (string * string) :=
  match s with
  | EmptyString => None
  | String c s' =>
      if bool_decide (c = "e"%char) || bool_decide (c = "E"%char) then Some (EmptyString, s')
      else match split_exp s' with Some (a, b) => Some (String c a, b) | None => None end
  end.
(** [s.parse::<f64>().is_ok()]. *)
Definition f64_parses (s : string) : bool :=
  let '(_, body) := split_sign s in
  let low := to_ascii_lowercase body in
  bool_decide (low = "inf") || bool_decide (low = "infinity") || bool_decide (low = "nan")
  || match split_exp body with
     | Some (m, e) =>
         let '(_, ds) := split_sign e in
         is_number m && all_digits ds && negb (bool_decide (ds = ""))
     | None => is_number body
     end.

(** [s.trim_start_matches(['+', '-'])]. *)
Fixpoint trim_signs (s : string) : string :=
  match s with
  | String c s' =>
      if bool_decide (c = "+"%char) || bool_decide (c = "-"%char) then trim_signs s' else s
  | EmptyString => EmptyString
  end.
Fixpoint count_digits (s : string) : Z :=
  match s with
  | EmptyString => 0
  | String c s' => (if is_ascii_digit c then 1 else 0) + count_digits s'
  end.

(** ** Third-party: the csv crate and chrono *)

Class CsvCrates := {
  (** the header record, and the data records in order; [None] is a malformed one *)
  csv_read : string → option (list string) * list (option (list string));
  parses_dmy : string → bool;
  parses_ymd : string → bool;
}.
(** A strict reader yields only records as long as the header. *)
Class CsvCratesLaws `{CsvCrates} := {
  csv_strict data h r :
    (csv_read data).1 = Some h → Some r ∈ (csv_read data).2 → length r = length h;
}.

(** ** Cell checks *)

Section Cells.
Context `{CsvCrates}.

Definition validate_decimal (value : string) (precision scale : Z) : option string :=
  if negb (no_char "e" value) || negb (no_char "E" value) then
    Some ("Scientific notation is not allowed, got '" +:+ value +:+ "'")
  else if negb (f64_parses value) then
    Some ("Must be a decimal number, got '" +:+ value +:+ "'")
  else
    let value := trim_signs value in
    let parts := split_all "." value in
    if (2 <? length parts)%nat then
      Some ("Invalid decimal format, got '" +:+ value +:+ "'")
    else if existsb (λ part, negb (all_digits part)) parts then
      Some ("Invalid decimal format, got '" +:+ value +:+ "'")
    else
      let decimals := match parts with [_; b] => len b | _ => 0 end in
      if scale <? decimals then
        Some ("Maximum " +:+ show_u64 scale +:+ " decimal places, got " +:+ show_u64 decimals)
      else
        let total_digits := count_digits value in
        if precision <? total_digits then
          Some ("Maximum " +:+ show_u64 precision +:+ " total digits, got "
                +:+ show_u64 total_digits)
        else None.

(** [value.split_once([' ', 'T'])]. *)
Fixpoint before_time (s : string) : string :=
  match s with
  | EmptyString => EmptyString
  | String c s' =>
      if bool_decide (c = " "%char) || bool_decide (c = "T"%char) then EmptyString
      else String c (before_time s')
  end.
Definition validate_date_lenient (value : string) : option string :=
  let date_part := before_time value in
  if parses_dmy date_part || parses_ymd date_part then None
  else Some ("Date must be DD/MM/YYYY or YYYY-MM-DD (with optional time), got '"
             +:+ value +:+ "'").

Definition validate_flag (value : string) : option string :=
  let normalized := to_ascii_lowercase (trim value) in
  if bool_decide (normalized ∈ ["0"; "1"; "true"; "false"; "yes"; "no"; "y"; "n"]) then None
  else Some ("Must be a boolean (0/1, true/false, yes/no), got '" +:+ value +:+ "'").

Definition validate_field_value (value : string) (field : FieldSchema) : option string :=
  if bool_decide (value = "") then
    if f_nullable field then None else Some "field is required"
  else
    match f_type field with
    | Char max | Varchar max =>
        let len := char_count value in
        if max <? len then
          Some ("Maximum length is " +:+ show_u64 max +:+ " characters, got " +:+ show_u64 len)
        else None
    | Integer =>
        match parse_i64 value with
        | Some _ => None
        | None => Some ("Must be an integer, got '" +:+ value +:+ "'")
        end
    | Decimal precision scale => validate_decimal value precision scale
    | DateDdMmYyyy => validate_date_lenient value
    | Flag01 => validate_flag value
    end.
End Cells.

(** ** The validator *)

Section Validator.
Context `{CsvCrates}.

Definition has_room (errs : list ValidationError) : bool :=
  (length errs <? MAX_VALIDATION_ERRORS)%nat.

(** A later column of the same name overwrites an earlier one. *)
Fixpoint header_index_from (i : nat) (headers : list string) (m : gmap string nat) :
    gmap string nat :=
  match headers with
  | [] => m
  | h :: rest => header_index_from (S i) rest (<[h:=i]> m)
  end.
Definition header_to_index (headers : list string) : gmap string nat :=
  header_index_from 0 headers ∅.

(** The missing-column loop; [inr] is the early return at the error limit. *)
Fixpoint missing_columns (idx : gmap string nat) (schema : list FieldSchema)
    (errs : list ValidationError) : list ValidationError + list ValidationError :=
  match schema with
  | [] => inl errs
  | field :: rest =>
      if bool_decide (is_Some (idx !! f_name field)) then missing_columns idx rest errs
      else
        let errs' := errs ++ [mkVErr 0 (f_name field)
                                ("Missing required column: " +:+ f_name field)] in
        if negb (has_room errs') then inr errs' else missing_columns idx rest errs'
  end.

Fixpoint extra_columns (schema_names : gset string) (headers : list string)
    (errs : list ValidationError) : list ValidationError :=
  match headers with
  | [] => errs
  | h :: rest =>
      let errs' :=
        if bool_decide (h ∉ schema_names) && has_room errs then
          errs ++ [mkVErr 0 h ("Unexpected column not in schema: " +:+ h)]
        else errs in
      extra_columns schema_names rest errs'
  end.

Fixpoint check_fields (idx : gmap string nat) (row : nat) (record : list string)
    (schema : list FieldSchema) (errs : list ValidationError) : list ValidationError :=
  match schema with
  | [] => errs
  | field :: rest =>
      if negb (has_room errs) then errs
      else
        let errs' :=
          match idx !! f_name field with
          | None => errs
          | Some col_idx =>
              let value := trim (default "" (record !! col_idx)) in
              match validate_field_value value field with
              | Some message => errs ++ [mkVErr row (f_name field) message]
              | None => errs
              end
          end in
        check_fields idx row record rest errs'
  end.

Fixpoint check_rows (idx : gmap string nat) (headers : list string) (schema : list FieldSchema)
    (row : nat) (rows : list (option (list string))) (errs : list ValidationError) (n : nat) :
    list ValidationError * nat :=
  match rows with
  | [] => (errs, n)
  | r :: rest =>
      if negb (has_room errs) then (errs, n)
      else
        match r with
        | None =>
            check_rows idx headers schema (S row) rest
              (errs ++ [mkVErr row "row" "Malformed CSV row"]) n
        | Some record =>
            let errs1 := check_fields idx row record schema errs in
            let errs2 :=
              if (length record <? length headers)%nat && has_room errs1 then
                errs1 ++ [mkVErr row "row" "Row has fewer columns than header"]
              else errs1 in
            check_rows idx headers schema (S row) rest errs2 (S n)
        end
  end.

(** [reader.records().flatten()]. *)
Definition good_rows (rows : list (option (list string))) : nat :=
  length (filter_map id rows).

Definition validate_csv_bytes (data : string) (schema : list FieldSchema)
    (mode : ValidationMode) : ValidationSummary :=
  let '(head, rows) := csv_read data in
  match head with
  | None => mkSummary false [mkVErr 0 "header" "Could not parse CSV headers"] 0
  | Some headers =>
      match mode with
      | VNone => mkSummary true [] (good_rows rows)
      | _ =>
          let idx := header_to_index headers in
          match missing_columns idx schema [] with
          | inr errs => mkSummary false errs 0
          | inl errs =>
              let errs1 := extra_columns (list_to_set (f_name <$> schema)) headers errs in
              match mode with
              | VHeadersOnly => mkSummary (bool_decide (length errs1 = 0%nat)) errs1 (good_rows rows)
              | _ =>
                  let '(errs2, n) := check_rows idx headers schema 1 rows errs1 0 in
                  mkSummary (bool_decide (length errs2 = 0%nat)) errs2 n
              end
          end
      end
  end.
End Validator.

(** ** Schema files *)

Section SchemaFiles.
Context `{Serde (list FieldSchema)}.

Definition load_pool_schema (io : io_fault) (root pool_pda : string) (s : Fs) :
    option (list FieldSchema) :=
  content ← match io with IoRead _ => None | _ => files s !! pool_schema root pool_pda end;
  if utf8_valid content then ok (from_slice content) else None.

Definition save_pool_schema (io : io_fault) (root pool_pda : string)
    (schema : list FieldSchema) : act Fs string unit := λ s,
  match io with
  | IoMkdir e => (Err ("failed to create pool directory: " +:+ e), s)
  | _ =>
      let s1 := create_dir_all (pool_dir root pool_pda) s in
      match to_vec_pretty schema with
      | Err e => (Err ("failed to serialize schema: " +:+ e), s1)
      | Ok json =>
          match io with
          | IoWrite e partial =>
              (Err ("failed to write schema file: " +:+ e),
               match partial with
               | Some x => set_files (insert (pool_schema root pool_pda) x) s1
               | None => s1
               end)
          | _ => (Ok (), set_files (insert (pool_schema root pool_pda) json) s1)
          end
      end
  end.
End SchemaFiles.
