(* ===== verification/DataValidationFacts.v ===== *)
(** * CSV validation: what the verdict means

    The error list is bounded and empty exactly for a valid file; a file is
    valid under [HeadersOnly] iff its columns are the schema's, and under
    [Strict] iff moreover every record parses and every cell passes its check;
    the decimal check accepts exactly a number grammar. *)
From S2P Require Import Prelude.
From S2P Require Import RustStr.
From S2P Require Import RustFmt.
From S2P Require Import Types.
From S2P Require Import Interfaces.
From S2P Require Import Storage.
From S2P Require Import DataValidation.

Local Open Scope Z_scope.
#[local] Arguments String.append : simpl nomatch.

(** ** Columns *)

Lemma header_index_spec i hs m name :
  header_index_from i hs m !! name =
    match header_index_from i hs ∅ !! name with Some j => Some j | None => m !! name end ∧
  (is_Some (header_index_from i hs ∅ !! name) ↔ name ∈ hs).
Proof.
  revert i m. induction hs as [|h hs IH]; intros i m; cbn [header_index_from].
  { rewrite lookup_empty. split; [done|]. split; [by intros []|set_solver]. }
  destruct (IH (S i) (<[h:=i]> m)) as [-> Hs]. destruct (IH (S i) (<[h:=i]> ∅)) as [-> _].
  split.
  - destruct (header_index_from (S i) hs ∅ !! name); [done|].
    destruct (decide (name = h)) as [->|Hne]; [by rewrite !lookup_insert_eq|].
    rewrite !lookup_insert_ne by done. by rewrite lookup_empty.
  - destruct (header_index_from (S i) hs ∅ !! name) eqn:He.
    + split; [|by eauto]. intros _. right. by apply Hs.
    + rewrite elem_of_cons, <-Hs. destruct (decide (name = h)) as [->|Hne].
      * rewrite lookup_insert_eq. split; [by left|by eauto].
      * rewrite lookup_insert_ne, lookup_empty by done. naive_solver.
Qed.
Lemma header_to_index_present hs name : is_Some (header_to_index hs !! name) ↔ name ∈ hs.
Proof. apply (header_index_spec 0 hs ∅ name). Qed.

Section Facts.
Context `{CsvCrates}.

Definition within (errs : list ValidationError) : Prop :=
  (length errs ≤ MAX_VALIDATION_ERRORS)%nat.
Lemma room_push errs e : has_room errs = true → within (errs ++ [e]).
Proof.
  unfold has_room, within. rewrite Nat.ltb_lt, length_app. simpl. lia.
Qed.
Lemma has_room_within errs : has_room errs = true → within errs.
Proof. unfold has_room, within. rewrite Nat.ltb_lt. lia. Qed.

Lemma snoc_not_nil {A} (l : list A) x : l ++ [x] ≠ [].
Proof. by destruct l. Qed.

(** Each loop reports nothing exactly when its condition holds, and stays
    within the limit. *)
Lemma missing_columns_spec idx schema errs :
  has_room errs = true →
  match missing_columns idx schema errs with
  | inl e => within e ∧ (e = [] ↔ errs = [] ∧ ∀ f, f ∈ schema → is_Some (idx !! f_name f))
  | inr e => within e ∧ e ≠ [] ∧ ∃ f, f ∈ schema ∧ idx !! f_name f = None
  end.
Proof.
  revert errs. induction schema as [|f schema IH]; intros errs Hr; simpl.
  { split; [by apply has_room_within|]. split; [|by intros []]. intros ->. split; [done|]. set_solver. }
  case_bool_decide as Hf.
  { specialize (IH errs Hr). destruct (missing_columns idx schema errs); set_solver. }
  set (errs' := errs ++ _). assert (Hw' : within errs') by (by apply room_push).
  apply eq_None_not_Some in Hf.
  destruct (has_room errs') eqn:Hr'; simpl; [|split_and!; [done|apply snoc_not_nil|set_solver]].
  specialize (IH errs' Hr'). destruct (missing_columns idx schema errs').
  - destruct IH as [Hwe IH]. split; [done|]. rewrite IH. split.
    + intros [He _]. by apply snoc_not_nil in He.
    + intros [_ Hall]. destruct (Hall f) as [i Hi]; [set_solver|congruence].
  - set_solver.
Qed.

Lemma extra_columns_spec names hs errs :
  within errs →
  within (extra_columns names hs errs) ∧
  (extra_columns names hs errs = [] ↔ errs = [] ∧ ∀ h, h ∈ hs → h ∈ names).
Proof.
  revert errs. induction hs as [|h hs IH]; intros errs Hw; simpl.
  { split; [done|]. split; [|by intros []]. intros ->. split; [done|]. set_solver. }
  case_bool_decide as Hh; [|simpl; destruct (IH errs Hw) as [? IH']; split; [done|];
    rewrite IH'; set_solver].
  destruct (has_room errs) eqn:Hr; simpl.
  - destruct (IH _ (room_push errs (mkVErr 0 h ("Unexpected column not in schema: " +:+ h)) Hr))
      as [? IH']. split; [done|]. rewrite IH'. split; [by intros [He%snoc_not_nil _]|set_solver].
  - destruct (IH errs Hw) as [? IH']. split; [done|]. rewrite IH'. split; [|set_solver].
    intros [-> _]. done.
Qed.

(** The check of one cell of a record. *)
Definition cell_ok (idx : gmap string nat) (record : list string) (f : FieldSchema) : Prop :=
  ∀ i, idx !! f_name f = Some i →
    validate_field_value (trim (default "" (record !! i))) f = None.

Lemma check_fields_spec idx row record schema errs :
  within errs →
  within (check_fields idx row record schema errs) ∧
  (check_fields idx row record schema errs = [] ↔
     errs = [] ∧ ∀ f, f ∈ schema → cell_ok idx record f).
Proof.
  revert errs. induction schema as [|f schema IH]; intros errs Hw; cbn [check_fields].
  { split; [done|]. split; [|by intros []]. intros ->. split; [done|]. set_solver. }
  destruct (has_room errs) eqn:Hr; cbn [negb].
  2:{ split; [done|]. split; [|by intros []]. by intros ->. }
  assert (Hkeep : cell_ok idx record f →
    within (check_fields idx row record schema errs) ∧
    (check_fields idx row record schema errs = [] ↔
     errs = [] ∧ ∀ g, g ∈ f :: schema → cell_ok idx record g)).
  { intros Hf. destruct (IH errs Hw) as [? IH']. split; [done|]. rewrite IH'. set_solver. }
  destruct (idx !! f_name f) as [i|] eqn:Hi; [|apply Hkeep; intros j Hj; congruence].
  destruct (validate_field_value _ f) as [msg|] eqn:Hv; [|apply Hkeep; intros j Hj; congruence].
  destruct (IH _ (room_push errs (mkVErr row (f_name f) msg) Hr)) as [? IH'].
  split; [done|]. rewrite IH'. split; [by intros [He%snoc_not_nil _]|].
  intros [_ Hall]. specialize (Hall f ltac:(set_solver) i Hi). congruence.
Qed.

Definition row_ok (idx : gmap string nat) (headers : list string) (schema : list FieldSchema)
    (r : option (list string)) : Prop :=
  ∃ record, r = Some record ∧ (length headers ≤ length record)%nat ∧
    ∀ f, f ∈ schema → cell_ok idx record f.

Lemma check_rows_spec idx headers schema row rows errs n :
  within errs →
  let res := check_rows idx headers schema row rows errs n in
  within res.1 ∧
  (res.1 = [] ↔ errs = [] ∧ ∀ r, r ∈ rows → row_ok idx headers schema r) ∧
  (res.1 = [] → res.2 = (n + length rows)%nat).
Proof.
  revert row errs n. induction rows as [|r rows IH]; intros row errs n Hw; cbv zeta; cbn [check_rows].
  { split_and!; [done| |simpl; lia]. simpl. split; [|by intros []]. intros ->. split; [done|]. set_solver. }
  destruct (has_room errs) eqn:Hr; cbn [negb].
  2:{ split_and!; [done| |]; simpl; [split; [|by intros []]|]; by intros ->. }
  destruct r as [record|].
  - destruct (check_fields_spec idx row record schema errs Hw) as [Hw1 Hf].
    set (errs1 := check_fields _ _ _ _ _) in *.
    set (errs2 := if (length record <? length headers)%nat && has_room errs1
                  then errs1 ++ [mkVErr row "row" "Row has fewer columns than header"] else errs1).
    assert (Herr2 : within errs2 ∧
      (errs2 = [] ↔ errs = [] ∧ row_ok idx headers schema (Some record))).
    { unfold errs2. destruct (Nat.ltb_spec (length record) (length headers)) as [Hlt|Hge]; simpl.
      - destruct (has_room errs1) eqn:Hr1; (split; [by auto using room_push|]).
        + split; [by intros He%snoc_not_nil|]. intros [_ (rec & [= <-] & ? & _)]. lia.
        + split; [by intros ->|]. intros [_ (rec & [= <-] & ? & _)]. lia.
      - split; [done|]. rewrite Hf. split.
        + intros [-> Hall]. split; [done|]. exists record. auto.
        + intros [-> (rec & [= <-] & _ & Hall)]. auto. }
    destruct Herr2 as [Hw2 H2']. destruct (IH (S row) errs2 (S n) Hw2) as (IHw & IHe & IHn).
    split_and!; [done| |intros He; rewrite (IHn He); simpl; lia].
    rewrite IHe, H2'. set_solver.
  - destruct (IH (S row) _ n (room_push errs (mkVErr row "row" "Malformed CSV row") Hr))
      as (IHw & IHe & IHn). split_and!; [done| |].
    + rewrite IHe. split; [by intros [He%snoc_not_nil _]|].
      intros [_ Hall]. destruct (Hall None) as (rec & Hx & _); [set_solver|done].
    + intros He. apply IHe in He as [He%snoc_not_nil _]. done.
Qed.

(** ** Verdicts *)

(** The header names exactly the schema's columns. *)
Definition columns_match (headers : list string) (schema : list FieldSchema) : Prop :=
  ∀ c, c ∈ headers ↔ c ∈ f_name <$> schema.

Lemma columns_match_alt headers schema :
  columns_match headers schema ↔
  (∀ f, f ∈ schema → is_Some (header_to_index headers !! f_name f)) ∧
  (∀ h, h ∈ headers → h ∈ (list_to_set (f_name <$> schema) : gset string)).
Proof.
  unfold columns_match. setoid_rewrite header_to_index_present.
  setoid_rewrite elem_of_list_to_set. split.
  - intros Hc. split; [|by intros h ?; apply Hc]. intros f Hf. apply Hc, list_elem_of_fmap. eauto.
  - intros [H1 H2] c. split; [by apply H2|]. intros (f & -> & Hf)%list_elem_of_fmap. auto.
Qed.

(** The errors before the row checks: none iff the columns match. *)
Lemma header_errors headers schema :
  match missing_columns (header_to_index headers) schema [] with
  | inr e => within e ∧ e ≠ [] ∧ ¬ columns_match headers schema
  | inl e =>
      let e1 := extra_columns (list_to_set (f_name <$> schema)) headers e in
      within e1 ∧ (e1 = [] ↔ columns_match headers schema)
  end.
Proof.
  pose proof (missing_columns_spec (header_to_index headers) schema [] eq_refl) as Hm.
  destruct (missing_columns _ schema []) as [e|e].
  - destruct Hm as [Hw Hm].
    destruct (extra_columns_spec (list_to_set (f_name <$> schema)) headers e Hw) as [Hw1 Hx].
    split; [done|]. rewrite Hx, Hm, columns_match_alt. naive_solver.
  - destruct Hm as (Hw & Hne & f & Hf & Hn). split_and!; [done..|].
    rewrite columns_match_alt. intros [Hall _]. destruct (Hall f Hf). congruence.
Qed.

Lemma no_errors_iff {A} (l : list A) : bool_decide (length l = 0%nat) = true ↔ l = [].
Proof. rewrite bool_decide_eq_true. apply length_zero_iff_nil. Qed.

(** The validator's report is bounded and honest.  For every file,
    schema and mode, at most 100 errors are reported, and the file is declared
    valid exactly when no error is reported. *)
Theorem validation_report_bounded (data : string) (schema : list FieldSchema)
    (mode : ValidationMode) :
  let s := validate_csv_bytes data schema mode in
  (length (errors s) ≤ 100)%nat ∧ (valid s = true ↔ errors s = []).
Proof.
  unfold validate_csv_bytes. destruct (csv_read data) as [[headers|] rows]; [|split; [simpl; lia|done]].
  pose proof (header_errors headers schema) as Hh.
  destruct mode; [split; [simpl; lia|done]|..];
    (destruct (missing_columns _ schema []) as [e|e];
     [|destruct Hh as (Hw & Hne & _); split; [done|]; split; done]);
    destruct Hh as [Hw _].
  - split; [done|]. apply no_errors_iff.
  - destruct (check_rows_spec (header_to_index headers) headers schema 1 rows _ 0 Hw) as [Hw2 _].
    destruct (check_rows _ _ _ _ _ _ _) as [e2 n]. split; [done|]. apply no_errors_iff.
Qed.

(** C31: what [HeadersOnly] and [Strict] guarantee.  Under [HeadersOnly] a
    file is valid iff its header parses and is exactly the schema's column set.
    Under [Strict] it is valid iff, moreover, every data row parses, has at
    least as many cells as the header and, for each schema column, its cell
    (trimmed) passes the column's type check; then every row is counted. *)
Theorem validation_verdict (data : string) (schema : list FieldSchema) :
  (valid (validate_csv_bytes data schema VHeadersOnly) = true ↔
     ∃ headers, (csv_read data).1 = Some headers ∧ columns_match headers schema) ∧
  (valid (validate_csv_bytes data schema VStrict) = true ↔
     ∃ headers, (csv_read data).1 = Some headers ∧ columns_match headers schema ∧
       ∀ r, r ∈ (csv_read data).2 → row_ok (header_to_index headers) headers schema r) ∧
  (valid (validate_csv_bytes data schema VStrict) = true →
     rows_validated (validate_csv_bytes data schema VStrict) = length (csv_read data).2).
Proof.
  unfold validate_csv_bytes.
  destruct (csv_read data) as [[headers|] rows]; [|split_and!; naive_solver].
  pose proof (header_errors headers schema) as Hh. simpl.
  destruct (missing_columns _ schema []) as [e|e];
    [|destruct Hh as (_ & _ & Hno); split_and!; simpl; naive_solver].
  destruct Hh as [Hw Hc].
  destruct (check_rows_spec (header_to_index headers) headers schema 1 rows _ 0 Hw)
    as (_ & Hr & Hn).
  destruct (check_rows _ _ _ _ _ _ _) as [e2 n]. cbn [fst snd valid rows_validated] in *.
  rewrite !no_errors_iff, Hr, Hc. split_and!; [naive_solver..|].
  intros He. apply Hn, Hr. by rewrite Hc.
Qed.
End Facts.

(** ** The decimal grammar *)

Definition is_sign (c : ascii) : bool := bool_decide (c = "+"%char) || bool_decide (c = "-"%char).

Lemma digit_ne (c d : ascii) :
  is_ascii_digit c = true → is_ascii_digit d = false → c ≠ d.
Proof. intros Hc Hd ->. congruence. Qed.
Lemma all_digits_no_char (d : ascii) s :
  is_ascii_digit d = false → all_digits s = true → no_char d s = true.
Proof.
  intros Hd. unfold all_digits. induction s as [|c s IH]; simpl; [done|].
  intros [Hc Hs]%andb_true_iff. rewrite IH by done.
  by rewrite bool_decide_eq_false_2 by (by apply digit_ne).
Qed.
Lemma count_all_digits s : all_digits s = true → count_digits s = len s.
Proof.
  unfold all_digits, len. induction s as [|c s IH]; simpl; [done|].
  intros [-> Hs]%andb_true_iff. rewrite IH by done. lia.
Qed.
Lemma count_digits_app a b : count_digits (a +:+ b) = count_digits a + count_digits b.
Proof. induction a as [|c a IH]; simpl; lia. Qed.
Lemma all_digits_app a b : all_digits (a +:+ b) = all_digits a && all_digits b.
Proof.
  unfold all_digits. induction a as [|c a IH]; simpl; [done|]. by rewrite IH, andb_assoc.
Qed.

Lemma split_exp_none s : no_char "e" s = true → no_char "E" s = true → split_exp s = None.
Proof.
  induction s as [|c s IH]; simpl; [done|]. rewrite !andb_true_iff, !negb_true_iff.
  intros [-> He] [-> HE]. simpl. by rewrite IH.
Qed.

(** The number part of a decimal: digits with an optional point. *)
Definition num_body (ip fp : string) (dot : bool) : string :=
  ip +:+ (if dot then String "." fp else EmptyString).

Definition decimal_grammar (v : string) (precision scale : Z) : Prop :=
  ∃ sg ip fp dot, v = sg +:+ num_body ip fp dot ∧ sg ∈ [""; "+"; "-"] ∧
    all_digits ip = true ∧ all_digits fp = true ∧ (dot = false → fp = "") ∧
    (ip ≠ "" ∨ fp ≠ "") ∧ len fp ≤ scale ∧ len ip + len fp ≤ precision.

Section NumBody.
Context (ip fp : string) (dot : bool).
Context (Hip : all_digits ip = true) (Hfp : all_digits fp = true) (Hdot : dot = false → fp = "").

Lemma num_body_no_char c :
  is_ascii_digit c = false → c ≠ "."%char → no_char c (num_body ip fp dot) = true.
Proof.
  intros Hc Hd. unfold num_body. rewrite no_char_append, all_digits_no_char by done.
  destruct dot; simpl; [|done].
  rewrite bool_decide_eq_false_2 by congruence. by apply all_digits_no_char.
Qed.
Lemma num_body_parts :
  split_all "." (num_body ip fp dot) = if dot then [ip; fp] else [ip].
Proof.
  unfold num_body. destruct dot.
  - rewrite split_all_app, split_all_none; [done|by apply all_digits_no_char..].
  - rewrite append_nil_r. by apply split_all_none, all_digits_no_char.
Qed.
Lemma num_body_digits : count_digits (num_body ip fp dot) = len ip + len fp.
Proof.
  unfold num_body. rewrite count_digits_app, (count_all_digits ip) by done.
  destruct dot; simpl; [by rewrite count_all_digits|by rewrite Hdot].
Qed.
Lemma num_body_is_number :
  is_number (num_body ip fp dot) = negb (bool_decide (ip = "") && bool_decide (fp = "")).
Proof.
  unfold is_number, num_body. destruct dot.
  - rewrite split_once_app by (by apply all_digits_no_char). by rewrite Hip, Hfp.
  - rewrite append_nil_r.
    rewrite (proj2 (split_once_none "." ip)) by (by apply all_digits_no_char).
    rewrite Hip, Hdot by done. by rewrite andb_true_r.
Qed.
(** Its first byte is a digit or the point: no sign to strip, no special value. *)
Lemma num_body_head c r :
  num_body ip fp dot = String c r → is_ascii_digit c = true ∨ c = "."%char.
Proof using Hip.
  clear Hdot. unfold num_body. destruct ip as [|d i]; simpl.
  - destruct dot; [|done]. intros [= <- _]. by right.
  - intros [= <- _]. left. unfold all_digits in Hip. simpl in Hip.
    by apply andb_true_iff in Hip as [? _].
Qed.
Lemma head_not_sign c : is_ascii_digit c = true ∨ c = "."%char → is_sign c = false.
Proof.
  unfold is_sign. rewrite orb_false_iff, !bool_decide_eq_false.
  intros [Hc| ->]; [split; by apply digit_ne|done].
Qed.
Lemma num_body_trim : trim_signs (num_body ip fp dot) = num_body ip fp dot.
Proof using Hip.
  destruct (num_body ip fp dot) as [|c r] eqn:He; [done|].
  apply num_body_head, head_not_sign in He. unfold is_sign in He. simpl. by rewrite He.
Qed.
Lemma num_body_sign : split_sign (num_body ip fp dot) = ("", num_body ip fp dot).
Proof using Hip.
  destruct (num_body ip fp dot) as [|c r] eqn:He; [done|].
  apply num_body_head, head_not_sign in He. unfold is_sign in He. simpl. by rewrite He.
Qed.
Lemma num_body_special w :
  to_ascii_lowercase (num_body ip fp dot) = w → w ≠ "inf" ∧ w ≠ "infinity" ∧ w ≠ "nan".
Proof using Hip.
  intros <-. destruct (num_body ip fp dot) as [|c r] eqn:He; [done|].
  apply num_body_head in He as Hc. unfold to_ascii_lowercase. simpl.
  assert (Hlow : to_ascii_lowercase_char c = c).
  { unfold to_ascii_lowercase_char, in_range. destruct Hc as [Hc| ->]; [|done].
    unfold is_ascii_digit, in_range in Hc. apply andb_true_iff in Hc as [_ Hc].
    apply Z.leb_le in Hc. destruct (Z.leb_spec 65 (byte c)); [lia|done]. }
  rewrite Hlow. assert (Hni : c ≠ "i"%char ∧ c ≠ "n"%char).
  { destruct Hc as [Hc| ->]; [split; by apply digit_ne|done]. }
  destruct Hni. split_and!; congruence.
Qed.
End NumBody.

Lemma f64_parses_number sg body :
  split_sign (sg +:+ body) = (sg, body) →
  (∀ w, to_ascii_lowercase body = w → w ≠ "inf" ∧ w ≠ "infinity" ∧ w ≠ "nan") →
  no_char "e" body = true → no_char "E" body = true →
  f64_parses (sg +:+ body) = is_number body.
Proof.
  intros Hs Hw He HE. unfold f64_parses. rewrite Hs.
  destruct (Hw _ eq_refl) as (H1 & H2 & H3).
  rewrite !bool_decide_eq_false_2 by done. simpl. by rewrite split_exp_none.
Qed.

Lemma signed_split sg ip fp dot :
  all_digits ip = true → sg ∈ [""; "+"; "-"] →
  split_sign (sg +:+ num_body ip fp dot) = (sg, num_body ip fp dot) ∧
  trim_signs (sg +:+ num_body ip fp dot) = num_body ip fp dot.
Proof.
  intros Hip Hsg. repeat (apply elem_of_cons in Hsg as [->|Hsg]);
    [..|by apply not_elem_of_nil in Hsg].
  - split; [exact (num_body_sign ip fp dot Hip)|exact (num_body_trim ip fp dot Hip)].
  - split; [done|]. exact (num_body_trim ip fp dot Hip).
  - split; [done|]. exact (num_body_trim ip fp dot Hip).
Qed.

Lemma f64_parses_signed sg ip fp dot :
  all_digits ip = true → all_digits fp = true → (dot = false → fp = "") →
  sg ∈ [""; "+"; "-"] →
  f64_parses (sg +:+ num_body ip fp dot) = negb (bool_decide (ip = "") && bool_decide (fp = "")).
Proof.
  intros Hip Hfp Hd Hsg. rewrite f64_parses_number.
  - by apply num_body_is_number.
  - by apply signed_split.
  - by apply num_body_special.
  - by apply num_body_no_char.
  - by apply num_body_no_char.
Qed.

(** Two leading signs are no number. *)
Lemma f64_parses_two_signs c d r :
  is_sign c = true → is_sign d = true →
  no_char "e" (String d r) = true → no_char "E" (String d r) = true →
  f64_parses (String c (String d r)) = false.
Proof.
  intros Hc Hd He HE.
  assert (Hdd : is_ascii_digit d = false ∧ d ≠ "."%char ∧
    to_ascii_lowercase_char d = d ∧ d ≠ "i"%char ∧ d ≠ "n"%char).
  { unfold is_sign in Hd. apply orb_true_iff in Hd. rewrite !bool_decide_eq_true in Hd.
    by destruct Hd as [->| ->]. }
  destruct Hdd as (Hdig & Hdot & Hlow & Hi & Hn).
  change (String c (String d r)) with (String c EmptyString +:+ String d r).
  rewrite f64_parses_number; [| | |done|done].
  - unfold is_number. simpl. rewrite decide_False by done. unfold all_digits. simpl.
    destruct (split_once "." r) as [[a b]|]; simpl; by rewrite Hdig.
  - unfold is_sign in Hc. simpl. by rewrite Hc.
  - intros w <-. unfold to_ascii_lowercase. simpl. rewrite Hlow. split_and!; congruence.
Qed.

Lemma trim_signs_pre v :
  ∃ pre, v = pre +:+ trim_signs v ∧ string_forallb is_sign pre = true.
Proof.
  induction v as [|c v [pre [He Hp]]]; [by exists ""|]. simpl. fold (is_sign c).
  destruct (is_sign c) eqn:Hc; [|by exists ""].
  exists (String c pre). simpl. by rewrite Hc, <-He.
Qed.

Lemma decimal_parts w :
  (2 <? length (split_all "." w))%nat = false →
  existsb (λ part, negb (all_digits part)) (split_all "." w) = false →
  ∃ ip fp dot, w = num_body ip fp dot ∧ all_digits ip = true ∧ all_digits fp = true ∧
    (dot = false → fp = "").
Proof.
  intros Hl He. destruct (split_all_cases "." w) as [[Hs _]|(a & b & -> & Ha & Hs)];
    rewrite Hs in Hl, He; simpl in *.
  - exists w, "", false. unfold num_body. rewrite append_nil_r. split_and!; try done.
    by destruct (all_digits w).
  - apply Nat.ltb_ge in Hl.
    destruct (split_all_cases "." b) as [[Hb _]|(a' & b' & _ & _ & Hb)]; rewrite Hb in Hl, He.
    + exists a, b, true. simpl in He. rewrite orb_false_r, orb_false_iff, !negb_false_iff in He.
      by destruct He.
    + simpl in Hl. pose proof (split_all_not_nil "." b').
      destruct (split_all "." b'); [done|simpl in Hl; lia].
Qed.

(** The decimal check accepts exactly the decimal grammar.  For a column
    [Decimal { precision, scale }], a value passes iff it is an optional single
    sign, digits, optionally a point and digits, with at least one digit in
    all, at most [scale] digits after the point and at most [precision] digits:
    no exponent, no infinity or NaN, no second sign or point. *)
Theorem validate_decimal_grammar (v : string) (precision scale : Z)
    (Hscale : 0 ≤ scale) :
  validate_decimal v precision scale = None ↔ decimal_grammar v precision scale.
Proof.
  unfold validate_decimal. split.
  - destruct (no_char "e" v) eqn:He, (no_char "E" v) eqn:HE; simpl; try done.
    destruct (f64_parses v) eqn:Hf; [|done].
    destruct (2 <? length (split_all "." (trim_signs v)))%nat eqn:Hl; [done|].
    destruct (existsb _ (split_all "." (trim_signs v))) eqn:Hx; [done|].
    destruct (decimal_parts _ Hl Hx) as (ip & fp & dot & Hw & Hip & Hfp & Hd).
    rewrite Hw, num_body_parts, num_body_digits by done.
    destruct (trim_signs_pre v) as (pre & Hv & Hpre). rewrite Hw in Hv.
    assert (Hsg : pre ∈ [""; "+"; "-"]).
    { destruct pre as [|c [|d r]]; simpl in Hpre; [set_solver|..].
      - unfold is_sign in Hpre. rewrite andb_true_r, orb_true_iff, !bool_decide_eq_true in Hpre.
        destruct Hpre as [->| ->]; set_solver.
      - exfalso. rewrite !andb_true_iff in Hpre. destruct Hpre as (Hc & Hdd & _).
        rewrite Hv in Hf, He, HE. simpl in He, HE. rewrite !andb_true_iff in He, HE.
        change (String c (String d r) +:+ num_body ip fp dot) with
          (String c (String d (r +:+ num_body ip fp dot))) in Hf.
        rewrite f64_parses_two_signs in Hf; simpl; try done; rewrite ?andb_true_iff; tauto. }
    rewrite Hv, f64_parses_signed in Hf by done.
    rewrite negb_true_iff, andb_false_iff, !bool_decide_eq_false in Hf.
    destruct (Z.ltb_spec scale (match (if dot then [ip; fp] else [ip]) with
                                | [_; b] => len b | _ => 0 end)) as [|Hs]; [done|].
    destruct (Z.ltb_spec precision (len ip + len fp)) as [|Hp]; [done|]. intros _.
    exists pre, ip, fp, dot. split_and!; try done.
    destruct dot; [done|]. rewrite Hd by done. unfold len. simpl. lia.
  - intros (sg & ip & fp & dot & -> & Hsg & Hip & Hfp & Hd & Hne & Hs & Hp).
    destruct (signed_split sg ip fp dot Hip Hsg) as [_ Htrim].
    assert (Hno : no_char "e" (sg +:+ num_body ip fp dot) = true ∧
                  no_char "E" (sg +:+ num_body ip fp dot) = true).
    { rewrite !no_char_append, !num_body_no_char by done.
      split; repeat (apply elem_of_cons in Hsg as [->|Hsg]; [done|]);
        by apply not_elem_of_nil in Hsg. }
    destruct Hno as [-> ->]. simpl. rewrite f64_parses_signed by done.
    assert (Hn : negb (bool_decide (ip = "") && bool_decide (fp = "")) = true).
    { rewrite negb_true_iff, andb_false_iff, !bool_decide_eq_false. done. }
    rewrite Hn, Htrim, num_body_parts, num_body_digits by done. simpl.
    destruct dot; simpl; rewrite ?Hip, ?Hfp; simpl.
    + rewrite (proj2 (Z.ltb_ge scale (len fp))) by done.
      by rewrite (proj2 (Z.ltb_ge precision (len ip + len fp))).
    + rewrite (proj2 (Z.ltb_ge scale 0)) by done.
      by rewrite (proj2 (Z.ltb_ge precision (len ip + len fp))).
Qed.
Lemma validate_decimal_grammar_witness :
  validate_decimal "-12.50" 4 2 = None ↔ decimal_grammar "-12.50" 4 2.
Proof. apply (validate_decimal_grammar "-12.50" 4 2). lia. Defined.
