(* ===== verification/Mean.v ===== *)
(** * The example DRT: mean of a CSV column (src/drt-examples/mean/src/lib.rs)

    The guest module that the runtime executes: the byte-level CSV scanner, the
    decimal parser over IEEE binary64 ([SpecFloat]), the JSON formatting, the
    two bump allocators and the exported ABI over a linear memory. *)
From Stdlib Require Import SpecFloat.
From S2P Require Import Prelude.
From S2P Require Import RustStr.
From S2P Require Import RustFmt.

Local Open Scope Z_scope.

(** ** binary64 *)

Definition f64 : Type := spec_float.
Definition f64_of_Z (z : Z) : f64 := binary_normalize 53 1024 z 0 false.
Definition f64_add (a b : f64) : f64 := SFadd 53 1024 a b.
Definition f64_sub (a b : f64) : f64 := SFsub 53 1024 a b.
Definition f64_mul (a b : f64) : f64 := SFmul 53 1024 a b.
Definition f64_div (a b : f64) : f64 := SFdiv 53 1024 a b.
Definition f64_opp (a : f64) : f64 := SFopp a.
Definition f64_ltb (a b : f64) : bool := SFltb a b.
Definition f64_eqb (a b : f64) : bool := SFeqb a b.
Definition f64_zero : f64 := S754_zero false.
(** [n as u64]: truncation, saturating; NaN is 0. *)
Definition f64_as_u64 (x : f64) : Z :=
  match x with
  | S754_finite false m e =>
      Z.min U64_MAX (if 0 <=? e then Z.pos m * 2 ^ e else Z.pos m / 2 ^ (- e))
  | S754_infinity false => U64_MAX
  | _ => 0
  end.

(** ** Byte helpers *)

Definition lf : ascii := char_of 10.
Definition cr : ascii := char_of 13.
Definition tab : ascii := char_of 9.
Definition quote : ascii := char_of 34.
Definition backslash : ascii := char_of 92.
Definition str1 (c : ascii) : string := String c EmptyString.

(** Dropping one trailing byte [c]. *)
Fixpoint strip_last (c : ascii) (s : string) : string :=
  match s with
  | EmptyString => EmptyString
  | String a EmptyString => if bool_decide (a = c) then EmptyString else s
  | String a s' => String a (strip_last c s')
  end.

Definition is_blank (c : ascii) : bool := bool_decide (c = " "%char) || bool_decide (c = tab).
Fixpoint drop_blanks (s : string) : string :=
  match s with
  | String c s' => if is_blank c then drop_blanks s' else s
  | EmptyString => EmptyString
  end.
Fixpoint drop_blanks_end (s : string) : string :=
  match s with
  | EmptyString => EmptyString
  | String c s' =>
      match drop_blanks_end s' with
      | EmptyString => if is_blank c then EmptyString else str1 c
      | r => String c r
      end
  end.
Definition trim_ascii (s : string) : string := drop_blanks_end (drop_blanks s).

(** ** Scanning *)

(** The bytes up to the first newline, and the rest after it. *)
Fixpoint split_line (s : string) : string * string :=
  match s with
  | EmptyString => (EmptyString, EmptyString)
  | String c s' =>
      if bool_decide (c = lf) then (EmptyString, s')
      else let '(a, b) := split_line s' in (String c a, b)
  end.
Definition split_first_line (buf : string) : string * string :=
  let '(l, body) := split_line buf in (strip_last cr l, body).

(** [cell] holds the bytes since the last comma. *)
Fixpoint header_loop (column cell : string) (idx : nat) (s : string) : option nat :=
  match s with
  | EmptyString => if bool_decide (trim_ascii cell = column) then Some idx else None
  | String c s' =>
      if bool_decide (c = ","%char) then
        if bool_decide (trim_ascii cell = column) then Some idx
        else header_loop column EmptyString (S idx) s'
      else header_loop column (cell +:+ str1 c) idx s'
  end.
Definition header_column_index (header column : string) : option nat :=
  header_loop column EmptyString 0 header.

Fixpoint field_loop (n : nat) (cell : string) (idx : nat) (s : string) : option string :=
  match s with
  | EmptyString => if bool_decide (idx = n) then Some cell else None
  | String c s' =>
      if bool_decide (c = ","%char) then
        if bool_decide (idx = n) then Some cell else field_loop n EmptyString (S idx) s'
      else field_loop n (cell +:+ str1 c) idx s'
  end.
Definition field_at (row : string) (n : nat) : option string := field_loop n EmptyString 0 row.

(** ** The decimal parser *)

(** A run of digits: its value from [acc] with u64 wrap-around, their number,
    and the rest. *)
Fixpoint take_digits (acc : Z) (n : Z) (s : string) : Z * Z * string :=
  match s with
  | String c s' =>
      if is_ascii_digit c then take_digits (wrap64 (wrap64 (acc * 10) + (byte c - 48))) (n + 1) s'
      else (acc, n, s)
  | EmptyString => (acc, n, s)
  end.
(** Fraction digits: the first eighteen count. *)
Fixpoint take_fraction (acc : Z) (n : Z) (s : string) : Z * Z * string :=
  match s with
  | String c s' =>
      if is_ascii_digit c then
        if n <? 18 then
          take_fraction (wrap64 (wrap64 (acc * 10) + (byte c - 48))) (n + 1) s'
        else take_fraction acc n s'
      else (acc, n, s)
  | EmptyString => (acc, n, s)
  end.
Definition I32_MAX : Z := 2 ^ 31 - 1.
(** Exponent digits, saturating at [i32::MAX]. *)
Fixpoint take_exponent (e : Z) (n : Z) (s : string) : Z * Z * string :=
  match s with
  | String c s' =>
      if is_ascii_digit c then
        take_exponent (Z.min I32_MAX (Z.min I32_MAX (e * 10) + (byte c - 48))) (n + 1) s'
      else (e, n, s)
  | EmptyString => (e, n, s)
  end.

Fixpoint repeat_mul (n : nat) (v x : f64) : f64 :=
  match n with O => v | S n' => repeat_mul n' (f64_mul v x) x end.
(** The 23 literals [1e0 .. 1e22] are exact, [1e-1 .. 1e-22] the rounded
    quotients; beyond, the loop multiplies.  0.1 is the literal's value. *)
Definition pow10 (e : Z) : f64 :=
  if 0 <=? e then
    if e <? 23 then f64_of_Z (10 ^ e)
    else repeat_mul (Z.to_nat (e - 22)) (f64_of_Z (10 ^ 22)) (f64_of_Z 10)
  else
    let u := - e in
    if u <? 23 then f64_div (f64_of_Z 1) (f64_of_Z (10 ^ u))
    else repeat_mul (Z.to_nat (u - 22)) (f64_div (f64_of_Z 1) (f64_of_Z (10 ^ 22)))
           (f64_div (f64_of_Z 1) (f64_of_Z 10)).

(** The exponent part: [None] rejects the cell. *)
Definition parse_exponent (s : string) : option (Z * string) :=
  match s with
  | String c s1 =>
      if bool_decide (c = "e"%char) || bool_decide (c = "E"%char) then
        let '(exp_neg, s2) :=
          match s1 with
          | String d s' =>
              if bool_decide (d = "-"%char) then (true, s')
              else if bool_decide (d = "+"%char) then (false, s') else (false, s1)
          | EmptyString => (false, s1)
          end in
        let '(e, exp_digits, rest) := take_exponent 0 0 s2 in
        if exp_digits =? 0 then None else Some (if exp_neg then - e else e, rest)
      else Some (0, s)
  | EmptyString => Some (0, s)
  end.

Definition parse_f64_bytes (b : string) : option f64 :=
  match b with
  | EmptyString => None
  | String c0 b' =>
      let '(neg, s0) := if bool_decide (c0 = "-"%char) then (true, b')
                        else if bool_decide (c0 = "+"%char) then (false, b') else (false, b) in
      match s0 with
      | EmptyString => None
      | _ =>
          let '(int_part, int_digits, s1) := take_digits 0 0 s0 in
          let '(frac_part, frac_digits, s2) :=
            match s1 with
            | String c s' => if bool_decide (c = "."%char) then take_fraction 0 0 s' else (0, 0, s1)
            | EmptyString => (0, 0, s1)
            end in
          if (int_digits =? 0) && (frac_digits =? 0) then None
          else
            match parse_exponent s2 with
            | None => None
            | Some (exp, s3) =>
                match s3 with
                | EmptyString =>
                    let v0 := f64_of_Z int_part in
                    let v1 := if 0 <? frac_digits
                              then f64_add v0 (f64_mul (f64_of_Z frac_part) (pow10 (- frac_digits)))
                              else v0 in
                    let v2 := if exp =? 0 then v1 else f64_mul v1 (pow10 exp) in
                    Some (if neg then f64_opp v2 else v2)
                | _ => None
                end
            end
      end
  end.

(** ** The mean *)

Record MeanAcc := mkAcc { acc_sum : f64; acc_count : Z; acc_skipped : Z }.
Record MeanStats := mkMean { count : Z; skipped : Z; mean : f64 }.

(** The body of the row loop for one non-empty row. *)
Definition mean_row (col : nat) (a : MeanAcc) (row : string) : MeanAcc :=
  let skip := mkAcc (acc_sum a) (acc_count a) (acc_skipped a + 1) in
  match field_at row col with
  | None => skip
  | Some field =>
      let trimmed := trim_ascii field in
      if bool_decide (trimmed = "") then skip
      else match parse_f64_bytes trimmed with
           | Some v => mkAcc (f64_add (acc_sum a) v) (acc_count a + 1) (acc_skipped a)
           | None => skip
           end
  end.

(** The row loop: [row] is the row being read, if one has started; stray
    carriage returns and newlines between rows are skipped. *)
Fixpoint mean_loop (col : nat) (a : MeanAcc) (row : option string) (s : string) : MeanAcc :=
  let finish row :=
    let r := strip_last cr row in if bool_decide (r = "") then a else mean_row col a r in
  match s with
  | EmptyString => match row with Some r => finish r | None => a end
  | String c s' =>
      match row with
      | None =>
          if bool_decide (c = cr) || bool_decide (c = lf) then mean_loop col a None s'
          else mean_loop col a (Some (str1 c)) s'
      | Some r =>
          if bool_decide (c = lf) then mean_loop col (finish r) None s'
          else mean_loop col a (Some (r +:+ str1 c)) s'
      end
  end.

Definition compute_mean (csv column : string) : result string MeanStats :=
  if bool_decide (csv = "") then Err "empty CSV"
  else
    let '(header, body) := split_first_line csv in
    match header_column_index header column with
    | None =>
        Err ("column '" +:+ (if utf8_valid column then column else "") +:+ "' not in header")
    | Some col_idx =>
        let a := mean_loop col_idx (mkAcc f64_zero 0 0) None body in
        if acc_count a =? 0 then Err "no numeric values in column"
        else Ok (mkMean (acc_count a) (acc_skipped a)
                   (f64_div (acc_sum a) (f64_of_Z (acc_count a))))
    end.

(** ** Arguments *)

(** [input.find(needle)], returning what follows the match. *)
Fixpoint find_after (needle s : string) : option string :=
  match strip_prefix needle s with
  | Some rest => Some rest
  | None => match s with EmptyString => None | String _ s' => find_after needle s' end
  end.

(** The unescaping loop; [esc] says that a backslash was just read. *)
Fixpoint unescape (out : string) (esc : bool) (s : string) : option string :=
  match s with
  | EmptyString => None
  | String c s' =>
      if esc then
        if bool_decide (c = quote) then unescape (out +:+ str1 quote) false s'
        else if bool_decide (c = backslash) then unescape (out +:+ str1 backslash) false s'
        else if bool_decide (c = "/"%char) then unescape (out +:+ "/") false s'
        else if bool_decide (c = "n"%char) then unescape (out +:+ str1 lf) false s'
        else if bool_decide (c = "r"%char) then unescape (out +:+ str1 cr) false s'
        else if bool_decide (c = "t"%char) then unescape (out +:+ str1 tab) false s'
        else None
      else if bool_decide (c = quote) then Some out
      else if bool_decide (c = backslash) then unescape out true s'
      else unescape (out +:+ str1 c) false s'
  end.

Definition extract_string_field (input key : string) : option string :=
  let needle := str1 quote +:+ key +:+ str1 quote +:+ ":" in
  rest ← find_after needle input;
  body ← strip_prefix (str1 quote) (trim_start rest);
  unescape "" false body.

(** ** Output *)

(** The digits are written from the end of a 20-byte buffer. *)
Fixpoint u64_digits (fuel : nat) (n : Z) (buf : string) : string :=
  match fuel with
  | O => buf
  | S fuel' =>
      if 0 <? n then u64_digits fuel' (n / 10) (String (digit_char (n mod 10)) buf) else buf
  end.
Definition push_u64 (s : string) (n : Z) : string :=
  if n =? 0 then s +:+ "0" else s +:+ u64_digits 20 n EmptyString.

Fixpoint frac_digits_loop (n : nat) (frac : f64) (s : string) : string :=
  match n with
  | O => s
  | S n' =>
      let frac := f64_mul frac (f64_of_Z 10) in
      let digit := f64_as_u64 frac mod 10 in
      frac_digits_loop n' frac (s +:+ str1 (digit_char digit))
  end.
Definition push_f64 (s : string) (n : f64) : string :=
  match n with
  | S754_nan | S754_infinity _ => s +:+ "null"
  | _ =>
      let '(s, n) := if f64_ltb n f64_zero then (s +:+ "-", f64_opp n) else (s, n) in
      let int_part := f64_as_u64 n in
      let s := push_u64 s int_part in
      let frac := f64_sub n (f64_of_Z int_part) in
      if f64_eqb frac f64_zero then s else frac_digits_loop 6 frac (s +:+ ".")
  end.

(** A JSON member name: quote, name, quote. *)
Definition json_key (k : string) : string := str1 quote +:+ k +:+ str1 quote.

Definition format_result (column : string) (stats : MeanStats) : string :=
  let s := "{" +:+ json_key "column" +:+ ":" +:+ str1 quote in
  let s := s +:+ column in
  let s := s +:+ str1 quote +:+ "," +:+ json_key "count" +:+ ":" in
  let s := push_u64 s (count stats) in
  let s := s +:+ "," +:+ json_key "skipped" +:+ ":" in
  let s := push_u64 s (skipped stats) in
  let s := s +:+ "," +:+ json_key "mean" +:+ ":" in
  push_f64 s (mean stats) +:+ "}".

Fixpoint escape_error (msg : string) : string :=
  match msg with
  | EmptyString => EmptyString
  | String c m =>
      (if bool_decide (c = quote) then str1 backslash +:+ str1 quote
       else if bool_decide (c = backslash) then str1 backslash +:+ str1 backslash
       else if bool_decide (c = lf) then str1 backslash +:+ "n"
       else if byte c <? 32 then EmptyString
       else str1 c) +:+ escape_error m
  end.
Definition format_error (msg : string) : string :=
  "{" +:+ json_key "error" +:+ ":" +:+ str1 quote +:+ escape_error msg +:+ str1 quote +:+ "}".

Definition run_inner (csv args : string) : result (Z * string) string :=
  _ ← (if utf8_valid args then Ok () else Err (2, "args not UTF-8"));
  column ← ok_or (extract_string_field args "column") (2, "missing 'column' arg");
  stats ← map_err (λ m, (3, m)) (compute_mean csv column);
  Ok (format_result column stats).

(** The code and the body that [run] reports. *)
Definition run_outcome (csv args : string) : Z * string :=
  match run_inner csv args with
  | Ok b => (0, b)
  | Err (c, m) => (c, format_error m)
  end.

(** ** Linear memory and the two allocators *)

Definition PAGE_SIZE : Z := 64 * 1024.
Definition GLOBAL_OFFSET_FROM_HEAP_BASE : Z := 16 * 1024 * 1024.

Record Guest := mkGuest {
  heap_base : Z;
  memory : list ascii;
  max_pages : Z;
  pub_off : Z;
  glob_off : Z;
}.
Definition mem_bytes (g : Guest) : Z := Z.of_nat (length (memory g)).
Definition set_memory (m : list ascii) (g : Guest) : Guest :=
  mkGuest (heap_base g) m (max_pages g) (pub_off g) (glob_off g).

(** [memory.grow]: [None] is the failure value. *)
Definition memory_grow (pages : Z) (g : Guest) : option Guest :=
  if mem_bytes g + pages * PAGE_SIZE <=? max_pages g * PAGE_SIZE then
    Some (set_memory (memory g ++ replicate (Z.to_nat (pages * PAGE_SIZE)) (char_of 0)) g)
  else None.

(** The common part of both allocators: align, grow if needed; 32-bit sums. *)
Definition bump (cur align size : Z) (g : Guest) : option (Z * Z * Guest) :=
  let aligned := Z.land (wrap32 (cur + align - 1)) (wrap32 (Z.lnot (align - 1))) in
  let next := wrap32 (aligned + size) in
  let current_bytes := mem_bytes g in
  if current_bytes <? next then
    let needed := next - current_bytes in
    let pages := (needed + PAGE_SIZE - 1) / PAGE_SIZE in
    match memory_grow pages g with
    | Some g' => Some (aligned, next, g')
    | None => None
    end
  else Some (aligned, next, g).

(** [PUBLIC_BUMP.alloc]; 0 is failure. *)
Definition bump_alloc (size : Z) (g : Guest) : Z * Guest :=
  let cur := if pub_off g =? 0 then heap_base g else pub_off g in
  match bump cur 8 size g with
  | Some (aligned, next, g') =>
      (aligned, mkGuest (heap_base g') (memory g') (max_pages g') next (glob_off g'))
  | None => (0, g)
  end.
(** [GLOBAL.alloc]; 0 is the null pointer. *)
Definition global_alloc (size align : Z) (g : Guest) : Z * Guest :=
  let cur := if glob_off g =? 0 then heap_base g + GLOBAL_OFFSET_FROM_HEAP_BASE
             else glob_off g in
  match bump cur align size g with
  | Some (aligned, next, g') =>
      (aligned, mkGuest (heap_base g') (memory g') (max_pages g') (pub_off g') next)
  | None => (0, g)
  end.

(** The exported [alloc(size: i32) -> i32]. *)
Definition guest_alloc (size : Z) (g : Guest) : Z * Guest :=
  if size <? 0 then (0, g) else let '(p, g') := bump_alloc size g in (as_i32 p, g').

(** Storing bytes at an address of the memory. *)
Definition store (addr : Z) (bytes : list ascii) (g : Guest) : Guest :=
  let a := Z.to_nat addr in
  set_memory (take a (memory g) ++ bytes ++ drop (a + length bytes) (memory g)) g.
Fixpoint le4 (n : nat) (v : Z) : list ascii :=
  match n with O => [] | S n' => char_of (v mod 256) :: le4 n' (v / 256) end.
Definition write_le_i32 (addr v : Z) (g : Guest) : Guest :=
  store (wrap32 addr) (le4 4 (wrap32 v)) g.

Definition write_cells (out_ptr_cell out_len_cell : Z) (body : list ascii) (g : Guest) : Guest :=
  let '(dst, g1) := bump_alloc (Z.of_nat (length body)) g in
  if dst =? 0 then write_le_i32 out_len_cell 0 (write_le_i32 out_ptr_cell 0 g1)
  else
    let g2 := store dst body g1 in
    let g3 := write_le_i32 out_ptr_cell (as_i32 dst) g2 in
    write_le_i32 out_len_cell (as_i32 (Z.of_nat (length body))) g3.

(** [slice::from_raw_parts]. *)
Definition load (addr n : Z) (g : Guest) : string :=
  String.string_of_list_ascii
    (take (Z.to_nat (wrap32 n)) (drop (Z.to_nat (wrap32 addr)) (memory g))).

(** The exported [run].  The strings it builds on the way are allocated in the
    region of the global allocator, which is not represented. *)
Definition guest_run (csv_ptr csv_len args_ptr args_len out_ptr_cell out_len_cell : Z)
    (g : Guest) : Z * Guest :=
  let csv := load csv_ptr csv_len g in
  let args := load args_ptr args_len g in
  let '(code, body) := run_outcome csv args in
  (code, write_cells out_ptr_cell out_len_cell (String.list_ascii_of_string body) g).
