(* ===== verification/MeanFacts.v ===== *)
(** * The example DRT: correctness

    The fused byte scanner computes what splitting the text into lines and
    cells computes; every row is counted or skipped; integers survive printing
    and parsing; allocations of one allocator are disjoint, those of the two
    allocators need not be. *)
From Stdlib Require Import SpecFloat.
From S2P Require Import Prelude.
From S2P Require Import RustStr.
From S2P Require Import RustFmt.
From S2P Require Import DataValidation.
From S2P Require Import DataValidationFacts.
From S2P Require Import Mean.

Local Open Scope Z_scope.
#[local] Arguments String.append : simpl nomatch.

(** ** Reference definitions *)

Fixpoint drop_crs (s : string) : string :=
  match s with
  | String c s' => if bool_decide (c = cr) then drop_crs s' else s
  | EmptyString => EmptyString
  end.
(** The rows: the lines of the text, without carriage returns around them, that
    are not empty. *)
Definition nonempty (s : string) : bool := negb (bool_decide (s = "")).
Definition ref_rows (body : string) : list string :=
  List.filter nonempty ((λ l, strip_last cr (drop_crs l)) <$> split_all lf body).
Definition ref_field (row : string) (n : nat) : option string := split_all "," row !! n.
Definition ref_column (header column : string) : option nat :=
  fst <$> list_find (λ c, trim_ascii c = column) (split_all "," header).
(** A cell that counts: present, not blank, a number. *)
Definition ref_value (col : nat) (row : string) : option f64 :=
  field ← ref_field row col;
  if bool_decide (trim_ascii field = "") then None else parse_f64_bytes (trim_ascii field).
Definition ref_mean (csv column : string) : result string MeanStats :=
  if bool_decide (csv = "") then Err "empty CSV"
  else
    let '(header, body) := split_first_line csv in
    match ref_column header column with
    | None =>
        Err ("column '" +:+ (if utf8_valid column then column else "") +:+ "' not in header")
    | Some col =>
        let rows := ref_rows body in
        let values := filter_map (ref_value col) rows in
        let n := Z.of_nat (length values) in
        if n =? 0 then Err "no numeric values in column"
        else Ok (mkMean n (Z.of_nat (length rows) - n)
                   (f64_div (foldl f64_add f64_zero values) (f64_of_Z n)))
    end.

(** ** Cells *)

Lemma split_all_cons (c a : ascii) (s : string) :
  ∃ x rest, split_all c s = x :: rest ∧
    split_all c (String a s) = if bool_decide (a = c) then EmptyString :: x :: rest
                               else String a x :: rest.
Proof.
  pose proof (split_all_not_nil c s). simpl. destruct (split_all c s) as [|x rest]; [done|].
  exists x, rest. by case_bool_decide.
Qed.
(** The pieces of a text whose beginning [cell] was already read. *)
Definition with_cell (cell : string) (l : list string) : list string :=
  match l with x :: rest => (cell +:+ x) :: rest | [] => [] end.
Lemma with_cell_char c cell a s :
  a ≠ c → with_cell (cell +:+ str1 a) (split_all c s) = with_cell cell (split_all c (String a s)).
Proof.
  intros Ha. destruct (split_all_cons c a s) as (x & rest & -> & ->).
  rewrite bool_decide_eq_false_2 by done. simpl. unfold str1. by rewrite append_assoc.
Qed.
Lemma with_cell_sep c cell s :
  with_cell cell (split_all c (String c s)) = cell :: with_cell EmptyString (split_all c s).
Proof.
  destruct (split_all_cons c c s) as (x & rest & -> & ->).
  rewrite bool_decide_eq_true_2 by done. simpl. by rewrite append_nil_r.
Qed.
Lemma with_cell_empty c cell : with_cell cell (split_all c EmptyString) = [cell].
Proof. simpl. by rewrite append_nil_r. Qed.
Lemma with_cell_nil c s : with_cell EmptyString (split_all c s) = split_all c s.
Proof. by destruct (split_all c s). Qed.

Lemma field_loop_spec n cell idx s :
  (idx ≤ n)%nat → field_loop n cell idx s = with_cell cell (split_all "," s) !! (n - idx)%nat.
Proof.
  revert cell idx. induction s as [|c s IH]; intros cell idx Hle; cbn [field_loop].
  - rewrite with_cell_empty. case_bool_decide as Hi.
    + subst. by rewrite Nat.sub_diag.
    + replace (n - idx)%nat with (S (n - idx - 1)) by lia. done.
  - case_bool_decide as Hc.
    + subst c. rewrite with_cell_sep. case_bool_decide as Hi.
      * subst. by rewrite Nat.sub_diag.
      * rewrite IH by lia. by replace (n - idx)%nat with (S (n - S idx)) by lia.
    + rewrite IH by done. by rewrite with_cell_char.
Qed.
Lemma field_at_spec row n : field_at row n = ref_field row n.
Proof. unfold field_at, ref_field. rewrite field_loop_spec by lia. by rewrite with_cell_nil, Nat.sub_0_r. Qed.

Lemma header_loop_spec column cell idx s :
  header_loop column cell idx s =
  (λ p, (idx + p.1)%nat) <$> list_find (λ c, trim_ascii c = column) (with_cell cell (split_all "," s)).
Proof.
  revert cell idx. induction s as [|c s IH]; intros cell idx; cbn [header_loop].
  - rewrite with_cell_empty. simpl. case_bool_decide; case_decide; simpl; try done.
    by rewrite Nat.add_0_r.
  - destruct (decide (c = ","%char)) as [->|Hc].
    + rewrite bool_decide_eq_true_2 by done. rewrite with_cell_sep. simpl.
      case_bool_decide; case_decide; try done; simpl; [by rewrite Nat.add_0_r|].
      rewrite IH. destruct (list_find _ _) as [[i x]|]; simpl; [f_equal; lia|done].
    + rewrite bool_decide_eq_false_2 by done. by rewrite IH, with_cell_char.
Qed.
Lemma header_column_spec header column :
  header_column_index header column = ref_column header column.
Proof.
  unfold header_column_index, ref_column. rewrite header_loop_spec, with_cell_nil.
  by destruct (list_find _ _) as [[i x]|].
Qed.

(** ** Rows *)

Definition rows_of (ls : list string) : list string :=
  List.filter nonempty ((λ l, strip_last cr (drop_crs l)) <$> ls).
(** The rows of a text in the middle of a row. *)
Definition rows_in (r : string) (ls : list string) : list string :=
  match ls with
  | l :: rest => List.filter nonempty [strip_last cr (r +:+ l)] ++ rows_of rest
  | [] => []
  end.

Lemma drop_crs_char c l : c ≠ cr → drop_crs (String c l) = String c l.
Proof. intros Hc. cbn [drop_crs]. by rewrite bool_decide_eq_false_2. Qed.

Lemma mean_loop_spec col s :
  (∀ a, mean_loop col a None s = foldl (mean_row col) a (rows_of (split_all lf s))) ∧
  (∀ a r, mean_loop col a (Some r) s = foldl (mean_row col) a (rows_in r (split_all lf s))).
Proof.
  induction s as [|c s [IHn IHs]]; (split; [intros a|intros a r]).
  - done.
  - simpl. rewrite append_nil_r. unfold nonempty. by case_bool_decide.
  - cbn [mean_loop]. destruct (split_all_cons lf c s) as (x & rest & Hx & ->). rewrite Hx in *.
    destruct (decide (c = lf)) as [->|Hlf].
    + rewrite orb_true_r, bool_decide_eq_true_2 by done. by rewrite IHn.
    + rewrite (bool_decide_eq_false_2 (c = lf)) by done. rewrite orb_false_r.
      case_bool_decide as Hcr.
      * subst c. rewrite IHn. unfold rows_of. rewrite !fmap_cons. simpl.
        done.
      * rewrite IHs. unfold rows_in, rows_of. rewrite fmap_cons, drop_crs_char by done.
        change (str1 c +:+ x) with (String c x). cbn [List.filter].
        by destruct (nonempty _).
  - cbn [mean_loop]. destruct (split_all_cons lf c s) as (x & rest & Hx & ->). rewrite Hx in *.
    case_bool_decide as Hlf.
    + rewrite IHn. unfold rows_in. rewrite append_nil_r. simpl. unfold nonempty at 1.
      by case_bool_decide.
    + rewrite IHs. unfold rows_in, str1. by rewrite append_assoc.
Qed.

(** Folding the row loop over the rows separates values from skips. *)
Lemma mean_row_value col a row :
  mean_row col a row =
  match ref_value col row with
  | Some v => mkAcc (f64_add (acc_sum a) v) (acc_count a + 1) (acc_skipped a)
  | None => mkAcc (acc_sum a) (acc_count a) (acc_skipped a + 1)
  end.
Proof.
  unfold mean_row, ref_value. rewrite field_at_spec.
  destruct (ref_field row col) as [f|]; simpl; [|done]. case_bool_decide; [done|].
  by destruct (parse_f64_bytes _).
Qed.
Lemma mean_fold col rows a :
  foldl (mean_row col) a rows =
  let values := filter_map (ref_value col) rows in
  mkAcc (foldl f64_add (acc_sum a) values) (acc_count a + Z.of_nat (length values))
    (acc_skipped a + (Z.of_nat (length rows) - Z.of_nat (length values))).
Proof.
  revert a. induction rows as [|row rows IH]; intros a; simpl.
  { destruct a; simpl. f_equal; lia. }
  rewrite IH, mean_row_value. destruct (ref_value col row); simpl; f_equal; lia.
Qed.

(** C32: the fused scanner is the line-and-cell computation.  For every CSV
    text and column name, [compute_mean] returns what the reference returns:
    the same errors, and otherwise the number of non-empty rows whose cell of
    that column is a number, the number of the other non-empty rows, and the
    IEEE sum of the values in row order divided by their number. *)
Theorem compute_mean_is_reference (csv column : string) :
  compute_mean csv column = ref_mean csv column.
Proof.
  unfold compute_mean, ref_mean. case_bool_decide; [done|].
  destruct (split_first_line csv) as [header body]. rewrite header_column_spec.
  destruct (ref_column header column) as [col|]; [|done].
  rewrite (proj1 (mean_loop_spec col body)), mean_fold. cbv zeta. simpl acc_sum.
  unfold acc_count, acc_skipped. fold (ref_rows body). rewrite !Z.add_0_l. done.
Qed.

(** ** Integers *)

Lemma digits_value_app a b acc : digits_value (a +:+ b) acc = digits_value b (digits_value a acc).
Proof. revert acc. induction a as [|c a IH]; intros acc; simpl; [done|]. apply IH. Qed.
Lemma digit_char_spec d :
  0 ≤ d < 10 → is_ascii_digit (digit_char d) = true ∧ byte (digit_char d) - 48 = d.
Proof.
  intros Hd. unfold is_ascii_digit, in_range, digit_char.
  rewrite byte_char_of by lia. rewrite andb_true_iff, !Z.leb_le. lia.
Qed.

Lemma u64_digits_spec fuel n buf :
  0 ≤ n < 10 ^ Z.of_nat fuel →
  ∃ ds, u64_digits fuel n buf = ds +:+ buf ∧ all_digits ds = true ∧
    digits_value ds 0 = n ∧ (0 < n → ds ≠ "").
Proof.
  revert n buf. induction fuel as [|fuel IH]; intros n buf Hn.
  { exists "". simpl in *. split_and!; [done..|lia|lia]. }
  cbn [u64_digits]. destruct (Z.ltb_spec 0 n) as [Hpos|Hz]; [|exists ""; split_and!; [done..|simpl; lia|lia]].
  rewrite Nat2Z.inj_succ, Z.pow_succ_r in Hn by lia.
  destruct (IH (n / 10) (String (digit_char (n mod 10)) buf)) as (ds & -> & Hd & Hv & _).
  { split; [apply Z.div_pos; lia|]. apply Z.div_lt_upper_bound; lia. }
  destruct (digit_char_spec (n mod 10)) as [Hdig Hval]; [apply Z.mod_pos_bound; lia|].
  exists (ds +:+ str1 (digit_char (n mod 10))). split_and!.
  - unfold str1. by rewrite append_assoc.
  - rewrite all_digits_app, Hd. unfold all_digits, str1. simpl. by rewrite Hdig.
  - rewrite digits_value_app, Hv. simpl. rewrite Hval. pose proof (Z.div_mod n 10). lia.
  - intros _ He. by destruct ds.
Qed.
Lemma push_u64_spec n :
  is_u64 n →
  ∃ ds, push_u64 "" n = ds ∧ all_digits ds = true ∧ digits_value ds 0 = n ∧ ds ≠ "".
Proof.
  intros Hn. unfold push_u64. destruct (Z.eqb_spec n 0) as [->|Hne]; [by eexists|].
  unfold is_u64, U64_MAX in Hn.
  destruct (u64_digits_spec 20 n EmptyString) as (ds & Hs & Hd & Hv & Hz).
  { change (10 ^ Z.of_nat 20) with 100000000000000000000. lia. }
  exists ds. rewrite Hs, append_nil_r. split_and!; [done..|]. apply Hz. lia.
Qed.

Lemma digits_value_ge s acc : 0 ≤ acc → all_digits s = true → acc ≤ digits_value s acc.
Proof.
  revert acc. induction s as [|c s IH]; intros acc Ha; simpl; [done|].
  unfold all_digits. simpl. intros [Hc Hs]%andb_true_iff.
  unfold is_ascii_digit, in_range in Hc. apply andb_true_iff in Hc as [Hc _].
  apply Z.leb_le in Hc. specialize (IH (acc * 10 + (byte c - 48)) ltac:(lia) Hs). lia.
Qed.
Lemma take_digits_spec s acc k :
  0 ≤ acc → all_digits s = true → digits_value s acc ≤ U64_MAX →
  take_digits acc k s = (digits_value s acc, k + len s, EmptyString).
Proof.
  revert acc k. induction s as [|c s IH]; intros acc k Ha; simpl.
  { intros. unfold len. simpl. by rewrite Z.add_0_r. }
  unfold all_digits. simpl. intros [Hc Hs]%andb_true_iff Hv. rewrite Hc.
  unfold is_ascii_digit, in_range in Hc. apply andb_true_iff in Hc as [Hlo Hhi].
  apply Z.leb_le in Hlo, Hhi.
  pose proof (digits_value_ge s (acc * 10 + (byte c - 48)) ltac:(lia) Hs).
  rewrite !wrap64_small by (unfold is_u64; rewrite ?wrap64_small by (unfold is_u64; lia); lia).
  rewrite IH by (done || lia). f_equal. f_equal. unfold len. simpl. lia.
Qed.

(** Integers survive.  For every u64, the printer writes the decimal
    digits of that number, and the cell parser reads them back as the binary64
    value of that number. *)
Theorem printed_integer_parses (n : Z) (Hn : is_u64 n) :
  all_digits (push_u64 "" n) = true ∧ digits_value (push_u64 "" n) 0 = n ∧
  parse_f64_bytes (push_u64 "" n) = Some (f64_of_Z n).
Proof.
  destruct (push_u64_spec n Hn) as (ds & -> & Hd & Hv & Hne). split_and!; [done..|].
  destruct ds as [|c r]; [done|]. unfold parse_f64_bytes.
  assert (Hsign : is_sign c = false).
  { apply head_not_sign. left. unfold all_digits in Hd. simpl in Hd.
    by apply andb_true_iff in Hd as [? _]. }
  unfold is_sign in Hsign. apply orb_false_iff in Hsign as [-> ->].
  rewrite take_digits_spec by (done || (rewrite Hv; apply Hn)). rewrite Hv.
  assert (Hlen : (0 + len (String c r) =? 0) = false)
    by (apply Z.eqb_neq; unfold len; simpl; lia).
  rewrite Hlen. simpl. done.
Qed.
Lemma printed_integer_parses_witness :
  all_digits (push_u64 "" 1180) = true ∧ digits_value (push_u64 "" 1180) 0 = 1180 ∧
  parse_f64_bytes (push_u64 "" 1180) = Some (f64_of_Z 1180).
Proof. apply (printed_integer_parses 1180). by vm_compute. Defined.

(** ** Allocation *)

Definition align8 (x : Z) : Z := (x + 7) / 8 * 8.

Lemma land_align8 (x : Z) :
  0 ≤ x < 2 ^ 32 - 7 →
  Z.land (wrap32 (x + 8 - 1)) (wrap32 (Z.lnot (8 - 1))) = align8 x.
Proof.
  intros Hx. unfold wrap32. replace (x + 8 - 1) with (x + 7) by lia.
  rewrite (Z.mod_small (x + 7)) by lia.
  replace (Z.lnot (8 - 1) mod 2 ^ 32) with (Z.ldiff (Z.ones 32) (Z.ones 3)) by reflexivity.
  rewrite Z.ldiff_land, Z.land_assoc, Z.land_ones, <-Z.ldiff_land by lia.
  rewrite Z.mod_small by lia. rewrite Z.ldiff_ones_r by lia.
  rewrite Z.shiftl_mul_pow2, Z.shiftr_div_pow2 by lia. done.
Qed.
Lemma align8_bounds x : x ≤ align8 x < x + 8.
Proof.
  unfold align8. pose proof (Z.div_mod (x + 7) 8 ltac:(lia)).
  pose proof (Z.mod_pos_bound (x + 7) 8 ltac:(lia)). lia.
Qed.
Lemma align8_mod x : align8 x mod 8 = 0.
Proof. unfold align8. apply Z.mod_mul. lia. Qed.

(** A memory of at most 2 GiB, so that no 32-bit sum wraps. *)
Definition guest_ok (g : Guest) : Prop :=
  0 < heap_base g ∧ 0 ≤ max_pages g ≤ 2 ^ 15 ∧ mem_bytes g ≤ max_pages g * PAGE_SIZE ∧
  heap_base g ≤ mem_bytes g ∧
  (pub_off g = 0 ∨ heap_base g ≤ pub_off g ≤ mem_bytes g).
Definition next_free (g : Guest) : Z := if pub_off g =? 0 then heap_base g else pub_off g.

Lemma mem_bytes_grow pages g g' :
  0 ≤ pages → memory_grow pages g = Some g' →
  mem_bytes g' = mem_bytes g + pages * PAGE_SIZE ∧
  mem_bytes g' ≤ max_pages g * PAGE_SIZE ∧
  heap_base g' = heap_base g ∧ max_pages g' = max_pages g ∧
  pub_off g' = pub_off g ∧ glob_off g' = glob_off g.
Proof.
  intros Hp. unfold memory_grow.
  destruct (Z.leb_spec (mem_bytes g + pages * PAGE_SIZE) (max_pages g * PAGE_SIZE)); [|done].
  intros [= <-]. unfold mem_bytes in *. simpl. rewrite length_app, length_replicate.
  assert (0 ≤ pages * PAGE_SIZE) by (unfold PAGE_SIZE; lia). split_and!; [lia|lia|done..].
Qed.

(** A bump step: the block starts at the aligned cursor and the memory covers
    it; the step fails only if the memory cannot grow to cover it. *)
Lemma bump_spec cur size g :
  0 ≤ cur ≤ 2 ^ 31 → 0 ≤ size ≤ 2 ^ 31 - 8 → 0 ≤ max_pages g →
  match bump cur 8 size g with
  | Some (p, next, g') =>
      p = align8 cur ∧ next = p + size ∧ next ≤ mem_bytes g' ∧ mem_bytes g ≤ mem_bytes g' ∧
      (mem_bytes g ≤ max_pages g * PAGE_SIZE → mem_bytes g' ≤ max_pages g * PAGE_SIZE) ∧
      heap_base g' = heap_base g ∧ max_pages g' = max_pages g ∧
      pub_off g' = pub_off g ∧ glob_off g' = glob_off g
  | None => max_pages g * PAGE_SIZE < align8 cur + size + PAGE_SIZE
  end.
Proof.
  intros Hcur Hsize Hmax. unfold bump. rewrite land_align8 by lia.
  pose proof (align8_bounds cur). unfold wrap32. rewrite (Z.mod_small (align8 cur + size)) by lia.
  destruct (Z.ltb_spec (mem_bytes g) (align8 cur + size)) as [Hlt|Hge].
  - set (needed := align8 cur + size - mem_bytes g).
    set (pages := (needed + PAGE_SIZE - 1) / PAGE_SIZE).
    assert (Hpages : needed ≤ pages * PAGE_SIZE < needed + PAGE_SIZE).
    { unfold pages, PAGE_SIZE.
      pose proof (Z.div_mod (needed + 64 * 1024 - 1) (64 * 1024) ltac:(lia)).
      pose proof (Z.mod_pos_bound (needed + 64 * 1024 - 1) (64 * 1024) ltac:(lia)). lia. }
    assert (Hn0 : 0 < needed) by (unfold needed; lia).
    assert (Hp0 : 0 ≤ pages) by (apply Z.div_pos; unfold PAGE_SIZE; lia).
    destruct (memory_grow pages g) as [g'|] eqn:Hg.
    + destruct (mem_bytes_grow pages g g' Hp0 Hg) as (Hm & Hmx & ? & ? & ? & ?).
      unfold needed in *. split_and!; try done; lia.
    + unfold memory_grow in Hg.
      destruct (Z.leb_spec (mem_bytes g + pages * PAGE_SIZE) (max_pages g * PAGE_SIZE)); [done|].
      unfold needed in *. lia.
  - split_and!; try done; lia.
Qed.

Lemma bump_alloc_spec size g :
  guest_ok g → 0 ≤ size ≤ 2 ^ 31 - 8 →
  let '(p, g') := bump_alloc size g in
  (p = 0 ∧ g' = g) ∨
  (p mod 8 = 0 ∧ next_free g ≤ p ∧ p + size = next_free g' ∧ p + size ≤ mem_bytes g' ∧
   guest_ok g' ∧ mem_bytes g ≤ mem_bytes g' ∧ 0 < p).
Proof.
  intros (Hh & Hmax & Hmem & Hhm & Hoff) Hsize. unfold bump_alloc. fold (next_free g).
  assert (Hcur : 0 < next_free g ≤ mem_bytes g).
  { unfold next_free. destruct (Z.eqb_spec (pub_off g) 0); lia. }
  assert (Hb : mem_bytes g ≤ 2 ^ 31) by (unfold PAGE_SIZE in Hmem; lia).
  pose proof (bump_spec (next_free g) size g ltac:(lia) Hsize ltac:(lia)) as Hbump.
  destruct (bump (next_free g) 8 size g) as [[[p next] g']|]; [|by left].
  destruct Hbump as (-> & -> & Hin & Hgrow & Hcap & Hhb & Hmp & Hpo & Hgo). right.
  pose proof (align8_bounds (next_free g)). split_and!.
  - apply align8_mod.
  - lia.
  - assert (Hpos : 0 < align8 (next_free g) + size) by lia.
    generalize dependent (align8 (next_free g) + size). intros n Hn1 Hn2.
    unfold next_free. simpl. destruct (Z.eqb_spec n 0); lia.
  - done.
  - unfold guest_ok, mem_bytes in *. simpl. split_and!; try lia.
    right. unfold next_free in *. destruct (Z.eqb_spec (pub_off g) 0); lia.
  - done.
  - lia.
Qed.

(** The blocks handed out by a sequence of allocations, with the failures
    left out. *)
Fixpoint alloc_blocks (sizes : list Z) (g : Guest) : list (Z * Z) * Guest :=
  match sizes with
  | [] => ([], g)
  | s :: rest =>
      let '(p, g1) := bump_alloc s g in
      let '(bs, g2) := alloc_blocks rest g1 in
      ((if p =? 0 then bs else (p, s) :: bs), g2)
  end.

Lemma alloc_blocks_spec sizes g :
  guest_ok g → Forall (λ s, 0 ≤ s ≤ 2 ^ 31 - 8) sizes →
  let '(bs, g') := alloc_blocks sizes g in
  StronglySorted (λ a b, a.1 + a.2 ≤ b.1) bs ∧ mem_bytes g ≤ mem_bytes g' ∧
  Forall (λ b, next_free g ≤ b.1 ∧ b.1 mod 8 = 0 ∧ b.1 + b.2 ≤ mem_bytes g') bs.
Proof.
  intros Hg Hs. revert g Hg. induction Hs as [|s sizes Hsz _ IH]; intros g Hg; cbn [alloc_blocks].
  { split_and!; [constructor|lia|constructor]. }
  pose proof (bump_alloc_spec s g Hg Hsz) as Ha. destruct (bump_alloc s g) as [p g1].
  destruct Ha as [[-> ->]|(Hmod & Hle & Hnext & Hin & Hg1 & Hgrow & Hp)].
  { specialize (IH g Hg). by destruct (alloc_blocks sizes g) as [bs g']. }
  specialize (IH g1 Hg1). destruct (alloc_blocks sizes g1) as [bs g'].
  destruct IH as (Hsort & Hm & Hall). rewrite (proj2 (Z.eqb_neq p 0)) by lia. split_and!.
  - constructor; [done|]. eapply Forall_impl; [exact Hall|]. simpl. intros b (? & _ & _). lia.
  - lia.
  - constructor; [simpl; lia|]. eapply Forall_impl; [exact Hall|]. simpl. intros b (? & ? & ?).
    split_and!; [lia|done..].
Qed.

(** Allocated blocks are disjoint.  Any sequence of allocations by the
    exported allocator, in a memory of at most 2 GiB, yields 8-aligned blocks
    above the heap base, each ending before the next one begins and inside the
    linear memory at the end of the sequence. *)
Theorem allocations_disjoint (sizes : list Z) (g : Guest)
    (Hg : guest_ok g) (Hs : Forall (λ s, 0 ≤ s ≤ 2 ^ 31 - 8) sizes) :
  let '(bs, g') := alloc_blocks sizes g in
  StronglySorted (λ a b, a.1 + a.2 ≤ b.1) bs ∧
  Forall (λ b, heap_base g ≤ b.1 ∧ b.1 mod 8 = 0 ∧ b.1 + b.2 ≤ mem_bytes g') bs.
Proof.
  assert (Hgen := alloc_blocks_spec sizes g Hg Hs).
  destruct (alloc_blocks sizes g) as [bs g']. destruct Hgen as (Hsort & _ & Hall).
  split; [done|]. eapply Forall_impl; [exact Hall|]. intros b (Hn & ? & ?). split_and!; [|done..].
  destruct Hg as (Hh & _ & _ & _ & Hoff). unfold next_free in Hn.
  destruct (Z.eqb_spec (pub_off g) 0); lia.
Qed.
Definition guest0 : Guest := mkGuest 8 (replicate 64 (char_of 0)) 4 0 0.
Lemma guest0_ok : guest_ok guest0.
Proof. unfold guest_ok, mem_bytes, PAGE_SIZE. simpl. lia. Qed.
Lemma allocations_disjoint_witness :
  let '(bs, g') := alloc_blocks [10; 20] guest0 in
  StronglySorted (λ a b, a.1 + a.2 ≤ b.1) bs ∧
  Forall (λ b, heap_base guest0 ≤ b.1 ∧ b.1 mod 8 = 0 ∧ b.1 + b.2 ≤ mem_bytes g') bs.
Proof.
  apply (allocations_disjoint [10; 20] guest0 guest0_ok).
  repeat (apply Forall_cons_2; [lia|]). apply Forall_nil_2.
Defined.

(** The two allocators collide.  When the host allocates one block of
    more than 16 MiB in a fresh instance (as it does for a larger CSV), the
    first allocation of the guest's own global allocator lies inside that
    block. *)
Theorem global_allocator_overlaps (g : Guest) (size : Z)
    (Hg : guest_ok g) (Hpub : pub_off g = 0) (Hglob : glob_off g = 0)
    (Halign : heap_base g mod 8 = 0)
    (Hbig : GLOBAL_OFFSET_FROM_HEAP_BASE + 64 ≤ size < 2 ^ 30)
    (Hroom : heap_base g + size + 2 * PAGE_SIZE ≤ max_pages g * PAGE_SIZE) :
  let '(p, g1) := bump_alloc size g in
  let '(q, g2) := global_alloc 64 8 g1 in
  p = heap_base g ∧ q = heap_base g + GLOBAL_OFFSET_FROM_HEAP_BASE ∧ p ≤ q ∧ q + 64 ≤ p + size.
Proof.
  destruct Hg as (Hh & Hmax & Hmem & Hhm & Hoff).
  assert (Halign8 : ∀ x, x mod 8 = 0 → align8 x = x).
  { intros x Hx. unfold align8. pose proof (Z.div_mod x 8 ltac:(lia)).
    replace (x + 7) with (7 + x / 8 * 8) by lia. rewrite Z.div_add by lia. change (7 / 8) with 0. lia. }
  unfold bump_alloc. rewrite Hpub. simpl. unfold GLOBAL_OFFSET_FROM_HEAP_BASE, PAGE_SIZE in *.
  pose proof (bump_spec (heap_base g) size g ltac:(lia) ltac:(lia) ltac:(lia)) as Hb.
  rewrite Halign8 in Hb by done.
  destruct (bump (heap_base g) 8 size g) as [[[p next] g']|]; [|unfold PAGE_SIZE in Hb; lia].
  destruct Hb as (-> & -> & Hin & _ & _ & Hhb & Hmp & _ & Hgo).
  unfold global_alloc. simpl. rewrite Hgo, Hglob. simpl. rewrite Hhb.
  set (g1 := mkGuest _ _ _ _ _).
  pose proof (bump_spec (heap_base g + GLOBAL_OFFSET_FROM_HEAP_BASE) 64 g1) as Hb2.
  unfold GLOBAL_OFFSET_FROM_HEAP_BASE in *. simpl in Hb2. rewrite Hmp in Hb2.
  specialize (Hb2 ltac:(lia) ltac:(lia) ltac:(lia)).
  rewrite Halign8 in Hb2 by (rewrite Z.add_mod, Halign by lia; reflexivity).
  destruct (bump _ 8 64 g1) as [[[q next2] g2]|]; [|unfold PAGE_SIZE in Hb2; lia].
  destruct Hb2 as (-> & _). split_and!; lia.
Qed.
Lemma global_allocator_overlaps_witness :
  let g := mkGuest 8 (replicate 64 (char_of 0)) 1024 0 0 in
  let '(p, g1) := bump_alloc 20000000 g in
  let '(q, g2) := global_alloc 64 8 g1 in
  p = heap_base g ∧ q = heap_base g + GLOBAL_OFFSET_FROM_HEAP_BASE ∧ p ≤ q ∧ q + 64 ≤ p + 20000000.
Proof.
  apply (global_allocator_overlaps (mkGuest 8 (replicate 64 (char_of 0)) 1024 0 0) 20000000);
    try reflexivity; unfold guest_ok, mem_bytes, PAGE_SIZE, GLOBAL_OFFSET_FROM_HEAP_BASE;
    simpl; lia.
Defined.
