(* ===== verification/Http.v ===== *)
(** * The outgoing HTTP client

    src/src/http_client.rs.  [hyper], [rustls] and the network are the
    environment of a request: a [Net] says what a request to an URL gives.  The
    client adds its own error texts, the buffering of the body and the decoding
    helpers of [Response]. *)
From S2P Require Import Prelude.
From S2P Require Import RustStr.
From S2P Require Import RustFmt.
From S2P Require Import Interfaces.

Local Open Scope Z_scope.

(** ** [HttpClient] *)

Inductive Method := GET | POST.

(** What the network does with a request. *)
Inductive NetOutcome :=
| NetTimeout
| NetFailed (msg : string)
| NetReply (code : Z) (collected : result string string).

(** [hyper]: [url.parse::<Uri>()] and [Client::request]. *)
Record Net := mkNet {
  uri_parse : string → result string unit;
  request : Method → string → string → NetOutcome;
}.

Record Response := mkResponse { r_status : Z; r_body : string }.

(** [{url:?}]: the [Debug] text of a string.  Bytes outside ASCII stand for
    themselves (they never reach an accepted [Uri]). *)
Definition debug_char (c : ascii) : string :=
  let b := byte c in
  if b =? 34 then String "\"%char (String c EmptyString)
  else if b =? 92 then String "\"%char (String c EmptyString)
  else if b =? 0 then "\0"
  else if b =? 9 then "\t"
  else if b =? 10 then "\n"
  else if b =? 13 then "\r"
  else if (b <? 32) || (b =? 127) then
    "\u{" +:+ (if 16 <=? b then String (hex_char (b / 16)) EmptyString else "")
      +:+ String (hex_char (b mod 16)) EmptyString +:+ "}"
  else String c EmptyString.
Fixpoint debug_chars (s : string) : string :=
  match s with
  | EmptyString => EmptyString
  | String c s' => debug_char c +:+ debug_chars s'
  end.
Definition debug_str (s : string) : string :=
  String (char_of 34) (debug_chars s +:+ String (char_of 34) EmptyString).

(** The PEM reader ([rustls_pemfile::certs]) and the check of [RootCertStore::add]. *)
Record PemCrates := mkPem {
  pem_certs : string → list (result string string);
  root_add : string → result string unit;
}.

Module HttpClient.
(** The loop over the certificates; [roots] is what the store trusts beside the
    roots it starts with. *)
Fixpoint add_certs (pc : PemCrates) (certs : list (result string string)) (roots : list string) :
    result string (list string) :=
  match certs with
  | [] => Ok roots
  | cert :: rest =>
      c ← map_err (λ e, "invalid PEM: " +:+ e) cert;
      _ ← map_err (λ e, "failed to add CA certificate: " +:+ e) (root_add pc c);
      add_certs pc rest (roots ++ [c])
  end.
(** [HttpClient::with_extra_ca_pem]: the certificates trusted in addition. *)
Definition with_extra_ca_pem (pc : PemCrates) (pem : string) : result string (list string) :=
  roots ← add_certs pc (pem_certs pc pem) [];
  _ ← reject_if (bool_decide (roots = [])) "no certificates found in PEM input";
  Ok roots.

(** [HttpClient::send] with the timeout's [Debug] text. *)
Definition send (net : Net) (timeout : string) (m : Method) (url : string)
    (body : option string) : result string Response :=
  _ ← map_err (λ e, "invalid URL " +:+ debug_str url +:+ ": " +:+ e) (uri_parse net url);
  match request net m url (default "" body) with
  | NetTimeout => Err ("request timed out after " +:+ timeout)
  | NetFailed e => Err ("request failed: " +:+ e)
  | NetReply code collected =>
      bytes ← map_err (λ e, "read response body: " +:+ e) collected;
      Ok (mkResponse code bytes)
  end.

(** [HttpClient::get] and [HttpClient::post_json]. *)
Definition get (net : Net) (timeout url : string) : result string Response :=
  send net timeout GET url None.
Definition post_json {A} `{Serde A} (net : Net) (timeout url : string) (body : A) :
    result string Response :=
  bytes ← map_err (λ e, "serialize request body: " +:+ e) (to_vec body);
  send net timeout POST url (Some bytes).

End HttpClient.

(** [StatusCode::is_success]. *)
Definition is_success (r : Response) : bool := (200 <=? r_status r) && (r_status r <? 300).
Definition into_text (r : Response) (utf8_error : string) : result string string :=
  if utf8_valid (r_body r) then Ok (r_body r) else Err ("response not valid UTF-8: " +:+ utf8_error).
Definition into_bytes (r : Response) : string := r_body r.
Definition into_json {A} `{Serde A} (r : Response) : result string A :=
  map_err (λ e, "parse JSON response: " +:+ e) (from_slice (r_body r)).

(** ** Facts *)

Lemma add_certs_ok pc certs roots out :
  HttpClient.add_certs pc certs roots = Ok out →
  ∃ added, out = roots ++ added ∧ certs = Ok <$> added ∧ Forall (λ c, root_add pc c = Ok ()) added.
Proof.
  revert roots. induction certs as [|cert certs IH]; intros roots Ho; simpl in Ho.
  - injection Ho as <-. exists []. by rewrite app_nil_r.
  - apply result_bind_ok in Ho as (c & ->%map_err_ok & Ho).
    apply result_bind_ok in Ho as ([] & Hc%map_err_ok & Ho).
    apply IH in Ho as (added & -> & -> & Ha). exists (c :: added). rewrite <-app_assoc. eauto.
Qed.
(** The file is trusted as a whole: at least one certificate, all of them read
    and accepted, or none is trusted. *)
Lemma with_extra_ca_pem_ok pc pem roots :
  HttpClient.with_extra_ca_pem pc pem = Ok roots →
  roots ≠ [] ∧ pem_certs pc pem = Ok <$> roots ∧ Forall (λ c, root_add pc c = Ok ()) roots.
Proof.
  intros (r & Hr & Ho)%result_bind_ok. apply result_bind_ok in Ho as ([] & Hn%reject_if_ok & Ho).
  injection Ho as <-. apply bool_decide_eq_false in Hn.
  by apply add_certs_ok in Hr as (added & -> & Hc & Ha).
Qed.
