(* ===== verification/VerifiedFetch.v ===== *)
(** * Verified fetching of DRT scripts

    src/src/drt/verified_fetch.rs: an URL allow-list, a cache of scripts keyed
    by the hex text of their SHA-256, and the download.  SHA-256 and the [hex]
    crate are parameters; the filesystem is that of [Storage] and the network
    that of [Http]. *)
From S2P Require Import Prelude.
From S2P Require Import RustStr.
From S2P Require Import RustFmt.
From S2P Require Import Errors.
From S2P Require Import Storage.
From S2P Require Import Http.

Local Open Scope Z_scope.
#[local] Arguments String.append : simpl nomatch.

(** ** Third-party code *)

(** [sha2::Sha256::digest], [hex::encode] and [hex::decode]. *)
Class HashCrates := {
  sha256 : string → string;
  hex_of : string → string;
  hex_decode : string → result string string;
}.
(** A digest has 32 bytes; decoding succeeds on an even number of hex digits
    and halves the length; encoding writes two lower-case digits per byte and is
    undone by decoding. *)
Class HashCratesLaws `{HashCrates} := {
  sha256_len (s : string) : len (sha256 s) = 32;
  hex_decode_len (s b : string) : hex_decode s = Ok b → len s = 2 * len b;
  hex_decode_chars (s b : string) : hex_decode s = Ok b → no_char "/" s = true ∧ no_char "." s = true;
  hex_decode_of (b : string) : hex_decode (hex_of b) = Ok b;
  hex_of_lower (b : string) : hex_of b = hex_pairs b;
}.

(** ** Constants and errors *)

Definition MAX_SCRIPT_BYTES : Z := 16 * 1024 * 1024.
Definition FETCH_TIMEOUT : string := "20s".
Definition ALLOWED_HOST : string := "raw.githubusercontent.com".
Definition ALLOWED_OWNERS : list string := ["relational-network"].

(** [VerifiedFetchError]; [VfPanic] is not a constructor of the source: it is
    the panic of [copy_from_slice]. *)
Inductive VerifiedFetchError :=
| VfInvalidUrl (msg : string)
| VfFetch (msg : string)
| VfBadStatus (code : Z)
| VfTooLarge (size limit : Z)
| VfHashMismatch (expected actual : string)
| VfInvalidExpectedHash (msg : string)
| VfCache (msg : string)
| VfPanic.

Definition display_fetch (e : VerifiedFetchError) : string :=
  match e with
  | VfInvalidUrl msg => "invalid DRT script URL: " +:+ msg
  | VfFetch msg => "failed to fetch DRT script: " +:+ msg
  | VfBadStatus code => "DRT script fetch returned status " +:+ show_u64 code
  | VfTooLarge size limit =>
      "DRT script too large: " +:+ show_u64 size +:+ " bytes (limit " +:+ show_u64 limit +:+ ")"
  | VfHashMismatch expected actual =>
      "DRT script hash mismatch: expected " +:+ expected +:+ ", got " +:+ actual
  | VfInvalidExpectedHash msg => "invalid expected hash: " +:+ msg
  | VfCache msg => "DRT script cache error: " +:+ msg
  | VfPanic => ""
  end.
Definition api_of_fetch (e : VerifiedFetchError) : ApiError :=
  match e with
  | VfInvalidUrl _ | VfInvalidExpectedHash _ => Api.bad_request (display_fetch e)
  | VfHashMismatch _ _ => Api.bad_request (display_fetch e)
  | VfTooLarge _ _ => Api.bad_request (display_fetch e)
  | VfFetch _ | VfBadStatus _ => Api.internal ("DRT script unavailable: " +:+ display_fetch e)
  | VfCache _ => Api.internal "DRT script cache error"
  | VfPanic => Api.internal ""
  end.

(** ** Operations *)

Definition validate_url (url : string) : result VerifiedFetchError unit :=
  after_scheme ← ok_or (strip_prefix "https://" url) (VfInvalidUrl "must use https://");
  '(host, path) ← ok_or (split_once "/" after_scheme) (VfInvalidUrl "missing path");
  _ ← reject_if (negb (bool_decide (host = ALLOWED_HOST)))
        (VfInvalidUrl ("host must be " +:+ ALLOWED_HOST +:+ ", got " +:+ host));
  let owner := split_next "/" path in
  _ ← reject_if (bool_decide (owner = "")) (VfInvalidUrl "missing owner segment");
  reject_if (negb (bool_decide (owner ∈ ALLOWED_OWNERS)))
    (VfInvalidUrl ("owner '" +:+ owner +:+ "' not in DRT script allowlist")).

Section Fetch.
Context `{HashCrates}.

Definition decode_hash (hex_str : string) : result VerifiedFetchError string :=
  _ ← reject_if (negb (len hex_str =? 64))
        (VfInvalidExpectedHash ("expected 64 hex chars, got " +:+ show_u64 (len hex_str)));
  bytes ← map_err VfInvalidExpectedHash (hex_decode hex_str);
  (* out.copy_from_slice(&bytes) *)
  if len bytes =? 32 then Ok bytes else Err VfPanic.

Definition cache_path_for (root hash_hex : string) : string :=
  join (join root "drt-scripts") hash_hex.

(** The reads of [exists] and [read_raw] fail as [io1] and [io2] say. *)
Definition try_load_from_cache (io1 io2 : io_fault) (cache_path expected_hash : string)
    (s : Fs) : option string :=
  if negb (exists_path io1 cache_path s) then None
  else match (read_raw io2 cache_path s).1 with
       | Err _ => None
       | Ok bytes =>
           if bool_decide (sha256 bytes = expected_hash) then Some bytes else None
       end.

Definition store_in_cache (io : io_fault) (cache_path bytes : string) :
    act Fs VerifiedFetchError unit :=
  act_map_err (λ e, VfCache (display_storage e)) (write_raw io cache_path bytes).

Definition http_get (net : Net) (url : string) : result VerifiedFetchError string :=
  resp ← map_err VfFetch (HttpClient.get net FETCH_TIMEOUT url);
  _ ← reject_if (negb (is_success resp)) (VfBadStatus (r_status resp));
  let bytes := into_bytes resp in
  _ ← reject_if (MAX_SCRIPT_BYTES <? len bytes) (VfTooLarge (len bytes) MAX_SCRIPT_BYTES);
  Ok bytes.

(** The environment of one fetch: the faults of its three file operations and
    the network. *)
Record FetchEnv := mkFetchEnv {
  fe_exists : io_fault; fe_read : io_fault; fe_write : io_fault; fe_net : Net }.

Definition fetch_and_verify (fe : FetchEnv) (root url expected_hash_hex : string) :
    act Fs VerifiedFetchError string :=
  _ ← lift (validate_url url);
  expected_hash ← lift (decode_hash expected_hash_hex);
  let cache_path := cache_path_for root expected_hash_hex in
  cached ← reading (λ s,
    Ok (try_load_from_cache (fe_exists fe) (fe_read fe) cache_path expected_hash s));
  match cached with
  | Some bytes => mret bytes
  | None =>
      bytes ← lift (http_get (fe_net fe) url);
      let actual := sha256 bytes in
      _ ← lift (reject_if (negb (bool_decide (actual = expected_hash)))
                  (VfHashMismatch expected_hash_hex (hex_of actual)));
      _ ← store_in_cache (fe_write fe) cache_path bytes;
      mret bytes
  end.
End Fetch.
