(* ===== verification/FetchFacts.v ===== *)
(** * What a verified fetch guarantees

    Theorems about [VerifiedFetch]: a script that is returned has the expected
    digest and comes from an allowed address, whatever the cache held before;
    and the cache repairs itself and then serves without the network. *)
From S2P Require Import Prelude.
From S2P Require Import RustStr.
From S2P Require Import RustFmt.
From S2P Require Import Errors.
From S2P Require Import Storage.
From S2P Require Import Http.
From S2P Require Import VerifiedFetch.

Local Open Scope Z_scope.
#[local] Arguments String.append : simpl nomatch.

(** ** The allow-list *)

Definition allowed_prefix : string := "https://raw.githubusercontent.com/relational-network".

(** [url] is below the allowed owner of the allowed host. *)
Definition allowed (url : string) : Prop :=
  ∃ rest, url = allowed_prefix +:+ rest ∧ (rest = "" ∨ ∃ r, rest = String "/" r).

Lemma split_next_cases (c : ascii) (s : string) :
  no_char c (split_next c s) = true ∧
  ∃ rest, s = split_next c s +:+ rest ∧ (rest = "" ∨ ∃ r, rest = String c r).
Proof.
  unfold split_next. destruct (split_once c s) as [[a b]|] eqn:Hs.
  - apply split_once_some in Hs as [-> Ha]. split; [done|]. exists (String c b). eauto.
  - apply split_once_none in Hs. split; [done|]. exists "". rewrite append_nil_r. auto.
Qed.
Lemma split_next_app (c : ascii) (a rest : string) :
  no_char c a = true → (rest = "" ∨ ∃ r, rest = String c r) → split_next c (a +:+ rest) = a.
Proof.
  intros Ha [->|[r ->]]; unfold split_next.
  - rewrite append_nil_r. apply split_once_none in Ha. by rewrite Ha.
  - by rewrite split_once_app.
Qed.

Lemma validate_url_allowed (url : string) : validate_url url = Ok () ↔ allowed url.
Proof.
  unfold validate_url, allowed. split.
  - unfold mbind, result_bind, ok_or, reject_if. intros Hv.
    destruct (strip_prefix "https://" url) as [x|] eqn:Hx; [|done].
    apply strip_prefix_spec in Hx as ->.
    destruct (split_once "/" x) as [[host path]|] eqn:Hh; [|done].
    apply split_once_some in Hh as [-> _].
    case_bool_decide as Hhost; [|done]. subst host. simpl in Hv.
    case_bool_decide as Hne; [done|].
    case_bool_decide as Ho; [|done]. apply list_elem_of_singleton in Ho.
    destruct (split_next_cases "/" path) as (_ & rest & Hp & Hr).
    rewrite Ho in Hp. exists rest. by rewrite Hp.
  - intros (rest & -> & Hr).
    change (allowed_prefix +:+ rest) with
      ("https://" +:+ (ALLOWED_HOST +:+ String "/" ("relational-network" +:+ rest))).
    rewrite strip_prefix_app. unfold mbind, result_bind, ok_or, reject_if. rewrite (split_once_app "/") by done.
    rewrite (split_next_app "/" "relational-network" rest) by done.
    by rewrite bool_decide_true.
Qed.
Lemma validate_url_unit (url : string) (u : unit) : validate_url url = Ok u → allowed url.
Proof. destruct u. apply validate_url_allowed. Qed.

(** ** The cache *)

Section Facts.
Context `{HashCratesLaws}.

Lemma decode_hash_ok (h b : string) :
  decode_hash h = Ok b ↔ hex_decode h = Ok b ∧ len h = 64.
Proof.
  unfold decode_hash. unfold_act. destruct (Z.eqb_spec (len h) 64) as [Hl|Hl]; simpl.
  2:{ split; [done|naive_solver]. }
  destruct (hex_decode h) as [x|e] eqn:Hx; simpl; [|naive_solver].
  pose proof (hex_decode_len _ _ Hx). rewrite (proj2 (Z.eqb_eq (len x) 32)) by lia.
  naive_solver.
Qed.
Lemma decode_hash_no_panic (h : string) : decode_hash h ≠ Err VfPanic.
Proof.
  unfold decode_hash. unfold_act. destruct (Z.eqb_spec (len h) 64) as [Hl|Hl]; simpl; [|done].
  destruct (hex_decode h) as [x|e] eqn:Hx; simpl; [|done].
  pose proof (hex_decode_len _ _ Hx). by rewrite (proj2 (Z.eqb_eq (len x) 32)) by lia.
Qed.

(** The cache entry of a hash and its temporary file are different paths. *)
Lemma cache_tmp (root h b : string) :
  decode_hash h = Ok b → cache_path_for root h ≠ with_extension (cache_path_for root h) "tmp".
Proof.
  intros [Hd Hl]%decode_hash_ok. destruct (hex_decode_chars _ _ Hd) as [Hs Hp].
  assert (Hc : cache_path_for root h = join root "drt-scripts" +:+ String "/" h).
  { unfold cache_path_for. rewrite join_dir; [done..|].
    apply not_true_iff_false. intros [r ->]%starts_with_spec. done. }
  rewrite Hc. unfold with_extension, rsplit_next. rewrite rsplit_once_app by done.
  rewrite rsplit_once_none by done. intros He. apply (f_equal String.length) in He.
  rewrite !length_append in He. simpl in He. lia.
Qed.

Lemma load_from_cache (io1 io2 : io_fault) (p h bytes : string) (s : Fs) :
  try_load_from_cache io1 io2 p h s = Some bytes → files s !! p = Some bytes ∧ sha256 bytes = h.
Proof.
  unfold try_load_from_cache, read_raw, reading. intros Hl.
  destruct (exists_path io1 p s); [|done]. simpl in Hl.
  destruct io2; simpl in Hl; try done; unfold ok_or in Hl;
    destruct (files s !! p) as [x|]; try done;
    case_bool_decide; by simplify_eq.
Qed.
Lemma load_from_good_cache (p bytes : string) (s : Fs) :
  files s !! p = Some bytes →
  try_load_from_cache IoOk IoOk p (sha256 bytes) s = Some bytes.
Proof.
  intros Hp. unfold try_load_from_cache, read_raw, reading, exists_path, ok_or.
  rewrite Hp. rewrite bool_decide_true by eauto. simpl. by rewrite bool_decide_true.
Qed.

Lemma http_get_ok (net : Net) (url bytes : string) :
  http_get net url = Ok bytes →
  len bytes ≤ MAX_SCRIPT_BYTES ∧
  ∃ code, 200 ≤ code < 300 ∧ request net GET url "" = NetReply code (Ok bytes).
Proof.
  unfold http_get, HttpClient.get, HttpClient.send, is_success, into_bytes. unfold_act.
  intros Hg. destruct (uri_parse net url); [|done].
  destruct (request net GET url "") as [|m|code [body|e]] eqn:Hr; simpl in Hg; try done.
  destruct ((200 <=? code) && (code <? 300)) eqn:Hc; simpl in Hg; [|done].
  destruct (Z.ltb_spec MAX_SCRIPT_BYTES (len body)); simpl in Hg; [done|]. simplify_eq.
  split; [done|]. exists code. split; [lia|done].
Qed.
Lemma http_get_not_panic (net : Net) (url : string) : http_get net url ≠ Err VfPanic.
Proof.
  unfold http_get. unfold_act. destruct (HttpClient.get _ _ _) as [r|]; simpl; [|done].
  destruct (is_success r); simpl; [|done]. by destruct (MAX_SCRIPT_BYTES <? _).
Qed.
Lemma http_get_serves (net : Net) (url bytes : string) (code : Z) :
  uri_parse net url = Ok () → request net GET url "" = NetReply code (Ok bytes) →
  200 ≤ code < 300 → len bytes ≤ MAX_SCRIPT_BYTES → http_get net url = Ok bytes.
Proof.
  intros Hu Hr Hc Hl. unfold http_get, HttpClient.get, HttpClient.send. unfold_act.
  rewrite Hu. simpl. rewrite Hr. simpl. unfold is_success, into_bytes. simpl.
  rewrite (proj2 (andb_true_iff _ _)) by lia. simpl.
  by destruct (Z.ltb_spec MAX_SCRIPT_BYTES (len bytes)); [lia|].
Qed.
Lemma store_frame (io : io_fault) (path data p : string) (s : Fs) :
  p ≠ path → p ≠ with_extension path "tmp" →
  files (store_in_cache io path data s).2 !! p = files s !! p.
Proof.
  intros Hp Ht. change (store_in_cache io path data s).2 with (atomic_write io path data s).2.
  rewrite atomic_write_files by done. rewrite decide_False by done.
  by destruct (is_ok _).
Qed.

(** What one fetch does to the cache, by outcome. *)
Definition fetch_outcome (fe : FetchEnv) (root url h : string) (s s' : Fs)
    (r : result VerifiedFetchError string) : Prop :=
  let entry := cache_path_for root h in
  match r with
  | Ok bytes =>
      allowed url ∧ hex_decode h = Ok (sha256 bytes) ∧ files s' !! entry = Some bytes ∧
      (s' = s ∨ len bytes ≤ MAX_SCRIPT_BYTES ∧
        ∃ code, 200 ≤ code < 300 ∧ request (fe_net fe) GET url "" = NetReply code (Ok bytes))
  | Err e => e ≠ VfPanic ∧ files s' !! entry = files s !! entry
  end.

Lemma fetch_spec (fe : FetchEnv) (root url h : string) (s : Fs) :
  let '(r, s') := fetch_and_verify fe root url h s in
  fetch_outcome fe root url h s s' r ∧
  ∀ p, p ≠ cache_path_for root h → p ≠ with_extension (cache_path_for root h) "tmp" →
    files s' !! p = files s !! p.
Proof.
  unfold fetch_and_verify. rewrite act_bind_eq. unfold lift at 1.
  destruct (validate_url url) as [[]|e] eqn:Hu; simpl.
  2:{ split; [|done]. split; [|done]. intros ->. revert Hu. unfold validate_url. unfold_act.
      by repeat (case_match; simplify_eq/=; try done). }
  apply validate_url_allowed in Hu. rewrite act_bind_eq. unfold lift at 1.
  destruct (decode_hash h) as [b|e] eqn:Hd; simpl.
  2:{ split; [|done]. split; [|done]. intros ->. by apply (decode_hash_no_panic h). }
  pose proof (cache_tmp root h b Hd) as Htmp.
  apply decode_hash_ok in Hd as [Hd _]. rewrite act_bind_eq. simpl.
  destruct (try_load_from_cache _ _ _ _ s) as [bytes|] eqn:Hl; simpl.
  - apply load_from_cache in Hl as [Hf <-]. split; [|done]. repeat split; auto.
  - rewrite act_bind_eq. unfold lift at 1.
    destruct (http_get (fe_net fe) url) as [bytes|e] eqn:Hg; simpl.
    2:{ split; [|done]. split; [|done]. intros ->. by apply (http_get_not_panic (fe_net fe) url). }
    rewrite act_bind_eq. unfold lift, reject_if. case_bool_decide as Hb; simpl; [|done].
    subst b. pose proof (λ p, store_frame (fe_write fe) (cache_path_for root h) bytes p s) as Hfr.
    pose proof (atomic_write_files (fe_write fe) (cache_path_for root h) bytes s _ Htmp) as Hw.
    rewrite act_bind_eq. revert Hfr. unfold store_in_cache, act_map_err, write_raw.
    destruct (atomic_write (fe_write fe) _ bytes s) as [[[]|e] s'] eqn:Ha; simpl in *;
      intros Hfr; (split; [|done]).
    + rewrite decide_True in Hw by done. apply http_get_ok in Hg. repeat split; auto.
    + done.
Qed.
Lemma fetch_bad_hash (fe : FetchEnv) (root url h : string) (s : Fs) e :
  decode_hash h = Err e → (fetch_and_verify fe root url h s).2 = s.
Proof.
  intros Hd. unfold fetch_and_verify. rewrite act_bind_lift. destruct (validate_url url); [|done].
  rewrite act_bind_lift. by rewrite Hd.
Qed.

(** C19: only authentic scripts are returned.  Whatever the cache held, the
    network answers and the file operations do, a fetch that succeeds returns
    bytes whose SHA-256 is the decoded expected hash, for an URL below the
    allowed owner on the allowed host; the bytes are in the cache entry
    afterwards and were either there before or downloaded from that URL with a
    2xx status and at most 16 MiB.  A fetch that fails keeps the entry and does
    not panic.  No file but the entry and its temporary file is touched. *)
Theorem fetched_script_is_authentic (fe : FetchEnv) (root url h : string) (s : Fs) :
  let '(r, s') := fetch_and_verify fe root url h s in
  fetch_outcome fe root url h s s' r ∧
  ∀ p, p ≠ cache_path_for root h → p ≠ with_extension (cache_path_for root h) "tmp" →
    files s' !! p = files s !! p.
Proof. exact (fetch_spec fe root url h s). Qed.

(** C34: the cache repairs itself and then needs no network.  For an allowed URL
    that serves a script of at most 16 MiB with the expected digest, and file
    operations that work, a fetch succeeds whatever the cache entry held before;
    from then on a fetch of that hash from any allowed URL returns the same
    bytes with any network, and changes nothing. *)
Theorem fetch_heals_and_serves (net net' : Net) (root url url' h script : string) (code : Z)
    (s : Fs) :
  allowed url → allowed url' → uri_parse net url = Ok () → 200 ≤ code < 300 →
  request net GET url "" = NetReply code (Ok script) → len script ≤ MAX_SCRIPT_BYTES →
  hex_decode h = Ok (sha256 script) →
  ∃ bytes s', fetch_and_verify (mkFetchEnv IoOk IoOk IoOk net) root url h s = (Ok bytes, s') ∧
    sha256 bytes = sha256 script ∧
    fetch_and_verify (mkFetchEnv IoOk IoOk IoOk net') root url' h s' = (Ok bytes, s').
Proof.
  intros Hu Hu' Hp Hc Hr Hl Hd.
  assert (Hdec : decode_hash h = Ok (sha256 script)).
  { apply decode_hash_ok. split; [done|]. rewrite (hex_decode_len _ _ Hd), sha256_len. done. }
  pose proof (cache_tmp root h _ Hdec) as Htmp.
  apply validate_url_allowed in Hu, Hu'.
  assert (Hserve : ∀ bytes t, files t !! cache_path_for root h = Some bytes →
    sha256 bytes = sha256 script →
    fetch_and_verify (mkFetchEnv IoOk IoOk IoOk net') root url' h t = (Ok bytes, t)).
  { intros bytes t Hf Hs. unfold fetch_and_verify. rewrite act_bind_eq. unfold lift at 1.
    rewrite Hu', act_bind_eq. unfold lift at 1. rewrite Hdec, act_bind_eq. simpl.
    by rewrite <-Hs, load_from_good_cache. }
  assert (Hfirst : ∃ bytes s', fetch_and_verify (mkFetchEnv IoOk IoOk IoOk net) root url h s
    = (Ok bytes, s') ∧ files s' !! cache_path_for root h = Some bytes ∧
    sha256 bytes = sha256 script).
  { unfold fetch_and_verify. rewrite act_bind_eq. unfold lift at 1.
    rewrite Hu, act_bind_eq. unfold lift at 1. rewrite Hdec, act_bind_eq. simpl.
    destruct (try_load_from_cache _ _ _ _ s) as [bytes|] eqn:Hlc.
    - apply load_from_cache in Hlc as [Hf Hs]. by exists bytes, s.
    - rewrite act_bind_eq. unfold lift at 1. rewrite (http_get_serves net url script code) by done.
      rewrite act_bind_eq. unfold lift, reject_if. rewrite bool_decide_true by done. simpl.
      exists script. eexists. split; [done|]. split; [|done]. simpl. by rewrite lookup_insert_eq. }
  destruct Hfirst as (bytes & s' & H1 & Hf & Hs). exists bytes, s'. auto.
Qed.
End Facts.

(** ** An implementation of the hash crates, for the examples *)

Fixpoint fit (n : nat) (s : string) : string :=
  match n with
  | O => EmptyString
  | S m => match s with
           | EmptyString => String (char_of 0) (fit m EmptyString)
           | String c r => String c (fit m r)
           end
  end.
Fixpoint unhex (s : string) : option string :=
  match s with
  | EmptyString => Some EmptyString
  | String a (String b r) =>
      match hex_val a, hex_val b, unhex r with
      | Some x, Some y, Some t => Some (String (char_of (16 * x + y)) t)
      | _, _, _ => None
      end
  | _ => None
  end.
#[export] Instance hash0 : HashCrates := {
  sha256 := fit 32;
  hex_of := hex_pairs;
  hex_decode s := ok_or (unhex s) "Invalid character";
}.
Lemma fit_len n s : String.length (fit n s) = n.
Proof. revert s. induction n as [|n IH]; intros [|c s]; simpl; f_equal; auto. Qed.
Lemma unhex_facts s b :
  unhex s = Some b →
  len s = 2 * len b ∧ no_char "/" s = true ∧ no_char "." s = true.
Proof.
  revert b. induction s as [s IH] using (induction_ltof1 _ String.length). intros t Hu.
  destruct s as [|x [|y r]]; simpl in Hu; [by simplify_eq|done|].
  destruct (hex_val x) eqn:Hx; [|done]. destruct (hex_val y) eqn:Hy; [|done].
  destruct (unhex r) as [b|] eqn:Hr; [|done]. simplify_eq.
  apply IH in Hr as (Hl & Hs & Hd); [|unfold ltof; simpl; lia].
  assert (Hh : ∀ c w, hex_val c = Some w → c ≠ "/"%char ∧ c ≠ "."%char) by (by intros c w Hc; split; intros ->).
  destruct (Hh _ _ Hx), (Hh _ _ Hy). unfold len in *. simpl.
  rewrite Hs, Hd, !bool_decide_false by done. split; [lia|done].
Qed.
Lemma unhex_hex_pairs s : unhex (hex_pairs s) = Some s.
Proof.
  induction s as [|c s IH]; [done|]. simpl. rewrite IH.
  destruct c as [[] [] [] [] [] [] [] []]; done.
Qed.
#[export] Instance hash0_laws : HashCratesLaws.
Proof.
  split; simpl; unfold ok_or.
  - intros s. unfold len. change (Z.of_nat (String.length (fit 32 s)) = 32). by rewrite fit_len.
  - intros s b Hs. destruct (unhex s) eqn:Hu; simplify_eq. by apply unhex_facts in Hu as [? _].
  - intros s b Hs. destruct (unhex s) eqn:Hu; simplify_eq. by apply unhex_facts in Hu as [_ ?].
  - intros b. by rewrite unhex_hex_pairs.
  - done.
Qed.

Definition url0 : string := allowed_prefix +:+ "/drt-scripts/main/mean.wasm".
Definition net0 : Net := mkNet (λ _, Ok ()) (λ _ _ _, NetReply 200 (Ok "wasm")).
Definition net_down : Net := mkNet (λ _, Ok ()) (λ _ _ _, NetTimeout).
(** A cache whose entry was overwritten by someone else. *)
Definition fs_poisoned : Fs :=
  mkFs {[cache_path_for "/data" (hex_of (sha256 "wasm")) := "evil"]} ∅.

Lemma fetched_script_is_authentic_witness :
  fetch_outcome (mkFetchEnv IoOk IoOk IoOk net0) "/data" url0 (hex_of (sha256 "wasm")) fs_poisoned
    (fetch_and_verify (mkFetchEnv IoOk IoOk IoOk net0) "/data" url0 (hex_of (sha256 "wasm"))
       fs_poisoned).2 (Ok "wasm").
Proof.
  pose proof (fetched_script_is_authentic (mkFetchEnv IoOk IoOk IoOk net0) "/data" url0
    (hex_of (sha256 "wasm")) fs_poisoned) as Hf.
  assert (Hr : (fetch_and_verify (mkFetchEnv IoOk IoOk IoOk net0) "/data" url0
    (hex_of (sha256 "wasm")) fs_poisoned).1 = Ok "wasm") by (vm_compute; reflexivity).
  destruct (fetch_and_verify _ _ _ _ _) as [r s']. simpl in *. subst r. exact (proj1 Hf).
Defined.
Lemma fetch_heals_and_serves_witness :
  ∃ bytes s', fetch_and_verify (mkFetchEnv IoOk IoOk IoOk net0) "/data" url0
      (hex_of (sha256 "wasm")) fs_poisoned = (Ok bytes, s') ∧ sha256 bytes = sha256 "wasm" ∧
    fetch_and_verify (mkFetchEnv IoOk IoOk IoOk net_down) "/data" allowed_prefix
      (hex_of (sha256 "wasm")) s' = (Ok bytes, s').
Proof.
  apply (fetch_heals_and_serves net0 net_down "/data" url0 allowed_prefix _ "wasm" 200).
  - exists "/drt-scripts/main/mean.wasm". split; [done|]. right. by eexists.
  - exists "". split; [done|]. by left.
  - done.
  - lia.
  - done.
  - vm_compute. discriminate.
  - vm_compute. reflexivity.
Defined.
