(* ===== verification/Runtime.v ===== *)
(** * The DRT runtime's host side

    src/src/drt/runtime.rs: staging the input in the guest's linear memory,
    calling it under a fuel budget, reading the output cells back, and the cache
    of precompiled artifacts.  wasmtime is a parameter: a guest is whatever its
    instance does when [alloc] and [run] are called. *)
From S2P Require Import Prelude.
From S2P Require Import RustStr.
From S2P Require Import RustFmt.
From S2P Require Import Errors.
From S2P Require Import Types.
From S2P Require Import Interfaces.
From S2P Require Import Storage.

Local Open Scope Z_scope.
#[local] Arguments String.append : simpl nomatch.

(** ** wasmtime *)

(** An error of a call into the guest: whether it is [Trap::OutOfFuel], and its
    [Debug] text. *)
Record CallError := mkCallError { out_of_fuel_trap : bool; debug_text : string }.

(** The settings of [Config] that the source sets. *)
Record EngineConfig := mkEngineConfig {
  cranelift : bool; optimise_speed : bool; wasm_simd : bool; consume_fuel : bool;
  memory_reservation : Z; memory_guard_size : Z; memory_reservation_for_growth : Z;
  memory_may_move : bool; signals_based_traps : bool }.

(** An instance stands for a [Store] with its instance; calls change it. *)
Class Wasmtime (M I : Type) := {
  engine_new : EngineConfig → result string unit;
  module_new : string → result string M;
  deserialize : string → result string M;
  serialize : M → result string string;
  precompile_module : string → result string string;
  set_fuel : Z → result string unit;
  func_wrap : result string unit;
  instantiate : M → Z → result string I;
  has_memory : I → bool;
  data : I → list ascii;
  set_data : list ascii → I → I;
  get_alloc : I → result string unit;
  call_alloc : Z → I → result CallError Z * I;
  get_run : I → result string unit;
  call_run : Z → Z → Z → Z → Z → Z → I → result CallError Z * I;
}.

(** ** Constants and errors *)

Definition MAX_OUTPUT_BYTES : Z := 4 * 1024 * 1024.
Definition MAX_INPUT_BYTES : Z := 600 * 1024 * 1024.
Definition MAX_GUEST_MEMORY_BYTES : Z := 1024 * 1024 * 1024.
Definition BASE_FUEL : Z := 2000000000.
Definition FUEL_PER_INPUT_BYTE : Z := 1000.
Definition CWASM_VERSION_TAG : string := "wt37".

Definition fuel_budget (input_len : Z) : Z :=
  u64_saturating_add BASE_FUEL (u64_saturating_mul FUEL_PER_INPUT_BYTE input_len).

Record RuntimeOutput := mkRuntimeOutput { exit_code : Z; body : list ascii }.

Inductive RuntimeError :=
| RtCompile (msg : string)
| RtBadModule (msg : string)
| RtTrap (msg : string)
| RtOutOfFuel (fuel input_len : Z)
| RtTimeout
| RtSizeLimit (msg : string).

Definition display_runtime (e : RuntimeError) : string :=
  match e with
  | RtCompile m => "DRT runtime compile error: " +:+ m
  | RtBadModule m => "DRT runtime bad module: " +:+ m
  | RtTrap m => "DRT runtime trap: " +:+ m
  | RtOutOfFuel fuel input_len =>
      "DRT script exceeded compute budget (fuel=" +:+ show_u64 fuel +:+ ", input_bytes="
        +:+ show_u64 input_len +:+ ") — input may be too large or script too expensive"
  | RtTimeout => "DRT runtime wall-clock timeout"
  | RtSizeLimit m => "DRT runtime size limit: " +:+ m
  end.
Definition api_of_runtime (e : RuntimeError) : ApiError :=
  match e with
  | RtCompile _ | RtBadModule _ => Api.internal ("DRT script is invalid: " +:+ display_runtime e)
  | RtTrap _ => Api.bad_request (display_runtime e)
  | RtOutOfFuel _ _ => Api.bad_request (display_runtime e)
  | RtTimeout => Api.bad_request "DRT script timed out"
  | RtSizeLimit m => Api.bad_request m
  end.

(** The engine of the process.  The first success is kept, so every call answers
    alike. *)
Definition engine_config : EngineConfig :=
  mkEngineConfig true true true true MAX_GUEST_MEMORY_BYTES 0 0 true false.
Definition engine {M I} `{Wasmtime M I} : result RuntimeError unit :=
  map_err RtCompile (engine_new engine_config).

(** [str::contains]. *)
Fixpoint str_contains (needle s : string) : bool :=
  starts_with needle s ||
  match s with EmptyString => false | String _ s' => str_contains needle s' end.

Definition translate_call_err (fuel input_len : Z) (e : CallError) : RuntimeError :=
  if out_of_fuel_trap e then RtOutOfFuel fuel input_len
  else if str_contains "OutOfFuel" (debug_text e)
          || str_contains "all fuel consumed" (debug_text e) then RtOutOfFuel fuel input_len
  else RtTrap (debug_text e).

(** ** Access to linear memory *)

(** [usize::checked_add]. *)
Definition checked_add (a b : Z) : option Z := if a + b <=? U64_MAX then Some (a + b) else None.
(** [slice.get(a..b)]. *)
Definition get_range (d : list ascii) (a b : Z) : option (list ascii) :=
  if (a <=? b) && (b <=? Z.of_nat (length d)) then
    Some (take (Z.to_nat (b - a)) (drop (Z.to_nat a) d))
  else None.
(** Overwriting [d[a..a + length bytes]]. *)
Definition splice (a : Z) (bytes d : list ascii) : list ascii :=
  take (Z.to_nat a) d ++ bytes ++ drop (Z.to_nat a + length bytes) d.
(** [i32::from_le_bytes]. *)
Fixpoint le_unsigned (l : list ascii) : Z :=
  match l with [] => 0 | c :: l' => byte c + 256 * le_unsigned l' end.
Definition i32_from_le (l : list ascii) : Z := as_i32 (le_unsigned l).

Section Host.
Context {M I : Type} `{Wasmtime M I}.

Definition write_into_memory (offset : Z) (bytes : list ascii) : act I RuntimeError unit :=
  λ i,
  match checked_add offset (Z.of_nat (length bytes)) with
  | None => (Err (RtTrap "offset overflow"), i)
  | Some e =>
      match get_range (data i) offset e with
      | None => (Err (RtTrap "alloc returned out-of-bounds offset"), i)
      | Some _ => (Ok (), set_data (splice offset bytes (data i)) i)
      end
  end.

Definition read_i32 (offset : Z) (i : I) : result RuntimeError Z :=
  e ← ok_or (checked_add offset 4) (RtTrap "offset overflow");
  slot ← ok_or (get_range (data i) offset e) (RtTrap "output cell out of bounds");
  Ok (i32_from_le slot).

Definition read_bytes (offset n : Z) (i : I) : result RuntimeError (list ascii) :=
  e ← ok_or (checked_add offset n) (RtTrap "offset overflow");
  ok_or (get_range (data i) offset e) (RtTrap "output slice out of bounds").

(** The [host_log] import: the text it logs, if any. *)
Definition host_log (src n : Z) (i : I) : option string :=
  if negb (has_memory i) then None
  else
    let src := i32_as_usize src in
    let n := Z.min (i32_as_usize n) 4096 in
    slice ← get_range (data i) src (wrap64 (src + n));
    let s := String.string_of_list_ascii slice in
    if utf8_valid s then Some s else None.

(** ** A call *)

(** [f.call(..).map_err(|e| translate_call_err(e, fuel, input_len))?]. *)
Definition call {A} (fuel input_len : Z) (f : I → result CallError A * I) :
    act I RuntimeError A :=
  act_map_err (translate_call_err fuel input_len) f.

(** The part of [run_blocking] after the module is loaded. *)
Definition run_instance (fuel input_len : Z) (csv args : string) :
    act I RuntimeError RuntimeOutput :=
  _ ← reading (λ i, reject_if (negb (has_memory i)) (RtBadModule "module missing `memory` export"));
  _ ← reading (λ i, map_err (λ e, RtBadModule ("missing `alloc` export: " +:+ e)) (get_alloc i));
  csv_ptr ← call fuel input_len (call_alloc (as_i32 (len csv)));
  _ ← write_into_memory (i32_as_usize csv_ptr) (String.list_ascii_of_string csv);
  args_ptr ← call fuel input_len (call_alloc (as_i32 (len args)));
  _ ← write_into_memory (i32_as_usize args_ptr) (String.list_ascii_of_string args);
  cells ← call fuel input_len (call_alloc 8);
  let out_ptr_cell := cells in
  let out_len_cell := as_i32 (cells + 4) in
  _ ← reading (λ i, map_err (λ e, RtBadModule ("missing `run` export: " +:+ e)) (get_run i));
  code ← call fuel input_len
    (call_run csv_ptr (as_i32 (len csv)) args_ptr (as_i32 (len args)) out_ptr_cell out_len_cell);
  out_ptr ← reading (read_i32 (i32_as_usize out_ptr_cell));
  out_len ← reading (read_i32 (i32_as_usize out_len_cell));
  _ ← lift (reject_if (out_len <? 0)
        (RtTrap ("guest returned negative output length: " +:+ show_i64 out_len)));
  let out_len_usz := i32_as_usize out_len in
  _ ← lift (reject_if (MAX_OUTPUT_BYTES <? out_len_usz)
        (RtSizeLimit ("DRT output is " +:+ show_u64 out_len_usz +:+ " bytes (limit "
           +:+ show_u64 MAX_OUTPUT_BYTES +:+ ")")));
  b ← reading (read_bytes (i32_as_usize out_ptr) out_len_usz);
  mret (mkRuntimeOutput code b).
End Host.

(** ** The cache of precompiled artifacts *)

(** [Path::with_file_name]. *)
Definition with_file_name (p name : string) : string :=
  match rsplit_once "/" p with Some (d, _) => d +:+ "/" +:+ name | None => name end.

(** [atomic_write]: publish through a temporary file whose name holds the
    process id and a sequence number ([tag], "pid.seq"). *)
Definition publish (io : io_fault) (tag path bytes : string) : act Fs string unit := λ s,
  let tmp := with_file_name path ("." +:+ rsplit_next "/" path +:+ "." +:+ tag +:+ ".tmp") in
  match io with
  | IoWrite m partial =>
      (Err m, match partial with Some x => set_files (insert tmp x) s | None => s end)
  | IoMkdir m | IoRead m => (Err m, s)
  | IoRename m => (Err m, set_files (delete tmp) s)
  | IoOk => (Ok (), set_files (λ f, <[path:=bytes]> (delete tmp f)) s)
  end.

Definition precompile_cache_path (scripts_dir hex_hash : string) : string :=
  join scripts_dir (hex_hash +:+ "." +:+ CWASM_VERSION_TAG +:+ ".cwasm").

(** The file operations of one runtime call. *)
Record RtEnv := mkRtEnv {
  rt_exists : io_fault; rt_load : io_fault; rt_mkdir : io_fault; rt_write : io_fault;
  rt_tag : string }.

Section Cache.
Context {M I : Type} `{Wasmtime M I}.

(** [Module::deserialize_file]. *)
Definition deserialize_file (io : io_fault) (path : string) (s : Fs) : result string M :=
  match (read_raw io path s).1 with
  | Err e => Err (display_storage e)
  | Ok c => deserialize c
  end.

Definition ensure_precompiled (re : RtEnv) (scripts_dir hex_hash wasm_bytes : string) :
    act Fs RuntimeError string :=
  let path := precompile_cache_path scripts_dir hex_hash in
  _ ← lift engine;
  loadable ← reading (λ s, Ok (exists_path (rt_exists re) path s
                               && is_ok (deserialize_file (rt_load re) path s)));
  if loadable : bool then mret path
  else
    bytes ← lift (map_err RtCompile (precompile_module wasm_bytes));
    _ ← match parent path with
        | Some d => best_effort (create_dir (rt_mkdir re) d)
        | None => mret ()
        end;
    _ ← act_map_err RtCompile (publish (rt_write re) (rt_tag re) path bytes);
    mret path.

Definition heal_cwasm (re : RtEnv) (path : string) (m : M) : act Fs RuntimeError unit :=
  match serialize m with
  | Ok bytes => best_effort (publish (rt_write re) (rt_tag re) path bytes)
  | Err _ => mret ()
  end.

(** Loading the module: the artifact if it loads, else a compilation. *)
Definition load_module (re : RtEnv) (wasm_bytes : string) (cwasm_path : option string) :
    act Fs RuntimeError M :=
  match cwasm_path with
  | Some p =>
      loaded ← reading (λ s, Ok (deserialize_file (rt_load re) p s));
      match loaded with
      | Ok m => mret m
      | Err _ =>
          m ← lift (map_err RtCompile (module_new wasm_bytes));
          _ ← heal_cwasm re p m;
          mret m
      end
  | None => lift (map_err RtCompile (module_new wasm_bytes))
  end.

Definition run_blocking (re : RtEnv) (wasm_bytes : string) (cwasm_path : option string)
    (csv args : string) : act Fs RuntimeError RuntimeOutput :=
  _ ← lift engine;
  let input_len := len csv + len args in
  let fuel := fuel_budget input_len in
  m ← load_module re wasm_bytes cwasm_path;
  _ ← lift (map_err RtCompile (set_fuel fuel));
  _ ← lift (map_err RtCompile func_wrap);
  i ← lift (map_err RtTrap (instantiate m fuel));
  lift (run_instance fuel input_len csv args i).1.

(** How the worker thread ends, seen from the async caller. *)
Inductive worker := WorkerDone | WorkerPanicked (msg : string) | WorkerTimedOut.

(** Awaiting the worker; one that outlives the timeout still finishes its work. *)
Definition await_worker {A} (w : worker) (m : act Fs RuntimeError A) : act Fs RuntimeError A :=
  λ s, let '(r, s') := m s in
  match w with
  | WorkerDone => (r, s')
  | WorkerPanicked e => (Err (RtTrap ("worker panicked: " +:+ e)), s')
  | WorkerTimedOut => (Err RtTimeout, s')
  end.
Definition run_with (re : RtEnv) (w : worker) (wasm_bytes : string) (cwasm_path : option string)
    (csv args : string) : act Fs RuntimeError RuntimeOutput :=
  _ ← lift (reject_if (MAX_INPUT_BYTES <? len csv)
        (RtSizeLimit ("csv is " +:+ show_u64 (len csv) +:+ " bytes (limit "
           +:+ show_u64 MAX_INPUT_BYTES +:+ ")")));
  await_worker w (run_blocking re wasm_bytes cwasm_path csv args).

Definition execute_cached (re : RtEnv) (w : worker) `{Serde Json} (cache_path wasm_bytes csv : string)
    (args : Json) : act Fs RuntimeError RuntimeOutput :=
  args ← lift (map_err (λ e, RtCompile ("args JSON encode: " +:+ e)) (to_vec args));
  found ← reading (λ s, Ok (exists_path (rt_exists re) cache_path s));
  run_with re w wasm_bytes (if found : bool then Some cache_path else None) csv args.
End Cache.
