(* ===== verification/RuntimeFacts.v ===== *)
(** * Facts about the DRT runtime

    The host against an arbitrary guest, and the cache of precompiled
    artifacts. *)
From S2P Require Import Prelude.
From S2P Require Import RustStr.
From S2P Require Import RustFmt.
From S2P Require Import Errors.
From S2P Require Import Types.
From S2P Require Import Interfaces.
From S2P Require Import Storage.
From S2P Require Import Runtime.

Local Open Scope Z_scope.
#[local] Arguments String.append : simpl nomatch.

(** ** Bytes at an address *)

(** [bytes] is stored in [d] from address [a] on. *)
Definition region (d : list ascii) (a : Z) (bytes : list ascii) : Prop :=
  0 ≤ a ∧ a + Z.of_nat (length bytes) ≤ Z.of_nat (length d) ∧
  ∀ k, (k < length bytes)%nat → d !! (Z.to_nat a + k)%nat = bytes !! k.

Lemma region_take_drop d a bytes :
  region d a bytes → take (length bytes) (drop (Z.to_nat a) d) = bytes.
Proof.
  intros (Ha & Hb & Hk). apply list_eq. intros k.
  destruct (decide (k < length bytes)%nat) as [Hlt|Hge].
  - rewrite lookup_take_lt by done. rewrite lookup_drop. by apply Hk.
  - rewrite lookup_take_ge by lia. symmetry. apply lookup_ge_None. lia.
Qed.
Lemma get_range_region d a b bytes :
  get_range d a b = Some bytes ∧ 0 ≤ a ↔ region d a bytes ∧ b = a + Z.of_nat (length bytes).
Proof.
  unfold get_range. split.
  - intros [Hg Ha]. destruct (_ && _) eqn:Hc; [|done].
    apply andb_true_iff in Hc as [H1%Z.leb_le H2%Z.leb_le]. simplify_eq.
    assert (Hl : length (take (Z.to_nat (b - a)) (drop (Z.to_nat a) d)) = Z.to_nat (b - a))
      by (rewrite length_take, length_drop; lia).
    rewrite Hl. split; [|lia]. split; [done|]. rewrite Hl. split; [lia|].
    intros k Hk. by rewrite lookup_take_lt, lookup_drop.
  - intros [Hr ->]. pose proof Hr as (Ha & Hb & _). split; [|done].
    rewrite (proj2 (andb_true_iff _ _)) by lia.
    replace (Z.to_nat (a + Z.of_nat (length bytes) - a)) with (length bytes) by lia.
    by rewrite region_take_drop.
Qed.
Lemma region_grow d a bytes x : region d a bytes → region (d ++ x) a bytes.
Proof.
  intros (Ha & Hb & Hk). split; [done|]. rewrite length_app. split; [lia|].
  intros k Hlt. rewrite lookup_app_l by lia. by apply Hk.
Qed.

Section Splice.
Context (c : Z) (x d : list ascii).
Hypothesis (Hc : 0 ≤ c) (Hin : c + Z.of_nat (length x) ≤ Z.of_nat (length d)).

Lemma length_splice : length (splice c x d) = length d.
Proof using Hc Hin. unfold splice. rewrite !length_app, length_take, length_drop. lia. Qed.
Lemma lookup_splice_in k : (k < length x)%nat → splice c x d !! (Z.to_nat c + k)%nat = x !! k.
Proof using Hc Hin.
  intros Hk. unfold splice. rewrite lookup_app_r by (rewrite length_take; lia).
  rewrite length_take, lookup_app_l by lia. f_equal. lia.
Qed.
Lemma lookup_splice_out k :
  (k < Z.to_nat c ∨ Z.to_nat c + length x ≤ k)%nat → splice c x d !! k = d !! k.
Proof using Hc Hin.
  intros Hk. unfold splice. destruct (decide (k < Z.to_nat c)%nat) as [Hlt|Hge].
  - rewrite lookup_app_l by (rewrite length_take; lia). by rewrite lookup_take_lt.
  - rewrite lookup_app_r by (rewrite length_take; lia). rewrite length_take.
    rewrite lookup_app_r by lia. rewrite lookup_drop. f_equal. lia.
Qed.
Lemma region_splice : region (splice c x d) c x.
Proof using Hc Hin.
  split; [done|]. rewrite length_splice. split; [done|]. apply lookup_splice_in.
Qed.
Lemma region_splice_other a bytes :
  region d a bytes → a + Z.of_nat (length bytes) ≤ c ∨ c + Z.of_nat (length x) ≤ a →
  region (splice c x d) a bytes.
Proof using Hc Hin.
  intros (Ha & Hb & Hk) Hdis. split; [done|]. rewrite length_splice. split; [done|].
  intros k Hlt. rewrite lookup_splice_out by lia. by apply Hk.
Qed.
End Splice.

(** ** The host against an arbitrary guest *)

Section Guest.
Context {M I : Type} `{Wasmtime M I}.

Lemma write_into_memory_ok offset bytes (i i' : I) u :
  write_into_memory offset bytes i = (Ok u, i') → 0 ≤ offset →
  i' = set_data (splice offset bytes (data i)) i ∧
  offset + Z.of_nat (length bytes) ≤ Z.of_nat (length (data i)).
Proof.
  unfold write_into_memory, checked_add, get_range. intros Hw Ho.
  destruct (_ <=? U64_MAX); [|done]. destruct (_ && _) eqn:Hc; [|done].
  apply andb_true_iff in Hc as [_ Hc%Z.leb_le]. by simplify_eq.
Qed.
Lemma read_bytes_ok offset n (i : I) b :
  0 ≤ offset → 0 ≤ n → read_bytes offset n i = Ok b →
  region (data i) offset b ∧ Z.of_nat (length b) = n.
Proof.
  unfold read_bytes, checked_add. unfold_act. intros Ho Hn Hr.
  destruct (_ <=? U64_MAX); [|done].
  destruct (get_range (data i) offset (offset + n)) as [x|] eqn:Hg; [|done]. simplify_eq.
  destruct (proj1 (get_range_region _ _ _ _) (conj Hg Ho)). split; [done|lia].
Qed.
Lemma read_i32_ok offset (i : I) v :
  0 ≤ offset → read_i32 offset i = Ok v →
  ∃ slot, length slot = 4%nat ∧ region (data i) offset slot ∧ v = i32_from_le slot.
Proof.
  unfold read_i32, checked_add. unfold_act. intros Ho Hr.
  destruct (_ <=? U64_MAX); [|done].
  destruct (get_range (data i) offset (offset + 4)) as [x|] eqn:Hg; [|done]. simplify_eq.
  destruct (proj1 (get_range_region _ _ _ _) (conj Hg Ho)). exists x. split; [lia|done].
Qed.

(** The bytes at [a] are what the cells at [cell] and [cell + 4] announce. *)
Definition announced (d : list ascii) (cell : Z) (out : list ascii) : Prop :=
  ∃ ptr_bytes len_bytes,
    length ptr_bytes = 4%nat ∧ length len_bytes = 4%nat ∧
    region d (i32_as_usize cell) ptr_bytes ∧
    region d (i32_as_usize (as_i32 (cell + 4))) len_bytes ∧
    i32_from_le len_bytes = Z.of_nat (length out) ∧
    region d (i32_as_usize (i32_from_le ptr_bytes)) out.

Lemma usize_nonneg z : 0 ≤ i32_as_usize z.
Proof. destruct (wrap64_range z). done. Qed.
Lemma as_i32_range z : - 2 ^ 31 ≤ as_i32 z < 2 ^ 31.
Proof.
  unfold as_i32, wrap32. pose proof (Z.mod_pos_bound z (2 ^ 32) ltac:(lia)).
  destruct (Z.ltb_spec (z mod 2 ^ 32) (2 ^ 31)); lia.
Qed.
Hint Resolve usize_nonneg : rsdk.

(** A successful call ends with the guest's [run] and reads what the guest
    left in its cells. *)
Lemma run_instance_ok fuel il csv args (i i' : I) out :
  run_instance fuel il csv args i = (Ok out, i') →
  ∃ csv_ptr args_ptr cells j,
    call_run csv_ptr (as_i32 (len csv)) args_ptr (as_i32 (len args)) cells (as_i32 (cells + 4)) j
      = (Ok (exit_code out), i') ∧
    Z.of_nat (length (body out)) ≤ MAX_OUTPUT_BYTES ∧ announced (data i') cells (body out).
Proof.
  unfold run_instance, call, act_map_err, reading, lift.
  unfold mbind, act_bind, mret, act_ret. intros Hr. simpl in Hr.
  destruct (reject_if _ _) as [[]|]; [|done].
  destruct (get_alloc i) as [[]|]; [|done]. simpl in Hr.
  destruct (call_alloc _ i) as [[csv_ptr|] i1]; [|done]. simpl in Hr.
  destruct (write_into_memory _ _ i1) as [[[]|] i2]; [|done].
  destruct (call_alloc _ i2) as [[args_ptr|] i3]; [|done]. simpl in Hr.
  destruct (write_into_memory _ _ i3) as [[[]|] i4]; [|done].
  destruct (call_alloc 8 i4) as [[cells|] i5]; [|done]. simpl in Hr.
  destruct (get_run i5) as [[]|]; [|done]. simpl in Hr.
  destruct (call_run _ _ _ _ _ _ i5) as [[code|] i6] eqn:Hrun; [|done]. simpl in Hr.
  destruct (read_i32 _ i6) as [ptr|] eqn:Hp; [|done].
  destruct (read_i32 (i32_as_usize (as_i32 (cells + 4))) i6) as [n|] eqn:Hn; [|done].
  unfold reject_if in Hr. destruct (Z.ltb_spec n 0) as [|Hn0]; [done|].
  destruct (Z.ltb_spec MAX_OUTPUT_BYTES (i32_as_usize n)) as [|Hmax]; [done|].
  destruct (read_bytes _ _ i6) as [b|] eqn:Hb; [|done]. simplify_eq/=.
  apply read_i32_ok in Hp as (pb & Hpl & Hpr & ->); [|apply usize_nonneg].
  apply read_i32_ok in Hn as (nb & Hnl & Hnr & ->); [|apply usize_nonneg].
  apply read_bytes_ok in Hb as [Hbr Hbl]; [|apply usize_nonneg..].
  exists csv_ptr, args_ptr, cells, i5. split; [done|]. split; [lia|].
  exists pb, nb. split_and!; try done. rewrite Hbl. unfold i32_as_usize. rewrite wrap64_small; [done|].
  unfold is_u64, U64_MAX. pose proof (as_i32_range (le_unsigned nb)). unfold i32_from_le in *. lia.
Qed.
End Guest.

(** ** The cache of precompiled artifacts *)

(** An artifact made by [serialize] or [precompile_module] loads as the module
    it was made from. *)
Class WasmtimeLaws (M I : Type) `{Wasmtime M I} := {
  deserialize_serialize (m : M) b : serialize m = Ok b → deserialize b = Ok m;
  deserialize_precompile w b :
    precompile_module w = Ok b → ∃ m : M, deserialize b = Ok m ∧ module_new w = Ok m;
}.

Lemma publish_tmp path tag :
  with_file_name path ("." +:+ rsplit_next "/" path +:+ "." +:+ tag +:+ ".tmp") ≠ path.
Proof.
  unfold with_file_name, rsplit_next. intros He.
  destruct (rsplit_once "/" path) as [[d f]|] eqn:Hs;
    [|apply (f_equal String.length) in He; rewrite !length_append in He; simpl in He; lia].
  assert (Hp : path = d +:+ "/" +:+ f).
  { clear He. revert d f Hs. induction path as [|a path IH]; intros d f Hs; [done|].
    simpl in Hs. destruct (rsplit_once "/" path) as [[x y]|]; simplify_eq/=.
    - by rewrite (IH x f).
    - case_decide; by simplify_eq/=. }
  apply (f_equal String.length) in He. rewrite Hp in He. rewrite !length_append in He.
  simpl in He. lia.
Qed.

Lemma publish_files io tag path bytes s p :
  p ≠ with_file_name path ("." +:+ rsplit_next "/" path +:+ "." +:+ tag +:+ ".tmp") →
  files (publish io tag path bytes s).2 !! p =
    if is_ok (publish io tag path bytes s).1 then
      if decide (p = path) then Some bytes else files s !! p
    else files s !! p.
Proof.
  intros Hp. unfold publish. destruct io as [|m|m|m part|m]; simpl; try done.
  - case_decide; [subst; by rewrite lookup_insert_eq|].
    rewrite lookup_insert_ne by done. by rewrite lookup_delete_ne.
  - destruct part; simpl; [|done]. by rewrite lookup_insert_ne.
  - by rewrite lookup_delete_ne.
Qed.
Section Cache.
Context {M I : Type} `{WasmtimeLaws M I}.

(** Whatever the artifact loads as is the compilation of [w]. *)
Definition artifact_of (w c : string) : Prop :=
  ∀ m : M, deserialize c = Ok m → module_new w = Ok m.
Definition cache_good (path w : string) (s : Fs) : Prop :=
  ∀ c, files s !! path = Some c → artifact_of w c.

Lemma deserialize_file_some io path s (m : M) :
  deserialize_file io path s = Ok m → ∃ c, files s !! path = Some c ∧ deserialize c = Ok m.
Proof.
  unfold deserialize_file, read_raw, reading, ok_or. simpl.
  destruct io; try done; destruct (files s !! path); try done; eauto.
Qed.
Lemma publish_good io tag path w bytes s :
  cache_good path w s → artifact_of w bytes → cache_good path w (publish io tag path bytes s).2.
Proof.
  intros Hg Ha c. rewrite publish_files by (apply not_eq_sym, publish_tmp).
  rewrite decide_True by done. destruct (is_ok _); [|apply Hg]. by intros [= <-].
Qed.

Lemma serialized_artifact w (m : M) b :
  module_new w = Ok m → serialize m = Ok b → artifact_of w b.
Proof. intros Hm Hs m' Hd. rewrite (deserialize_serialize m b Hs) in Hd; congruence. Qed.
Lemma precompiled_artifact w b : precompile_module w = Ok b → artifact_of w b.
Proof.
  intros Hp m' Hd. destruct (deserialize_precompile w b Hp) as (m & Hd' & Hm). congruence.
Qed.
Lemma heal_good re path w (m : M) s :
  cache_good path w s → module_new w = Ok m → cache_good path w (heal_cwasm re path m s).2.
Proof.
  intros Hg Hm. unfold heal_cwasm. destruct (serialize m) as [b|] eqn:Hs; [|done].
  apply publish_good; [done|]. by eapply serialized_artifact.
Qed.

(** Loading through the cache gives the compilation, and heals the artifact. *)
Lemma load_module_transparent re w path s :
  cache_good path w s →
  (load_module re w (Some path) s).1 = map_err RtCompile (module_new w) ∧
  cache_good path w (load_module re w (Some path) s).2.
Proof.
  intros Hg. unfold load_module. rewrite act_bind_eq. simpl.
  destruct (deserialize_file (rt_load re) path s) as [m|e] eqn:Hd.
  - apply deserialize_file_some in Hd as (c & Hc & Hd). by rewrite (Hg c Hc m Hd).
  - rewrite act_bind_eq. unfold lift. destruct (module_new w) as [m|] eqn:Hm; [|done]. simpl.
    rewrite act_bind_eq. pose proof (heal_good re path w m s Hg Hm) as Hh.
    assert (He : (heal_cwasm re path m s).1 = Ok ()).
    { unfold heal_cwasm. by destruct (serialize m). }
    destruct (heal_cwasm re path m s) as [r s']. simpl in *. by subst.
Qed.

Lemma run_blocking_transparent re w path csv args s :
  cache_good path w s →
  (run_blocking re w (Some path) csv args s).1 = (run_blocking re w None csv args s).1 ∧
  cache_good path w (run_blocking re w (Some path) csv args s).2.
Proof.
  intros Hg. destruct (load_module_transparent re w path s Hg) as [Hl Hg'].
  unfold run_blocking. rewrite !act_bind_lift.
  destruct engine; cbn [map_err]; [|done]. rewrite !(act_bind_eq (load_module _ _ _)).
  destruct (load_module re w (Some path) s) as [r s']. simpl in Hl, Hg'. subst r.
  change (load_module re w None s) with (map_err RtCompile (module_new w), s).
  destruct (module_new w) as [m|]; cbn [map_err]; [|done]. rewrite !act_bind_lift.
  destruct (set_fuel _); cbn [map_err]; [|done].
  destruct func_wrap; cbn [map_err]; [|done].
  by destruct (instantiate m _).
Qed.

Lemma ensure_precompiled_good re dir h w s :
  cache_good (precompile_cache_path dir h) w s →
  let '(r, s') := ensure_precompiled re dir h w s in
  cache_good (precompile_cache_path dir h) w s' ∧
  (rt_load re = IoOk → ∀ p, r = Ok p → p = precompile_cache_path dir h ∧
    ∃ m, module_new w = Ok m ∧ deserialize_file IoOk p s' = Ok m).
Proof.
  intros Hg. set (path := precompile_cache_path dir h) in *.
  unfold ensure_precompiled. fold path. rewrite act_bind_eq. unfold lift at 1.
  destruct engine; simpl; [|done]. rewrite act_bind_eq. simpl.
  destruct (exists_path _ path s && _) eqn:Hl.
  { split; [done|]. intros Hio p [= <-]. split; [done|].
    apply andb_true_iff in Hl as [_ Hl]. rewrite Hio in Hl.
    destruct (deserialize_file IoOk path s) as [m|] eqn:Hd; [|done]. exists m. split; [|done].
    apply deserialize_file_some in Hd as (c & Hc & Hd). by apply (Hg c). }
  rewrite act_bind_eq. unfold lift. destruct (precompile_module w) as [b|] eqn:Hb; [|done]. simpl.
  rewrite act_bind_eq. set (dirs := match parent path with Some d => _ | None => _ end).
  assert (Hdirs : (dirs s).1 = Ok () ∧ files (dirs s).2 = files s).
  { unfold dirs. destruct (parent path); [|done]. unfold best_effort, create_dir.
    split; [done|]. by destruct (rt_mkdir re). }
  destruct (dirs s) as [r s1]. destruct Hdirs as [Hr Hf]. simpl in Hr, Hf. subst r.
  assert (Hg1 : cache_good path w s1) by (intros c; rewrite Hf; apply Hg).
  pose proof (publish_good (rt_write re) (rt_tag re) path w b s1 Hg1 (precompiled_artifact w b Hb))
    as Hg2.
  pose proof (publish_files (rt_write re) (rt_tag re) path b s1 path
    (not_eq_sym (publish_tmp path (rt_tag re)))) as Hp.
  rewrite act_bind_eq. unfold act_map_err.
  destruct (publish (rt_write re) (rt_tag re) path b s1) as [[[]|] s2]; simpl in *; [|done].
  split; [done|]. intros _ p [= <-]. split; [done|].
  destruct (deserialize_precompile w b Hb) as (m & Hd & Hm). exists m. split; [done|].
  rewrite decide_True in Hp by done. unfold deserialize_file, read_raw, reading, ok_or. simpl.
  by rewrite Hp.
Qed.
End Cache.

(** ** The runtime's theorems *)

Section Theorems.
Context {M I : Type} `{WasmtimeLaws M I, Serde Json}.

Lemma run_with_transparent re w wasm path csv args s :
  cache_good path wasm s →
  (run_with re w wasm (Some path) csv args s).1 = (run_with re w wasm None csv args s).1 ∧
  cache_good path wasm (run_with re w wasm (Some path) csv args s).2.
Proof.
  intros Hg. destruct (run_blocking_transparent re wasm path csv args s Hg) as [Hr Hg'].
  unfold run_with. rewrite !act_bind_lift. destruct (reject_if _ _); [|done].
  unfold await_worker. destruct (run_blocking re wasm (Some path) csv args s) as [r1 s1].
  destruct (run_blocking re wasm None csv args s) as [r2 s2]. simpl in *. subst. by destruct w.
Qed.
Lemma run_blocking_none_state re wasm csv args s :
  (run_blocking re wasm None csv args s).2 = s.
Proof.
  unfold run_blocking. rewrite act_bind_lift. destruct engine; cbn [map_err]; [|done].
  change (load_module re wasm None) with (lift (S := Fs) (map_err RtCompile (module_new wasm))).
  rewrite act_bind_lift. destruct (module_new wasm); cbn [map_err]; [|done].
  rewrite act_bind_lift. destruct (set_fuel _); cbn [map_err]; [|done].
  rewrite act_bind_lift. destruct func_wrap; cbn [map_err]; [|done].
  rewrite act_bind_lift. by destruct (instantiate _ _).
Qed.
Lemma run_with_none_good re w wasm path csv args s :
  cache_good path wasm s → cache_good path wasm (run_with re w wasm None csv args s).2.
Proof.
  intros Hg. unfold run_with. rewrite act_bind_lift. destruct (reject_if _ _); [|done].
  unfold await_worker. pose proof (run_blocking_none_state re wasm csv args s) as Hs.
  destruct (run_blocking re wasm None csv args s) as [r s']. simpl in Hs. subst. by destruct w.
Qed.

(** A history of one script: precompilations and executions, with their faults. *)
Inductive rt_op :=
| RtEnsure (re : RtEnv)
| RtExecute (re : RtEnv) (w : worker) (csv : string) (args : Json).
Definition rt_step (dir h wasm : string) (s : Fs) (op : rt_op) : Fs :=
  match op with
  | RtEnsure re => (ensure_precompiled re dir h wasm s).2
  | RtExecute re w csv args =>
      (execute_cached re w (precompile_cache_path dir h) wasm csv args s).2
  end.

Lemma execute_good re w path wasm csv args s :
  cache_good path wasm s → cache_good path wasm (execute_cached re w path wasm csv args s).2.
Proof.
  intros Hg. unfold execute_cached. rewrite act_bind_lift. destruct (to_vec args); [|done].
  cbn [map_err]. rewrite act_bind_eq. simpl.
  destruct (exists_path (rt_exists re) path s); simpl.
  - by apply run_with_transparent.
  - by apply run_with_none_good.
Qed.
Lemma rt_step_good dir h wasm s op :
  cache_good (precompile_cache_path dir h) wasm s →
  cache_good (precompile_cache_path dir h) wasm (rt_step dir h wasm s op).
Proof.
  intros Hg. destruct op as [re|re w csv args]; simpl.
  - pose proof (ensure_precompiled_good re dir h wasm s Hg) as He.
    destruct (ensure_precompiled re dir h wasm s). by destruct He.
  - by apply execute_good.
Qed.
Lemma rt_history_good dir h wasm ops s :
  cache_good (precompile_cache_path dir h) wasm s →
  cache_good (precompile_cache_path dir h) wasm (foldl (rt_step dir h wasm) s ops).
Proof. revert s. induction ops as [|op ops IH]; intros s Hg; [done|]. by apply IH, rt_step_good. Qed.

(** C33: the artifact cache is transparent.  From a state without an artifact for
    the script, after any history of precompilations and executions of it with
    any faults, an execution gives the result that compiling the script afresh
    would give, whatever artifact it finds; and a precompilation that succeeds
    leaves an artifact that loads as the script's compilation. *)
Theorem cwasm_cache_transparent (dir h wasm : string) (ops : list rt_op) (s0 : Fs)
    (re : RtEnv) (w : worker) (csv args p : string) :
  files s0 !! precompile_cache_path dir h = None →
  let path := precompile_cache_path dir h in
  let s := foldl (rt_step dir h wasm) s0 ops in
  (run_with re w wasm (Some path) csv args s).1 = (run_with re w wasm None csv args s).1 ∧
  (rt_load re = IoOk → (ensure_precompiled re dir h wasm s).1 = Ok p →
   p = path ∧ ∃ m, module_new wasm = Ok m ∧
     deserialize_file IoOk path (ensure_precompiled re dir h wasm s).2 = Ok m).
Proof.
  intros Hn path s.
  assert (Hg : cache_good path wasm s) by (apply rt_history_good; intros c Hc; congruence).
  split; [by apply run_with_transparent|].
  pose proof (ensure_precompiled_good re dir h wasm s Hg) as He.
  destruct (ensure_precompiled re dir h wasm s) as [r s']. destruct He as [_ He]. simpl.
  intros Hio ->. destruct (He Hio p eq_refl) as [-> ?]. done.
Qed.

(** C20: the host is confined.  Whatever the guest does, an execution that
    succeeds had at most 600 MiB of CSV and a fuel budget of
    2*10^9 + 1000 per input byte (saturating at 64 bits); its exit code is that
    of the guest's [run] on the staged blocks, and its body is the at most 4 MiB
    of the guest's memory that the guest announced in its output cells. *)
Theorem guest_output_confined (re : RtEnv) (w : worker) (cache_path wasm csv : string)
    (args : Json) (s s' : Fs) (out : RuntimeOutput) :
  execute_cached re w cache_path wasm csv args s = (Ok out, s') →
  len csv ≤ MAX_INPUT_BYTES ∧
  ∃ args_text (m : M) i csv_ptr args_ptr cells j i',
    to_vec args = Ok args_text ∧
    instantiate m (Z.min U64_MAX (BASE_FUEL + FUEL_PER_INPUT_BYTE * (len csv + len args_text)))
      = Ok i ∧
    call_run csv_ptr (as_i32 (len csv)) args_ptr (as_i32 (len args_text)) cells
      (as_i32 (cells + 4)) j = (Ok (exit_code out), i') ∧
    Z.of_nat (length (body out)) ≤ MAX_OUTPUT_BYTES ∧ announced (data i') cells (body out).
Proof.
  unfold execute_cached, run_with. rewrite act_bind_lift.
  destruct (to_vec args) as [text|] eqn:Ht; cbn [map_err]; [|done]. rewrite act_bind_eq. simpl.
  rewrite act_bind_lift. unfold reject_if.
  destruct (Z.ltb_spec MAX_INPUT_BYTES (len csv)); [done|]. intros Hr. split; [done|].
  unfold await_worker in Hr. set (cp := if exists_path _ _ _ then _ else _) in Hr.
  destruct (run_blocking re wasm cp csv text s) as [r s1] eqn:Hb.
  destruct w; simplify_eq. revert Hb. unfold run_blocking. rewrite act_bind_lift.
  destruct engine; cbn [map_err]; [|done]. rewrite act_bind_eq.
  destruct (load_module re wasm cp s) as [[m|] s2]; [|done]. rewrite !act_bind_lift.
  destruct (set_fuel _); cbn [map_err]; [|done]. destruct func_wrap; cbn [map_err]; [|done].
  destruct (instantiate m _) as [i|] eqn:Hi; cbn [map_err]; [|done]. unfold lift.
  destruct (run_instance _ _ csv text i) as [r i'] eqn:Hri. simpl. intros [= -> ->].
  apply run_instance_ok in Hri as (csv_ptr & args_ptr & cells & j & Hrun & Hlen & Ha).
  exists text, m, i, csv_ptr, args_ptr, cells, j, i'. split_and!; try done.
  rewrite <-Hi. f_equal. unfold fuel_budget, u64_saturating_add, u64_saturating_mul, BASE_FUEL,
    FUEL_PER_INPUT_BYTE, U64_MAX. unfold len. lia.
Qed.
End Theorems.
