(* ===== verification/MeanHost.v ===== *)
(** * The mean example, run by the host

    The host of [Runtime] with the guest of [Mean] as its instance: the blocks
    the host stages arrive in the guest, and the body the guest announces is the
    one the host returns.  Also the concrete runtime of the examples. *)
From S2P Require Import Prelude.
From S2P Require Import RustStr.
From S2P Require Import RustFmt.
From S2P Require Import Errors.
From S2P Require Import Types.
From S2P Require Import Interfaces.
From S2P Require Import Instances.
From S2P Require Import Storage.
From S2P Require Import Runtime.
From S2P Require Import RuntimeFacts.
From S2P Require Import Mean.
From S2P Require Import MeanFacts.

Local Open Scope Z_scope.
#[local] Arguments String.append : simpl nomatch.

(** ** The instance *)

(** wasmtime running the mean guest, which starts in [g0]; the fuel suffices. *)
Definition mean_wasmtime (g0 : Guest) : Wasmtime unit Guest := {|
  engine_new _ := Ok ();
  module_new _ := Ok ();
  deserialize c := if decide (c = "artifact") then Ok () else Err "bad header";
  serialize _ := Ok "artifact";
  precompile_module _ := Ok "artifact";
  set_fuel _ := Ok ();
  func_wrap := Ok ();
  instantiate _ _ := Ok g0;
  has_memory _ := true;
  data := memory;
  set_data := set_memory;
  get_alloc _ := Ok ();
  call_alloc n g := let '(p, g') := guest_alloc n g in (Ok p, g');
  get_run _ := Ok ();
  call_run a b c d e f g := let '(code, g') := guest_run a b c d e f g in (Ok code, g');
|}.

Lemma mean_wasmtime_laws (g0 : Guest) :
  @WasmtimeLaws unit Guest (mean_wasmtime g0).
Proof. split; simpl; [by intros [] b [= <-]|]. intros w b [= <-]. by exists (). Qed.

(** ** Cells *)

Lemma le_unsigned_le4 n v : 0 ≤ v < 256 ^ Z.of_nat n → le_unsigned (le4 n v) = v.
Proof.
  revert v. induction n as [|n IH]; intros v Hv; simpl.
  { change (256 ^ Z.of_nat 0) with 1 in Hv. lia. }
  pose proof (Z.mod_pos_bound v 256 ltac:(lia)). rewrite byte_char_of by lia.
  rewrite IH; [pose proof (Z.div_mod v 256 ltac:(lia)); lia|].
  rewrite Nat2Z.inj_succ, Z.pow_succ_r in Hv by lia.
  split; [apply Z.div_pos; lia|]. apply Z.div_lt_upper_bound; lia.
Qed.
Lemma i32_cell v : 0 ≤ v < 2 ^ 31 → i32_from_le (le4 4 (wrap32 v)) = v.
Proof.
  intros Hv. unfold i32_from_le, wrap32. rewrite Z.mod_small by lia.
  rewrite le_unsigned_le4 by (change (256 ^ Z.of_nat 4) with (2 ^ 32); lia).
  by rewrite as_i32_small.
Qed.
Lemma usize_small z : 0 ≤ z < 2 ^ 31 → i32_as_usize z = z.
Proof. intros Hz. unfold i32_as_usize. apply wrap64_small. unfold is_u64, U64_MAX. lia. Qed.
Lemma wrap32_small z : 0 ≤ z < 2 ^ 31 → wrap32 z = z.
Proof. intros Hz. unfold wrap32. apply Z.mod_small. lia. Qed.
Lemma length_list_ascii s : Z.of_nat (length (String.list_ascii_of_string s)) = len s.
Proof. unfold len. f_equal. induction s; simpl; congruence. Qed.

(** ** Allocation with room *)

Lemma alloc_room size g :
  guest_ok g → 0 ≤ size → align8 (next_free g) + size + PAGE_SIZE ≤ max_pages g * PAGE_SIZE →
  ∃ g' k, bump_alloc size g = (align8 (next_free g), g') ∧
    memory g' = memory g ++ replicate k (char_of 0) ∧ guest_ok g' ∧
    next_free g' = align8 (next_free g) + size ∧ heap_base g' = heap_base g ∧
    max_pages g' = max_pages g ∧ align8 (next_free g) + size ≤ mem_bytes g'.
Proof.
  intros Hg Hs Hroom. pose proof Hg as (Hh & Hmax & Hmem & Hhm & Hoff).
  assert (Hcur : 0 < next_free g ≤ mem_bytes g).
  { unfold next_free. destruct (Z.eqb_spec (pub_off g) 0); lia. }
  pose proof (align8_bounds (next_free g)).
  assert (Hcap : max_pages g * PAGE_SIZE ≤ 2 ^ 31) by (unfold PAGE_SIZE; lia).
  assert (Hsize : 0 ≤ size ≤ 2 ^ 31 - 8) by (unfold PAGE_SIZE in *; lia).
  pose proof (bump_alloc_spec size g Hg Hsize) as Hspec.
  pose proof (bump_spec (next_free g) size g ltac:(lia) Hsize ltac:(lia)) as Hb.
  assert (Hmemory : ∀ p next g', bump (next_free g) 8 size g = Some (p, next, g') →
    ∃ k, memory g' = memory g ++ replicate k (char_of 0)).
  { intros p next g'. unfold bump, memory_grow. intros Heq.
    destruct (_ <? _) in Heq; [|simplify_eq; exists 0%nat; by rewrite app_nil_r].
    destruct (_ <=? _) in Heq; simplify_eq. by eexists. }
  revert Hspec. unfold bump_alloc. fold (next_free g).
  destruct (bump (next_free g) 8 size g) as [[[p next] g']|]; [|lia].
  destruct (Hmemory p next g' eq_refl) as [k Hk].
  destruct Hb as (-> & -> & Hin & _ & _ & Hhb & Hmp & _ & _).
  intros [[Hp0 _]|(_ & _ & Hnf & _ & Hok & _ & _)]; [lia|].
  eexists _, k. split; [done|]. by split_and!.
Qed.

(** Staging one block: allocate, then copy it in. *)
Lemma stage_block (bytes : list ascii) g :
  let p := align8 (next_free g) in
  guest_ok g → p + Z.of_nat (length bytes) + PAGE_SIZE ≤ max_pages g * PAGE_SIZE →
  ∃ g', guest_alloc (as_i32 (Z.of_nat (length bytes))) g = (p, g') ∧ 0 < p ∧
    guest_ok g' ∧ next_free g' = p + Z.of_nat (length bytes) ∧ max_pages g' = max_pages g ∧
    heap_base g' = heap_base g ∧
    p + Z.of_nat (length bytes) ≤ mem_bytes g' ∧
    ∀ a b, region (memory g) a b → region (memory g') a b.
Proof.
  intros p Hg Hroom.
  pose proof Hg as (Hh & Hmax & Hmem & Hhm & Hoff).
  assert (Hcur : 0 < next_free g ≤ mem_bytes g).
  { unfold next_free. destruct (Z.eqb_spec (pub_off g) 0); lia. }
  pose proof (align8_bounds (next_free g)).
  assert (Hcap : max_pages g * PAGE_SIZE ≤ 2 ^ 31) by (unfold PAGE_SIZE; lia).
  destruct (alloc_room (Z.of_nat (length bytes)) g Hg ltac:(lia) Hroom)
    as (g' & k & Ha & Hm & Hok & Hnf & Hhb & Hmp & Hin).
  exists g'. unfold guest_alloc. unfold PAGE_SIZE in *. rewrite as_i32_small by lia.
  rewrite (proj2 (Z.ltb_ge _ 0)) by lia. rewrite Ha. rewrite as_i32_small by lia.
  split_and!; try done; try lia. intros a b Hr. rewrite Hm. by apply region_grow.
Qed.
Lemma guest_ok_set_memory m g : length m = length (memory g) → guest_ok g → guest_ok (set_memory m g).
Proof. unfold guest_ok, mem_bytes. simpl. by intros ->. Qed.

Lemma length_store a bytes g :
  0 ≤ a → a + Z.of_nat (length bytes) ≤ mem_bytes g →
  length (memory (store a bytes g)) = length (memory g).
Proof. intros Ha Hin. by apply (length_splice a bytes (memory g)). Qed.
Lemma guest_ok_store a bytes g :
  0 ≤ a → a + Z.of_nat (length bytes) ≤ mem_bytes g → guest_ok g → guest_ok (store a bytes g).
Proof. intros Ha Hin. apply guest_ok_set_memory. by apply length_store. Qed.
Lemma store_region a bytes g :
  0 ≤ a → a + Z.of_nat (length bytes) ≤ mem_bytes g → region (memory (store a bytes g)) a bytes.
Proof. intros Ha Hin. by apply (region_splice a bytes (memory g)). Qed.
Lemma store_other c x g a bytes :
  0 ≤ c → c + Z.of_nat (length x) ≤ mem_bytes g → region (memory g) a bytes →
  a + Z.of_nat (length bytes) ≤ c ∨ c + Z.of_nat (length x) ≤ a →
  region (memory (store c x g)) a bytes.
Proof. intros Hc Hin. by apply (region_splice_other c x (memory g)). Qed.
Lemma length_le4 n v : length (le4 n v) = n.
Proof. revert v. induction n as [|n IH]; intros v; simpl; auto. Qed.

(** What the guest's [write_cells] leaves in memory. *)
Lemma write_cells_regions cell (out : list ascii) g :
  let p := align8 (next_free g) in
  guest_ok g → 0 < cell → cell + 8 ≤ next_free g →
  p + Z.of_nat (length out) + PAGE_SIZE ≤ max_pages g * PAGE_SIZE →
  let m := memory (write_cells cell (cell + 4) out g) in
  region m cell (le4 4 (wrap32 p)) ∧
  region m (cell + 4) (le4 4 (wrap32 (Z.of_nat (length out)))) ∧
  region m p out ∧ 0 < p < 2 ^ 31 ∧ p + Z.of_nat (length out) < 2 ^ 31.
Proof.
  intros p Hg Hcell Hbelow Hroom.
  pose proof (align8_bounds (next_free g)) as Hal. fold p in Hal.
  destruct (alloc_room (Z.of_nat (length out)) g Hg ltac:(lia) Hroom)
    as (g1 & k & Ha & Hm & Hok & Hnf & Hhb & Hmp & Hin). fold p in Hin, Ha.
  pose proof Hg as (_ & Hmax & _).
  assert (Hcap : p + Z.of_nat (length out) < 2 ^ 31) by (unfold PAGE_SIZE in *; lia).
  unfold write_cells. rewrite Ha. rewrite (proj2 (Z.eqb_neq p 0)) by lia.
  rewrite !as_i32_small by lia. unfold write_le_i32. rewrite !(wrap32_small cell), !(wrap32_small (cell + 4)) by lia.
  set (g2 := store p out g1).
  assert (Hl2 : mem_bytes g2 = mem_bytes g1).
  { unfold mem_bytes, g2. rewrite length_store; [done|lia|done]. }
  assert (Hr2 : region (memory g2) p out) by (apply store_region; [lia|done]).
  set (b1 := le4 4 (wrap32 p)). set (b2 := le4 4 (wrap32 (Z.of_nat (length out)))).
  assert (Hb1 : length b1 = 4%nat) by apply length_le4.
  assert (Hb2 : length b2 = 4%nat) by apply length_le4.
  set (g3 := store cell b1 g2).
  assert (Hl3 : mem_bytes g3 = mem_bytes g1).
  { unfold mem_bytes, g3. rewrite length_store; [done|lia|rewrite Hb1; lia]. }
  assert (Hr3 : region (memory g3) cell b1) by (apply store_region; [lia|rewrite Hb1; lia]).
  assert (Hr3' : region (memory g3) p out).
  { apply store_other; [lia|rewrite Hb1; lia|done|rewrite Hb1; lia]. }
  split_and!; try lia.
  - apply store_other; [lia|rewrite Hb2; lia|done|rewrite Hb1; lia].
  - apply store_region; [lia|rewrite Hb2; lia].
  - apply store_other; [lia|rewrite Hb2; lia|done|rewrite Hb2; lia].
Qed.

Lemma load_region a (bytes : string) g :
  region (memory g) a (String.list_ascii_of_string bytes) → a + len bytes < 2 ^ 31 →
  load a (as_i32 (len bytes)) g = bytes.
Proof.
  intros Hr Hb. pose proof Hr as (Ha & _). unfold load.
  assert (Hl : 0 ≤ len bytes) by (unfold len; lia).
  rewrite as_i32_small, !wrap32_small by lia.
  rewrite <-length_list_ascii, Nat2Z.id, region_take_drop by done.
  apply String.string_of_list_ascii_of_string.
Qed.

(** ** The whole call *)

Section EndToEnd.
Context (g0 : Guest).
#[local] Instance mean_wasm : Wasmtime unit Guest := mean_wasmtime g0.

Lemma write_block a bytes (g : Guest) :
  0 ≤ a → a + Z.of_nat (length bytes) ≤ mem_bytes g → a + Z.of_nat (length bytes) < 2 ^ 31 →
  write_into_memory (i32_as_usize a) bytes g = (Ok (), store a bytes g).
Proof.
  intros Ha Hin Hb. unfold write_into_memory, checked_add. rewrite usize_small by lia.
  rewrite (proj2 (Z.leb_le _ U64_MAX)) by (unfold U64_MAX; lia).
  unfold get_range, data. simpl. unfold mem_bytes in Hin.
  rewrite (proj2 (andb_true_iff _ _)) by lia. done.
Qed.
Lemma read_region a bytes (g : Guest) :
  region (memory g) a bytes → a + Z.of_nat (length bytes) < 2 ^ 31 →
  read_bytes a (Z.of_nat (length bytes)) g = Ok bytes.
Proof.
  intros Hr Hb. unfold read_bytes, checked_add.
  rewrite (proj2 (Z.leb_le _ U64_MAX)) by (unfold U64_MAX; lia). unfold_act.
  assert (Hg : get_range (memory g) a (a + Z.of_nat (length bytes)) = Some bytes)
    by (by apply get_range_region).
  by rewrite Hg.
Qed.
Lemma read_cell a v (g : Guest) :
  region (memory g) a (le4 4 (wrap32 v)) → 0 ≤ v < 2 ^ 31 → a + 4 < 2 ^ 31 →
  read_i32 (i32_as_usize a) g = Ok v.
Proof.
  intros Hr Hv Hb. pose proof Hr as (Ha & _). unfold read_i32, checked_add.
  rewrite usize_small by lia.
  rewrite (proj2 (Z.leb_le _ U64_MAX)) by (unfold U64_MAX; lia).
  assert (Hg : get_range (memory g) a (a + 4) = Some (le4 4 (wrap32 v))).
  { apply get_range_region. split; [done|]. by rewrite length_le4. }
  unfold mbind, result_bind, ok_or, data. simpl. rewrite Hg. by rewrite i32_cell.
Qed.

(** Staging a block: allocation and copy, seen from the rest of the call. *)
Lemma stage_run fuel il (x : string) (g : Guest) :
  let p := align8 (next_free g) in
  guest_ok g → p + len x + PAGE_SIZE ≤ max_pages g * PAGE_SIZE →
  ∃ g', (∀ B (k : Z → act Guest RuntimeError B),
      (call fuel il (call_alloc (as_i32 (len x))) ≫= λ q,
         write_into_memory (i32_as_usize q) (String.list_ascii_of_string x) ≫= λ _, k q) g
      = k p g') ∧
    guest_ok g' ∧ next_free g' = p + len x ∧ max_pages g' = max_pages g ∧
    region (memory g') p (String.list_ascii_of_string x) ∧
    ∀ a b, region (memory g) a b → a + Z.of_nat (length b) ≤ next_free g → region (memory g') a b.
Proof.
  intros p Hg Hroom. pose proof Hg as (_ & Hmax & _).
  pose proof (length_list_ascii x) as Hl. set (b := String.list_ascii_of_string x) in *.
  pose proof (align8_bounds (next_free g)) as Hal. fold p in Hal.
  destruct (stage_block b g Hg) as (g1 & Ha & Hpos & Hok & Hnf & Hmp & Hhb & Hin & Hkeep);
    [fold p; lia|]. fold p in Ha, Hpos, Hnf, Hin. rewrite Hl in *.
  assert (Hlt : p + len x < 2 ^ 31) by (unfold PAGE_SIZE in *; lia).
  exists (store p b g1). split_and!; try done.
  - intros B k. rewrite act_bind_eq. unfold call, act_map_err. simpl. rewrite Ha. simpl.
    by rewrite act_bind_eq, write_block by lia.
  - apply guest_ok_store; [lia|lia|done].
  - apply store_region; lia.
  - intros a c Hr Hbelow. apply store_other; [lia|lia|by apply Hkeep|lia].
Qed.

(** Reading the announced output, seen from the host. *)
Lemma read_output (cells p code : Z) (out : string) (g : Guest) :
  region (memory g) cells (le4 4 (wrap32 p)) →
  region (memory g) (cells + 4) (le4 4 (wrap32 (len out))) →
  region (memory g) p (String.list_ascii_of_string out) →
  0 ≤ p → p + len out < 2 ^ 31 → cells + 8 < 2 ^ 31 → len out ≤ MAX_OUTPUT_BYTES →
  (out_ptr ← reading (read_i32 (i32_as_usize cells));
   out_len ← reading (read_i32 (i32_as_usize (cells + 4)));
   _ ← lift (reject_if (out_len <? 0)
        (RtTrap ("guest returned negative output length: " +:+ show_i64 out_len)));
   _ ← lift (reject_if (MAX_OUTPUT_BYTES <? i32_as_usize out_len)
        (RtSizeLimit ("DRT output is " +:+ show_u64 (i32_as_usize out_len) +:+ " bytes (limit "
           +:+ show_u64 MAX_OUTPUT_BYTES +:+ ")")));
   b ← reading (read_bytes (i32_as_usize out_ptr) (i32_as_usize out_len));
   mret (mkRuntimeOutput code b)) g = (Ok (mkRuntimeOutput code (String.list_ascii_of_string out)), g).
Proof.
  intros Hc1 Hc2 Hbody Hp Hpe Hc Hmax. pose proof Hc1 as (Hc0 & _).
  assert (Hl : 0 ≤ len out) by (unfold len; lia).
  pose proof (length_list_ascii out) as Hol.
  rewrite act_bind_eq. unfold reading at 1. rewrite (read_cell cells _ g Hc1) by lia.
  rewrite act_bind_eq. unfold reading at 1. rewrite (read_cell (cells + 4) _ g Hc2) by lia.
  rewrite act_bind_lift. unfold reject_if. rewrite (proj2 (Z.ltb_ge _ 0)) by lia.
  rewrite act_bind_lift. rewrite usize_small by lia. rewrite (proj2 (Z.ltb_ge _ _)) by lia.
  rewrite act_bind_eq. unfold reading. rewrite usize_small by lia. rewrite <-Hol.
  by rewrite (read_region p _ g Hbody) by lia.
Qed.

Lemma mean_instance_run fuel il csv args code out :
  guest_ok g0 → pub_off g0 = 0 → run_outcome csv args = (code, out) →
  len out ≤ MAX_OUTPUT_BYTES →
  heap_base g0 + len csv + len args + len out + 36 + PAGE_SIZE ≤ max_pages g0 * PAGE_SIZE →
  (run_instance fuel il csv args g0).1 =
    Ok (mkRuntimeOutput code (String.list_ascii_of_string out)).
Proof.
  intros Hg Hp0 Hout Hmax Hroom. pose proof Hg as (Hh & Hmp & _).
  assert (Hlens : 0 ≤ len csv ∧ 0 ≤ len args ∧ 0 ≤ len out) by (unfold len; lia).
  assert (Hcap : max_pages g0 * PAGE_SIZE ≤ 2 ^ 31) by (unfold PAGE_SIZE; lia).
  assert (Hpg : 0 < PAGE_SIZE) by done.
  assert (Hnf0 : next_free g0 = heap_base g0) by (unfold next_free; by rewrite Hp0).
  unfold run_instance. do 2 (rewrite act_bind_eq; simpl).
  pose proof (align8_bounds (next_free g0)) as Hb0.
  destruct (stage_run fuel il csv g0) as (g1 & Hrun1 & Hg1 & Hnf1 & Hmp1 & Hr1 & _); [done|lia|].
  rewrite Hrun1. clear Hrun1.
  pose proof (align8_bounds (next_free g1)) as Hb1.
  destruct (stage_run fuel il args g1) as (g2 & Hrun2 & Hg2 & Hnf2 & Hmp2 & Hr2 & Hk2);
    [done|rewrite Hmp1; lia|]. rewrite Hrun2. clear Hrun2.
  apply Hk2 in Hr1; [|rewrite length_list_ascii; lia]. clear Hk2.
  pose proof (align8_bounds (next_free g2)) as Hb2.
  destruct (stage_block (replicate 8 (char_of 0)) g2 Hg2)
    as (g3 & Ha3 & Hpos3 & Hg3 & Hnf3 & Hmp3 & _ & Hin3 & Hk3); [simpl length; lia|].
  change (as_i32 (Z.of_nat (length (replicate 8 (char_of 0))))) with 8 in Ha3.
  change (Z.of_nat (length (replicate 8 (char_of 0)))) with 8 in Hnf3, Hin3.
  apply Hk3 in Hr1, Hr2. clear Hk3.
  rewrite act_bind_eq. unfold call, act_map_err at 1. simpl. rewrite Ha3. simpl.
  rewrite act_bind_eq. simpl. rewrite act_bind_eq. unfold act_map_err at 1. simpl.
  set (cells := align8 (next_free g2)) in *.
  unfold guest_run. rewrite !load_region by (first [done|lia]). rewrite Hout. simpl.
  pose proof (length_list_ascii out) as Hol.
  pose proof (align8_bounds (next_free g3)) as Hb3.
  destruct (write_cells_regions cells (String.list_ascii_of_string out) g3 Hg3)
    as (Hc1 & Hc2 & Hbody & Hp & Hpe); [lia|lia|lia|].
  rewrite Hol in *. rewrite (as_i32_small (cells + 4)) by lia.
  erewrite read_output; [done|exact Hc1|exact Hc2|exact Hbody|lia..].
Qed.
End EndToEnd.

(** A query runs end to end.  For an instance of the mean guest with enough
    memory, staging any CSV and arguments of less than 16 MiB together with the
    answer (so that the public blocks stay below the region of the guest's own
    allocator), the host returns exactly the exit code and the body that the
    guest computes for that CSV and those arguments, with or without a
    precompiled artifact and whatever faults its files have. *)
Theorem mean_query_end_to_end (g0 : Guest) (re : RtEnv) (wasm : string) (cwasm : option string)
    (csv args out : string) (code : Z) (s : Fs) :
  guest_ok g0 → pub_off g0 = 0 → run_outcome csv args = (code, out) →
  len out ≤ MAX_OUTPUT_BYTES →
  len csv + len args + len out + 36 ≤ GLOBAL_OFFSET_FROM_HEAP_BASE →
  heap_base g0 + GLOBAL_OFFSET_FROM_HEAP_BASE + PAGE_SIZE ≤ max_pages g0 * PAGE_SIZE →
  (run_with (H := mean_wasmtime g0) re WorkerDone wasm cwasm csv args s).1 =
    Ok (mkRuntimeOutput code (String.list_ascii_of_string out)).
Proof.
  intros Hg Hp Hout Hmax Hsmall Hroom. unfold run_with. rewrite act_bind_lift. unfold reject_if.
  assert (Hlens : 0 ≤ len csv ∧ 0 ≤ len args ∧ 0 ≤ len out) by (unfold len; lia).
  rewrite (proj2 (Z.ltb_ge _ (len csv)))
    by (unfold MAX_INPUT_BYTES, GLOBAL_OFFSET_FROM_HEAP_BASE in *; lia).
  assert (Hload : (load_module (H := mean_wasmtime g0) re wasm cwasm s).1 = Ok ()).
  { destruct cwasm as [p|]; [|done]. unfold load_module. rewrite act_bind_eq. simpl.
    by destruct (deserialize_file _ _ _) as [[]|]. }
  unfold await_worker, run_blocking. rewrite act_bind_lift. unfold engine. cbn [map_err engine_new mean_wasmtime].
  rewrite act_bind_eq.
  destruct (load_module (H := mean_wasmtime g0) re wasm cwasm s) as [r s']. simpl in Hload. subst r.
  rewrite act_bind_lift. cbn [map_err set_fuel mean_wasmtime].
  rewrite act_bind_lift. cbn [map_err func_wrap mean_wasmtime].
  rewrite act_bind_lift. cbn [map_err instantiate mean_wasmtime]. unfold lift.
  apply mean_instance_run; auto; lia.
Qed.

(** ** Examples *)

Definition guest1 : Guest := mkGuest 8 (replicate 64 (char_of 0)) 512 0 0.
Lemma guest1_ok : guest_ok guest1.
Proof. unfold guest_ok, mem_bytes, PAGE_SIZE. simpl. lia. Qed.
Definition csv1 : string := "name,pay" +:+ str1 lf +:+ "x,1" +:+ str1 lf +:+ "y,3" +:+ str1 lf.
Definition args1 : string :=
  "{" +:+ json_key "column" +:+ ":" +:+ str1 quote +:+ "pay" +:+ str1 quote +:+ "}".
Definition re1 : RtEnv := mkRtEnv IoOk IoOk IoOk IoOk "1.0".
Definition fs1 : Fs := mkFs ∅ ∅.

(** The mean of 1 and 3. *)
Lemma mean_query_end_to_end_witness :
  ∃ out, (run_with (H := mean_wasmtime guest1) re1 WorkerDone "wasm" None csv1 args1 fs1).1 =
    Ok (mkRuntimeOutput 0 (String.list_ascii_of_string out)) ∧
    out = format_result "pay" (mkMean 2 0 (f64_of_Z 2)).
Proof.
  exists (run_outcome csv1 args1).2. split; [|vm_compute; reflexivity].
  apply (mean_query_end_to_end guest1).
  - apply guest1_ok.
  - reflexivity.
  - vm_compute. reflexivity.
  - vm_compute. discriminate.
  - vm_compute. discriminate.
  - vm_compute. discriminate.
Defined.

(** After a precompilation and an execution that heals nothing. *)
Definition ops1 : list rt_op := [RtEnsure re1; RtExecute re1 WorkerDone csv1 JNull].
Lemma cwasm_cache_transparent_witness :
  let path := precompile_cache_path "/data/drt-scripts" "00" in
  let s := foldl (rt_step (H := mean_wasmtime guest1) "/data/drt-scripts" "00" "wasm") fs1 ops1 in
  (run_with (H := mean_wasmtime guest1) re1 WorkerDone "wasm" (Some path) csv1 args1 s).1 =
  (run_with (H := mean_wasmtime guest1) re1 WorkerDone "wasm" None csv1 args1 s).1.
Proof.
  exact (proj1 (@cwasm_cache_transparent unit Guest (mean_wasmtime guest1) (mean_wasmtime_laws guest1)
    _ "/data/drt-scripts" "00" "wasm" ops1 fs1 re1 WorkerDone csv1 args1 "" eq_refl)).
Defined.

Lemma guest_output_confined_witness :
  ∃ out i' cells,
    (execute_cached (H := mean_wasmtime guest1) re1 WorkerDone "/c" "wasm" csv1 JNull fs1).1 = Ok out ∧
    announced (memory i') cells (body out).
Proof.
  assert (Hok : is_ok (execute_cached (H := mean_wasmtime guest1) re1 WorkerDone "/c" "wasm" csv1
    JNull fs1).1 = true) by (vm_compute; reflexivity).
  destruct (execute_cached (H := mean_wasmtime guest1) re1 WorkerDone "/c" "wasm" csv1 JNull fs1)
    as [[out|] s'] eqn:He; [|discriminate Hok].
  destruct (@guest_output_confined unit Guest (mean_wasmtime guest1) _ re1 WorkerDone "/c" "wasm"
    csv1 JNull fs1 s' out He) as (_ & t & m & i & c & a & cells & j & i' & _ & _ & _ & _ & Ha).
  exists out, i', cells. split; [reflexivity|exact Ha].
Defined.
