(* ===== verification/Query.v ===== *)
(** * Running a DRT on a pool

    The query endpoint of src/src/handlers.rs: metadata lookup, grant check,
    verified fetch, concatenation of the pool's datasets, sandboxed execution,
    and the audit record of the outcome. *)
From S2P Require Import Prelude.
From S2P Require Import RustStr.
From S2P Require Import RustFmt.
From S2P Require Import Errors.
From S2P Require Import Types.
From S2P Require Import Interfaces.
From S2P Require Import TxDatabase.
From S2P Require Import Storage.
From S2P Require Import TxCache.
From S2P Require Import AppState.
From S2P Require Import Http.
From S2P Require Import VerifiedFetch.
From S2P Require Import Runtime.

Local Open Scope Z_scope.
#[local] Arguments String.append : simpl nomatch.

(** ** [String::from_utf8_lossy] *)

(** The length of the first character and whether it is well formed; of an
    ill-formed one, the length of its maximal well-formed prefix. *)
Definition utf8_step (s : string) : nat * bool :=
  match s with
  | EmptyString => (0%nat, true)
  | String a s1 =>
      let second := match s1 with
                    | String b _ =>
                        if byte a =? 224 then in_range 160 191 b
                        else if byte a =? 237 then in_range 128 159 b
                        else if byte a =? 240 then in_range 144 191 b
                        else if byte a =? 244 then in_range 128 143 b
                        else is_cont b
                    | EmptyString => false
                    end in
      let third := match s1 with String _ (String c _) => is_cont c | _ => false end in
      let fourth := match s1 with String _ (String _ (String d _)) => is_cont d | _ => false end in
      if byte a <? 128 then (1%nat, true)
      else if in_range 194 223 a then if second then (2%nat, true) else (1%nat, false)
      else if in_range 224 239 a then
        if second then if third then (3%nat, true) else (2%nat, false) else (1%nat, false)
      else if in_range 240 244 a then
        if second then
          if third then if fourth then (4%nat, true) else (3%nat, false) else (2%nat, false)
        else (1%nat, false)
      else (1%nat, false)
  end.
Definition replacement : string :=
  String (char_of 239) (String (char_of 191) (String (char_of 189) EmptyString)).
Fixpoint lossy (fuel : nat) (s : string) : string :=
  match fuel, s with
  | S n, String _ _ =>
      let '(k, good) := utf8_step s in
      (if good then String.substring 0 k s else replacement)
        +:+ lossy n (String.substring k (String.length s - k) s)
  | _, _ => EmptyString
  end.
Definition from_utf8_lossy (s : string) : string := lossy (String.length s) s.

(** ** The pool's datasets *)

(** [Path::extension] of a file name. *)
Definition extension (name : string) : option string :=
  match rsplit_once "." name with
  | Some (EmptyString, _) | None => None
  | Some (_, e) => Some e
  end.
(** The files of [std::fs::read_dir] with extension [csv], sorted.  (A
    subdirectory of that name would be listed too; reading it fails and it is
    skipped.) *)
Definition csv_entries (dir : string) (s : Fs) : list string :=
  merge_sort String.le (List.filter (λ p,
    match strip_prefix (dir +:+ "/") p with
    | Some name => no_char "/" name && bool_decide (extension name = Some "csv")
    | None => false
    end) ((map_to_list (files s)).*1)).

(** The loop over one file: the output so far and whether the header is out. *)
Definition append_lines (out : string) (ls : list string) : string :=
  foldl (λ o line, if bool_decide (line = "") then o else o +:+ line +:+ newline) out ls.
Definition concat_file (io : string → io_fault) (s : Fs) (st : string * bool) (path : string) :
    string * bool :=
  let '(out, header_emitted) := st in
  match (read_raw (io path) path s).1 with
  | Err _ => st
  | Ok buf =>
      if negb (utf8_valid buf) then st
      else match lines buf with
           | [] => st
           | header :: rest =>
               let out := if header_emitted then out else out +:+ header +:+ newline in
               (append_lines out rest, true)
           end
  end.
Definition load_and_concat_pool_csvs (dir_io : io_fault) (io : string → io_fault) (dir : string)
    (s : Fs) : string :=
  match dir_io with
  | IoRead _ => ""
  | _ => if bool_decide (dir ∈ dirs s) then
           (foldl (concat_file io s) ("", false) (csv_entries dir s)).1
         else ""
  end.

(** ** The handler *)

(** [Display for ApiError]. *)
Definition display_api (e : ApiError) : string := show_u64 (status e) +:+ ": " +:+ message e.

Record DataQueryRequest := mkQuery { q_pool_pda : string; q_drt_name : string; q_args : Json }.
Record DataQueryResponse := mkQueryResponse {
  qr_pool_pda : string; qr_drt_name : string; qr_code_hash_hex : string;
  qr_exit_code : Z; qr_result : Json }.

(** What the environment does during one query. *)
Record QueryEnv (T : Type) `{RedbTxn (Db T)} := mkQueryEnv {
  qe_meta : io_fault;
  qe_grant : renv (Db T);
  qe_fetch : FetchEnv;
  qe_dir : io_fault;
  qe_file : string → io_fault;
  qe_pre : RtEnv;
  qe_run : RtEnv;
  qe_worker : worker;
  qe_audit : AuditIo;
  qe_audit_db : renv (Db T);
  qe_event_id : string;
  qe_now : DateTime;
}.
Arguments mkQueryEnv {T _} _ _ _ _ _ _ _ _ _ _ _ _.
Arguments qe_meta {T _} _.
Arguments qe_grant {T _} _.
Arguments qe_fetch {T _} _.
Arguments qe_dir {T _} _.
Arguments qe_file {T _} _.
Arguments qe_pre {T _} _.
Arguments qe_run {T _} _.
Arguments qe_worker {T _} _.
Arguments qe_audit {T _} _.
Arguments qe_audit_db {T _} _.
Arguments qe_event_id {T _} _.
Arguments qe_now {T _} _.

Section Query.
Context {T C M I : Type} `{RedbTable T, RedbTxn (Db T), DbCrates, AuditCrates, HashCrates}.
Context `{Wasmtime M I, Serde AuditEvent, Serde PoolMetadata, Serde GrantRecord, Serde Json}.
Abbreviation St := (AppState T C).
Abbreviation handler A := (act St ApiError A).

Definition on_fetch {A} (m : act Fs VerifiedFetchError A) : handler A :=
  act_map_err api_of_fetch (zoom storage set_storage m).
Definition on_runtime {A} (m : act Fs RuntimeError A) : handler A :=
  act_map_err api_of_runtime (zoom storage set_storage m).

(** [match ensure_precompiled(..) { Ok(p) => p, Err(_) => .. }]. *)
Definition prime_cache (re : RtEnv) (scripts_dir hash wasm : string) : handler string := λ st,
  match ensure_precompiled re scripts_dir hash wasm (storage st) with
  | (Ok p, fs) => (Ok p, set_storage fs st)
  | (Err _, fs) => (Ok (precompile_cache_path scripts_dir hash), set_storage fs st)
  end.

Definition body_json (b : list ascii) : Json :=
  let s := String.string_of_list_ascii b in
  match from_slice s with Ok v => v | Err _ => JStr (from_utf8_lossy s) end.

Definition data_query_inner (e : QueryEnv T) (token : TokenData) (payload : DataQueryRequest) :
    handler DataQueryResponse :=
  let pool := q_pool_pda payload in
  let name := q_drt_name payload in
  _ ← lift (reject_if (bool_decide (name = "")) (Api.bad_request "drt_name cannot be empty"));
  meta ← act_map_err (λ _, Api.not_found ("pool " +:+ pool +:+ " not found"))
           (zoom storage set_storage
              (read_json (A := PoolMetadata) (qe_meta e) (pool_meta DATA_DIR pool)));
  drt ← lift (ok_or (p_drts meta !! name) (Api.not_found ("DRT '" +:+ name +:+ "' not in pool")));
  _ ← lift (reject_if (bool_decide (d_code_repo_url drt = ""))
        (Api.bad_request ("DRT '" +:+ name +:+ "' has no executable script (append-only)")));
  active ← act_map_err (λ x, Api.internal ("grant lookup: " +:+ display_txdb x))
             (zoom tx_db set_tx_db (is_grant_active (qe_grant e) (sub token) pool name));
  _ ← lift (reject_if (negb active)
        (Api.forbidden ("no active grant for DRT '" +:+ name +:+ "' in pool " +:+ pool)));
  wasm_bytes ← on_fetch (fetch_and_verify (qe_fetch e) DATA_DIR (d_code_repo_url drt)
                           (d_code_hash_hex drt));
  csv ← reading (λ st, Ok (load_and_concat_pool_csvs (qe_dir e) (qe_file e)
                             (pool_dataset_dir DATA_DIR pool) (storage st)));
  _ ← lift (reject_if (bool_decide (csv = "")) (Api.bad_request "pool has no data uploaded yet"));
  let scripts_dir := join DATA_DIR "drt-scripts" in
  cache_path ← prime_cache (qe_pre e) scripts_dir (d_code_hash_hex drt) wasm_bytes;
  output ← on_runtime (execute_cached (qe_run e) (qe_worker e) cache_path wasm_bytes csv
                         (q_args payload));
  mret (mkQueryResponse pool name (d_code_hash_hex drt) (exit_code output)
          (body_json (body output))).

(** The audit event of a query; [serde_json::Map] keeps its keys sorted. *)
Definition query_details (payload : DataQueryRequest) (r : result ApiError DataQueryResponse) :
    Json :=
  JObj (("args", q_args payload) ::
        match r with
        | Ok resp => [("code_hash_hex", JStr (qr_code_hash_hex resp));
                      ("drt_name", JStr (q_drt_name payload));
                      ("exit_code", JNum (qr_exit_code resp));
                      ("pool_pda", JStr (q_pool_pda payload))]
        | Err x => [("drt_name", JStr (q_drt_name payload));
                    ("error", JStr (display_api x));
                    ("pool_pda", JStr (q_pool_pda payload))]
        end).
Definition query_success (r : result ApiError DataQueryResponse) : bool :=
  match r with Ok resp => qr_exit_code resp =? 0 | Err _ => false end.
Definition query_event (e : QueryEnv T) (token : TokenData) (payload : DataQueryRequest)
    (r : result ApiError DataQueryResponse) : AuditEvent :=
  with_success (query_success r)
    (with_details (query_details payload r)
      (with_pool_pda (q_pool_pda payload)
        (with_resource "drt_pool" (q_pool_pda payload)
          (with_user (sub token) (event_new (qe_event_id e) (qe_now e) DrtExecuted))))).
Definition record_drt_execution_audit (e : QueryEnv T) (token : TokenData)
    (payload : DataQueryRequest) (r : result ApiError DataQueryResponse) (st : St) : St :=
  audit_log_event (qe_audit e) (Some (qe_audit_db e)) (query_event e token payload r) st.

Definition data_query (e : QueryEnv T) (token : TokenData) (payload : DataQueryRequest) :
    handler DataQueryResponse := λ st,
  let '(r, st1) := data_query_inner e token payload st in
  (r, record_drt_execution_audit e token payload r st1).
End Query.
