(* ===== verification/QueryFacts.v ===== *)
(** * What a query guarantees

    A query is answered only under an active grant, and the code it ran is the
    compilation of a script with the digest registered for the DRT, along any
    sequence of queries. *)
From S2P Require Import Prelude.
From S2P Require Import RustStr.
From S2P Require Import RustFmt.
From S2P Require Import Errors.
From S2P Require Import Types.
From S2P Require Import Interfaces.
From S2P Require Import TxDatabase.
From S2P Require Import Instances.
From S2P Require Import TxScans.
From S2P Require Import Storage.
From S2P Require Import TxCache.
From S2P Require Import AppState.
From S2P Require Import AuditLog.
From S2P Require Import Http.
From S2P Require Import VerifiedFetch.
From S2P Require Import FetchFacts.
From S2P Require Import Runtime.
From S2P Require Import RuntimeFacts.
From S2P Require Import Mean.
From S2P Require Import MeanFacts.
From S2P Require Import MeanHost.
From S2P Require Import Query.

Local Open Scope Z_scope.
#[local] Arguments String.append : simpl nomatch.

(** ** Paths of artifacts *)

Definition scripts_dir : string := join DATA_DIR "drt-scripts".
Definition artifact_path (h : string) : string := precompile_cache_path scripts_dir h.

Fixpoint last_char (s : string) : option ascii :=
  match s with
  | EmptyString => None
  | String c EmptyString => Some c
  | String _ s' => last_char s'
  end.
Lemma last_char_app a b : b ≠ "" → last_char (a +:+ b) = last_char b.
Proof.
  intros Hb. induction a as [|c a IH]; [done|]. simpl. rewrite <-IH.
  destruct (a +:+ b) eqn:Hab; [|done]. by destruct a, b.
Qed.
Lemma app_nonempty_r a b : b ≠ "" → a +:+ b ≠ "".
Proof. by destruct a, b. Qed.
(** Compute the last character of a concatenation. *)
Ltac last_char_in H :=
  repeat (rewrite last_char_app in H by (repeat (first [done|apply app_nonempty_r]))).

Section Paths.
Context `{HashCratesLaws}.

(** A hash text as the metadata should hold it. *)
Definition hash_text (h : string) : Prop := ∃ b, decode_hash h = Ok b.

Lemma hash_text_chars h :
  hash_text h → no_char "/" h = true ∧ no_char "." h = true ∧ starts_with "/" h = false.
Proof.
  intros [b [Hd _]%decode_hash_ok]. destruct (hex_decode_chars _ _ Hd) as [Hs Hp].
  split_and!; [done..|]. apply not_true_iff_false. by intros [r ->]%starts_with_spec.
Qed.
Lemma artifact_path_eq h :
  hash_text h → artifact_path h = "/data/drt-scripts/" +:+ h +:+ ".wt37.cwasm".
Proof.
  intros (Hs & Hp & Hsl)%hash_text_chars. unfold artifact_path, precompile_cache_path, scripts_dir.
  rewrite join_dir; [done..|]. apply not_true_iff_false. intros [r He]%starts_with_spec.
  destruct h as [|c h]; [done|]. simpl in He. by simplify_eq.
Qed.
Lemma script_path_eq h : hash_text h → cache_path_for DATA_DIR h = "/data/drt-scripts/" +:+ h.
Proof.
  intros (Hs & Hp & Hsl)%hash_text_chars. unfold cache_path_for. rewrite join_dir; [done..|exact Hsl].
Qed.
Lemma artifact_last h : hash_text h → last_char (artifact_path h) = Some "m"%char.
Proof. intros Hh. rewrite artifact_path_eq by done. rewrite last_char_app by (by destruct h). by rewrite last_char_app. Qed.

(** The files a query writes besides an artifact are not artifacts. *)
Lemma artifact_not_script h h' :
  hash_text h → hash_text h' → artifact_path h ≠ cache_path_for DATA_DIR h'.
Proof.
  intros Hh Hh' He. rewrite artifact_path_eq, script_path_eq in He by done.
  apply append_inj_len in He as [_ He]; [|done].
  apply hash_text_chars in Hh' as (_ & Hp & _). rewrite <-He in Hp.
  change ".wt37.cwasm" with (String "." "wt37.cwasm") in Hp.
  rewrite no_char_append in Hp. apply andb_true_iff in Hp as [_ Hp]. done.
Qed.
Lemma artifact_not_script_tmp h h' :
  hash_text h → hash_text h' → artifact_path h ≠ with_extension (cache_path_for DATA_DIR h') "tmp".
Proof.
  intros Hh Hh' He. apply (f_equal last_char) in He. rewrite artifact_last in He by done.
  unfold with_extension in He. destruct (rsplit_once "/" _) as [[d f]|];
    last_char_in He; done.
Qed.
Lemma artifact_not_publish_tmp h p tag :
  hash_text h →
  artifact_path h ≠ with_file_name p ("." +:+ rsplit_next "/" p +:+ "." +:+ tag +:+ ".tmp").
Proof.
  intros Hh He. apply (f_equal last_char) in He. rewrite artifact_last in He by done.
  unfold with_file_name in He. destruct (rsplit_once "/" p) as [[d f]|];
    last_char_in He; done.
Qed.
Lemma artifact_not_audit h date :
  hash_text h → artifact_path h ≠ audit_events_file DATA_DIR date.
Proof.
  intros Hh He. apply (f_equal last_char) in He. rewrite artifact_last in He by done.
  unfold audit_events_file, join in He. destruct (starts_with "/" (date +:+ ".jsonl"));
    [|destruct (ends_slash _ || _)]; last_char_in He; done.
Qed.
Lemma artifact_not_key h : hash_text h → artifact_path h ≠ audit_key_path.
Proof. intros Hh He. apply (f_equal last_char) in He. by rewrite artifact_last in He. Qed.
End Paths.

(** ** Sound artifacts *)

Definition publish_tmp_of (path tag : string) : string :=
  with_file_name path ("." +:+ rsplit_next "/" path +:+ "." +:+ tag +:+ ".tmp").

Section Artifacts.
Context {M I : Type} `{WasmtimeLaws M I, HashCratesLaws}.

(** Every stored artifact is the compilation of a script with the digest in its
    name. *)
Definition artifacts_sound (s : Fs) : Prop :=
  ∀ h c, hash_text h → files s !! artifact_path h = Some c →
    ∃ w, hex_decode h = Ok (sha256 w) ∧ artifact_of w c.

(** What the runtime may do to the files for the script [w]. *)
Definition wrote (path w : string) (s s' : Fs) : Prop :=
  (∀ p, p ≠ path → (∀ tag, p ≠ publish_tmp_of path tag) → files s' !! p = files s !! p) ∧
  (files s' !! path = files s !! path ∨ ∃ b, artifact_of w b ∧ files s' !! path = Some b).

Lemma wrote_refl path w s : wrote path w s s.
Proof. split; auto. Qed.
Lemma wrote_files path w s s' : files s' = files s → wrote path w s s'.
Proof. intros Hf. split; [by intros; rewrite Hf|]. left. by rewrite Hf. Qed.
Lemma wrote_trans path w s1 s2 s3 :
  wrote path w s1 s2 → wrote path w s2 s3 → wrote path w s1 s3.
Proof.
  intros [Hp12 H12] [Hp23 H23]. split.
  - intros p Hne Ht. rewrite Hp23, Hp12 by done. done.
  - destruct H23 as [->|?]; auto.
Qed.
Lemma publish_wrote io tag path w b s :
  artifact_of w b → wrote path w s (publish io tag path b s).2.
Proof.
  intros Ha. split.
  - intros p Hne Ht. rewrite publish_files by apply (Ht tag). rewrite decide_False by done.
    by destruct (is_ok _).
  - rewrite publish_files by (apply not_eq_sym, publish_tmp). rewrite decide_True by done.
    destruct (is_ok _); eauto.
Qed.

Lemma artifact_path_inj h h' :
  hash_text h → hash_text h' → artifact_path h = artifact_path h' → h = h'.
Proof.
  intros Hh Hh' He. rewrite !artifact_path_eq in He by done.
  apply append_inj_len in He as [_ He]; [|done].
  apply hash_text_chars in Hh as (_ & Hd & _), Hh' as (_ & Hd' & _).
  by apply (split_inj "." h h' "wt37.cwasm" "wt37.cwasm") in He as [-> _].
Qed.
Lemma wrote_sound h w s s' :
  hash_text h → hex_decode h = Ok (sha256 w) → wrote (artifact_path h) w s s' →
  artifacts_sound s → artifacts_sound s'.
Proof.
  intros Hh Hw [Hp Hpath] Hs h' c Hh' Hc. destruct (decide (h' = h)) as [->|Hne].
  - destruct Hpath as [Heq|(b & Hb & Heq)]; rewrite Heq in Hc; [by apply (Hs h)|].
    simplify_eq. eauto.
  - apply (Hs h' c Hh'). rewrite <-Hc. symmetry. apply Hp.
    + intros He. by apply artifact_path_inj in He.
    + intros tag. by apply artifact_not_publish_tmp.
Qed.

(** ** The runtime's operations *)

Lemma ensure_wrote re h w s :
  wrote (artifact_path h) w s (ensure_precompiled re scripts_dir h w s).2 ∧
  ∀ p, (ensure_precompiled re scripts_dir h w s).1 = Ok p → p = artifact_path h.
Proof.
  unfold ensure_precompiled. fold (artifact_path h). rewrite act_bind_lift.
  destruct engine; cbn [map_err]; [|split; [apply wrote_refl|done]].
  rewrite act_bind_eq. cbn [reading]. destruct (_ && _).
  { split; [apply wrote_refl|]. by intros p [= <-]. }
  rewrite act_bind_lift.
  destruct (precompile_module w) as [b|] eqn:Hb; cbn [map_err]; [|split; [apply wrote_refl|done]].
  rewrite act_bind_eq. set (mk := match parent _ with Some d => _ | None => _ end).
  assert (Hmk : (mk s).1 = Ok () ∧ files (mk s).2 = files s).
  { unfold mk. destruct (parent _); [|done]. split; [done|]. unfold best_effort, create_dir.
    by destruct (rt_mkdir re). }
  destruct (mk s) as [r s1]. destruct Hmk as [Hr Hf]. simpl in Hr, Hf. subst r.
  rewrite act_bind_eq. unfold act_map_err.
  pose proof (publish_wrote (rt_write re) (rt_tag re) (artifact_path h) w b s1
    (precompiled_artifact w b Hb)) as Hw.
  destruct (publish _ _ _ b s1) as [[[]|] s2]; simpl in *; (split; [|by try intros p [= <-]]);
    (eapply wrote_trans; [by apply wrote_files|done]).
Qed.

Lemma load_module_wrote re w path s :
  wrote path w s (load_module re w (Some path) s).2 ∧
  ∀ m, (load_module re w (Some path) s).1 = Ok m →
    module_new w = Ok m ∨ ∃ c, files s !! path = Some c ∧ deserialize c = Ok m.
Proof.
  unfold load_module. rewrite act_bind_eq. cbn [reading].
  destruct (deserialize_file (rt_load re) path s) as [m|] eqn:Hd.
  - split; [apply wrote_refl|]. intros m' [= <-]. right. by eapply deserialize_file_some.
  - rewrite act_bind_lift.
    destruct (module_new w) as [m|] eqn:Hm; cbn [map_err]; [|split; [apply wrote_refl|done]].
    rewrite act_bind_eq. unfold heal_cwasm. destruct (serialize m) as [b|] eqn:Hb; simpl.
    + split; [|intros m' [= <-]; by left]. apply publish_wrote. by eapply serialized_artifact.
    + split; [apply wrote_refl|]. intros m' [= <-]. by left.
Qed.

(** A run uses the module that was loaded, and only loading writes files. *)
Lemma run_blocking_load re w path csv args s w' m :
  module_new w' = Ok m → (load_module re w (Some path) s).1 = Ok m →
  (run_blocking re w (Some path) csv args s).1 = (run_blocking re w' None csv args s).1.
Proof.
  intros Hw' Hl. unfold run_blocking. rewrite !act_bind_lift.
  destruct engine; cbn [map_err]; [|done]. rewrite !(act_bind_eq (load_module _ _ _)).
  destruct (load_module re w (Some path) s) as [r s']. simpl in Hl. subst r.
  change (load_module re w' None s) with (map_err RtCompile (module_new w'), s).
  rewrite Hw'. cbn [map_err]. rewrite !act_bind_lift. destruct (set_fuel _); [|done].
  cbn [map_err]. destruct func_wrap; [|done]. cbn [map_err]. by destruct (instantiate m _).
Qed.
Lemma run_blocking_wrote re w path csv args s :
  wrote path w s (run_blocking re w (Some path) csv args s).2 ∧
  ∀ out, (run_blocking re w (Some path) csv args s).1 = Ok out →
    ∃ m, (load_module re w (Some path) s).1 = Ok m.
Proof.
  destruct (load_module_wrote re w path s) as [Hwr _]. unfold run_blocking. rewrite act_bind_lift.
  destruct engine; cbn [map_err]; [|split; [apply wrote_refl|done]]. rewrite act_bind_eq.
  destruct (load_module re w (Some path) s) as [[m|] s']; [|done]. split; [|by exists m].
  rewrite !act_bind_lift. destruct (set_fuel _); cbn [map_err]; [|done].
  destruct func_wrap; cbn [map_err]; [|done]. by destruct (instantiate m _).
Qed.

(** A run through an artifact is a run of a script with the same digest. *)
Lemma run_with_sound re wk h w csv args s :
  hash_text h → hex_decode h = Ok (sha256 w) → artifacts_sound s →
  wrote (artifact_path h) w s (run_with re wk w (Some (artifact_path h)) csv args s).2 ∧
  ∀ out, (run_with re wk w (Some (artifact_path h)) csv args s).1 = Ok out →
    ∃ w', hex_decode h = Ok (sha256 w') ∧ (run_with re wk w' None csv args s).1 = Ok out.
Proof.
  intros Hh Hw Hs. unfold run_with. rewrite act_bind_lift.
  destruct (reject_if _ _) as [[]|]; [|split; [apply wrote_refl|done]].
  destruct (run_blocking_wrote re w (artifact_path h) csv args s) as [Hwr Hl].
  assert (Hok : ∀ out, (run_blocking re w (Some (artifact_path h)) csv args s).1 = Ok out →
    ∃ w', hex_decode h = Ok (sha256 w') ∧ (run_blocking re w' None csv args s).1 = Ok out).
  { intros out Hout. destruct (Hl out Hout) as [m Hm].
    destruct (proj2 (load_module_wrote re w (artifact_path h) s) m Hm) as [Hn|(c & Hc & Hd)].
    - exists w. split; [done|]. by rewrite <-(run_blocking_load re w _ csv args s w m Hn Hm).
    - destruct (Hs h c Hh Hc) as (w' & Hw' & Ha). exists w'. split; [done|].
      by rewrite <-(run_blocking_load re w _ csv args s w' m (Ha m Hd) Hm). }
  unfold await_worker. destruct (run_blocking re w (Some _) csv args s) as [r s'].
  simpl in Hwr, Hok. split; [by destruct wk|].
  intros out Hout. destruct wk; simpl in Hout; try done.
  destruct (Hok out Hout) as (w' & Hw' & Hrun). exists w'. split; [done|].
  rewrite act_bind_lift. by destruct (run_blocking re w' None csv args s).
Qed.
End Artifacts.

(** ** Audit events in the database *)

Section Stored.
Context {T C : Type} `{RedbTableLaws T, RedbTxnLaws (Db T), DbCrates, AuditCrates}.
Context `{SerdeLaws AuditEvent}.
Abbreviation St := (AppState T C).

Lemma log_audit_event_stored env ev (db : Db T) :
  reliable env →
  event_of_id ((log_audit_event env ev db).2 AUDIT_EVENTS) (a_event_id ev) = Some ev ∧
  ∀ n, n ∉ [AUDIT_EVENTS; AUDIT_BY_RESOURCE; AUDIT_BY_DATE] → (log_audit_event env ev db).2 n = db n.
Proof.
  intros Henv. destruct (to_vec_total ev) as [v Hv].
  assert (Ht : touches [AUDIT_EVENTS; AUDIT_BY_RESOURCE; AUDIT_BY_DATE] (log_audit_event env ev))
    by (unfold log_audit_event; solve_touches).
  split; [|intros n Hn; by apply Ht].
  unfold log_audit_event. rewrite act_bind_lift. unfold json_err. rewrite Hv. cbn [map_err].
  rewrite run_write_reliable by done. unfold tbl_insert, updating. rewrite act_bind_eq.
  set (db1 := set_table AUDIT_EVENTS _ db).
  assert (Hget : t_get (db1 AUDIT_EVENTS) (a_event_id ev) = Some v).
  { unfold db1. by rewrite set_table_eq, t_get_insert_eq. }
  unfold event_of_id. rewrite act_bind_eq.
  destruct (a_resource_id ev); simpl; rewrite ?set_table_ne by done; rewrite Hget; simpl;
    by rewrite (from_to _ _ Hv).
Qed.
Lemma audit_log_event_stored ai env ev (st : St) :
  reliable env →
  let db := tx_db (audit_log_event ai (Some env) ev st) in
  (∃ tag, event_of_id (db AUDIT_EVENTS) (a_event_id ev) = Some (with_hmac (Some tag) ev)) ∧
  ∀ n, n ∉ [AUDIT_EVENTS; AUDIT_BY_RESOURCE; AUDIT_BY_DATE] → db n = tx_db st n.
Proof.
  intros Henv. unfold audit_log_event. cbv zeta.
  match goal with |- context [compute_hmac _ _ ?x] => set (st1 := x) end.
  assert (Hst1 : tx_db st1 = tx_db st) by (unfold st1; by destruct (parent _), (ai_mkdir ai)).
  destruct (to_vec_total (with_hmac None ev)) as [j ->].
  pose proof (compute_hmac_frame ai j st1) as (Hd & _ & _).
  destruct (compute_hmac ai j st1) as [tag st2]. simpl in Hd.
  destruct (to_vec_total (with_hmac (Some tag) ev)) as [line ->]. simpl.
  rewrite Hd, Hst1.
  destruct (log_audit_event_stored env (with_hmac (Some tag) ev) (tx_db st) Henv) as [Hev Hn].
  split; [|done]. by exists tag.
Qed.
End Stored.

(** ** The handler *)

Section Handler.
Context {T C M I : Type} `{RedbTableLaws T, RedbTxnLaws (Db T), DbCrates, AuditCrates}.
Context `{WasmtimeLaws M I, HashCratesLaws}.
Context `{SerdeLaws AuditEvent, Serde PoolMetadata, Serde GrantRecord, Serde Json}.
Abbreviation St := (AppState T C).

(** Why and with what code the query [payload] was answered [resp] in [st]. *)
Definition answered (e : QueryEnv T) (token : TokenData) (payload : DataQueryRequest) (st : St)
    (resp : DataQueryResponse) : Prop :=
  ∃ meta drt w out args fs,
    let csv := load_and_concat_pool_csvs (qe_dir e) (qe_file e)
                 (pool_dataset_dir DATA_DIR (q_pool_pda payload))
                 (fetch_and_verify (qe_fetch e) DATA_DIR (d_code_repo_url drt)
                    (d_code_hash_hex drt) (storage st)).2 in
    (read_json (qe_meta e) (pool_meta DATA_DIR (q_pool_pda payload)) (storage st)).1 = Ok meta ∧
    p_drts meta !! q_drt_name payload = Some drt ∧
    is_Some (t_get (tx_db st GRANTS_BY_ANALYST)
               (key3 (sub token) (q_pool_pda payload) (q_drt_name payload))) ∧
    allowed (d_code_repo_url drt) ∧ hex_decode (d_code_hash_hex drt) = Ok (sha256 w) ∧
    to_vec (q_args payload) = Ok args ∧
    (run_with (qe_run e) (qe_worker e) w None csv args fs).1 = Ok out ∧
    resp = mkQueryResponse (q_pool_pda payload) (q_drt_name payload) (d_code_hash_hex drt)
             (exit_code out) (body_json (body out)).

Lemma execute_sound re wk h w csv args s :
  hash_text h → hex_decode h = Ok (sha256 w) → artifacts_sound s →
  artifacts_sound (execute_cached re wk (artifact_path h) w csv args s).2 ∧
  ∀ out, (execute_cached re wk (artifact_path h) w csv args s).1 = Ok out →
    ∃ w' t, hex_decode h = Ok (sha256 w') ∧ to_vec args = Ok t ∧
      (run_with re wk w' None csv t s).1 = Ok out.
Proof.
  intros Hh Hw Hs. unfold execute_cached. rewrite act_bind_lift.
  destruct (to_vec args) as [t|]; cbn [map_err]; [|done]. rewrite act_bind_eq. cbn [reading].
  destruct (exists_path (rt_exists re) (artifact_path h) s).
  - destruct (run_with_sound re wk h w csv t s Hh Hw Hs) as [Hwr Hout]. split.
    + by eapply wrote_sound.
    + intros out Ho. destruct (Hout out Ho) as (w' & Hw' & Hr). eauto.
  - split; [|eauto]. unfold run_with. rewrite act_bind_lift. destruct (reject_if _ _); [|done].
    unfold await_worker. pose proof (run_blocking_none_state re w csv t s) as Hst.
    destruct (run_blocking re w None csv t s) as [r s']. simpl in Hst. subst. by destruct wk.
Qed.

Lemma fetch_sound fe url h s :
  artifacts_sound s → artifacts_sound (fetch_and_verify fe DATA_DIR url h s).2.
Proof.
  intros Hs. destruct (decode_hash h) as [b|x] eqn:Hd; [|by rewrite (fetch_bad_hash _ _ _ _ _ x)].
  pose proof (fetch_spec fe DATA_DIR url h s) as Hf.
  destruct (fetch_and_verify fe DATA_DIR url h s) as [r s']. destruct Hf as [_ Hf]. simpl.
  intros h' c Hh' Hc. apply (Hs h' c Hh'). rewrite <-Hc. symmetry.
  assert (Hh : hash_text h) by (by exists b).
  apply Hf; [by apply artifact_not_script|by apply artifact_not_script_tmp].
Qed.

Lemma prime_cache_sound re h w (st : St) :
  hash_text h → hex_decode h = Ok (sha256 w) → artifacts_sound (storage st) →
  ∃ st', prime_cache re scripts_dir h w st = (Ok (artifact_path h), st') ∧
    artifacts_sound (storage st') ∧ tx_db st' = tx_db st.
Proof.
  intros Hh Hw Hs. destruct (ensure_wrote re h w (storage st)) as [Hwr Hp].
  unfold prime_cache. fold scripts_dir.
  destruct (ensure_precompiled re scripts_dir h w (storage st)) as [[p|] fs]; simpl in *.
  - rewrite (Hp p eq_refl). eexists. split; [done|]. split; [|done]. by eapply wrote_sound.
  - eexists. split; [done|]. split; [|done]. by eapply wrote_sound.
Qed.

(** The part of a query after the grant check: fetch, data, execution. *)
Lemma query_execution_sound e (payload : DataQueryRequest) (drt : DrtMetadata) (st : St) r st1 :
  artifacts_sound (storage st) →
  (wasm_bytes ← on_fetch (fetch_and_verify (qe_fetch e) DATA_DIR (d_code_repo_url drt)
                            (d_code_hash_hex drt));
   csv ← reading (λ st, Ok (load_and_concat_pool_csvs (qe_dir e) (qe_file e)
                              (pool_dataset_dir DATA_DIR (q_pool_pda payload)) (storage st)));
   _ ← lift (reject_if (bool_decide (csv = "")) (Api.bad_request "pool has no data uploaded yet"));
   cache_path ← prime_cache (qe_pre e) scripts_dir (d_code_hash_hex drt) wasm_bytes;
   output ← on_runtime (execute_cached (qe_run e) (qe_worker e) cache_path wasm_bytes csv
                          (q_args payload));
   mret (mkQueryResponse (q_pool_pda payload) (q_drt_name payload) (d_code_hash_hex drt)
           (exit_code output) (body_json (body output)))) st = (r, st1) →
  artifacts_sound (storage st1) ∧ tx_db st1 = tx_db st ∧
  ∀ resp, r = Ok resp → ∃ w out args fs,
    allowed (d_code_repo_url drt) ∧ hex_decode (d_code_hash_hex drt) = Ok (sha256 w) ∧
    to_vec (q_args payload) = Ok args ∧
    (run_with (qe_run e) (qe_worker e) w None
       (load_and_concat_pool_csvs (qe_dir e) (qe_file e)
          (pool_dataset_dir DATA_DIR (q_pool_pda payload))
          (fetch_and_verify (qe_fetch e) DATA_DIR (d_code_repo_url drt)
             (d_code_hash_hex drt) (storage st)).2) args fs).1 = Ok out ∧
    resp = mkQueryResponse (q_pool_pda payload) (q_drt_name payload) (d_code_hash_hex drt)
             (exit_code out) (body_json (body out)).
Proof.
  intros Hs Hr. pose proof (fetch_spec (qe_fetch e) DATA_DIR (d_code_repo_url drt)
    (d_code_hash_hex drt) (storage st)) as Hf.
  pose proof (fetch_sound (qe_fetch e) (d_code_repo_url drt) (d_code_hash_hex drt) _ Hs) as Hsf.
  rewrite act_bind_eq in Hr. unfold on_fetch, act_map_err, zoom in Hr.
  destruct (fetch_and_verify (qe_fetch e) DATA_DIR (d_code_repo_url drt) (d_code_hash_hex drt)
    (storage st)) as [[wasm|x] fs1] eqn:Hfe; simpl in Hr, Hsf.
  2:{ simplify_eq. done. }
  destruct Hf as [(Hurl & Hhash & _) _].
  assert (Hh : hash_text (d_code_hash_hex drt)).
  { exists (sha256 wasm). apply decode_hash_ok. split; [done|].
    rewrite (hex_decode_len _ _ Hhash), sha256_len. done. }
  rewrite act_bind_eq in Hr. unfold reading in Hr. rewrite act_bind_lift in Hr. simpl in Hr |- *.
  set (csv := load_and_concat_pool_csvs _ _ _ fs1) in *.
  destruct (reject_if _ _) as [[]|]; [|by simplify_eq].
  rewrite act_bind_eq in Hr.
  destruct (prime_cache_sound (qe_pre e) _ wasm (set_storage fs1 st) Hh Hhash Hsf)
    as (st2 & Hpc & Hs2 & Hdb2).
  rewrite Hpc in Hr. rewrite act_bind_eq in Hr.
  unfold on_runtime, act_map_err, zoom, mret, act_ret in Hr.
  destruct (execute_sound (qe_run e) (qe_worker e) _ wasm csv (q_args payload) (storage st2)
    Hh Hhash Hs2) as [Hs3 Hout].
  destruct (execute_cached _ _ _ wasm csv _ (storage st2)) as [[out|x] fs3]; simpl in *;
    simplify_eq/=; (split; [done|]); (split; [done|]); [|done].
  intros resp [= <-]. destruct (Hout out eq_refl) as (w & t & Hw & Ht & Hrun).
  exists w, out, t, (storage st2). done.
Qed.

Lemma data_query_inner_sound e token payload (st : St) r st1 :
  artifacts_sound (storage st) → data_query_inner e token payload st = (r, st1) →
  artifacts_sound (storage st1) ∧ tx_db st1 = tx_db st ∧
  ∀ resp, r = Ok resp → answered e token payload st resp.
Proof.
  intros Hs Hr. unfold data_query_inner in Hr. rewrite act_bind_lift in Hr.
  destruct (reject_if _ _) as [[]|]; [|by simplify_eq].
  rewrite act_bind_eq in Hr. unfold act_map_err at 1, zoom in Hr.
  assert (Hrd : (read_json (A := PoolMetadata) (qe_meta e)
    (pool_meta DATA_DIR (q_pool_pda payload)) (storage st)).2 = storage st).
  { unfold read_json. rewrite act_bind_eq. unfold read_raw, reading.
    by destruct (match qe_meta e with IoRead _ => _ | _ => _ end). }
  unfold answered.
  destruct (read_json _ _ (storage st)) as [[meta|] fs] eqn:Hmeta; simpl in Hr, Hrd; subst fs;
    rewrite set_storage_id in Hr; [|by simplify_eq].
  rewrite act_bind_lift in Hr. destruct (p_drts meta !! q_drt_name payload) as [drt|] eqn:Hdrt;
    cbn [ok_or] in Hr; [|by simplify_eq].
  rewrite act_bind_lift in Hr. destruct (reject_if _ _) as [[]|]; [|by simplify_eq].
  rewrite act_bind_eq in Hr. unfold act_map_err at 1, zoom, is_grant_active, reading in Hr.
  cbn [fst snd] in Hr. rewrite set_tx_db_id in Hr.
  destruct (run_read (qe_grant e) _ (tx_db st)) as [active|] eqn:Hg; cbn [map_err] in Hr;
    [|by simplify_eq].
  apply run_read_ok in Hg. rewrite act_bind_lift in Hr.
  destruct active; cbn [negb reject_if] in Hr; [|by simplify_eq].
  injection Hg as Hg. apply bool_decide_eq_true in Hg.
  apply (query_execution_sound e payload drt st) in Hr as (Hs1 & Hdb & Hresp); [|done].
  split; [done|]. split; [done|]. intros resp Hok.
  destruct (Hresp resp Hok) as (w & out & args & fs & Hu & Hw & Ha & Hrun & ->).
  exists meta, drt, w, out, args, fs. done.
Qed.

Lemma audit_sound ai db ev (st : St) :
  artifacts_sound (storage st) → artifacts_sound (storage (audit_log_event ai db ev st)).
Proof.
  intros Hs h c Hh Hc. apply (Hs h c Hh). rewrite <-Hc. symmetry.
  apply audit_log_event_frame; [by apply artifact_not_key|by apply artifact_not_audit].
Qed.

Lemma data_query_sound e token payload (st : St) r st' :
  artifacts_sound (storage st) → data_query e token payload st = (r, st') →
  artifacts_sound (storage st') ∧ ∀ resp, r = Ok resp → answered e token payload st resp.
Proof.
  intros Hs Hr. unfold data_query in Hr.
  destruct (data_query_inner e token payload st) as [r1 st1] eqn:Hq. simplify_eq.
  destruct (data_query_inner_sound e token payload st r st1 Hs Hq) as (Hs1 & _ & Hok).
  split; [by apply audit_sound|done].
Qed.

(** A history of queries. *)
Definition query_step (st : St) (q : QueryEnv T * TokenData * DataQueryRequest) : St :=
  (data_query q.1.1 q.1.2 q.2 st).2.
Lemma queries_sound qs (st : St) :
  artifacts_sound (storage st) → artifacts_sound (storage (foldl query_step st qs)).
Proof.
  revert st. induction qs as [|[[e token] payload] qs IH]; intros st Hs; [done|]. apply IH.
  unfold query_step. simpl. destruct (data_query e token payload st) as [r st'] eqn:Hq.
  by destruct (data_query_sound e token payload st r st' Hs Hq).
Qed.

(** No answer without a grant, and only registered code runs.  Along any
    sequence of queries by any callers with any faults, starting with no bad
    artifact on disk, a query that is answered was made by an analyst with an
    active grant for that pool and DRT; the pool's metadata holds the DRT, its
    URL is allowed, and the answer is the output of a freshly compiled script
    whose SHA-256 is the registered code hash, on the pool's datasets and the
    caller's arguments. *)
Theorem query_answer_authorised (qs : list (QueryEnv T * TokenData * DataQueryRequest)) (st0 : St)
    (e : QueryEnv T) (token : TokenData) (payload : DataQueryRequest)
    (resp : DataQueryResponse) (st' : St) :
  artifacts_sound (storage st0) →
  let st := foldl query_step st0 qs in
  data_query e token payload st = (Ok resp, st') → answered e token payload st resp.
Proof.
  intros Hs st Hq. apply (queries_sound qs) in Hs.
  by apply (data_query_sound e token payload st (Ok resp) st' Hs).
Qed.

(** ** The audit record *)

Lemma inner_keeps_db e token payload (st : St) :
  tx_db (data_query_inner e token payload st).2 = tx_db st.
Proof.
  set (db := tx_db st). assert (Hpres : preserves (λ st : St, tx_db st = db)
    (data_query_inner e token payload)); [|by apply Hpres].
  unfold data_query_inner, on_fetch, on_runtime.
  repeat (first [ apply preserves_bind; [|intros ?] | apply preserves_lift | apply preserves_reading
    | apply preserves_ret | apply preserves_map_err | by intros s1 Hs1 ]).
  intros s1 Hs1. unfold prime_cache. by destruct (ensure_precompiled _ _ _ _ (storage s1)) as [[]].
Qed.

Lemma inner_denied e token payload (st : St) :
  t_get (tx_db st GRANTS_BY_ANALYST)
    (key3 (sub token) (q_pool_pda payload) (q_drt_name payload)) = None →
  ∃ x, data_query_inner e token payload st = (Err x, st).
Proof.
  intros Hno. unfold data_query_inner. rewrite act_bind_lift.
  destruct (reject_if _ _) as [[]|]; [|by eexists]. rewrite act_bind_eq. unfold act_map_err at 1, zoom.
  assert (Hrd : (read_json (A := PoolMetadata) (qe_meta e)
    (pool_meta DATA_DIR (q_pool_pda payload)) (storage st)).2 = storage st).
  { unfold read_json. rewrite act_bind_eq. unfold read_raw, reading.
    by destruct (match qe_meta e with IoRead _ => _ | _ => _ end). }
  destruct (read_json _ _ (storage st)) as [[meta|] fs]; simpl in Hrd; subst fs;
    cbn [fst snd map_err]; rewrite set_storage_id; [|by eexists].
  rewrite act_bind_lift. destruct (ok_or _ _) as [drt|]; [|by eexists].
  rewrite act_bind_lift. destruct (reject_if _ _) as [[]|]; [|by eexists].
  rewrite act_bind_eq. unfold act_map_err at 1, zoom, is_grant_active, reading.
  cbn [fst snd]. rewrite set_tx_db_id.
  destruct (run_read (qe_grant e) _ (tx_db st)) as [active|] eqn:Hg; cbn [map_err]; [|by eexists].
  apply run_read_ok in Hg. injection Hg as <-. rewrite Hno. rewrite act_bind_lift. by eexists.
Qed.

End Handler.

(** ** Examples *)

#[local] Instance wasm0 : Wasmtime unit Guest := mean_wasmtime guest1.
#[local] Instance wasm0_laws : WasmtimeLaws unit Guest := mean_wasmtime_laws guest1.

Definition hash_hex0 : string := hex_of (sha256 "wasm").
Definition meta0 : PoolMetadata :=
  mkPoolMetadata "P" "pool" Malta "00"
    {["mean" := mkDrtMetadata "01" "mint" 1 url0 hash_hex0]} "w" None "s" VNone NeedsInit
    (mkDateTime 0 0) None None 0 0.
Definition meta0_text : string := match to_vec_pretty meta0 with Ok b => b | Err _ => "" end.
Definition qfs0 : Fs := mkFs
  {[pool_meta DATA_DIR "P" := meta0_text;
    join (pool_dataset_dir DATA_DIR "P") "initial.csv" := csv1;
    cache_path_for DATA_DIR hash_hex0 := "wasm"]}
  {[pool_dataset_dir DATA_DIR "P"]}.
Definition qdb0 : Db table0 :=
  set_table GRANTS_BY_ANALYST {[key3 "ana" "P" "mean" := ""]} open_fresh.
Definition qst0 : AppState table0 lru1 := mkAppState qfs0 qdb0 (cache_new 1 60) None.
Definition qe0 : QueryEnv table0 :=
  mkQueryEnv IoOk env0 (mkFetchEnv IoOk IoOk IoOk net_down) IoOk (λ _, IoOk) re1 re1 WorkerDone
    ai0 env0 "e1" (mkDateTime 7 0).
Definition analyst0 : TokenData := mkTokenData "ana" "analyst".
Definition query0 : DataQueryRequest := mkQuery "P" "mean" JNull.

Lemma qst0_sound : artifacts_sound (storage qst0).
Proof.
  intros h c Hh Hc. exfalso. pose proof (artifact_last h Hh) as Hl. revert Hc Hl.
  unfold qst0. simpl. generalize (artifact_path h). intros p. unfold qfs0. cbn [files].
  rewrite !lookup_insert_Some, lookup_singleton_Some. intros Hc Hl.
  destruct Hc as [[<- _]|[_ [[<- _]|[_ [<- _]]]]]; by vm_compute in Hl.
Qed.

Lemma query_answer_authorised_witness :
  ∃ resp st', data_query qe0 analyst0 query0 qst0 = (Ok resp, st') ∧
    answered qe0 analyst0 query0 qst0 resp.
Proof.
  assert (Hok : is_ok (data_query qe0 analyst0 query0 qst0).1 = true) by (vm_compute; reflexivity).
  destruct (data_query qe0 analyst0 query0 qst0) as [[resp|x] st'] eqn:Hq; [|discriminate Hok].
  exists resp, st'. split; [reflexivity|].
  exact (query_answer_authorised [] qst0 qe0 analyst0 query0 resp st' qst0_sound Hq).
Defined.
