(* ===== verification/Auth.v ===== *)
(** * Authentication and roles

    src/src/auth.rs: the cache of the attestation service's signing keys, the
    validation of a bearer token bound to this enclave, the role extractors of
    the handlers, and the loopback test of src/src/config.rs.  The JWT crate and
    the network are parameters. *)
From S2P Require Import Prelude.
From S2P Require Import RustStr.
From S2P Require Import RustFmt.
From S2P Require Import Interfaces.
From S2P Require Import AppState.
From S2P Require Import Http.

Local Open Scope Z_scope.
#[local] Arguments String.append : simpl nomatch.

(** ** Configuration *)

Definition DEFAULT_AVS_JWKS_URL : string := "http://127.0.0.1:9100/.well-known/jwks.json".
Definition AVS_ISSUER : string := "attestation-verification-service".
Definition JWKS_CACHE_TTL_SECS : Z := 300.
(** [avs_jwks_url]; the argument is the environment variable. *)
Definition avs_jwks_url (var : option string) : string := default DEFAULT_AVS_JWKS_URL var.

(** [str::find] of the characters that end an authority. *)
Fixpoint authority_of (s : string) : string :=
  match s with
  | EmptyString => EmptyString
  | String c s' =>
      if (byte c =? 47) || (byte c =? 63) || (byte c =? 35) then EmptyString
      else String c (authority_of s')
  end.
Definition is_loopback_http_jwks (url : string) : bool :=
  match strip_prefix "http://" url with
  | None => false
  | Some rest =>
      let authority := authority_of rest in
      let host_port := match rsplit_once "@" authority with Some (_, h) => h | None => authority end in
      let host := match strip_prefix "[" host_port with
                  | Some r => fst <$> split_once "]" r
                  | None => Some (match rsplit_once ":" host_port with
                                  | Some (h, _) => h
                                  | None => host_port
                                  end)
                  end in
      match host with
      | Some h => bool_decide (h ∈ ["localhost"; "127.0.0.1"; "::1"])
      | None => false
      end
  end.

(** ** Data *)

Record Jwk := mkJwk {
  kty : string; jcrv : option string; jx : option string; jy : option string; jn : option string;
  je : option string; juse : option string; jalg : option string; jkid : option string }.
Record JwksResponse := mkJwksResponse { jwks_keys : list Jwk }.
Record AttestationClaims := mkClaims {
  c_iss : string; c_sub : string; c_aud : option string; c_exp : Z; c_iat : Z;
  c_role : option string; c_nonce : option string; c_enclave_public_key : option Jwk }.

(** The JWT crate: keys, the [kid] of a token's header, and [decode] under an
    ES256 [Validation] with an audience and an issuer, at a time. *)
Class JwtCrates (K : Type) := {
  from_ec_components : string → string → result string K;
  decode_header : string → result string (option string);
  jwt_decode : K → string → string → Z → string → result string AttestationClaims;
  (** the token carries a valid ES256 signature under the key *)
  es256_signed : K → string → Prop;
  status_display : Z → string;
}.
(** What [decode] guarantees: the signature, the expiry (with the crate's
    60-second leeway), the issuer, and the audience when the token has one. *)
Class JwtLaws (K : Type) `{JwtCrates K} := {
  decode_valid key aud iss now token c :
    jwt_decode key aud iss now token = Ok c →
    es256_signed key token ∧ c_iss c = iss ∧ now ≤ c_exp c + 60 ∧
    (c_aud c = None ∨ c_aud c = Some aud);
}.

(** [TokenData::has_role]. *)
Definition has_role (token : TokenData) (required : string) : bool :=
  let r := role token in
  if bool_decide (required = "read_only") then
    bool_decide (r ∈ ["admin"; "user"; "analyst"; "read_only"])
  else if bool_decide (required = "analyst") then bool_decide (r ∈ ["admin"; "user"; "analyst"])
  else if bool_decide (required = "user") then bool_decide (r ∈ ["admin"; "user"])
  else if bool_decide (required = "admin") then bool_decide (r = "admin")
  else false.

Record JwksCache (K : Type) := mkJwksCache { jc_keys : list (string * K); jc_fetched_at : Z }.
Arguments mkJwksCache {K} _ _.
Arguments jc_keys {K} _.
Arguments jc_fetched_at {K} _.

(** The environment of one validation: clock, the network as a client sees it
    that trusts extra roots, the CA file ([AVS_CA_CERT_PATH]), the PEM reader and
    the URL variable. *)
Record AuthEnv := mkAuthEnv {
  ae_elapsed_now : Z;
  ae_now : Z;
  ae_net : list string → Net;
  ae_ca : option (string * result string string);
  ae_pem : PemCrates;
  ae_url : option string;
}.

Section Validation.
Context {K : Type} `{JwtCrates K, Serde JwksResponse}.

(** The keys of a JWKS document: EC keys with both coordinates that parse. *)
Definition jwks_key (j : Jwk) : option (string * K) :=
  let kid := default "" (jkid j) in
  if bool_decide (kty j = "EC") then
    match jx j, jy j with
    | Some x, Some y =>
        match from_ec_components x y with Ok key => Some (kid, key) | Err _ => None end
    | _, _ => None
    end
  else None.

Definition fetch_jwks (ae : AuthEnv) (url : string) : result string (list (string * K)) :=
  roots ← match ae_ca ae with
          | Some (ca_path, read) =>
              pem ← map_err (λ e, "failed to read AVS_CA_CERT_PATH (" +:+ ca_path +:+ "): " +:+ e) read;
              map_err (λ e, "invalid PEM in AVS_CA_CERT_PATH (" +:+ ca_path +:+ "): " +:+ e)
                (HttpClient.with_extra_ca_pem (ae_pem ae) pem)
          | None => Ok []
          end;
  response ← map_err (λ e, "failed to fetch JWKS: " +:+ e) (HttpClient.get (ae_net ae roots) "10s" url);
  _ ← reject_if (negb (is_success response))
        ("JWKS fetch returned HTTP " +:+ status_display (r_status response));
  jwks ← map_err (λ e, "failed to parse JWKS: " +:+ e) (into_json (A := JwksResponse) response);
  Ok (filter_map jwks_key (jwks_keys jwks)).

Definition get_decoding_keys (ae : AuthEnv) :
    act (option (JwksCache K)) string (list (string * K)) := λ cache,
  match cache with
  | Some c =>
      if ae_elapsed_now ae - jc_fetched_at c <? JWKS_CACHE_TTL_SECS then (Ok (jc_keys c), cache)
      else match fetch_jwks ae (avs_jwks_url (ae_url ae)) with
           | Ok keys => (Ok keys, Some (mkJwksCache keys (ae_elapsed_now ae)))
           | Err e => (Err e, cache)
           end
  | None =>
      match fetch_jwks ae (avs_jwks_url (ae_url ae)) with
      | Ok keys => (Ok keys, Some (mkJwksCache keys (ae_elapsed_now ae)))
      | Err e => (Err e, cache)
      end
  end.

(** The token is bound to the enclave: both coordinates are there and equal. *)
Definition token_key_matches (token_key enclave : Jwk) : bool :=
  bool_decide (jx token_key = jx enclave) && bool_decide (jy token_key = jy enclave)
  && bool_decide (is_Some (jx token_key)) && bool_decide (is_Some (jy token_key)).
(** [enclave] is the enclave's public JWK and [audience] the configured one. *)
Definition validate_token (ae : AuthEnv) (audience : string) (enclave : Jwk) (token : string) :
    act (option (JwksCache K)) string TokenData :=
  keys ← get_decoding_keys ae;
  _ ← lift (reject_if (match keys with [] => true | _ => false end) "no valid keys in JWKS");
  kid_opt ← lift (map_err (λ e, "invalid token header: " +:+ e) (decode_header token));
  kid ← lift (match kid_opt with
              | Some k => if bool_decide (k = "") then Err "token header missing kid" else Ok k
              | None => Err "token header missing kid"
              end);
  decoding_key ← lift (ok_or (snd <$> List.find (λ x, bool_decide (x.1 = kid)) keys)
                   ("no key found for kid: " +:+ kid));
  claims ← lift (map_err (λ e, "token validation failed: " +:+ e)
             (jwt_decode decoding_key audience AVS_ISSUER (ae_now ae) token));
  token_key ← lift (ok_or (c_enclave_public_key claims)
                "token missing required enclave_public_key claim");
  let key_matches := token_key_matches token_key enclave in
  _ ← lift (reject_if (negb key_matches) "token is not bound to this enclave");
  mret (mkTokenData (c_sub claims) (default "read_only" (c_role claims))).

(** ** The extractors *)

(** A rejection is a status and a message. *)
Definition from_request_parts (ae : AuthEnv) (audience : string) (enclave : Jwk)
    (authorization : option string) : act (option (JwksCache K)) (Z * string) TokenData :=
  auth_header ← lift (ok_or authorization (401, "missing authorization header"));
  token ← lift (ok_or (strip_prefix "Bearer " auth_header)
            (401, "invalid authorization header format"));
  act_map_err (λ _, (401, "invalid or expired token")) (validate_token ae audience enclave token).

(** [AdminToken], [UserToken], [AnalystToken] and [ReadOnlyToken]. *)
Definition require_role (required : string) (ae : AuthEnv) (audience : string) (enclave : Jwk)
    (authorization : option string) : act (option (JwksCache K)) (Z * string) TokenData :=
  token ← from_request_parts ae audience enclave authorization;
  _ ← lift (reject_if (negb (has_role token required)) (403, required +:+ " role required"));
  mret token.
Definition admin_token := require_role "admin".
Definition user_token := require_role "user".
Definition analyst_token := require_role "analyst".
Definition read_only_token := require_role "read_only".
End Validation.
