(* ===== verification/AuthFacts.v ===== *)
(** * What an accepted token guarantees

    Theorems about [Auth]: an accepted request carries a token signed by a
    recently published key and bound to this enclave, and the roles form a
    chain. *)
From S2P Require Import Prelude.
From S2P Require Import RustStr.
From S2P Require Import RustFmt.
From S2P Require Import Interfaces.
From S2P Require Import Instances.
From S2P Require Import AppState.
From S2P Require Import Http.
From S2P Require Import Auth.

Local Open Scope Z_scope.
#[local] Arguments String.append : simpl nomatch.

(** ** Roles *)

(** The role chain: admin > user > analyst > read_only. *)
Definition rank (r : string) : option nat :=
  if bool_decide (r = "admin") then Some 3%nat
  else if bool_decide (r = "user") then Some 2%nat
  else if bool_decide (r = "analyst") then Some 1%nat
  else if bool_decide (r = "read_only") then Some 0%nat
  else None.
Definition at_least (r required : string) : Prop :=
  ∃ a b, rank r = Some a ∧ rank required = Some b ∧ (b ≤ a)%nat.

Lemma has_role_rank (td : TokenData) (required : string) :
  has_role td required = true ↔ at_least (role td) required.
Proof.
  unfold has_role, at_least, rank. destruct td as [u r]. simpl.
  split.
  - repeat case_bool_decide; subst; try done; intros _; try set_solver; eauto 10 with lia.
  - intros (a & b & Ha & Hb & Hle).
    repeat case_bool_decide; simplify_eq; try done; try lia; set_solver.
Qed.

Section Facts.
Context {K : Type} `{JwtLaws K, Serde JwksResponse}.
Abbreviation Cache := (option (JwksCache K)).

(** A request: its environment, the role the endpoint requires, its header. *)
Definition request_t : Type := AuthEnv * string * option string.
Definition auth_step (audience : string) (enclave : Jwk) (cache : Cache) (q : request_t) : Cache :=
  (require_role q.1.2 q.1.1 audience enclave q.2 cache).2.

(** The cached keys are those of some fetch, at the time of that fetch. *)
Definition cache_from (envs : list AuthEnv) (cache : Cache) : Prop :=
  ∀ c, cache = Some c → ∃ ae, ae ∈ envs ∧ ae_elapsed_now ae = jc_fetched_at c ∧
    fetch_jwks ae (avs_jwks_url (ae_url ae)) = Ok (jc_keys c).

(** The keys in use were published by a fetch that is not older than the TTL. *)
Definition recent_keys (envs : list AuthEnv) (ae : AuthEnv) (keys : list (string * K)) : Prop :=
  ∃ ae0, ae0 ∈ ae :: envs ∧ (ae0 = ae ∨ ae_elapsed_now ae - ae_elapsed_now ae0 < JWKS_CACHE_TTL_SECS) ∧
    fetch_jwks ae0 (avs_jwks_url (ae_url ae0)) = Ok keys.

Lemma get_decoding_keys_spec envs ae (cache : Cache) :
  cache_from envs cache →
  cache_from (ae :: envs) (get_decoding_keys ae cache).2 ∧
  ∀ keys, (get_decoding_keys ae cache).1 = Ok keys → recent_keys envs ae keys.
Proof.
  intros Hc.
  assert (Hold : cache_from (ae :: envs) cache).
  { intros c Hcc. destruct (Hc c Hcc) as (ae0 & Hin & Hrest). exists ae0. set_solver. }
  assert (Hnew : ∀ keys, fetch_jwks ae (avs_jwks_url (ae_url ae)) = Ok keys →
    cache_from (ae :: envs) (Some (mkJwksCache keys (ae_elapsed_now ae))) ∧ recent_keys envs ae keys).
  { intros keys Hf. split; [intros c [= <-]; exists ae; set_solver|]. exists ae. set_solver. }
  unfold get_decoding_keys. destruct cache as [c|].
  - destruct (Z.ltb_spec (ae_elapsed_now ae - jc_fetched_at c) JWKS_CACHE_TTL_SECS) as [Hlt|Hge].
    + split; [done|]. intros keys [= <-]. destruct (Hc c eq_refl) as (ae0 & Hin & Ht & Hf).
      exists ae0. split; [set_solver|]. split; [right; lia|done].
    + destruct (fetch_jwks ae _) as [keys|] eqn:Hf; [|done]. destruct (Hnew keys eq_refl).
      split; [done|]. by intros ? [= <-].
  - destruct (fetch_jwks ae _) as [keys|] eqn:Hf; [|done]. destruct (Hnew keys eq_refl).
    split; [done|]. by intros ? [= <-].
Qed.

(** What [validate_token] checks, given the keys. *)
Definition token_valid (keys : list (string * K)) (ae : AuthEnv) (audience : string)
    (enclave : Jwk) (token : string) (td : TokenData) : Prop :=
  ∃ kid key claims jwk,
    kid ≠ "" ∧ decode_header token = Ok (Some kid) ∧ (kid, key) ∈ keys ∧
    es256_signed key token ∧ c_iss claims = AVS_ISSUER ∧ ae_now ae ≤ c_exp claims + 60 ∧
    (c_aud claims = None ∨ c_aud claims = Some audience) ∧
    c_enclave_public_key claims = Some jwk ∧ jx jwk = jx enclave ∧ jy jwk = jy enclave ∧
    is_Some (jx enclave) ∧ is_Some (jy enclave) ∧
    td = mkTokenData (c_sub claims) (default "read_only" (c_role claims)).

Lemma validate_token_keys ae audience enclave token (cache : Cache) :
  (validate_token ae audience enclave token cache).2 = (get_decoding_keys ae cache).2 ∧
  ∀ td, (validate_token ae audience enclave token cache).1 = Ok td →
    ∃ keys, (get_decoding_keys ae cache).1 = Ok keys ∧ token_valid keys ae audience enclave token td.
Proof.
  unfold validate_token. rewrite act_bind_eq.
  destruct (get_decoding_keys ae cache) as [[keys|] c']; [|done]. simpl.
  rewrite act_bind_lift. destruct (reject_if _ _) as [[]|]; [|done].
  rewrite act_bind_lift. destruct (decode_header token) as [ko|] eqn:Hh; cbn [map_err]; [|done].
  rewrite act_bind_lift. destruct ko as [kid|]; [|done]. case_bool_decide as Hk; [done|].
  rewrite act_bind_lift. destruct (List.find _ keys) as [[k key]|] eqn:Hf; cbn; [|done].
  apply List.find_some in Hf as [Hin Hkid%bool_decide_eq_true]. simpl in Hkid. subst k.
  rewrite act_bind_lift. destruct (jwt_decode _ _ _ _ _) as [claims|] eqn:Hd; cbn [map_err]; [|done].
  apply decode_valid in Hd as (Hsig & Hiss & Hexp & Haud).
  rewrite act_bind_lift. destruct (c_enclave_public_key claims) as [jwk|] eqn:Hj; cbn [ok_or]; [|done].
  rewrite act_bind_lift. unfold reject_if.
  destruct (token_key_matches _ _) eqn:Hm; cbn [negb]; [|done]. split; [done|]. intros td [= <-].
  apply andb_true_iff in Hm as [Hm Hy%bool_decide_eq_true].
  apply andb_true_iff in Hm as [Hm Hx%bool_decide_eq_true].
  apply andb_true_iff in Hm as [Hxx%bool_decide_eq_true Hyy%bool_decide_eq_true].
  exists keys. split; [done|]. exists kid, key, claims, jwk.
  rewrite <-Hxx, <-Hyy. split_and!; try done. by apply list_elem_of_In.
Qed.

Lemma require_role_spec required ae audience enclave header (cache : Cache) envs :
  cache_from envs cache →
  let '(r, cache') := require_role required ae audience enclave header cache in
  cache_from (ae :: envs) cache' ∧
  match r with
  | Ok td => ∃ token keys, header = Some ("Bearer " +:+ token) ∧ recent_keys envs ae keys ∧
      token_valid keys ae audience enclave token td ∧ at_least (role td) required
  | Err (code, _) => code = 401 ∨ code = 403 ∧ ∃ token keys td,
      header = Some ("Bearer " +:+ token) ∧ recent_keys envs ae keys ∧
      token_valid keys ae audience enclave token td ∧ ¬ at_least (role td) required
  end.
Proof.
  intros Hc. pose proof (get_decoding_keys_spec envs ae cache Hc) as [Hc' Hkeys].
  assert (Hold : cache_from (ae :: envs) cache).
  { intros c Hcc. destruct (Hc c Hcc) as (ae0 & Hin & Hrest). exists ae0. set_solver. }
  unfold require_role, from_request_parts. rewrite act_bind_eq, act_bind_lift.
  destruct header as [hd|]; cbn [ok_or]; [|by auto].
  rewrite act_bind_lift. destruct (strip_prefix "Bearer " hd) as [token|] eqn:Hs; cbn [ok_or]; [|by auto].
  apply strip_prefix_spec in Hs as ->. unfold act_map_err.
  destruct (validate_token_keys ae audience enclave token cache) as [Hst Hv].
  destruct (validate_token ae audience enclave token cache) as [[td|e] cache']; simpl in Hst; subst cache';
    cbn [map_err fst snd]; [|by auto].
  destruct (Hv td eq_refl) as (keys & Hk & Htv). specialize (Hkeys keys Hk).
  rewrite act_bind_lift. unfold reject_if. destruct (has_role td required) eqn:Hr; cbn [negb].
  - apply has_role_rank in Hr. split; [done|]. eauto 10.
  - split; [done|]. right. split; [done|]. exists token, keys, td. split_and!; try done.
    rewrite <-has_role_rank. by rewrite Hr.
Qed.

Lemma auth_history audience enclave qs (cache : Cache) envs :
  cache_from envs cache →
  cache_from (reverse (fst <$> (fst <$> qs)) ++ envs) (foldl (auth_step audience enclave) cache qs).
Proof.
  revert cache envs. induction qs as [|[[ae required] header] qs IH]; intros cache envs Hc; [done|].
  simpl. rewrite reverse_cons, <-app_assoc. apply IH.
  pose proof (require_role_spec required ae audience enclave header cache envs Hc) as Hr.
  unfold auth_step. simpl. destruct (require_role _ _ _ _ _ cache). by destruct Hr.
Qed.

(** Only authentic callers with the required role pass.  After any history
    of requests, a request accepted by the extractor of a role carries a bearer
    token whose header names a key, by exact non-empty id, of a JWKS document
    fetched in this or an earlier request less than 300 seconds ago; the token
    is signed by that key, comes from the attestation service, is not expired,
    is addressed to the configured audience if to any, and is bound to this
    enclave's public key; its role (read_only if it has none) is at least the
    required one.  A rejected request gets 401, or 403 when its token was valid
    and its role insufficient. *)
Theorem accepted_token_authentic (audience : string) (enclave : Jwk) (qs : list request_t)
    (required : string) (ae : AuthEnv) (header : option string) :
  let cache := foldl (auth_step audience enclave) None qs in
  let envs := reverse (fst <$> (fst <$> qs)) in
  match (require_role required ae audience enclave header cache).1 with
  | Ok td => ∃ token keys, header = Some ("Bearer " +:+ token) ∧ recent_keys envs ae keys ∧
      token_valid keys ae audience enclave token td ∧ at_least (role td) required
  | Err (code, _) => code = 401 ∨ code = 403 ∧ ∃ token keys td,
      header = Some ("Bearer " +:+ token) ∧ recent_keys envs ae keys ∧
      token_valid keys ae audience enclave token td ∧ ¬ at_least (role td) required
  end.
Proof.
  intros cache envs.
  assert (Hc : cache_from envs cache).
  { rewrite <-(app_nil_r envs). by apply auth_history. }
  pose proof (require_role_spec required ae audience enclave header cache envs Hc) as Hr.
  destruct (require_role required ae audience enclave header cache) as [r c']. by destruct Hr.
Qed.

(** Keys of a JWKS document are its EC keys. *)
Lemma fetched_keys_ec ae url keys kid key :
  fetch_jwks ae url = Ok keys → (kid, key) ∈ keys →
  ∃ j x y, kty j = "EC" ∧ jx j = Some x ∧ jy j = Some y ∧ from_ec_components x y = Ok key ∧
    kid = default "" (jkid j).
Proof.
  unfold fetch_jwks. unfold mbind, result_bind. intros Hf Hin.
  destruct (match ae_ca ae with Some _ => _ | None => _ end); [|done].
  destruct (map_err _ (HttpClient.get _ _ _)) as [resp|]; [|done].
  destruct (reject_if _ _); [|done]. destruct (map_err _ (into_json resp)) as [jwks|]; [|done].
  simplify_eq. apply elem_of_filter_map in Hin as (j & _ & Hj). unfold jwks_key in Hj.
  case_bool_decide; [|done]. destruct (jx j) as [x|] eqn:Hx, (jy j) as [y|] eqn:Hy; try done.
  destruct (from_ec_components x y) eqn:Hk; [|done]. simplify_eq. eauto 10.
Qed.
End Facts.

(** ** Examples *)

#[export] Instance Jwk_eq_dec : EqDecision Jwk.
Proof. solve_decision. Defined.
#[export] Instance Jwk_countable : Countable Jwk.
Proof.
  apply (inj_countable' (λ j, (kty j, jcrv j, jx j, jy j, jn j, je j, juse j, jalg j, jkid j))
    (λ t, let '(a, b, c, d, e, f, g, h, i) := t in mkJwk a b c d e f g h i)). by intros [].
Defined.
#[export] Instance JwksResponse_eq_dec : EqDecision JwksResponse.
Proof. solve_decision. Defined.
#[export] Instance JwksResponse_countable : Countable JwksResponse.
Proof. apply (inj_countable' jwks_keys mkJwksResponse). by intros []. Defined.
(** A key with coordinates and an identifier. *)
Definition ec_jwk (x y : string) (kid : option string) : Jwk :=
  mkJwk "EC" (Some "P-256") (Some x) (Some y) None None None None kid.
#[export] Instance jwt0 : JwtCrates string := {
  from_ec_components x _ := Ok x;
  decode_header t := if bool_decide (t = "token") then Ok (Some "k1") else Err "bad";
  jwt_decode key aud iss now t :=
    if bool_decide (key = "X" ∧ t = "token") then
      Ok (mkClaims iss "alice" (Some aud) now now (Some "user") None
            (Some (ec_jwk "ex" "ey" None)))
    else Err "bad";
  es256_signed key t := key = "X" ∧ t = "token";
  status_display z := show_u64 z;
}.
#[export] Instance jwt0_laws : JwtLaws string.
Proof.
  split. simpl. intros key aud iss now t c. case_bool_decide as Hk; [|done]. intros [= <-]. simpl.
  destruct Hk. split_and!; auto; lia.
Qed.
Definition jwks0 : string :=
  match to_vec (mkJwksResponse [mkJwk "RSA" None None None (Some "N") (Some "AQAB") None None (Some "k0");
                               ec_jwk "X" "Y" (Some "k1")]) with
  | Ok b => b | Err _ => "" end.
Definition auth_env0 : AuthEnv :=
  mkAuthEnv 10 1000 (λ _, mkNet (λ _, Ok ()) (λ _ _ _, NetReply 200 (Ok jwks0))) None
    (mkPem (λ _, []) (λ _, Ok ())) None.
Definition enclave0 : Jwk := ec_jwk "ex" "ey" (Some "kid").
Lemma accepted_token_authentic_witness :
  ∃ td token keys, (require_role "analyst" auth_env0 "relational-sdk" enclave0
      (Some "Bearer token") None).1 = Ok td ∧ Some "Bearer token" = Some ("Bearer " +:+ token) ∧
    token_valid keys auth_env0 "relational-sdk" enclave0 token td.
Proof.
  assert (Hr : (require_role "analyst" auth_env0 "relational-sdk" enclave0 (Some "Bearer token")
    None).1 = Ok (mkTokenData "alice" "user")) by (vm_compute; reflexivity).
  pose proof (accepted_token_authentic "relational-sdk" enclave0 [] "analyst" auth_env0
    (Some "Bearer token")) as Ha.
  cbn [foldl] in Ha. rewrite Hr in Ha. destruct Ha as (token & keys & Hh & _ & Hv & _).
  exists (mkTokenData "alice" "user"), token, keys. split; [exact Hr|]. split; [exact Hh|exact Hv].
Defined.
