(* ===== verification/DrtValidation.v ===== *)
(** * Validation of DRT registrations

    src/src/blockchain/drt/validation.rs and the request types and limits of
    src/src/blockchain/drt/types.rs: the rules a list of DRTs must obey before a
    pool is created.  Slicing a string inside a character panics in Rust, so a
    result is a value, an API error or a panic. *)
From S2P Require Import Prelude.
From S2P Require Import RustStr.
From S2P Require Import RustFmt.
From S2P Require Import Errors.

Local Open Scope Z_scope.
#[local] Arguments String.append : simpl nomatch.

(** ** Data *)

Definition MAX_POOL_NAME_LEN : Z := 64.
Definition MAX_DRT_NAME_LEN : Z := 32.
Definition MAX_CODE_REPO_URL_LEN : Z := 256.
Definition MAX_DRTS_PER_POOL : nat := 8.
Definition MAX_SUPPLY : Z := 1000000000.
Definition APPEND_DRT_NAME : string := "append".

Record DrtRequest := mkDrtRequest {
  dr_name : string; dr_supply : Z; dr_code_repo_url : option string;
  dr_code_hash_hex : option string }.
Record ResolvedDrt := mkResolvedDrt {
  rd_name : string; rd_supply : Z; rd_code_repo_url : string; rd_code_hash : string }.

(** An API error, or the panic of the request's task. *)
Inductive fault := Rejected (e : ApiError) | Panicked.
Definition rejected (msg : string) : fault := Rejected (Api.bad_request msg).
Definition zero_hash : string := String.string_of_list_ascii (replicate 32 (char_of 0)).

(** ** Operations *)

Definition validate_name (what : string) (max : Z) (name : string) : result fault unit :=
  _ ← reject_if (bool_decide (name = "")) (rejected (what +:+ " name cannot be empty"));
  _ ← reject_if (negb (bool_decide (name = trim name)))
        (rejected (what +:+ " name cannot have leading/trailing whitespace"));
  reject_if (max <? len name)
    (rejected (what +:+ " name exceeds maximum " +:+ show_u64 max +:+ " bytes")).
Definition validate_pool_name : string → result fault unit := validate_name "pool" MAX_POOL_NAME_LEN.
Definition validate_drt_name : string → result fault unit := validate_name "DRT" MAX_DRT_NAME_LEN.

(** [&clean[i*2..i*2+2]] for [i] in [0..n]; a slice that starts or ends inside a
    character panics. *)
Fixpoint parse_pairs (bad : fault) (n : nat) (s : string) : result fault string :=
  match n with
  | O => Ok EmptyString
  | S m =>
      match s with
      | String a (String b r) =>
          let inside := is_cont a || match r with String c _ => is_cont c | EmptyString => false end in
          if inside then Err Panicked
          else match u8_from_str_radix16 (String a (String b EmptyString)) with
               | None => Err bad
               | Some v => rest ← parse_pairs bad m r; Ok (String (char_of v) rest)
               end
      | _ => Err Panicked
      end
  end.
Definition parse_code_hash (hex : string) : result fault string :=
  if bool_decide (hex = "") then Ok zero_hash
  else
    let clean := default hex (strip_prefix "0x" hex) in
    _ ← reject_if (negb (len clean =? 64))
          (rejected "code_hash must be exactly 64 hex characters");
    parse_pairs (rejected "code_hash contains invalid hex") 32 clean.

Definition drt_text (d : DrtRequest) (msg : string) : fault :=
  rejected ("DRT '" +:+ dr_name d +:+ "' " +:+ msg).

(** The code of a DRT: none for [append], a URL and a non-zero hash otherwise. *)
Definition resolve_code (d : DrtRequest) : result fault (string * string) :=
  let url := default "" (dr_code_repo_url d) in
  let hash_hex := default "" (dr_code_hash_hex d) in
  if bool_decide (dr_name d = APPEND_DRT_NAME) then
    _ ← reject_if (negb (bool_decide (url = ""))) (rejected "append DRT must not include code_repo_url");
    parsed ← parse_code_hash hash_hex;
    _ ← reject_if (negb (bool_decide (parsed = zero_hash)))
          (rejected "append DRT must use a zeroed code_hash");
    Ok ("", zero_hash)
  else
    _ ← reject_if (bool_decide (url = "")) (drt_text d "requires a code_repo_url");
    let trimmed_url := trim url in
    _ ← reject_if (negb (len trimmed_url =? len url))
          (drt_text d "code_repo_url has leading/trailing whitespace");
    _ ← reject_if (MAX_CODE_REPO_URL_LEN <? len url)
          (drt_text d ("code_repo_url exceeds maximum " +:+ show_u64 MAX_CODE_REPO_URL_LEN
             +:+ " bytes"));
    parsed ← parse_code_hash hash_hex;
    _ ← reject_if (bool_decide (parsed = zero_hash)) (drt_text d "requires a non-zero code_hash");
    Ok (url, parsed).

(** The body of the loop for one request. *)
Definition resolve_drt (allow_append : bool) (seen : gset string) (d : DrtRequest) :
    result fault ResolvedDrt :=
  _ ← validate_drt_name (dr_name d);
  _ ← reject_if (bool_decide (dr_name d ∈ seen))
        (rejected ("duplicate DRT '" +:+ dr_name d +:+ "'"));
  _ ← reject_if (negb allow_append && bool_decide (dr_name d = APPEND_DRT_NAME))
        (rejected "the 'append' DRT is not allowed on IOB ERP pools");
  _ ← reject_if (dr_supply d =? 0) (drt_text d "supply must be greater than 0");
  _ ← reject_if (MAX_SUPPLY <? dr_supply d)
        (drt_text d ("supply exceeds maximum (" +:+ show_u64 MAX_SUPPLY +:+ ")"));
  '(final_url, final_hash) ← resolve_code d;
  Ok (mkResolvedDrt (dr_name d) (dr_supply d) final_url final_hash).
Fixpoint resolve_all (allow_append : bool) (seen : gset string) (drts : list DrtRequest) :
    result fault (list ResolvedDrt) :=
  match drts with
  | [] => Ok []
  | d :: rest =>
      r ← resolve_drt allow_append seen d;
      rs ← resolve_all allow_append ({[dr_name d]} ∪ seen) rest;
      Ok (r :: rs)
  end.

Definition validate_drt_requests (drts : list DrtRequest) (allow_append : bool) :
    result fault (list ResolvedDrt) :=
  _ ← reject_if (match drts with [] => true | _ => false end) (rejected "at least one DRT is required");
  _ ← reject_if (MAX_DRTS_PER_POOL <? length drts)%nat
        (rejected ("too many DRTs (max " +:+ show_u64 (Z.of_nat MAX_DRTS_PER_POOL) +:+ ")"));
  resolve_all allow_append ∅ drts.

(** ** What an accepted list satisfies *)

(** A code of two hex digits per byte, as [from_str_radix] reads them. *)
Inductive hex_pairs_of : string → string → Prop :=
| hex_done : hex_pairs_of EmptyString EmptyString
| hex_more a b v r out :
    u8_from_str_radix16 (String a (String b EmptyString)) = Some v → hex_pairs_of r out →
    hex_pairs_of (String a (String b r)) (String (char_of v) out).

Lemma parse_pairs_ok bad n s out :
  parse_pairs bad n s = Ok out → String.length s = (2 * n)%nat →
  hex_pairs_of s out ∧ String.length out = n.
Proof.
  revert s out. induction n as [|n IH]; intros s out Hp Hl; cbn [parse_pairs] in Hp.
  { simplify_eq. destruct s; [|done]. split; [constructor|done]. }
  destruct s as [|a [|b r]]; try done. cbn [String.length] in Hl.
  destruct (is_cont a || _); [done|].
  destruct (u8_from_str_radix16 _) as [v|] eqn:Hv; [|done].
  unfold mbind, result_bind in Hp. destruct (parse_pairs bad n r) as [rest|] eqn:Hr; [|done].
  simplify_eq/=. destruct (IH r rest Hr) as [Hh Hlen]; [lia|].
  split; [by constructor|]. by rewrite Hlen.
Qed.

(** A hash text and the 32 bytes it denotes. *)
Definition code_hash_of (hex out : string) : Prop :=
  (hex = "" ∧ out = zero_hash) ∨
  (hex ≠ "" ∧ String.length out = 32%nat ∧ hex_pairs_of (default hex (strip_prefix "0x" hex)) out).
Lemma parse_code_hash_ok hex out : parse_code_hash hex = Ok out → code_hash_of hex out.
Proof.
  unfold parse_code_hash, code_hash_of. case_bool_decide as He; [intros [= <-]; by left|].
  unfold mbind, result_bind, reject_if.
  destruct (Z.eqb_spec (len (default hex (strip_prefix "0x" hex))) 64) as [Hl|]; cbn [negb]; [|done].
  intros Hp. unfold len in Hl. destruct (parse_pairs_ok _ 32 _ _ Hp); [lia|]. by right.
Qed.

(** The rules, for one request and its resolution. *)
Definition drt_ok (allow_append : bool) (d : DrtRequest) (r : ResolvedDrt) : Prop :=
  rd_name r = dr_name d ∧ rd_supply r = dr_supply d ∧
  dr_name d ≠ "" ∧ dr_name d = trim (dr_name d) ∧ len (dr_name d) ≤ MAX_DRT_NAME_LEN ∧
  dr_supply d ≠ 0 ∧ dr_supply d ≤ MAX_SUPPLY ∧
  let url := default "" (dr_code_repo_url d) in
  let hash_hex := default "" (dr_code_hash_hex d) in
  (dr_name d = APPEND_DRT_NAME → allow_append = true ∧ url = "" ∧ rd_code_repo_url r = "" ∧
     rd_code_hash r = zero_hash ∧ code_hash_of hash_hex zero_hash) ∧
  (dr_name d ≠ APPEND_DRT_NAME → url ≠ "" ∧ rd_code_repo_url r = url ∧
     len url ≤ MAX_CODE_REPO_URL_LEN ∧ len (trim url) = len url ∧
     rd_code_hash r ≠ zero_hash ∧ code_hash_of hash_hex (rd_code_hash r)).

Lemma resolve_code_ok d url hash :
  resolve_code d = Ok (url, hash) →
  let u := default "" (dr_code_repo_url d) in
  let h := default "" (dr_code_hash_hex d) in
  (dr_name d = APPEND_DRT_NAME → u = "" ∧ url = "" ∧ hash = zero_hash ∧ code_hash_of h zero_hash) ∧
  (dr_name d ≠ APPEND_DRT_NAME → u ≠ "" ∧ url = u ∧ len u ≤ MAX_CODE_REPO_URL_LEN ∧
     len (trim u) = len u ∧ hash ≠ zero_hash ∧ code_hash_of h hash).
Proof.
  unfold resolve_code, mbind, result_bind, reject_if. intros Hr. cbv zeta.
  case_bool_decide as Hn.
  - split; [|done]. intros _. case_bool_decide as Hu; [|done]. cbn [negb] in Hr.
    destruct (parse_code_hash _) as [p|] eqn:Hp; [|done].
    case_bool_decide; [|done]. simplify_eq/=. split_and!; try done. by apply parse_code_hash_ok.
  - split; [done|]. intros _. case_bool_decide as Hu; [done|].
    destruct (Z.eqb_spec (len (trim (default "" (dr_code_repo_url d))))
      (len (default "" (dr_code_repo_url d)))) as [Ht|]; [|done]. cbn [negb] in Hr.
    destruct (Z.ltb_spec MAX_CODE_REPO_URL_LEN (len (default "" (dr_code_repo_url d)))); [done|].
    destruct (parse_code_hash _) as [p|] eqn:Hp; [|done].
    case_bool_decide; [done|]. simplify_eq. split_and!; try done. by apply parse_code_hash_ok.
Qed.

Lemma validate_name_ok what max name u :
  validate_name what max name = Ok u → name ≠ "" ∧ name = trim name ∧ len name ≤ max.
Proof.
  unfold validate_name, mbind, result_bind, reject_if. intros Hn.
  case_bool_decide; [done|]. case_bool_decide; [|done]. cbn [negb] in Hn.
  by destruct (Z.ltb_spec max (len name)).
Qed.
Lemma resolve_drt_ok allow seen d r :
  resolve_drt allow seen d = Ok r → drt_ok allow d r ∧ dr_name d ∉ seen.
Proof.
  unfold resolve_drt, mbind, result_bind. intros Hr.
  destruct (validate_drt_name (dr_name d)) as [[]|] eqn:Hn; [|done].
  apply validate_name_ok in Hn as (Hne & Htr & Hlen).
  unfold reject_if in Hr. case_bool_decide as Hs; [done|].
  destruct (negb allow && _) eqn:Ha; [done|].
  destruct (Z.eqb_spec (dr_supply d) 0); [done|].
  destruct (Z.ltb_spec MAX_SUPPLY (dr_supply d)); [done|].
  destruct (resolve_code d) as [[url hash]|] eqn:Hc; [|done]. simplify_eq.
  apply resolve_code_ok in Hc as [Happ Hother]. split; [|done].
  unfold drt_ok. simpl. split_and!; try done.
  intros Hap. destruct (Happ Hap) as (? & ? & ? & ?). split_and!; try done.
  destruct allow; [done|]. by rewrite bool_decide_true in Ha.
Qed.
Lemma resolve_all_ok allow seen drts rs :
  resolve_all allow seen drts = Ok rs →
  Forall2 (drt_ok allow) drts rs ∧ NoDup (dr_name <$> drts) ∧
  (∀ d, d ∈ drts → dr_name d ∉ seen).
Proof.
  revert seen rs. induction drts as [|d drts IH]; intros seen rs Hr; simpl in Hr.
  { simplify_eq. split_and!; [constructor|constructor|set_solver]. }
  unfold mbind, result_bind in Hr.
  destruct (resolve_drt allow seen d) as [r|] eqn:Hd; [|done].
  destruct (resolve_all allow _ drts) as [rs'|] eqn:Hrs; [|done]. simplify_eq.
  apply resolve_drt_ok in Hd as [Hok Hn]. destruct (IH _ _ Hrs) as (Hall & Hnd & Hseen).
  split_and!; [by constructor| |].
  - cbn. apply NoDup_cons. split; [|done]. intros (d' & He & Hd')%list_elem_of_fmap.
    specialize (Hseen d' Hd'). set_solver.
  - intros d' [->|Hd']%elem_of_cons; [done|]. specialize (Hseen d' Hd'). set_solver.
Qed.

Lemma supply_bounds allow drts rs :
  Forall2 (drt_ok allow) drts rs → Forall (λ d, 0 ≤ dr_supply d) drts →
  Forall (λ r, 1 ≤ rd_supply r ≤ MAX_SUPPLY) rs.
Proof.
  induction 1 as [|x y l k (_ & Hs & _ & _ & _ & Hz & Hm & _) _ IH]; intros Hu; [constructor|].
  apply Forall_cons in Hu as [Hx Hl]. constructor; [rewrite Hs; lia|auto].
Qed.

Lemma validated_names drts allow rs :
  validate_drt_requests drts allow = Ok rs →
  NoDup (rd_name <$> rs) ∧ (allow = false → APPEND_DRT_NAME ∉ rd_name <$> rs).
Proof.
  intros (? & _ & Hv)%result_bind_ok. apply result_bind_ok in Hv as (? & _ & Hv).
  apply resolve_all_ok in Hv as (Hall & Hnd & _).
  assert (He : rd_name <$> rs = dr_name <$> drts).
  { clear Hnd. induction Hall as [|d r ds rs' (Hn & _) _ IH]; [done|]. cbn. by rewrite Hn, IH. }
  rewrite He. split; [done|]. intros -> (d & Hd & Hin)%list_elem_of_fmap. symmetry in Hd.
  apply list_elem_of_lookup in Hin as [i Hi]. destruct (Forall2_lookup_l _ _ _ _ _ Hall Hi)
    as (r & _ & _ & _ & _ & _ & _ & _ & _ & Happ & _). by destruct (Happ Hd).
Qed.

(** An accepted pool definition obeys the rules.  A list of DRTs that
    validates is non-empty, has at most 8 entries and no duplicate name; every
    entry keeps its name and supply (1 to 10^9), the name is non-empty, trimmed
    and at most 32 bytes; [append] occurs only where allowed and carries no URL
    and the zero hash; every other DRT carries a trimmed URL of at most 256
    bytes and a non-zero 32-byte hash that its hex text denotes. *)
Theorem validated_drts_obey_rules (drts : list DrtRequest) (allow_append : bool)
    (rs : list ResolvedDrt) (Hu : Forall (λ d, 0 ≤ dr_supply d) drts) :
  validate_drt_requests drts allow_append = Ok rs →
  drts ≠ [] ∧ (length drts ≤ MAX_DRTS_PER_POOL)%nat ∧ NoDup (dr_name <$> drts) ∧
  Forall2 (drt_ok allow_append) drts rs ∧ Forall (λ r, 1 ≤ rd_supply r ≤ MAX_SUPPLY) rs.
Proof.
  unfold validate_drt_requests, mbind, result_bind, reject_if. intros Hv.
  destruct drts as [|d drts]; [done|].
  destruct (Nat.ltb_spec MAX_DRTS_PER_POOL (length (d :: drts))); [done|].
  apply resolve_all_ok in Hv as (Hall & Hnd & _).
  split; [done|]. split; [lia|]. split; [exact Hnd|]. split; [exact Hall|].
  by apply (supply_bounds allow_append (d :: drts)).
Qed.

Definition hex64 : string := String.string_of_list_ascii (replicate 64 "a"%char).
Definition drts0 : list DrtRequest :=
  [mkDrtRequest "append" 5 None None; mkDrtRequest "mean" 10 (Some "https://x/y") (Some hex64)].
Lemma validated_drts_obey_rules_witness :
  ∃ rs, validate_drt_requests drts0 true = Ok rs ∧ Forall (λ r, 1 ≤ rd_supply r ≤ MAX_SUPPLY) rs.
Proof.
  destruct (validate_drt_requests drts0 true) as [rs|e] eqn:Hv; [|vm_compute in Hv; discriminate Hv].
  exists rs. split; [reflexivity|].
  apply (validated_drts_obey_rules drts0 true rs); [|exact Hv].
  repeat (apply Forall_cons_2; [simpl; lia|]). apply Forall_nil_2.
Defined.

(** A hash text can panic the request.  Of the texts that pass the length
    check, one with a two-byte character across a pair boundary is not answered
    with an error: the task panics. *)
Theorem parse_code_hash_panics :
  let accented := String (char_of 195) (String (char_of 169) EmptyString) in
  let hex := "a" +:+ accented +:+ String.string_of_list_ascii (replicate 61 "a"%char) in
  utf8_valid hex = true ∧ len hex = 64 ∧ parse_code_hash hex = Err Panicked.
Proof. vm_compute. done. Qed.
