(* ===== verification/DrtProgram.v ===== *)
(** * Talking to the on-chain program

    src/src/blockchain/drt: the account, instruction and event formats of the
    [digital_rights_tokens] program (idl_generated.rs, types.rs, pda.rs,
    instructions.rs, events.rs, accounts.rs).  A public key is its 32 bytes; the
    derivation of program addresses, SHA-256, base64 and base58 are parameters. *)
From S2P Require Import Prelude.
From S2P Require Import RustStr.
From S2P Require Import RustFmt.
From S2P Require Import Errors.
From S2P Require Import TxDatabase.
From S2P Require Import Storage.
From S2P Require Import TxNonces.
From S2P Require Import VerifiedFetch.

Local Open Scope Z_scope.
#[local] Arguments String.append : simpl nomatch.

(** ** Third-party code *)

Class SolanaCrates := {
  (** [Pubkey::find_program_address(seeds, program)] *)
  find_program_address : list string → string → string * Z;
  (** [Pubkey::from_str] of the constants *)
  pubkey_of_const : string → string;
  (** [Pubkey::from_str] of a text *)
  pubkey_from_str : string → option string;
  (** [Pubkey::to_string] *)
  base58 : string → string;
  (** base64 [STANDARD] *)
  std_b64_decode : string → option string;
}.
(** Addresses have 32 bytes; their base58 text is read back; only text in the
    base58 alphabet is read, so an address is a path component. *)
Class SolanaLaws `{SolanaCrates} := {
  program_address_len seeds p : len (find_program_address seeds p).1 = 32;
  base58_safe k : len k = 32 → safe_name (base58 k) = true;
  pubkey_of_base58 k : len k = 32 → pubkey_from_str (base58 k) = Some k;
  pubkey_str_safe s k : pubkey_from_str s = Some k → safe_name s = true;
}.


(** ** Borsh *)

Definition parser (A : Type) : Type := string → option (A * string).
#[global] Instance parser_ret : MRet parser := λ A a s, Some (a, s).
#[global] Instance parser_bind : MBind parser := λ A B f p s,
  match p s with Some (a, r) => f a r | None => None end.

Definition of_option {A} (o : option A) : parser A := λ s,
  match o with Some a => Some (a, s) | None => None end.

Fixpoint split_at (n : nat) (s : string) : option (string * string) :=
  match n, s with
  | O, _ => Some (EmptyString, s)
  | S m, String c r =>
      match split_at m r with Some (a, b) => Some (String c a, b) | None => None end
  | S _, EmptyString => None
  end.
(** [[u8; n]] and [Pubkey] (32 bytes). *)
Definition get_bytes (n : nat) : parser string := split_at n.
Definition get_pubkey : parser string := get_bytes 32.
Definition get_u8 : parser Z := c ← get_bytes 1; mret (le_value c).
Definition get_u32 : parser Z := c ← get_bytes 4; mret (le_value c).
Definition get_u64 : parser Z := c ← get_bytes 8; mret (le_value c).
Definition get_i64 : parser Z := c ← get_bytes 8; mret (i64_from_le_bytes c).
(** [bool]: one byte, 0 or 1. *)
Definition get_bool : parser bool :=
  b ← get_u8; of_option (if b =? 0 then Some false else if b =? 1 then Some true else None).
(** [String]: a length and that many bytes of UTF-8. *)
Definition get_string : parser string :=
  n ← get_u32; x ← get_bytes (Z.to_nat n); of_option (if utf8_valid x then Some x else None).
(** [T::try_from_slice]: the whole input must be consumed. *)
Definition try_from_slice {A} (p : parser A) (s : string) : option A :=
  match p s with Some (a, EmptyString) => Some a | _ => None end.

Definition put_u8 (z : Z) : string := le_bytes 1 z.
Definition put_u32 (z : Z) : string := le_bytes 4 z.
Definition put_u64 (z : Z) : string := le_bytes 8 z.
Definition put_i64 (z : Z) : string := i64_to_le_bytes z.
Definition put_bool (b : bool) : string := put_u8 (if b then 1 else 0).
Definition put_string (s : string) : string := put_u32 (len s) +:+ s.

(** ** Constants of the program *)

Definition bytes_of (l : list Z) : string := String.string_of_list_ascii (char_of <$> l).
Definition DISC_CREATE_POOL : string := bytes_of [233; 146; 209; 142; 207; 104; 64; 188].
Definition DISC_REGISTER_DRT : string := bytes_of [132; 234; 232; 157; 1; 204; 22; 238].
Definition DISC_GRANT_RIGHT : string := bytes_of [147; 166; 175; 167; 132; 161; 76; 232].
Definition DISC_REVOKE_GRANT : string := bytes_of [134; 180; 57; 39; 152; 7; 154; 98].
Definition DISC_SEAL_POOL : string := bytes_of [132; 120; 144; 83; 244; 251; 12; 246].
Definition DISC_POOL_ACCOUNT : string := bytes_of [241; 154; 109; 4; 17; 177; 109; 188].
Definition DISC_DRT_CONFIG_ACCOUNT : string := bytes_of [20; 160; 51; 9; 64; 97; 106; 78].
Definition DISC_GRANT_ACCOUNT : string := bytes_of [161; 166; 11; 205; 204; 135; 205; 54].
Definition DISC_POOL_CREATED : string := bytes_of [202; 44; 41; 88; 104; 220; 157; 82].
Definition DISC_DRT_REGISTERED : string := bytes_of [244; 243; 67; 47; 173; 89; 107; 3].
Definition DISC_RIGHT_GRANTED : string := bytes_of [251; 86; 219; 230; 109; 252; 94; 16].
Definition DISC_RIGHT_REVOKED : string := bytes_of [67; 219; 188; 196; 202; 34; 65; 52].
Definition DISC_POOL_SEALED : string := bytes_of [16; 227; 75; 106; 133; 87; 48; 68].

Definition DRT_PROGRAM_ID_STR : string := "8N5hVnK81rWhwfhxt9LfjrbeVT83Jjgy4dKyy4q6HKjk".
Definition TOKEN_PROGRAM_ID_STR : string := "TokenkegQfeZyiNwAJbNbGKPFXCWuBvf9Ss623VQ5DA".
Definition ASSOCIATED_TOKEN_PROGRAM_ID_STR : string :=
  "ATokenGPvbdGVxr1b2hvZbsiqW5xWH25efTNsLJA8knL".
Definition SYSTEM_PROGRAM_ID_STR : string := "11111111111111111111111111111111".
Definition RENT_SYSVAR_ID_STR : string := "SysvarRent111111111111111111111111111111111".

(** ** Accounts *)

Record Pool := mkPool {
  pl_uuid : string; pl_owner : string; pl_created_at : Z; pl_sealed : bool; pl_bump : Z }.
Record DrtConfig := mkDrtConfig {
  dc_pool : string; dc_right_id : string; dc_mint : string; dc_supply : Z; dc_code_hash : string;
  dc_code_repo_url : string; dc_created_at : Z; dc_bump : Z }.
Record Grant := mkGrant { gr_drt_config : string; gr_granted_at : Z; gr_bump : Z }.

Definition get_pool : parser Pool :=
  u ← get_bytes 16; o ← get_pubkey; c ← get_i64; s ← get_bool; b ← get_u8;
  mret (mkPool u o c s b).
Definition get_drt_config : parser DrtConfig :=
  p ← get_pubkey; r ← get_bytes 16; m ← get_pubkey; s ← get_u64; h ← get_bytes 32;
  u ← get_string; c ← get_i64; b ← get_u8; mret (mkDrtConfig p r m s h u c b).
Definition get_grant : parser Grant :=
  d ← get_pubkey; g ← get_i64; b ← get_u8; mret (mkGrant d g b).

Definition put_pool (p : Pool) : string :=
  pl_uuid p +:+ pl_owner p +:+ put_i64 (pl_created_at p) +:+ put_bool (pl_sealed p)
    +:+ put_u8 (pl_bump p).
Definition put_drt_config (d : DrtConfig) : string :=
  dc_pool d +:+ dc_right_id d +:+ dc_mint d +:+ put_u64 (dc_supply d) +:+ dc_code_hash d
    +:+ put_string (dc_code_repo_url d) +:+ put_i64 (dc_created_at d) +:+ put_u8 (dc_bump d).
Definition put_grant (g : Grant) : string :=
  gr_drt_config g +:+ put_i64 (gr_granted_at g) +:+ put_u8 (gr_bump g).

Definition MAX_POOL_DATA : Z := 1024.
Definition MAX_DRT_CONFIG_DATA : Z := 4 * 1024.
Definition MAX_GRANT_DATA : Z := 256.

Definition strip_discriminator (data expected : string) (max : Z) (label : string) :
    result ApiError string :=
  _ ← reject_if (len data <? 8) (Api.internal (label +:+ " account too short"));
  match split_at 8 data with
  | None => Err (Api.internal (label +:+ " account too short"))
  | Some (disc, payload) =>
      _ ← reject_if (negb (bool_decide (disc = expected)))
            (Api.internal ("invalid " +:+ label +:+ " discriminator"));
      _ ← reject_if (max <? len payload)
            (Api.internal (label +:+ " account too large (" +:+ show_u64 (len payload)
               +:+ " bytes, max " +:+ show_u64 max +:+ ")"));
      Ok payload
  end.

(** The answer of [rpc.get_account_data].  The text of a Borsh error is left out
    of the messages. *)
Definition account_reply : Type := result string (option string).

Section Fetch.
Context `{SolanaCrates}.
Definition fetch_account {A} (p : parser A) (what label disc : string) (max : Z)
    (reply : account_reply) (pda : string) : result ApiError A :=
  let missing := what +:+ " " +:+ base58 pda +:+ " not found" in
  data_opt ← map_err (λ e, Api.not_found (missing +:+ ": " +:+ e)) reply;
  data ← ok_or data_opt (Api.not_found missing);
  payload ← strip_discriminator data disc max label;
  ok_or (try_from_slice p payload) (Api.internal ("failed to deserialise " +:+ label)).
Definition fetch_pool : account_reply → string → result ApiError Pool :=
  fetch_account get_pool "pool account" "pool" DISC_POOL_ACCOUNT MAX_POOL_DATA.
Definition fetch_drt_config : account_reply → string → result ApiError DrtConfig :=
  fetch_account get_drt_config "drt_config" "drt_config" DISC_DRT_CONFIG_ACCOUNT MAX_DRT_CONFIG_DATA.
Definition fetch_grant : account_reply → string → result ApiError Grant :=
  fetch_account get_grant "grant" "grant" DISC_GRANT_ACCOUNT MAX_GRANT_DATA.
End Fetch.

(** ** Program addresses *)

Section Pda.
Context `{SolanaCrates, HashCrates}.
Definition drt_program_id : string := pubkey_of_const DRT_PROGRAM_ID_STR.
Definition token_program_id : string := pubkey_of_const TOKEN_PROGRAM_ID_STR.
Definition associated_token_program_id : string := pubkey_of_const ASSOCIATED_TOKEN_PROGRAM_ID_STR.
Definition system_program_id : string := pubkey_of_const SYSTEM_PROGRAM_ID_STR.
Definition rent_sysvar_id : string := pubkey_of_const RENT_SYSVAR_ID_STR.

Definition derive_pool_pda (pool_uuid : string) : string * Z :=
  find_program_address ["pool"; pool_uuid] drt_program_id.
Definition derive_drt_config_pda (pool right_id : string) : string * Z :=
  find_program_address ["drt"; pool; right_id] drt_program_id.
Definition derive_mint_pda (pool right_id : string) : string * Z :=
  find_program_address ["mint"; pool; right_id] drt_program_id.
Definition derive_grant_pda (commitment : string) : string * Z :=
  find_program_address ["grant"; commitment] drt_program_id.
Definition derive_user_ata (holder mint : string) : string :=
  (find_program_address [holder; token_program_id; mint] associated_token_program_id).1.
Definition compute_commitment (analyst_id pool_uuid right_id : string) : string :=
  sha256 (analyst_id +:+ pool_uuid +:+ right_id).

(** ** Instructions *)

Record AccountMeta := mkMeta { am_key : string; am_signer : bool; am_writable : bool }.
Record Instruction := mkInstruction {
  ix_program : string; ix_accounts : list AccountMeta; ix_data : string }.
(** [AccountMeta::new] and [AccountMeta::new_readonly]. *)
Definition meta_new (key : string) (signer : bool) : AccountMeta := mkMeta key signer true.
Definition meta_readonly (key : string) (signer : bool) : AccountMeta := mkMeta key signer false.

Definition build_compute_budget_ix (units : Z) : Instruction :=
  mkInstruction (pubkey_of_const "ComputeBudget111111111111111111111111111111") []
    (put_u8 2 +:+ put_u32 units).
Definition build_create_pool (owner pool_pda pool_uuid : string) : Instruction :=
  mkInstruction drt_program_id
    [meta_new owner true; meta_new pool_pda false; meta_readonly system_program_id false]
    (DISC_CREATE_POOL +:+ pool_uuid).
(** Borsh-serialising into a vector cannot fail. *)
Definition build_register_drt (owner pool_pda holder right_id code_repo_url code_hash : string)
    (supply : Z) : result string Instruction :=
  let drt_config_pda := (derive_drt_config_pda pool_pda right_id).1 in
  let mint_pda := (derive_mint_pda pool_pda right_id).1 in
  let holder_ata := derive_user_ata holder mint_pda in
  Ok (mkInstruction drt_program_id
    [meta_new owner true; meta_readonly pool_pda false; meta_new drt_config_pda false;
     meta_new mint_pda false; meta_readonly holder false; meta_new holder_ata false;
     meta_readonly token_program_id false; meta_readonly associated_token_program_id false;
     meta_readonly system_program_id false; meta_readonly rent_sysvar_id false]
    (DISC_REGISTER_DRT +:+ right_id +:+ put_string code_repo_url +:+ code_hash +:+ put_u64 supply)).
Definition build_grant_right (pool_pda drt_config_pda mint holder commitment : string) :
    Instruction :=
  let holder_ata := derive_user_ata holder mint in
  let grant_pda := (derive_grant_pda commitment).1 in
  mkInstruction drt_program_id
    [meta_readonly pool_pda false; meta_readonly drt_config_pda false; meta_new mint false;
     meta_new holder true; meta_new holder_ata false; meta_new grant_pda false;
     meta_readonly token_program_id false; meta_readonly system_program_id false]
    (DISC_GRANT_RIGHT +:+ commitment).
Definition build_revoke_grant (owner pool_pda drt_config_pda commitment : string) : Instruction :=
  let grant_pda := (derive_grant_pda commitment).1 in
  mkInstruction drt_program_id
    [meta_new owner true; meta_readonly pool_pda false; meta_readonly drt_config_pda false;
     meta_new grant_pda false]
    (DISC_REVOKE_GRANT +:+ commitment).
Definition build_seal_pool (owner pool_pda : string) : Instruction :=
  mkInstruction drt_program_id [meta_readonly owner true; meta_new pool_pda false] DISC_SEAL_POOL.

(** ** Events *)

Inductive DrtEvent :=
| PoolCreated (pool uuid owner : string) (created_at : Z)
| DrtRegistered (pool drt_config mint right_id : string) (supply : Z) (code_hash : string)
    (created_at : Z)
| RightGranted (pool drt_config commitment : string) (granted_at : Z)
| RightRevoked (pool drt_config commitment : string) (revoked_at : Z)
| PoolSealed (pool : string) (sealed_at : Z).

Definition get_pool_created : parser DrtEvent :=
  p ← get_pubkey; u ← get_bytes 16; o ← get_pubkey; c ← get_i64; mret (PoolCreated p u o c).
Definition get_drt_registered : parser DrtEvent :=
  p ← get_pubkey; d ← get_pubkey; m ← get_pubkey; r ← get_bytes 16; s ← get_u64; h ← get_bytes 32;
  c ← get_i64; mret (DrtRegistered p d m r s h c).
Definition get_right_granted : parser DrtEvent :=
  p ← get_pubkey; d ← get_pubkey; c ← get_bytes 32; g ← get_i64; mret (RightGranted p d c g).
Definition get_right_revoked : parser DrtEvent :=
  p ← get_pubkey; d ← get_pubkey; c ← get_bytes 32; r ← get_i64; mret (RightRevoked p d c r).
Definition get_pool_sealed : parser DrtEvent :=
  p ← get_pubkey; s ← get_i64; mret (PoolSealed p s).

Definition PROGRAM_DATA_PREFIX : string := "Program data: ".

(** The body of the loop for one log line. *)
Definition parse_event_line (line : string) : option DrtEvent :=
  s ← strip_prefix PROGRAM_DATA_PREFIX line;
  bytes ← std_b64_decode (trim s);
  if len bytes <? 8 then None
  else
    '(disc, payload) ← split_at 8 bytes;
    if bool_decide (disc = DISC_POOL_CREATED) then try_from_slice get_pool_created payload
    else if bool_decide (disc = DISC_DRT_REGISTERED) then try_from_slice get_drt_registered payload
    else if bool_decide (disc = DISC_RIGHT_GRANTED) then try_from_slice get_right_granted payload
    else if bool_decide (disc = DISC_RIGHT_REVOKED) then try_from_slice get_right_revoked payload
    else if bool_decide (disc = DISC_POOL_SEALED) then try_from_slice get_pool_sealed payload
    else None.
Definition parse_drt_events (logs : list string) : list DrtEvent := filter_map parse_event_line logs.
End Pda.
