(* ===== verification/DrtProgramFacts.v ===== *)
(** * Facts about the on-chain formats

    Round trips of accounts, instruction data and events, and the binding of a
    commitment to its grant. *)
From S2P Require Import Prelude.
From S2P Require Import RustStr.
From S2P Require Import RustFmt.
From S2P Require Import Errors.
From S2P Require Import TxDatabase.
From S2P Require Import TxNonces.
From S2P Require Import VerifiedFetch.
From S2P Require Import FetchFacts.
From S2P Require Import DrtProgram.

Local Open Scope Z_scope.
#[local] Arguments String.append : simpl nomatch.

(** ** Parsing what was written *)

(** [p] reads [x] as [a], whatever follows. *)
Definition parses {A} (p : parser A) (x : string) (a : A) : Prop :=
  ∀ r, p (x +:+ r) = Some (a, r).

Lemma parses_ret {A} (a : A) : parses (mret a) "" a.
Proof. by intros r. Qed.
Lemma parses_bind {A B} (p : parser A) (f : A → parser B) x y a b :
  parses p x a → parses (f a) y b → parses (p ≫= f) (x +:+ y) b.
Proof.
  intros Hp Hf r. unfold mbind, parser_bind. rewrite append_assoc, Hp. apply Hf.
Qed.
(** The last field needs no trailing empty string. *)
Lemma parses_last {A B} (p : parser A) (f : A → parser B) x a b :
  parses p x a → parses (f a) "" b → parses (p ≫= f) x b.
Proof. intros Hp Hf. rewrite <-(append_nil_r x). by eapply parses_bind. Qed.
Lemma parses_whole {A} (p : parser A) x a : parses p x a → try_from_slice p x = Some a.
Proof. intros Hp. unfold try_from_slice. specialize (Hp ""). by rewrite append_nil_r in Hp; rewrite Hp. Qed.

Lemma parses_bytes n x : String.length x = n → parses (get_bytes n) x x.
Proof.
  intros <- r. unfold get_bytes. induction x as [|c x IH]; [done|]. simpl in *. by rewrite IH.
Qed.
Lemma split_at_app n x r : String.length x = n → split_at n (x +:+ r) = Some (x, r).
Proof. intros Hx. by apply parses_bytes. Qed.
Lemma parses_le (n : nat) z :
  0 ≤ z < 256 ^ Z.of_nat n → parses (c ← get_bytes n; mret (le_value c)) (le_bytes n z) z.
Proof.
  intros Hz. eapply parses_last; [by apply parses_bytes, length_le_bytes|].
  rewrite le_value_bytes, Z.mod_small by done. apply parses_ret.
Qed.
Definition is_u8 (z : Z) : Prop := 0 ≤ z < 256.
Lemma parses_u8 z : is_u8 z → parses get_u8 (put_u8 z) z.
Proof. intros Hz. by apply (parses_le 1). Qed.
Lemma parses_u32 z : 0 ≤ z < 2 ^ 32 → parses get_u32 (put_u32 z) z.
Proof. intros Hz. by apply (parses_le 4). Qed.
Lemma parses_u64 z : is_u64 z → parses get_u64 (put_u64 z) z.
Proof. intros Hz. apply (parses_le 8). unfold is_u64, U64_MAX in Hz. simpl. lia. Qed.
Lemma parses_i64 z : is_i64 z → parses get_i64 (put_i64 z) z.
Proof.
  intros Hz. eapply parses_last; [by apply parses_bytes, length_le_bytes|].
  rewrite i64_le_round by done. apply parses_ret.
Qed.
Lemma parses_bool b : parses get_bool (put_bool b) b.
Proof. eapply parses_last; [apply parses_u8; destruct b; by vm_compute|]. by destruct b. Qed.
Lemma parses_string x : utf8_valid x = true → len x < 2 ^ 32 → parses get_string (put_string x) x.
Proof.
  intros Hu Hl. eapply parses_bind; [apply parses_u32; unfold len in *; lia|].
  eapply parses_last; [apply parses_bytes; unfold len; by rewrite Nat2Z.id|].
  rewrite Hu. by intros r.
Qed.
(** Follow the fields of a record in order. *)
Ltac solve_parses :=
  repeat first
    [ apply parses_ret
    | eapply parses_bind;
        [first [by apply parses_bytes|by apply parses_u64|by apply parses_i64|by apply parses_u8
               |by apply parses_bool|by apply parses_string]|]
    | eapply parses_last;
        [first [by apply parses_bytes|by apply parses_u64|by apply parses_i64|by apply parses_u8
               |by apply parses_bool|by apply parses_string]|] ].

(** ** Well-formed values *)

Abbreviation is_len n x := (String.length x = n%nat).
Definition pool_wf (p : Pool) : Prop :=
  is_len 16 (pl_uuid p) ∧ is_len 32 (pl_owner p) ∧ is_i64 (pl_created_at p) ∧ is_u8 (pl_bump p).
Definition drt_config_wf (d : DrtConfig) : Prop :=
  is_len 32 (dc_pool d) ∧ is_len 16 (dc_right_id d) ∧ is_len 32 (dc_mint d) ∧ is_u64 (dc_supply d) ∧
  is_len 32 (dc_code_hash d) ∧ utf8_valid (dc_code_repo_url d) = true ∧
  len (dc_code_repo_url d) ≤ 256 ∧ is_i64 (dc_created_at d) ∧ is_u8 (dc_bump d).
Definition grant_wf (g : Grant) : Prop :=
  is_len 32 (gr_drt_config g) ∧ is_i64 (gr_granted_at g) ∧ is_u8 (gr_bump g).

Lemma get_put_pool p : pool_wf p → parses get_pool (put_pool p) p.
Proof.
  destruct p as [u o c s b]. intros (Hu & Ho & Hc & Hb). simpl in *.
  unfold get_pool, put_pool, get_pubkey.
  cbn [pl_uuid pl_owner pl_created_at pl_sealed pl_bump]. solve_parses.
Qed.
Lemma get_put_drt_config d : drt_config_wf d → parses get_drt_config (put_drt_config d) d.
Proof.
  destruct d as [p r m s h u c b]. intros (Hp & Hr & Hm & Hs & Hh & Hu & Hl & Hc & Hb). simpl in *.
  unfold get_drt_config, put_drt_config, get_pubkey.
  cbn [dc_pool dc_right_id dc_mint dc_supply dc_code_hash dc_code_repo_url dc_created_at dc_bump].
  assert (Hl' : len u < 2 ^ 32) by lia. solve_parses.
Qed.
Lemma get_put_grant g : grant_wf g → parses get_grant (put_grant g) g.
Proof.
  destruct g as [d g b]. intros (Hd & Hg & Hb). simpl in *.
  unfold get_grant, put_grant, get_pubkey.
  cbn [gr_drt_config gr_granted_at gr_bump]. solve_parses.
Qed.

Lemma length_put n z : String.length (le_bytes n z) = n.
Proof. apply length_le_bytes. Qed.
Lemma strip_discriminator_app disc x max label :
  String.length disc = 8%nat → len x ≤ max → strip_discriminator (disc +:+ x) disc max label = Ok x.
Proof.
  intros Hd Hx. unfold strip_discriminator, mbind, result_bind, reject_if.
  rewrite split_at_app by done. rewrite bool_decide_true by done. cbn [negb].
  rewrite (proj2 (Z.ltb_ge (len (disc +:+ x)) 8))
    by (unfold len; rewrite length_append, Hd; lia).
  by rewrite (proj2 (Z.ltb_ge max (len x))).
Qed.

Section Facts.
Context `{SolanaCrates}.

Lemma fetch_account_ok {A} (p : parser A) what label disc max (a : A) x pda :
  String.length disc = 8%nat → parses p x a → len x ≤ max →
  fetch_account p what label disc max (Ok (Some (disc +:+ x))) pda = Ok a.
Proof.
  intros Hd Hp Hx. unfold fetch_account, mbind, result_bind. cbn [map_err ok_or].
  rewrite strip_discriminator_app by done. by rewrite (parses_whole p x a).
Qed.
(** Data of another account type is never decoded. *)
Lemma fetch_account_other {A} (p : parser A) what label disc max d x pda :
  String.length d = 8%nat → d ≠ disc →
  fetch_account p what label disc max (Ok (Some (d +:+ x))) pda =
    Err (Api.internal ("invalid " +:+ label +:+ " discriminator")).
Proof.
  intros Hd Hne. unfold fetch_account, strip_discriminator, mbind, result_bind, reject_if.
  cbn [map_err ok_or]. rewrite split_at_app by done. rewrite bool_decide_false by done. cbn [negb].
  by rewrite (proj2 (Z.ltb_ge (len (d +:+ x)) 8)) by (unfold len; rewrite length_append, Hd; lia).
Qed.

(** Accounts survive the chain.  The data of a well-formed pool, DRT or
    grant account, as the program stores it, is fetched as that account, and an
    account of one type is never taken for another. *)
Theorem accounts_round_trip (p : Pool) (d : DrtConfig) (g : Grant) (pda x : string)
    (Hp : pool_wf p) (Hd : drt_config_wf d) (Hg : grant_wf g) :
  fetch_pool (Ok (Some (DISC_POOL_ACCOUNT +:+ put_pool p))) pda = Ok p ∧
  fetch_drt_config (Ok (Some (DISC_DRT_CONFIG_ACCOUNT +:+ put_drt_config d))) pda = Ok d ∧
  fetch_grant (Ok (Some (DISC_GRANT_ACCOUNT +:+ put_grant g))) pda = Ok g ∧
  (∃ m, fetch_pool (Ok (Some (DISC_DRT_CONFIG_ACCOUNT +:+ x))) pda = Err (Api.internal m)) ∧
  (∃ m, fetch_drt_config (Ok (Some (DISC_GRANT_ACCOUNT +:+ x))) pda = Err (Api.internal m)) ∧
  (∃ m, fetch_grant (Ok (Some (DISC_POOL_ACCOUNT +:+ x))) pda = Err (Api.internal m)).
Proof.
  destruct Hp as (Hu & Ho & Hp'), Hd as (Hdp & Hr & Hm & Hs & Hh & Hurl & Hl & Hd'),
    Hg as (Hgd & Hg').
  split_and!.
  - apply fetch_account_ok; [done|by apply get_put_pool|].
    unfold put_pool, put_i64, i64_to_le_bytes, put_bool, put_u8, len.
    rewrite !length_append, !length_put, Hu, Ho. vm_compute. discriminate.
  - apply fetch_account_ok; [done|by apply get_put_drt_config|].
    unfold put_drt_config, put_string, put_i64, i64_to_le_bytes, put_u64, put_u32, put_u8, len in *.
    rewrite !length_append, !length_put, Hdp, Hr, Hm, Hh. unfold MAX_DRT_CONFIG_DATA. lia.
  - apply fetch_account_ok; [done|by apply get_put_grant|].
    unfold put_grant, put_i64, i64_to_le_bytes, put_u8, len.
    rewrite !length_append, !length_put, Hgd. vm_compute. discriminate.
  - eexists. apply fetch_account_other; [done|by vm_compute].
  - eexists. apply fetch_account_other; [done|by vm_compute].
  - eexists. apply fetch_account_other; [done|by vm_compute].
Qed.
End Facts.

(** ** Instructions as the program reads them *)

(** A call of the program, with the arguments its IDL declares. *)
Inductive program_call :=
| CallCreatePool (pool_id : string)
| CallRegisterDrt (right_id code_repo_url code_hash : string) (supply : Z)
| CallGrantRight (commitment : string)
| CallRevokeGrant (commitment : string)
| CallSealPool.
Definition decode_call (data : string) : option program_call :=
  '(disc, args) ← split_at 8 data;
  if bool_decide (disc = DISC_CREATE_POOL) then
    try_from_slice (u ← get_bytes 16; mret (CallCreatePool u)) args
  else if bool_decide (disc = DISC_REGISTER_DRT) then
    try_from_slice (r ← get_bytes 16; u ← get_string; h ← get_bytes 32; s ← get_u64;
                    mret (CallRegisterDrt r u h s)) args
  else if bool_decide (disc = DISC_GRANT_RIGHT) then
    try_from_slice (c ← get_bytes 32; mret (CallGrantRight c)) args
  else if bool_decide (disc = DISC_REVOKE_GRANT) then
    try_from_slice (c ← get_bytes 32; mret (CallRevokeGrant c)) args
  else if bool_decide (disc = DISC_SEAL_POOL) then
    try_from_slice (mret CallSealPool) args
  else None.
(** The signers of an instruction. *)
Definition signers (ix : Instruction) : list string :=
  am_key <$> List.filter am_signer (ix_accounts ix).

Lemma decode_call_disc disc x :
  String.length disc = 8%nat →
  decode_call (disc +:+ x) =
    if bool_decide (disc = DISC_CREATE_POOL) then
      try_from_slice (u ← get_bytes 16; mret (CallCreatePool u)) x
    else if bool_decide (disc = DISC_REGISTER_DRT) then
      try_from_slice (r ← get_bytes 16; u ← get_string; h ← get_bytes 32; s ← get_u64;
                      mret (CallRegisterDrt r u h s)) x
    else if bool_decide (disc = DISC_GRANT_RIGHT) then
      try_from_slice (c ← get_bytes 32; mret (CallGrantRight c)) x
    else if bool_decide (disc = DISC_REVOKE_GRANT) then
      try_from_slice (c ← get_bytes 32; mret (CallRevokeGrant c)) x
    else if bool_decide (disc = DISC_SEAL_POOL) then try_from_slice (mret CallSealPool) x
    else None.
Proof. intros Hd. unfold decode_call. by rewrite split_at_app. Qed.

(** The commitment of a grant determines the analyst, the pool and the right,
    unless it exhibits a collision of the hash. *)
Lemma commitment_binds `{HashCrates} a u r a' u' r' :
  is_len 16 u → is_len 16 r → is_len 16 u' → is_len 16 r' →
  compute_commitment a u r = compute_commitment a' u' r' →
  (a, u, r) = (a', u', r') ∨ ∃ x y, x ≠ y ∧ sha256 x = sha256 y.
Proof.
  intros Hu Hr Hu' Hr' He. unfold compute_commitment in He.
  destruct (decide (a +:+ u +:+ r = a' +:+ u' +:+ r')) as [Heq|Hne]; [|eauto]. left.
  assert (Hl : String.length a = String.length a').
  { apply (f_equal String.length) in Heq. rewrite !length_append in Heq. lia. }
  apply append_inj_len in Heq as [-> Heq]; [|done].
  apply append_inj_len in Heq as [-> ->]; [done|congruence].
Qed.

Section Instructions.
Context `{SolanaCrates, HashCrates}.

(** C28: the program reads back what was asked.  For arguments of the right
    sizes, the data of each instruction the server builds decodes, by the
    program's discriminators and Borsh layout, to that call with exactly those
    arguments, it is signed by the caller's key only, and two grants with the
    same instruction data are for the same analyst, pool and right (or exhibit
    a SHA-256 collision). *)
Theorem instructions_decode (owner pool holder mint config uuid right url hash analyst : string)
    (supply : Z) (ix : Instruction) :
  is_len 16 uuid → is_len 16 right → is_len 32 hash → utf8_valid url = true →
  len url ≤ 256 → is_u64 supply → (∀ x, is_len 32 (sha256 x)) →
  build_register_drt owner pool holder right url hash supply = Ok ix →
  let c := compute_commitment analyst uuid right in
  decode_call (ix_data (build_create_pool owner pool uuid)) = Some (CallCreatePool uuid) ∧
  decode_call (ix_data ix) = Some (CallRegisterDrt right url hash supply) ∧
  decode_call (ix_data (build_grant_right pool config mint holder c)) = Some (CallGrantRight c) ∧
  decode_call (ix_data (build_revoke_grant owner pool config c)) = Some (CallRevokeGrant c) ∧
  decode_call (ix_data (build_seal_pool owner pool)) = Some CallSealPool ∧
  signers ix = [owner] ∧ signers (build_grant_right pool config mint holder c) = [holder] ∧
  signers (build_revoke_grant owner pool config c) = [owner] ∧
  ∀ analyst' uuid' right', is_len 16 uuid' → is_len 16 right' →
    ix_data (build_grant_right pool config mint holder c) =
    ix_data (build_grant_right pool config mint holder (compute_commitment analyst' uuid' right')) →
    (analyst, uuid, right) = (analyst', uuid', right') ∨ ∃ x y, x ≠ y ∧ sha256 x = sha256 y.
Proof.
  intros Hu Hr Hh Hurl Hl Hs Hsha Hix c. unfold build_register_drt in Hix.
  match type of Hix with Ok ?t = _ => assert (Heq : ix = t) by congruence; subst ix end.
  assert (Hl' : len url < 2 ^ 32) by lia. assert (Hc : is_len 32 c) by apply Hsha.
  split_and!; try done;
    try (cbn [ix_data build_create_pool build_grant_right build_revoke_grant]);
    try (rewrite decode_call_disc by done; apply parses_whole; solve_parses).
  intros a' u' r' Hu' Hr' He. apply (append_inj_len DISC_GRANT_RIGHT DISC_GRANT_RIGHT) in He as [_ He]; [|done].
  by apply commitment_binds.
Qed.
End Instructions.


(** ** Events *)

#[local] Arguments split_at : simpl never.

(** The bytes of an event, as the program emits them. *)
Definition event_disc (ev : DrtEvent) : string :=
  match ev with
  | PoolCreated _ _ _ _ => DISC_POOL_CREATED
  | DrtRegistered _ _ _ _ _ _ _ => DISC_DRT_REGISTERED
  | RightGranted _ _ _ _ => DISC_RIGHT_GRANTED
  | RightRevoked _ _ _ _ => DISC_RIGHT_REVOKED
  | PoolSealed _ _ => DISC_POOL_SEALED
  end.
Definition event_payload (ev : DrtEvent) : string :=
  match ev with
  | PoolCreated p u o c => p +:+ u +:+ o +:+ put_i64 c
  | DrtRegistered p d m r s h c =>
      p +:+ d +:+ m +:+ r +:+ put_u64 s +:+ h +:+ put_i64 c
  | RightGranted p d c g => p +:+ d +:+ c +:+ put_i64 g
  | RightRevoked p d c r => p +:+ d +:+ c +:+ put_i64 r
  | PoolSealed p t => p +:+ put_i64 t
  end.
Definition event_wf (ev : DrtEvent) : Prop :=
  match ev with
  | PoolCreated p u o c => is_len 32 p ∧ is_len 16 u ∧ is_len 32 o ∧ is_i64 c
  | DrtRegistered p d m r s h c =>
      is_len 32 p ∧ is_len 32 d ∧ is_len 32 m ∧ is_len 16 r ∧ is_u64 s ∧ is_len 32 h ∧ is_i64 c
  | RightGranted p d c g => is_len 32 p ∧ is_len 32 d ∧ is_len 32 c ∧ is_i64 g
  | RightRevoked p d c r => is_len 32 p ∧ is_len 32 d ∧ is_len 32 c ∧ is_i64 r
  | PoolSealed p t => is_len 32 p ∧ is_i64 t
  end.

(** [p] accepts only what its writer produces: an accepted input starts with the
    encoding of the value. *)
Definition exact {A} (p : parser A) (put : A → string) (wf : A → Prop) : Prop :=
  ∀ s a r, p s = Some (a, r) → s = put a +:+ r ∧ wf a.

Lemma exact_bytes n : exact (get_bytes n) (λ x, x) (λ x, is_len n x).
Proof.
  unfold get_bytes. induction n as [|n IH]; intros s a r Hs; unfold split_at in Hs;
    fold split_at in Hs; [by simplify_eq|].
  destruct s as [|c s]; [done|]. destruct (split_at n s) as [[x y]|] eqn:Hx; [|done].
  simplify_eq. apply IH in Hx as [-> Hl]. simpl. auto.
Qed.
Lemma le_value_range x : 0 ≤ le_value x < 256 ^ len x.
Proof.
  unfold len. induction x as [|c x IH]; [done|]. cbn [le_value String.length].
  rewrite Nat2Z.inj_succ, Z.pow_succ_r by lia. pose proof (byte_range c). lia.
Qed.
Lemma char_of_byte c : char_of (byte c) = c.
Proof. unfold char_of, byte. rewrite N2Z.id. apply ascii_N_embedding. Qed.
Lemma le_bytes_value x : le_bytes (String.length x) (le_value x) = x.
Proof.
  induction x as [|c x IH]; [done|]. cbn [String.length le_bytes le_value].
  pose proof (byte_range c) as Hb.
  rewrite Z.mul_comm, Z.add_mod, Z.mod_mul, Z.add_0_r, Z.mod_mod, Z.mod_small by lia.
  rewrite Z.div_add, Z.div_small, Z.add_0_l by lia. by rewrite char_of_byte, IH.
Qed.
Lemma exact_u64 : exact get_u64 put_u64 is_u64.
Proof.
  intros s a r Hs. unfold get_u64, mbind, parser_bind in Hs.
  destruct (get_bytes 8 s) as [[x y]|] eqn:Hx; [|done]. injection Hs as <- <-.
  apply exact_bytes in Hx as [-> Hl]. unfold put_u64. rewrite <-Hl, le_bytes_value. split; [done|].
  pose proof (le_value_range x) as Hv. unfold len in Hv. rewrite Hl in Hv.
  unfold is_u64, U64_MAX. change (256 ^ Z.of_nat 8) with (2 ^ 64) in Hv. lia.
Qed.
Lemma le_bytes_wrap n z : le_bytes n z = le_bytes n (z mod 256 ^ Z.of_nat n).
Proof.
  revert z. induction n as [|n IH]; intros z; [done|]. cbn [le_bytes].
  rewrite Nat2Z.inj_succ, Z.pow_succ_r by lia.
  assert (Hp : 0 < 256 ^ Z.of_nat n) by (apply Z.pow_pos_nonneg; lia).
  rewrite Z.rem_mul_r by lia. f_equal.
  - f_equal. rewrite Z.add_mod, (Z.mul_comm 256), Z.mod_mul, Z.add_0_r, !Z.mod_mod by lia. done.
  - rewrite (IH (z / 256)). f_equal. rewrite (Z.mul_comm 256), Z.div_add by lia.
    rewrite (Z.div_small (z mod 256)) by (apply Z.mod_pos_bound; lia). lia.
Qed.
Lemma exact_i64 : exact get_i64 put_i64 is_i64.
Proof.
  intros s a r Hs. unfold get_i64, mbind, parser_bind in Hs.
  destruct (get_bytes 8 s) as [[x y]|] eqn:Hx; [|done]. injection Hs as <- <-.
  apply exact_bytes in Hx as [-> Hl].
  pose proof (le_value_range x) as Hv. unfold len in Hv. rewrite Hl in Hv.
  change (256 ^ Z.of_nat 8) with (2 ^ 64) in Hv.
  unfold i64_from_le_bytes. rewrite Hl. cbn [Nat.eqb].
  unfold put_i64, i64_to_le_bytes. pose proof (le_bytes_value x) as Hx. rewrite Hl in Hx.
  destruct (Z.ltb_spec (le_value x) (2 ^ 63)).
  - rewrite Hx. split; [done|]. unfold is_i64, I64_MIN, I64_MAX. lia.
  - rewrite (le_bytes_wrap 8). change (256 ^ Z.of_nat 8) with (2 ^ 64).
    replace (le_value x - 2 ^ 64) with (le_value x + (-1) * 2 ^ 64) by lia.
    rewrite Z.mod_add, Z.mod_small by lia. rewrite Hx. split; [done|].
    unfold is_i64, I64_MIN, I64_MAX. lia.
Qed.

Lemma parser_bind_some {A B} (p : parser A) (f : A → parser B) s b r :
  (p ≫= f) s = Some (b, r) → ∃ a r', p s = Some (a, r') ∧ f a r' = Some (b, r).
Proof. unfold mbind, parser_bind. destruct (p s) as [[a r']|]; [eauto|done]. Qed.
(** Follow the fields of an accepted record. *)
Ltac solve_exact Hs :=
  let a := fresh "x" in let r := fresh "r" in let Ha := fresh "Ha" in
  lazymatch type of Hs with
  | (_ ≫= _) _ = Some _ =>
      apply parser_bind_some in Hs as (a & r & Ha & Hs);
      first [apply exact_bytes in Ha as [-> Ha] | apply exact_u64 in Ha as [-> Ha]
            | apply exact_i64 in Ha as [-> Ha]]; solve_exact Hs
  | _ => injection Hs as <- <-
  end.
Ltac exact_record get :=
  intros s ev r Hs; unfold get, get_pubkey in Hs; solve_exact Hs;
  cbn [event_payload event_wf event_disc]; split; [by rewrite !append_assoc|by split_and!].
Lemma exact_pool_created : exact get_pool_created event_payload
  (λ ev, event_disc ev = DISC_POOL_CREATED ∧ event_wf ev).
Proof. exact_record get_pool_created. Qed.
Lemma exact_drt_registered : exact get_drt_registered event_payload
  (λ ev, event_disc ev = DISC_DRT_REGISTERED ∧ event_wf ev).
Proof. exact_record get_drt_registered. Qed.
Lemma exact_right_granted : exact get_right_granted event_payload
  (λ ev, event_disc ev = DISC_RIGHT_GRANTED ∧ event_wf ev).
Proof. exact_record get_right_granted. Qed.
Lemma exact_right_revoked : exact get_right_revoked event_payload
  (λ ev, event_disc ev = DISC_RIGHT_REVOKED ∧ event_wf ev).
Proof. exact_record get_right_revoked. Qed.
Lemma exact_pool_sealed : exact get_pool_sealed event_payload
  (λ ev, event_disc ev = DISC_POOL_SEALED ∧ event_wf ev).
Proof. exact_record get_pool_sealed. Qed.

(** Each event's parser reads its payload. *)
Lemma event_payload_parses ev :
  event_wf ev →
  try_from_slice match ev with
                 | PoolCreated _ _ _ _ => get_pool_created
                 | DrtRegistered _ _ _ _ _ _ _ => get_drt_registered
                 | RightGranted _ _ _ _ => get_right_granted
                 | RightRevoked _ _ _ _ => get_right_revoked
                 | PoolSealed _ _ => get_pool_sealed
                 end (event_payload ev) = Some ev.
Proof.
  destruct ev; cbn [event_wf event_payload]; intros Hwf; destruct_and!; apply parses_whole;
    unfold get_pool_created, get_drt_registered, get_right_granted, get_right_revoked,
      get_pool_sealed, get_pubkey; solve_parses.
Qed.
Lemma try_exact {A} (p : parser A) put wf s a :
  exact p put wf → try_from_slice p s = Some a → s = put a ∧ wf a.
Proof.
  intros He Hs. unfold try_from_slice in Hs. destruct (p s) as [[b [|]]|] eqn:Hp; simplify_eq.
  apply He in Hp. by rewrite append_nil_r in Hp.
Qed.

Section Events.
Context `{SolanaCrates}.

(** A log line that carries an event. *)
Definition event_line (line : string) (ev : DrtEvent) : Prop :=
  event_wf ev ∧ ∃ text, line = PROGRAM_DATA_PREFIX +:+ text ∧
    std_b64_decode (trim text) = Some (event_disc ev +:+ event_payload ev).

Lemma parse_event_line_spec line ev : parse_event_line line = Some ev ↔ event_line line ev.
Proof.
  unfold parse_event_line, event_line. split.
  - intros Hp. destruct (strip_prefix PROGRAM_DATA_PREFIX line) as [text|] eqn:Hl; [|discriminate Hp].
    apply strip_prefix_spec in Hl. cbn in Hp.
    destruct (std_b64_decode (trim text)) as [bytes|] eqn:Hb; [|discriminate Hp]. cbn in Hp.
    destruct (len bytes <? 8); [done|].
    destruct (split_at 8 bytes) as [[disc payload]|] eqn:Hs; [|discriminate Hp]. cbn in Hp.
    apply exact_bytes in Hs as [-> _].
    cut (disc = event_disc ev ∧ payload = event_payload ev ∧ event_wf ev);
      [intros (-> & -> & Hwf); eauto|].
    repeat (case_bool_decide as Hdisc;
      [first [ apply (try_exact _ _ _ _ _ exact_pool_created) in Hp
             | apply (try_exact _ _ _ _ _ exact_drt_registered) in Hp
             | apply (try_exact _ _ _ _ _ exact_right_granted) in Hp
             | apply (try_exact _ _ _ _ _ exact_right_revoked) in Hp
             | apply (try_exact _ _ _ _ _ exact_pool_sealed) in Hp ];
       destruct Hp as (-> & Hd & Hwf); by rewrite Hd|clear Hdisc]). done.
  - intros (Hwf & text & -> & Hb). rewrite strip_prefix_app. cbn. rewrite Hb. cbn.
    assert (Hl : String.length (event_disc ev) = 8%nat) by (by destruct ev).
    rewrite (proj2 (Z.ltb_ge (len _) 8)) by (unfold len; rewrite length_append, Hl; lia).
    rewrite split_at_app by done. cbn. pose proof (event_payload_parses ev Hwf) as Hp.
    destruct ev; cbn [event_disc];
      repeat (case_bool_decide as Hd; [try (exfalso; by vm_compute in Hd)|try (by destruct Hd)]);
      exact Hp.
Qed.

(** Event parsing is exact.  The events read from a transaction's log are,
    in order, exactly those its lines carry: a line yields an event iff it is the
    program-data line of the base64 text of that event's discriminator and Borsh
    encoding; every other line is skipped. *)
Theorem events_exact (logs : list string) (evs : list DrtEvent) :
  parse_drt_events logs = evs ↔
  ∃ parsed, evs = omap id parsed ∧
    Forall2 (λ line o, match o with
                       | Some ev => event_line line ev
                       | None => ∀ ev, ¬ event_line line ev
                       end) logs parsed.
Proof.
  unfold parse_drt_events. revert evs. induction logs as [|line logs IH]; intros evs; simpl.
  { split; [intros <-; exists []; by split; [|constructor]|].
    intros (parsed & -> & Hf). by inversion Hf. }
  split.
  - intros He. destruct (proj1 (IH (filter_map parse_event_line logs)) eq_refl) as (parsed & Hp & Hf).
    rewrite Hp in He. exists (parse_event_line line :: parsed).
    destruct (parse_event_line line) as [ev|] eqn:Hl; subst evs; (split; [done|]);
      constructor; try done.
    + by apply parse_event_line_spec.
    + intros ev Hev%parse_event_line_spec. congruence.
  - intros (parsed & -> & Hf). inversion Hf as [|? o ? rest Ho Hrest]; subst.
    rewrite (proj2 (IH (omap id rest))) by eauto.
    destruct o as [ev|].
    + apply parse_event_line_spec in Ho. by rewrite Ho.
    + destruct (parse_event_line line) as [ev|] eqn:Hl; [|done].
      apply parse_event_line_spec in Hl. by destruct (Ho ev).
Qed.
End Events.

(** ** Examples *)

#[export] Instance solana0 : SolanaCrates := {
  find_program_address seeds _ := (fit 32 (String.concat "" seeds), 255);
  pubkey_of_const s := fit 32 s;
  pubkey_from_str s := match s with EmptyString => None | _ => unhex s end;
  base58 s := hex_pairs s;
  std_b64_decode s := Some s;
}.
Definition key0 (s : string) : string := fit 32 s.
Definition pool1 : Pool := mkPool (fit 16 "uuid") (key0 "owner") (-5) true 255.
Definition config1 : DrtConfig :=
  mkDrtConfig (key0 "pool") (fit 16 "right") (key0 "mint") 100 (key0 "hash") "https://x" 7 254.
Definition grant1 : Grant := mkGrant (key0 "config") 9 253.
Lemma accounts_round_trip_witness :
  fetch_pool (Ok (Some (DISC_POOL_ACCOUNT +:+ put_pool pool1))) (key0 "p") = Ok pool1.
Proof.
  apply (accounts_round_trip pool1 config1 grant1 (key0 "p") "");
    unfold pool_wf, drt_config_wf, grant_wf, is_i64, is_u64, is_u8, I64_MIN, I64_MAX, U64_MAX; simpl;
    split_and!; try reflexivity; try lia; vm_compute; discriminate.
Defined.
Lemma instructions_decode_witness :
  ∃ ix, build_register_drt (key0 "o") (key0 "p") (key0 "h") (fit 16 "r") "https://x" (key0 "hash") 10
    = Ok ix ∧ decode_call (ix_data ix) =
      Some (CallRegisterDrt (fit 16 "r") "https://x" (key0 "hash") 10).
Proof.
  eexists. split; [reflexivity|].
  apply (instructions_decode (key0 "o") (key0 "p") (key0 "h") (key0 "m") (key0 "c") (fit 16 "u")
    (fit 16 "r") "https://x" (key0 "hash") "ana" 10);
    try reflexivity; try (intros x; apply fit_len); try (vm_compute; split; discriminate);
    vm_compute; discriminate.
Defined.
