(* ===== verification/Chain.v ===== *)
(** * Sending transactions

    The chain side of a handler: confirmation polling
    (src/src/blockchain/transactions.rs) and the helpers that
    src/src/api/pools.rs shares with the other handlers (wallet keys, ownership,
    metadata, provenance of audit records).  The RPC node is the environment. *)
From S2P Require Import Prelude.
From S2P Require Import RustStr.
From S2P Require Import RustFmt.
From S2P Require Import Errors.
From S2P Require Import Types.
From S2P Require Import Interfaces.
From S2P Require Import TxDatabase.
From S2P Require Import Storage.
From S2P Require Import TxCache.
From S2P Require Import AppState.
From S2P Require Import Wallets.
From S2P Require Import VerifiedFetch.
From S2P Require Import DrtValidation.
From S2P Require Import DrtProgram.

Local Open Scope Z_scope.
#[local] Arguments String.append : simpl nomatch.

(** ** The RPC node during one request *)

(** A signature status: an on-chain error, and the confirmation status. *)
Record SignatureStatus := mkStatus { st_err : bool; st_confirmation : option string }.
Record Tx := mkTx { tx_ixs : list Instruction; tx_payer : string; tx_blockhash : string }.
(** Answers of the node; polls are numbered, [rpc_clock n] is the time in
    milliseconds since the start of the polling at the [n]th check. *)
Record Rpc := mkRpc {
  rpc_blockhash : result string string;
  rpc_send : Tx → result string string;
  rpc_statuses : nat → result string (list (option SignatureStatus));
  rpc_clock : nat → Z;
  rpc_logs : result string (list string);
  rpc_account : string → account_reply;
}.

(** ** Confirmation *)

Definition finalized (commitment : string) : bool := bool_decide (commitment = "finalized").
Definition confirm_timeout (commitment : string) : Z := if finalized commitment then 60000 else 30000.
Definition poll_interval (commitment : string) : Z := if finalized commitment then 1000 else 400.

(** What one poll decides: an answer, or to go on. *)
Definition poll_step (commitment : string) (r : result string (list (option SignatureStatus))) :
    option (result ApiError unit) :=
  match r with
  | Ok (Some s :: _) =>
      if st_err s then Some (Err (Api.service_unavailable "transaction failed on-chain"))
      else
        let confirmed := match st_confirmation s with
                         | Some c => if bool_decide (c = "finalized") then true
                                     else if bool_decide (c = "confirmed") then negb (finalized commitment)
                                     else false
                         | None => false
                         end in
        if confirmed then Some (Ok ()) else None
  | _ => None
  end.
(** The loop from its [n]th round on; [None] when the fuel runs out. *)
Fixpoint await_loop (fuel n : nat) (rpc : Rpc) (commitment : string) : option (result ApiError unit) :=
  match fuel with
  | O => None
  | S m =>
      if confirm_timeout commitment <? rpc_clock rpc n then
        Some (Err (Api.service_unavailable
          ("transaction confirmation timed out (" +:+ show_u64 (confirm_timeout commitment / 1000)
             +:+ "s) at " +:+ commitment)))
      else match poll_step commitment (rpc_statuses rpc n) with
           | Some r => Some r
           | None => await_loop m (S n) rpc commitment
           end
  end.
(** Enough rounds for the slower setting: each sleeps for the poll interval. *)
Definition AWAIT_FUEL : nat := 80.
Definition await_confirmation (rpc : Rpc) (commitment : string) : result ApiError unit :=
  match await_loop AWAIT_FUEL 0 rpc commitment with
  | Some r => r
  | None => Err (Api.service_unavailable "")
  end.

(** ** Shared helpers of the handlers *)

(** A panic drops the request: no HTTP status. *)
Definition api_of_fault (f : fault) : ApiError :=
  match f with Rejected e => e | Panicked => mkApiError 0 "panic" end.

Definition decode_right_id (hex : string) : result ApiError string :=
  _ ← reject_if (negb (len hex =? 32)) (Api.internal "expected 32-char hex (16 bytes)");
  map_err api_of_fault (parse_pairs (Rejected (Api.internal "invalid hex in 16-byte id")) 16 hex).

(** [serde_json::Map], whose keys are sorted. *)
Definition json_map (m : gmap string Json) : Json :=
  JObj (merge_sort (λ x y, String.le x.1 y.1) (map_to_list m)).
Definition obj (l : list (string * Json)) : Json := json_map (list_to_map (reverse l)).

Section Helpers.
Context {T C K : Type} `{RedbTable T, RedbTxn (Db T), DbCrates, SolanaCrates, HashCrates}.
Context `{SolanaKeys K, Serde WalletMetadata, Serde (list Z), Serde PoolMetadata}.
Abbreviation St := (AppState T C).
Abbreviation handler A := (act St ApiError A).

Definition load_wallet_keypair (io : nat → io_fault) (wallet_id caller_sub : string) :
    handler (WalletMetadata * K) :=
  wallet ← on_storage (wallet_get (io 0%nat) wallet_id);
  _ ← lift (map_err api_of_storage (verify_ownership (w_owner_user_id wallet) caller_sub));
  _ ← lift (reject_if (bool_decide (w_status wallet = WDeleted))
        (Api.not_found ("wallet " +:+ wallet_id +:+ " not found")));
  _ ← lift (reject_if (bool_decide (w_status wallet = WSuspended))
        (Api.forbidden ("wallet " +:+ wallet_id +:+ " is suspended")));
  keypair_bytes ← on_storage (wallet_read_keypair (io 1%nat) wallet_id);
  keypair ← lift (keypair_from_bytes_verified keypair_bytes (w_public_address wallet));
  mret (wallet, keypair).

(** The public key of a keypair, as bytes. *)
Definition kp_key (kp : K) : string := default "" (pubkey_from_str (kp_pubkey kp)).

Definition sign_send_and_parse (rpc : Rpc) (keypair : K) (instructions : list Instruction)
    (commitment : string) : result ApiError (string * list DrtEvent) :=
  recent_blockhash ← map_err (λ e, Api.service_unavailable ("blockhash fetch failed: " +:+ e))
                       (rpc_blockhash rpc);
  let tx := mkTx instructions (kp_key keypair) recent_blockhash in
  signature ← map_err (λ e, Api.service_unavailable ("transaction send failed: " +:+ e))
                (rpc_send rpc tx);
  _ ← await_confirmation rpc commitment;
  let events := match rpc_logs rpc with Ok logs => parse_drt_events logs | Err _ => [] end in
  Ok (signature, events).

Definition verify_pool_ownership (pool : Pool) (wallet : WalletMetadata) : result ApiError unit :=
  owner ← ok_or (pubkey_from_str (w_public_address wallet))
            (Api.internal "invalid stored wallet address");
  reject_if (negb (bool_decide (pl_owner pool = owner))) (Api.forbidden "you are not the pool owner").

Definition load_pool_meta (io : io_fault) (pool_pda : string) : handler PoolMetadata :=
  act_map_err (λ _, Api.not_found ("pool metadata not found for " +:+ pool_pda
                      +:+ " — pool may need creation"))
    (zoom storage set_storage (read_json io (pool_meta DATA_DIR pool_pda))).

Inductive DrtEventResponse :=
| RespPoolCreated (pool uuid owner : string) (created_at : Z)
| RespDrtRegistered (pool drt_config mint right_id : string) (supply : Z) (code_hash : string)
    (created_at : Z)
| RespRightGranted (pool drt_config commitment : string) (granted_at : Z)
| RespRightRevoked (pool drt_config commitment : string) (revoked_at : Z)
| RespPoolSealed (pool : string) (sealed_at : Z).
Definition to_response (ev : DrtEvent) : DrtEventResponse :=
  match ev with
  | PoolCreated pool uuid owner created_at =>
      RespPoolCreated (base58 pool) (hex_of uuid) (base58 owner) created_at
  | DrtRegistered pool config mint right_id supply hash created_at =>
      RespDrtRegistered (base58 pool) (base58 config) (base58 mint) (hex_of right_id) supply (hex_of hash)
        created_at
  | RightGranted pool config c granted_at =>
      RespRightGranted (base58 pool) (base58 config) (hex_of c) granted_at
  | RightRevoked pool config c revoked_at =>
      RespRightRevoked (base58 pool) (base58 config) (hex_of c) revoked_at
  | PoolSealed pool sealed_at => RespPoolSealed (base58 pool) sealed_at
  end.
(** Its serialised form, tagged with the type. *)
Definition response_json (r : DrtEventResponse) : Json :=
  match r with
  | RespPoolCreated pool uuid owner created_at =>
      obj [("type", JStr "pool_created"); ("pool", JStr pool); ("uuid", JStr uuid);
           ("owner", JStr owner); ("created_at", JNum created_at)]
  | RespDrtRegistered pool drt_config mint right_id supply code_hash created_at =>
      obj [("type", JStr "drt_registered"); ("pool", JStr pool); ("drt_config", JStr drt_config);
           ("mint", JStr mint); ("right_id", JStr right_id); ("supply", JNum supply);
           ("code_hash", JStr code_hash); ("created_at", JNum created_at)]
  | RespRightGranted pool drt_config commitment granted_at =>
      obj [("type", JStr "right_granted"); ("pool", JStr pool); ("drt_config", JStr drt_config);
           ("commitment", JStr commitment); ("granted_at", JNum granted_at)]
  | RespRightRevoked pool drt_config commitment revoked_at =>
      obj [("type", JStr "right_revoked"); ("pool", JStr pool); ("drt_config", JStr drt_config);
           ("commitment", JStr commitment); ("revoked_at", JNum revoked_at)]
  | RespPoolSealed pool sealed_at =>
      obj [("type", JStr "pool_sealed"); ("pool", JStr pool); ("sealed_at", JNum sealed_at)]
  end.
Definition event_json (ev : DrtEvent) : Json := response_json (to_response ev).
(** [parse_events_from_signature] at the confirmed commitment. *)
Definition parse_events_from_signature (rpc : Rpc) : result ApiError (list DrtEvent) :=
  logs ← map_err (λ x, Api.service_unavailable ("failed to fetch transaction: " +:+ x)) (rpc_logs rpc);
  Ok (parse_drt_events logs).
Definition chain_section (signatures : list string) (events : list DrtEvent) (labels : Json) : Json :=
  obj [("program_id", JStr DRT_PROGRAM_ID_STR); ("tx_signatures", JArr (JStr <$> signatures));
       ("events", JArr (event_json <$> events)); ("labels", labels)].

(** One DRT of the loop in [pool_labels]. *)
Definition label_drt (pool_pk : option string) (m : gmap string Json) (e : string * DrtMetadata) :
    gmap string Json :=
  let '(name, drt) := e in
  let m := <[d_mint drt := JStr name]> (<[d_right_id_hex drt := JStr name]> m) in
  match pool_pk, hex_decode (d_right_id_hex drt) with
  | Some pk, Ok rid =>
      if len rid =? 16 then <[base58 (derive_drt_config_pda pk rid).1 := JStr name]> m else m
  | _, _ => m
  end.
Definition or_insert (k : string) (v : Json) (m : gmap string Json) : gmap string Json :=
  match m !! k with Some _ => m | None => <[k:=v]> m end.
Definition pool_labels (meta : PoolMetadata) (extra : gmap string Json) : Json :=
  let pool_pk := pubkey_from_str (p_pool_pda meta) in
  let drts := merge_sort (λ x y, String.le x.1 y.1) (map_to_list (p_drts meta)) in
  let m := foldl (label_drt pool_pk) extra drts in
  let m := match p_owner_pubkey meta with
           | Some owner => or_insert owner (JStr "pool owner") m
           | None => m
           end in
  let m := or_insert (p_pool_pda meta) (JStr (p_pool_name meta)) m in
  obj [("pool_name", JStr (p_pool_name meta));
       ("owner_wallet", match p_owner_pubkey meta with Some o => JStr o | None => JNull end);
       ("id_to_name", json_map m)].
End Helpers.
