(* ===== verification/ChainFacts.v ===== *)
(** * Facts of the chain helpers

    Confirmation polling ends with the verdict of the first decisive poll; what
    the shared helpers of the handlers have established when they succeed. *)
From S2P Require Import Prelude.
From S2P Require Import RustStr.
From S2P Require Import RustFmt.
From S2P Require Import Errors.
From S2P Require Import Types.
From S2P Require Import Interfaces.
From S2P Require Import TxDatabase.
From S2P Require Import TxScans.
From S2P Require Import Storage.
From S2P Require Import TxCache.
From S2P Require Import AppState.
From S2P Require Import Wallets.
From S2P Require Import VerifiedFetch.
From S2P Require Import DrtProgram.
From S2P Require Import Chain.

Local Open Scope Z_scope.
#[local] Arguments String.append : simpl nomatch.

(** Each round sleeps for the poll interval at least. *)
Definition sleeps (rpc : Rpc) (commitment : string) : Prop :=
  ∀ n, Z.of_nat n * poll_interval commitment ≤ rpc_clock rpc n.
(** The node reports the transaction at the requested level, without error. *)
Definition reported (commitment : string) (r : result string (list (option SignatureStatus))) : Prop :=
  ∃ s rest, r = Ok (Some s :: rest) ∧ st_err s = false ∧
    (st_confirmation s = Some "finalized" ∨
     commitment ≠ "finalized" ∧ st_confirmation s = Some "confirmed").
(** Poll [k] happens in time, and no earlier one decided. *)
Definition polled (rpc : Rpc) (commitment : string) (n k : nat) : Prop :=
  (n ≤ k)%nat ∧ (∀ j, (n ≤ j ≤ k)%nat → rpc_clock rpc j ≤ confirm_timeout commitment) ∧
  ∀ j, (n ≤ j < k)%nat → poll_step commitment (rpc_statuses rpc j) = None.

Lemma poll_step_ok commitment r : poll_step commitment r = Some (Ok ()) ↔ reported commitment r.
Proof.
  unfold poll_step, reported. split.
  - destruct r as [[|[s|] rest]|]; try done. destruct (st_err s) eqn:He; [done|].
    destruct (st_confirmation s) as [c|] eqn:Hc; [|done]. intros Hp. exists s, rest.
    split; [done|]. split; [done|]. case_bool_decide; [left; by subst|].
    case_bool_decide; [|done]. subst. right. split; [|done]. intros ->. done.
  - intros (s & rest & -> & -> & [->|[Hne ->]]); [done|]. simpl. unfold finalized.
    by rewrite bool_decide_eq_false_2.
Qed.

(** The loop stops once the clock has run past the timeout. *)
Lemma await_loop_ends rpc commitment fuel n :
  sleeps rpc commitment →
  confirm_timeout commitment < (Z.of_nat (n + fuel) - 1) * poll_interval commitment →
  fuel ≠ 0%nat → is_Some (await_loop fuel n rpc commitment).
Proof.
  intros Hs. revert n. induction fuel as [|fuel IH]; intros n Hf Hne; [done|]. simpl.
  destruct (confirm_timeout commitment <? rpc_clock rpc n) eqn:Ht; [done|].
  destruct (poll_step _ _); [done|]. apply Z.ltb_ge in Ht. pose proof (Hs n) as Hn. apply IH.
  - by replace (S n + fuel)%nat with (n + S fuel)%nat by lia.
  - intros ->. replace (Z.of_nat (n + 1) - 1) with (Z.of_nat n) in Hf by lia. lia.
Qed.
Lemma await_fuel rpc commitment :
  sleeps rpc commitment → is_Some (await_loop AWAIT_FUEL 0 rpc commitment).
Proof.
  intros Hs. apply await_loop_ends; [done| |done].
  unfold confirm_timeout, poll_interval, AWAIT_FUEL. destruct (finalized commitment); simpl; lia.
Qed.
(** What the loop returns. *)
Lemma await_loop_ok rpc commitment fuel n r :
  await_loop fuel n rpc commitment = Some r →
  (r = Ok () ↔ ∃ k, polled rpc commitment n k ∧ reported commitment (rpc_statuses rpc k)).
Proof.
  revert n. induction fuel as [|fuel IH]; intros n Hr; [done|]. simpl in Hr.
  destruct (confirm_timeout commitment <? rpc_clock rpc n) eqn:Ht.
  { simplify_eq. split; [done|]. intros (k & (Hk & Hc & _) & _). apply Z.ltb_lt in Ht.
    specialize (Hc n). lia. }
  apply Z.ltb_ge in Ht. destruct (poll_step commitment (rpc_statuses rpc n)) as [r'|] eqn:Hp.
  - simplify_eq. split.
    + intros ->. exists n. split; [|by apply poll_step_ok].
      split_and!; [done| |]; intros j Hj; [by replace j with n by lia|lia].
    + intros (k & (Hk & _ & Hn) & Hrep). destruct (decide (k = n)) as [->|Hne].
      * apply poll_step_ok in Hrep. congruence.
      * rewrite Hn in Hp by lia. done.
  - rewrite (IH _ Hr). split.
    + intros (k & (Hk & Hc & Hn) & Hrep). exists k. split; [|done].
      split_and!; [lia| |]; intros j Hj; (destruct (decide (j = n)) as [->|]; [done|]);
        [apply Hc|apply Hn]; lia.
    + intros (k & (Hk & Hc & Hn) & Hrep). exists k. split; [|done].
      assert (k ≠ n). { intros ->. apply poll_step_ok in Hrep. congruence. }
      split_and!; [lia| |]; intros j Hj; [apply Hc|apply Hn]; lia.
Qed.

(** C29: confirmation polling ends and is exact.  When every round sleeps for the
    poll interval, the loop returns before its fuel runs out, whatever the node
    answers; it returns success exactly when some poll before the timeout saw
    the transaction at the requested level without an error and no earlier poll
    saw an on-chain failure or success. *)
Theorem confirmation_decided (rpc : Rpc) (commitment : string) :
  sleeps rpc commitment →
  await_loop AWAIT_FUEL 0 rpc commitment = Some (await_confirmation rpc commitment) ∧
  (await_confirmation rpc commitment = Ok () ↔
     ∃ k, polled rpc commitment 0 k ∧ reported commitment (rpc_statuses rpc k)).
Proof.
  intros Hs. destruct (await_fuel rpc commitment Hs) as [r Hr]. unfold await_confirmation.
  rewrite Hr. split; [done|]. by eapply await_loop_ok.
Qed.

Definition slow_rpc : Rpc :=
  mkRpc (Ok "bh") (λ _, Ok "sig")
    (λ n, if (n <? 3)%nat then Ok [Some (mkStatus false (Some "processed"))]
          else Ok [Some (mkStatus false (Some "finalized"))])
    (λ n, 1000 * Z.of_nat n) (Ok []) (λ _, Ok None).
Lemma confirmation_decided_witness :
  sleeps slow_rpc "finalized" ∧ await_confirmation slow_rpc "finalized" = Ok ().
Proof.
  assert (Hs : sleeps slow_rpc "finalized").
  { intros n. change (poll_interval "finalized") with 1000. simpl. lia. }
  split; [exact Hs|]. apply (confirmation_decided slow_rpc "finalized" Hs). exists 3%nat. split.
  - split_and!; [lia| |].
    + intros j Hj. change (confirm_timeout "finalized") with 60000. simpl. lia.
    + intros j Hj. destruct j as [|[|[|j]]]; [reflexivity..|lia].
  - eexists _, []. split; [reflexivity|]. split; [reflexivity|]. left. reflexivity.
Defined.

(** ** Actions and the database *)

Section Keeps.
Context {T C : Type}.
Abbreviation St := (AppState T C).

Definition keeps_db {A} (m : act St ApiError A) : Prop := ∀ s, tx_db (m s).2 = tx_db s.
(** A failure leaves the database as it was. *)
Definition clean {A} (m : act St ApiError A) : Prop :=
  ∀ s, is_ok (m s).1 = true ∨ tx_db (m s).2 = tx_db s.

Lemma keeps_lift {A} (r : result ApiError A) : keeps_db (lift r).
Proof. by intros s. Qed.
Lemma keeps_storage {A} (m : act Fs StorageError A) : keeps_db (on_storage m).
Proof. by intros s. Qed.
Lemma keeps_bind {A B} (m : act St ApiError A) (f : A → act St ApiError B) :
  keeps_db m → (∀ a, keeps_db (f a)) → keeps_db (m ≫= f).
Proof.
  intros Hm Hf s. rewrite act_bind_eq. specialize (Hm s). destruct (m s) as [[a|] s1]; simpl in *;
    [by rewrite Hf|done].
Qed.
Lemma clean_bind {A B} (m : act St ApiError A) (f : A → act St ApiError B) :
  keeps_db m → (∀ a, clean (f a)) → clean (m ≫= f).
Proof.
  intros Hm Hf s. rewrite act_bind_eq. specialize (Hm s). destruct (m s) as [[a|] s1]; simpl in *.
  - rewrite <-Hm. apply Hf.
  - by right.
Qed.
End Keeps.

Section Helpers.
Context {T C K : Type} `{RedbTableLaws T, RedbTxnLaws (Db T), DbCrates, AuditCrates}.
Context `{HashCrates, SolanaCrates, SolanaKeys K}.
Context `{Serde AuditEvent, Serde PoolMetadata, Serde WalletMetadata, Serde (list Z)}.
Abbreviation St := (AppState T C).

Lemma load_pool_meta_run io pda (st : St) :
  (load_pool_meta io pda st).2 = st ∧
  ∀ m, (load_pool_meta io pda st).1 = Ok m →
    (read_json io (pool_meta DATA_DIR pda) (storage st)).1 = Ok m.
Proof.
  unfold load_pool_meta, act_map_err, zoom. cbn [fst snd].
  assert (Hrd : (read_json (A := PoolMetadata) io (pool_meta DATA_DIR pda) (storage st)).2 = storage st).
  { unfold read_json. rewrite act_bind_eq. unfold read_raw, reading.
    by destruct (match io with IoRead _ => _ | _ => _ end). }
  rewrite Hrd, set_storage_id. split; [done|]. by intros m ?%map_err_ok.
Qed.
Lemma load_meta_keeps io pda : keeps_db (load_pool_meta io pda : act St _ _).
Proof. by intros s. Qed.
Lemma wallet_keypair_keeps io id u : keeps_db (load_wallet_keypair (K := K) io id u : act St _ _).
Proof.
  unfold load_wallet_keypair. repeat (apply keeps_bind; [|intros ?]);
    first [apply keeps_lift|apply keeps_storage|by intros s].
Qed.


(** A transaction of these instructions, paid by [payer], was accepted under the
    signature [sig] and seen at the given level. *)
Definition sent_tx (rpc : Rpc) (commitment : string) (ixs : list Instruction) (payer sig : string) :
    Prop :=
  ∃ bh, rpc_blockhash rpc = Ok bh ∧ rpc_send rpc (mkTx ixs payer bh) = Ok sig ∧
    await_confirmation rpc commitment = Ok ().

Lemma verify_ownership_ok owner u x : verify_ownership owner u = Ok x → owner = u.
Proof. unfold verify_ownership. by case_bool_decide. Qed.
Lemma keypair_verified_ok b a (kp : K) : keypair_from_bytes_verified b a = Ok kp → kp_pubkey kp = a.
Proof. intros (k & _ & Hk)%result_bind_ok. cbv zeta in Hk. case_bool_decide; by simplify_eq. Qed.
Lemma load_wallet_keypair_ok io id u (st st' : St) wallet (kp : K) :
  load_wallet_keypair io id u st = (Ok (wallet, kp), st') →
  (wallet_get (io 0%nat) id (storage st)).1 = Ok wallet ∧ w_owner_user_id wallet = u ∧
  w_status wallet = WActive ∧ kp_pubkey kp = w_public_address wallet.
Proof.
  intros Hl. apply act_bind_ok in Hl as (w & s1 & Hw & Hl).
  unfold on_storage, act_map_err, zoom in Hw. injection Hw as Hw%map_err_ok _.
  peel Hl as [] Hown. apply map_err_ok in Hown. peel Hl as [] Hd%reject_if_ok.
  peel Hl as [] Hs%reject_if_ok. apply act_bind_ok in Hl as (kb & s2 & _ & Hl).
  peel Hl as k Hk%keypair_verified_ok. injection Hl as <- <- _.
  apply verify_ownership_ok in Hown. apply bool_decide_eq_false in Hd, Hs.
  split_and!; [done..| |done]. by destruct (w_status w).
Qed.
Lemma verify_pool_ownership_ok pool wallet u :
  verify_pool_ownership pool wallet = Ok u →
  pubkey_from_str (w_public_address wallet) = Some (pl_owner pool).
Proof.
  intros (o & Ho%ok_or_ok & Hr%reject_if_ok)%result_bind_ok.
  apply negb_false_iff, bool_decide_eq_true in Hr. by rewrite Ho, Hr.
Qed.
Lemma sign_send_ok rpc (kp : K) ixs commitment sig events :
  sign_send_and_parse rpc kp ixs commitment = Ok (sig, events) →
  sent_tx rpc commitment ixs (kp_key kp) sig.
Proof.
  intros (bh & Hb%map_err_ok & Hr)%result_bind_ok.
  apply result_bind_ok in Hr as (s & Hs%map_err_ok & Hr).
  apply result_bind_ok in Hr as ([] & Ha & Hr). injection Hr as <- _. by exists bh.
Qed.
(** Auditing writes the audit tables only. *)
Lemma audit_log_event_tables ai env ev (st : St) n :
  n ∉ [AUDIT_EVENTS; AUDIT_BY_RESOURCE; AUDIT_BY_DATE] →
  tx_db (audit_log_event ai env ev st) n = tx_db st n.
Proof.
  intros Hn. destruct (audit_log_event_db ai env ev st) as [->|(env' & ev' & ->)]; [done|].
  assert (Ht : touches [AUDIT_EVENTS; AUDIT_BY_RESOURCE; AUDIT_BY_DATE] (log_audit_event env' ev'))
    by (unfold log_audit_event; solve_touches).
  by apply Ht.
Qed.
(** The database is, but for the audit tables, [db]. *)
Definition but_audit (db : Db T) (st : St) : Prop :=
  ∀ n, n ∉ [AUDIT_EVENTS; AUDIT_BY_RESOURCE; AUDIT_BY_DATE] → tx_db st n = db n.

End Helpers.
