(* ===== verification/GrantApi.v ===== *)
(** * Granting and revoking rights

    The grant endpoints of src/src/api/admin.rs: each checks its request,
    verifies the script or the ownership, sends the on-chain transaction and
    mirrors it in the local grant tables that the query endpoint consults. *)
From S2P Require Import Prelude.
From S2P Require Import RustStr.
From S2P Require Import RustFmt.
From S2P Require Import Errors.
From S2P Require Import Types.
From S2P Require Import Interfaces.
From S2P Require Import TxDatabase.
From S2P Require Import Storage.
From S2P Require Import TxCache.
From S2P Require Import AppState.
From S2P Require Import Wallets.
From S2P Require Import Http.
From S2P Require Import VerifiedFetch.
From S2P Require Import Runtime.
From S2P Require Import Query.
From S2P Require Import DrtValidation.
From S2P Require Import DrtProgram.
From S2P Require Import Chain.

Local Open Scope Z_scope.
#[local] Arguments String.append : simpl nomatch.

Record GrantRequest := mkGrantRequest {
  gq_wallet_id : string; gq_drt_name : string; gq_analyst_id : string }.
Record GrantResponse := mkGrantResponse {
  gs_signature : string; gs_explorer_url : string; gs_commitment_hex : string; gs_grant_pda : string }.
Record GrantStatusResponse := mkGrantStatus {
  gt_pool_pda : string; gt_drt_name : string; gt_commitment_hex : string; gt_grant_pda : string;
  gt_granted : bool; gt_granted_at : option Z }.
Record PoolGrantsResponse := mkPoolGrants { pg_active : list GrantRecord; pg_revoked : list GrantRecord }.
Record MyGrantEntry := mkMyGrant {
  mg_drt_name : string; mg_grant_pda : string; mg_granted_at : Z; mg_granted_sig : string }.
Record MyGrantsPool := mkMyPool {
  mp_pool_pda : string; mp_pool_name : string; mp_kind : string; mp_grants : list MyGrantEntry }.

(** The environment of a grant request. *)
Record GrantEnv (T : Type) `{RedbTxn (Db T)} := mkGrantEnv {
  ge_meta : io_fault;
  ge_lookup : renv (Db T);
  ge_fetch : FetchEnv;
  ge_pre : RtEnv;
  ge_wallet : nat → io_fault;
  ge_rpc : Rpc;
  ge_index : renv (Db T);
  ge_secs : Z;
  ge_audit : AuditIo;
  ge_audit_db : renv (Db T);
  ge_event_id : string;
  ge_now : DateTime;
  ge_explorer : string → string;
}.
Arguments mkGrantEnv {T _} _ _ _ _ _ _ _ _ _ _ _ _ _.
Arguments ge_meta {T _} _.
Arguments ge_lookup {T _} _.
Arguments ge_fetch {T _} _.
Arguments ge_pre {T _} _.
Arguments ge_wallet {T _} _.
Arguments ge_rpc {T _} _.
Arguments ge_index {T _} _.
Arguments ge_secs {T _} _.
Arguments ge_audit {T _} _.
Arguments ge_audit_db {T _} _.
Arguments ge_event_id {T _} _.
Arguments ge_now {T _} _.
Arguments ge_explorer {T _} _.

Section Grants.
Context {T C K M I : Type} `{RedbTable T, RedbTxn (Db T), DbCrates, AuditCrates, HashCrates}.
Context `{SolanaCrates, SolanaKeys K, Wasmtime M I}.
Context `{Serde AuditEvent, Serde PoolMetadata, Serde GrantRecord, Serde WalletMetadata}.
Context `{Serde (list Z)}.
Abbreviation St := (AppState T C).
Abbreviation handler A := (act St ApiError A).

(** [.map_err(|e| ApiError::internal(format!("grant lookup: {e}")))?]. *)
Definition grant_lookup {A} (m : act (Db T) TxDbError A) : handler A :=
  act_map_err (λ x, Api.internal ("grant lookup: " +:+ display_txdb x)) (zoom tx_db set_tx_db m).

(** [if let Err(e) = state.tx_db.f(..) { error!(..) }]. *)
Definition index_best_effort {A} (m : act (Db T) TxDbError A) : handler unit :=
  best_effort (zoom tx_db set_tx_db m).

(** The checks on the request's fields, common to both endpoints. *)
Definition check_request (pool_pda_str : string) (payload : GrantRequest) : result ApiError string :=
  _ ← reject_if (bool_decide (gq_drt_name payload = "")) (Api.bad_request "drt_name cannot be empty");
  _ ← reject_if (bool_decide (gq_analyst_id payload = "")) (Api.bad_request "analyst_id cannot be empty");
  ok_or (pubkey_from_str pool_pda_str) (Api.bad_request "invalid pool PDA address").

Definition find_drt (meta : PoolMetadata) (name : string) : result ApiError DrtMetadata :=
  ok_or (p_drts meta !! name) (Api.not_found ("DRT '" +:+ name +:+ "' not found in pool")).

(** The script check of a grant: fetch, verify and best-effort precompile. *)
Definition verify_script (e : GrantEnv T) (drt : DrtMetadata) : handler unit :=
  if bool_decide (d_code_repo_url drt = "") then mret ()
  else
    wasm_bytes ← on_fetch (fetch_and_verify (ge_fetch e) DATA_DIR (d_code_repo_url drt)
                             (d_code_hash_hex drt));
    let scripts_dir := join DATA_DIR "drt-scripts" in
    best_effort (zoom storage set_storage
      (ensure_precompiled (ge_pre e) scripts_dir (d_code_hash_hex drt) wasm_bytes)).

Definition grant_details (pool : string) (payload : GrantRequest) (commitment grant_pda sig : string)
    (events : list DrtEvent) (meta : PoolMetadata) (label1 label2 : string) : Json :=
  obj [("pool_pda", JStr pool); ("drt_name", JStr (gq_drt_name payload));
       ("analyst_id_hash", JStr (hex_of commitment)); ("grant_pda", JStr (base58 grant_pda));
       ("tx_signature", JStr sig);
       ("chain", chain_section [sig] events
          (pool_labels meta (<[base58 grant_pda := JStr label2]> {[hex_of commitment := JStr label1]})))].
Definition audit_grant (e : GrantEnv T) (ty : AuditEventType) (token : TokenData) (pool : string)
    (details : Json) : handler unit :=
  updating (audit_log_event (ge_audit e) (Some (ge_audit_db e))
    (with_details details (with_pool_pda pool (with_resource "drt_pool" pool
      (with_user (sub token) (event_new (ge_event_id e) (ge_now e) ty)))))).

Definition grant_right (e : GrantEnv T) (token : TokenData) (pool_pda_str : string)
    (payload : GrantRequest) : handler GrantResponse :=
  let name := gq_drt_name payload in
  pool_pda ← lift (check_request pool_pda_str payload);
  meta ← load_pool_meta (ge_meta e) pool_pda_str;
  _ ← lift (reject_if (bool_decide (p_kind meta = IobErp) && bool_decide (name = "append"))
        (Api.bad_request "IOB ERP pools have no 'append' DRT"));
  drt ← lift (find_drt meta name);
  active ← grant_lookup (is_grant_active (ge_lookup e) (gq_analyst_id payload) pool_pda_str name);
  _ ← lift (reject_if active (Api.conflict
        ("analyst already holds an active grant for DRT '" +:+ name +:+ "' in this pool")));
  _ ← verify_script e drt;
  right_id ← lift (decode_right_id (d_right_id_hex drt));
  pool_uuid ← lift (decode_right_id (p_pool_uuid_hex meta));
  mint ← lift (ok_or (pubkey_from_str (d_mint drt))
           (Api.internal "invalid mint pubkey in pool metadata"));
  let drt_config_pda := (derive_drt_config_pda pool_pda right_id).1 in
  wk ← load_wallet_keypair (K := K) (ge_wallet e) (gq_wallet_id payload) (sub token);
  let '(wallet, keypair) := wk in
  pool ← lift (fetch_pool (rpc_account (ge_rpc e) pool_pda) pool_pda);
  _ ← lift (verify_pool_ownership pool wallet);
  let commitment := compute_commitment (gq_analyst_id payload) pool_uuid right_id in
  let grant_pda := (derive_grant_pda commitment).1 in
  let ix := build_grant_right pool_pda drt_config_pda mint (kp_key keypair) commitment in
  se ← lift (sign_send_and_parse (ge_rpc e) keypair [ix] "finalized");
  let '(sig, events) := se in
  _ ← index_best_effort (upsert_grant (ge_index e)
        (mkGrantRecord pool_pda_str (gq_analyst_id payload) name (base58 grant_pda)
           (hex_of commitment) (w_wallet_id wallet) (ge_secs e) sig GActive None None));
  _ ← audit_grant e Types.RightGranted token pool_pda_str
        (grant_details pool_pda_str payload commitment grant_pda sig events meta
           ("grant of '" +:+ name +:+ "' to analyst") ("grant of '" +:+ name +:+ "'"));
  mret (mkGrantResponse sig (ge_explorer e sig) (hex_of commitment) (base58 grant_pda)).

Definition get_grant_status (e : GrantEnv T) (pool_pda_str analyst_id drt_name : string) :
    handler GrantStatusResponse :=
  _ ← lift (ok_or (pubkey_from_str pool_pda_str) (Api.bad_request "invalid pool PDA address"));
  meta ← load_pool_meta (ge_meta e) pool_pda_str;
  drt ← lift (find_drt meta drt_name);
  right_id ← lift (decode_right_id (d_right_id_hex drt));
  pool_uuid ← lift (decode_right_id (p_pool_uuid_hex meta));
  let commitment := compute_commitment analyst_id pool_uuid right_id in
  let grant_pda := (derive_grant_pda commitment).1 in
  let '(granted, granted_at) := match fetch_grant (rpc_account (ge_rpc e) grant_pda) grant_pda with
                                | Ok g => (true, Some (gr_granted_at g))
                                | Err _ => (false, None)
                                end in
  mret (mkGrantStatus pool_pda_str drt_name (hex_of commitment) (base58 grant_pda) granted granted_at).

Definition revoke_grant (e : GrantEnv T) (token : TokenData) (pool_pda_str : string)
    (payload : GrantRequest) : handler GrantResponse :=
  let name := gq_drt_name payload in
  pool_pda ← lift (check_request pool_pda_str payload);
  meta ← load_pool_meta (ge_meta e) pool_pda_str;
  drt ← lift (find_drt meta name);
  right_id ← lift (decode_right_id (d_right_id_hex drt));
  pool_uuid ← lift (decode_right_id (p_pool_uuid_hex meta));
  let drt_config_pda := (derive_drt_config_pda pool_pda right_id).1 in
  wk ← load_wallet_keypair (K := K) (ge_wallet e) (gq_wallet_id payload) (sub token);
  let '(wallet, keypair) := wk in
  pool ← lift (fetch_pool (rpc_account (ge_rpc e) pool_pda) pool_pda);
  _ ← lift (verify_pool_ownership pool wallet);
  let commitment := compute_commitment (gq_analyst_id payload) pool_uuid right_id in
  let grant_pda := (derive_grant_pda commitment).1 in
  let ix := build_revoke_grant (kp_key keypair) pool_pda drt_config_pda commitment in
  se ← lift (sign_send_and_parse (ge_rpc e) keypair [ix] "finalized");
  let '(sig, events) := se in
  _ ← index_best_effort (revoke_grant_local (ge_index e) (ge_secs e) pool_pda_str
        (gq_analyst_id payload) name sig);
  _ ← audit_grant e Types.RightRevoked token pool_pda_str
        (grant_details pool_pda_str payload commitment grant_pda sig events meta
           ("revoked '" +:+ name +:+ "' grant") ("revoked grant of '" +:+ name +:+ "'"));
  mret (mkGrantResponse sig (ge_explorer e sig) (hex_of commitment) (base58 grant_pda)).

Definition api_list_pool_grants (e : GrantEnv T) (token : TokenData) (pool_pda_str : string) :
    handler PoolGrantsResponse :=
  meta ← load_pool_meta (ge_meta e) pool_pda_str;
  owner_wallet ← act_map_err (λ _, Api.not_found "pool owner wallet not found")
                   (zoom storage set_storage (wallet_get (ge_wallet e 0%nat) (p_owner_wallet_id meta)));
  _ ← lift (reject_if (negb (bool_decide (w_owner_user_id owner_wallet = sub token)))
        (Api.forbidden "you are not the pool owner"));
  all ← grant_lookup (list_pool_grants (ge_lookup e) pool_pda_str);
  mret (mkPoolGrants (List.filter (λ g, bool_decide (g_status g = GActive)) all)
          (List.filter (λ g, bool_decide (g_status g = GRevoked)) all)).

(** The serde name of a pool kind. *)
Definition kind_name (k : PoolKind) : string := match k with Malta => "malta" | IobErp => "iob_erp" end.

(** [by_pool.entry(..).or_insert_with(..)] and the push, for one grant. *)
Definition add_my_grant (io : string → io_fault) (st : St) (by_pool : gmap string MyGrantsPool)
    (g : GrantRecord) : gmap string MyGrantsPool :=
  let pda := g_pool_pda g in
  let fresh := match (load_pool_meta (io pda) pda st).1 with
               | Ok m => mkMyPool pda (p_pool_name m) (kind_name (p_kind m)) []
               | Err _ => mkMyPool pda pda "unknown" []
               end in
  let entry := default fresh (by_pool !! pda) in
  <[pda := mkMyPool (mp_pool_pda entry) (mp_pool_name entry) (mp_kind entry)
             (mp_grants entry ++ [mkMyGrant (g_drt_name g) (g_grant_pda g) (g_granted_at g)
                                    (g_granted_sig g)])]> by_pool.
Definition list_my_grants (e : GrantEnv T) (io : string → io_fault) (token : TokenData) :
    handler (list MyGrantsPool) :=
  grants ← grant_lookup (list_grants_by_analyst (ge_lookup e) (sub token));
  reading (λ st,
    let by_pool := foldl (add_my_grant io st) ∅ grants in
    Ok ((merge_sort (λ x y, String.le x.1 y.1) (map_to_list by_pool)).*2)).
End Grants.
