(* ===== verification/GrantFacts.v ===== *)
(** * What granting and revoking guarantee

    A right is granted only by the owner of the pool, with a finalized
    transaction and a verified script; and along any history of grants,
    revocations and queries access follows the acknowledged requests, provided
    the local index can be written.  Without that proviso it does not. *)
From S2P Require Import Prelude.
From S2P Require Import RustStr.
From S2P Require Import RustFmt.
From S2P Require Import Errors.
From S2P Require Import Types.
From S2P Require Import Interfaces.
From S2P Require Import TxDatabase.
From S2P Require Import Instances.
From S2P Require Import TxScans.
From S2P Require Import TxGrants.
From S2P Require Import Storage.
From S2P Require Import TxCache.
From S2P Require Import AppState.
From S2P Require Import AuditLog.
From S2P Require Import Wallets.
From S2P Require Import WalletFacts.
From S2P Require Import Http.
From S2P Require Import VerifiedFetch.
From S2P Require Import FetchFacts.
From S2P Require Import Runtime.
From S2P Require Import RuntimeFacts.
From S2P Require Import Mean.
From S2P Require Import MeanHost.
From S2P Require Import MeanFacts.
From S2P Require Import Query.
From S2P Require Import QueryFacts.
From S2P Require Import DrtValidation.
From S2P Require Import DrtProgram.
From S2P Require Import DrtProgramFacts.
From S2P Require Import Chain.
From S2P Require Import ChainFacts.
From S2P Require Import GrantApi.

Local Open Scope Z_scope.
#[local] Arguments String.append : simpl nomatch.

Section Grants.
Context {T C K M I : Type} `{RedbTableLaws T, RedbTxnLaws (Db T), DbCrates, AuditCrates}.
Context `{HashCratesLaws, SolanaCrates, SolanaKeys K, WasmtimeLaws M I}.
Context `{SerdeLaws AuditEvent, Serde PoolMetadata, SerdeLaws GrantRecord, Serde WalletMetadata}.
Context `{Serde (list Z), Serde Json}.
Abbreviation St := (AppState T C).

Lemma grant_lookup_run env a p d (st : St) :
  (grant_lookup (is_grant_active env a p d) st).2 = st ∧
  ∀ b, (grant_lookup (is_grant_active env a p d) st).1 = Ok b →
    b = bool_decide (is_Some (t_get (tx_db st GRANTS_BY_ANALYST) (key3 a p d))).
Proof.
  unfold grant_lookup, act_map_err, zoom, is_grant_active, reading. cbn [fst snd].
  rewrite set_tx_db_id. split; [done|]. intros b Hb%map_err_ok%run_read_ok. by injection Hb.
Qed.
Lemma lookup_keeps env a p d : keeps_db (grant_lookup (is_grant_active env a p d) : act St _ _).
Proof. intros s. by rewrite (proj1 (grant_lookup_run env a p d s)). Qed.
Lemma verify_script_keeps e drt : keeps_db (verify_script e drt : act St _ _).
Proof. intros s. unfold verify_script. case_bool_decide; [done|]. rewrite act_bind_eq.
  unfold on_fetch, act_map_err, zoom. by destruct (fetch_and_verify _ _ _ _ _) as [[]]. Qed.
(** A grant or a revocation that fails leaves the database as it was. *)
Ltac solve_clean :=
  repeat match goal with
  | |- clean (match ?x with _ => _ end) => destruct x
  | |- clean (index_best_effort _ ≫= _) => intros ?; by left
  | |- clean (_ ≫= _) =>
      apply clean_bind; [first [ apply keeps_lift | apply load_meta_keeps | apply lookup_keeps
        | apply verify_script_keeps | apply wallet_keypair_keeps ]|intros ?]
  end.
Lemma grant_right_clean e token p payload : clean (grant_right (K := K) (C := C) e token p payload).
Proof. unfold grant_right. cbv zeta. solve_clean. Qed.
Lemma revoke_grant_clean e token p payload : clean (revoke_grant (K := K) (C := C) e token p payload).
Proof. unfold revoke_grant. cbv zeta. solve_clean. Qed.

(** ** Authority *)

(** [owner] is the key of the pool's owner on chain, and of an active wallet of
    the caller. *)
Definition pool_owner_key (e : GrantEnv T) (token : TokenData) (payload : GrantRequest)
    (pool_pda : string) (fs : Fs) (owner : string) : Prop :=
  ∃ wallet pool,
    (wallet_get (ge_wallet e 0%nat) (gq_wallet_id payload) fs).1 = Ok wallet ∧
    w_owner_user_id wallet = sub token ∧ w_status wallet = WActive ∧
    pubkey_from_str (w_public_address wallet) = Some owner ∧
    fetch_pool (rpc_account (ge_rpc e) pool_pda) pool_pda = Ok pool ∧ pl_owner pool = owner.
Lemma verify_script_ok e drt (st st' : St) u :
  verify_script e drt st = (Ok u, st') → d_code_repo_url drt ≠ "" →
  allowed (d_code_repo_url drt) ∧ ∃ w, hex_decode (d_code_hash_hex drt) = Ok (sha256 w).
Proof.
  unfold verify_script. intros Hv Hne. rewrite bool_decide_eq_false_2 in Hv by done.
  apply act_bind_ok in Hv as (w & s1 & Hf & _). unfold on_fetch, act_map_err, zoom in Hf.
  pose proof (fetch_spec (ge_fetch e) DATA_DIR (d_code_repo_url drt) (d_code_hash_hex drt)
    (storage st)) as Hs.
  destruct (fetch_and_verify _ _ _ _ (storage st)) as [[w'|] fs]; simpl in Hf; [|done].
  destruct Hs as [(Hu & Hh & _) _]. eauto.
Qed.

(** The tail of both handlers: the index write and the audit record. *)
Lemma index_tail_run {A B} (m : act (Db T) TxDbError A) (g : St → St) (b : B) (st : St) :
  (_ ← index_best_effort m; _ ← updating g; mret b : act St ApiError B) st =
    (Ok b, g (set_tx_db (m (tx_db st)).2 st)).
Proof. done. Qed.

(** What a successful grant has established. *)
Record granted (e : GrantEnv T) (token : TokenData) (p : string) (payload : GrantRequest) (st : St)
    (resp : GrantResponse) (pool_pda right_id pool_uuid mint owner : string) (meta : PoolMetadata)
    (drt : DrtMetadata) : Prop := {
  gd_pool : pubkey_from_str p = Some pool_pda;
  gd_meta : (read_json (ge_meta e) (pool_meta DATA_DIR p) (storage st)).1 = Ok meta;
  gd_drt : p_drts meta !! gq_drt_name payload = Some drt;
  gd_new : t_get (tx_db st GRANTS_BY_ANALYST)
             (key3 (gq_analyst_id payload) p (gq_drt_name payload)) = None;
  gd_script : d_code_repo_url drt ≠ "" →
    allowed (d_code_repo_url drt) ∧ ∃ w, hex_decode (d_code_hash_hex drt) = Ok (sha256 w);
  gd_right : decode_right_id (d_right_id_hex drt) = Ok right_id;
  gd_uuid : decode_right_id (p_pool_uuid_hex meta) = Ok pool_uuid;
  gd_mint : pubkey_from_str (d_mint drt) = Some mint;
  gd_owner : pool_owner_key e token payload pool_pda
               (storage (verify_script e drt st).2) owner;
  gd_sent : sent_tx (ge_rpc e) "finalized"
    [build_grant_right pool_pda (derive_drt_config_pda pool_pda right_id).1 mint owner
       (compute_commitment (gq_analyst_id payload) pool_uuid right_id)] owner (gs_signature resp);
  gd_commitment : gs_commitment_hex resp =
    hex_of (compute_commitment (gq_analyst_id payload) pool_uuid right_id);
}.

Lemma index_tail_ok {A B} ai env ev (m : act (Db T) TxDbError A) (b b' : B) (st st' : St) :
  (_ ← index_best_effort m; _ ← updating (audit_log_event ai env ev); mret b
     : act St ApiError B) st = (Ok b', st') →
  b' = b ∧ but_audit (m (tx_db st)).2 st'.
Proof.
  rewrite index_tail_run. intros [= <- <-]. split; [done|]. intros n Hn.
  by rewrite audit_log_event_tables.
Qed.

Lemma grant_right_ok e token p payload (st st' : St) resp :
  grant_right (K := K) e token p payload st = (Ok resp, st') →
  (∃ pool_pda right_id pool_uuid mint owner meta drt,
     granted e token p payload st resp pool_pda right_id pool_uuid mint owner meta drt) ∧
  ∃ g, key_of g = (p, gq_analyst_id payload, gq_drt_name payload) ∧ is_active g = true ∧
    but_audit (upsert_grant (ge_index e) g (tx_db st)).2 st'.
Proof.
  intros Hg. unfold grant_right in Hg. cbv zeta in Hg.
  peel Hg as pool_pda Hc. apply result_bind_ok in Hc as (? & _ & Hc).
  apply result_bind_ok in Hc as (? & _ & Hpool%ok_or_ok).
  apply act_bind_ok in Hg as (meta & s1 & Hm & Hg).
  destruct (load_pool_meta_run (ge_meta e) p st) as [Hs1 Hmeta]. rewrite Hm in Hs1, Hmeta.
  simpl in Hs1. subst s1. specialize (Hmeta meta eq_refl).
  peel Hg as ? _. peel Hg as drt Hdrt%ok_or_ok.
  apply act_bind_ok in Hg as (active & s1 & Hl & Hg).
  destruct (grant_lookup_run (ge_lookup e) (gq_analyst_id payload) p (gq_drt_name payload) st)
    as [Hs1 Hact]. rewrite Hl in Hs1, Hact. simpl in Hs1. subst s1. specialize (Hact active eq_refl).
  peel Hg as ? Hna%reject_if_ok. rewrite Hna in Hact. symmetry in Hact.
  apply bool_decide_eq_false in Hact.
  apply act_bind_ok in Hg as (u & s2 & Hv & Hg).
  pose proof (verify_script_ok e drt st s2 u Hv) as Hscript.
  assert (Hdb2 : tx_db s2 = tx_db st) 
    by (pose proof (verify_script_keeps e drt st) as Hk; by rewrite Hv in Hk).
  peel Hg as right_id Hr. peel Hg as pool_uuid Hu. peel Hg as mint Hmint%ok_or_ok.
  apply act_bind_ok in Hg as ([wallet kp] & s3 & Hw & Hg).
  pose proof (wallet_keypair_keeps (ge_wallet e) (gq_wallet_id payload) (sub token) s2) as Hdb3.
  rewrite Hw in Hdb3. simpl in Hdb3.
  apply load_wallet_keypair_ok in Hw as (Hw & Hown & Hst & Hkp).
  peel Hg as pool Hp. peel Hg as ? Ho%verify_pool_ownership_ok.
  assert (Hkey : kp_key kp = pl_owner pool) by (unfold kp_key; by rewrite Hkp, Ho).
  peel Hg as [sig events] Hsend%sign_send_ok. rewrite Hkey in Hsend.
  apply index_tail_ok in Hg as [-> Hdb]. split.
  - exists pool_pda, right_id, pool_uuid, mint, (pl_owner pool), meta, drt.
    split; try done; [by apply eq_None_not_Some|]. rewrite Hv. by exists wallet, pool.
  - eexists. split; [|split; [|rewrite Hdb3, Hdb2 in Hdb; exact Hdb]]; done.
Qed.

(** What a successful revocation has established. *)
Definition revoked (e : GrantEnv T) (token : TokenData) (p : string) (payload : GrantRequest) (st : St)
    (resp : GrantResponse) : Prop :=
  ∃ pool_pda right_id pool_uuid owner meta drt,
    let c := compute_commitment (gq_analyst_id payload) pool_uuid right_id in
    pubkey_from_str p = Some pool_pda ∧
    (read_json (ge_meta e) (pool_meta DATA_DIR p) (storage st)).1 = Ok meta ∧
    p_drts meta !! gq_drt_name payload = Some drt ∧
    decode_right_id (d_right_id_hex drt) = Ok right_id ∧
    decode_right_id (p_pool_uuid_hex meta) = Ok pool_uuid ∧
    pool_owner_key e token payload pool_pda (storage st) owner ∧
    sent_tx (ge_rpc e) "finalized" [build_revoke_grant owner pool_pda
      (derive_drt_config_pda pool_pda right_id).1 c] owner (gs_signature resp).

Lemma revoke_grant_ok e token p payload (st st' : St) resp :
  revoke_grant (K := K) e token p payload st = (Ok resp, st') →
  revoked e token p payload st resp ∧
  ∃ sig, but_audit (revoke_grant_local (ge_index e) (ge_secs e) p (gq_analyst_id payload)
    (gq_drt_name payload) sig (tx_db st)).2 st'.
Proof.
  intros Hg. unfold revoke_grant in Hg. cbv zeta in Hg.
  peel Hg as pool_pda Hc. apply result_bind_ok in Hc as (? & _ & Hc).
  apply result_bind_ok in Hc as (? & _ & Hpool%ok_or_ok).
  apply act_bind_ok in Hg as (meta & s1 & Hm & Hg).
  destruct (load_pool_meta_run (ge_meta e) p st) as [Hs1 Hmeta]. rewrite Hm in Hs1, Hmeta.
  simpl in Hs1. subst s1. specialize (Hmeta meta eq_refl).
  peel Hg as drt Hdrt%ok_or_ok. peel Hg as right_id Hr. peel Hg as pool_uuid Hu.
  apply act_bind_ok in Hg as ([wallet kp] & s3 & Hw & Hg).
  pose proof (wallet_keypair_keeps (ge_wallet e) (gq_wallet_id payload) (sub token) st) as Hdb3.
  rewrite Hw in Hdb3. simpl in Hdb3.
  apply load_wallet_keypair_ok in Hw as (Hw & Hown & Hst & Hkp).
  peel Hg as pool Hp. peel Hg as ? Ho%verify_pool_ownership_ok.
  assert (Hkey : kp_key kp = pl_owner pool) by (unfold kp_key; by rewrite Hkp, Ho).
  peel Hg as [sig events] Hsend%sign_send_ok. rewrite Hkey in Hsend.
  apply index_tail_ok in Hg as [-> Hdb]. split.
  - exists pool_pda, right_id, pool_uuid, (pl_owner pool), meta, drt.
    split_and!; try done. by exists wallet, pool.
  - exists sig. rewrite Hdb3 in Hdb. exact Hdb.
Qed.

(** ** Histories of requests *)

Inductive api_req :=
| ReqGrant (e : GrantEnv T) (token : TokenData) (p : string) (payload : GrantRequest)
| ReqRevoke (e : GrantEnv T) (token : TokenData) (p : string) (payload : GrantRequest)
| ReqQuery (e : QueryEnv T) (token : TokenData) (payload : DataQueryRequest).

(** The server handles a request: whether it acknowledges it, and the state after. *)
Definition run_req (r : api_req) (st : St) : bool * St :=
  match r with
  | ReqGrant e token p payload =>
      let x := grant_right (K := K) e token p payload st in (is_ok x.1, x.2)
  | ReqRevoke e token p payload =>
      let x := revoke_grant (K := K) e token p payload st in (is_ok x.1, x.2)
  | ReqQuery e token payload => let x := data_query e token payload st in (is_ok x.1, x.2)
  end.
Fixpoint run_reqs (rs : list api_req) (st : St) : list (api_req * bool) * St :=
  match rs with
  | [] => ([], st)
  | r :: rest =>
      let '(b, st1) := run_req r st in
      let '(outs, st2) := run_reqs rest st1 in ((r, b) :: outs, st2)
  end.

(** What an acknowledged request decides about access to [key]. *)
Definition decides (key : gkey) (o : api_req * bool) : option bool :=
  match o with
  | (ReqGrant _ _ p payload, true) =>
      if decide ((p, gq_analyst_id payload, gq_drt_name payload) = key) then Some true else None
  | (ReqRevoke _ _ p payload, true) =>
      if decide ((p, gq_analyst_id payload, gq_drt_name payload) = key) then Some false else None
  | _ => None
  end.
(** Access after a history: the last acknowledged decision. *)
Definition access (key : gkey) (before : bool) (outs : list (api_req * bool)) : bool :=
  foldl (λ acc o, default acc (decides key o)) before outs.

(** Identifiers are plain and the local index can be written. *)
Definition req_wf (r : api_req) : Prop :=
  match r with
  | ReqGrant e _ p payload | ReqRevoke e _ p payload =>
      plain p = true ∧ plain (gq_analyst_id payload) = true ∧ reliable (ge_index e)
  | ReqQuery _ _ _ => True
  end.
Definition active_in (m : gmap gkey GrantRecord) (k : gkey) : bool :=
  match m !! k with Some r => is_active r | None => false end.

Lemma but_audit_rep db m (st : St) : but_audit db st → grants_rep db m → grants_rep (tx_db st) m.
Proof. intros Hb. apply rep_frame; apply Hb; set_solver. Qed.
Lemma data_query_tables e token payload (st : St) :
  but_audit (tx_db st) (data_query e token payload st).2.
Proof.
  intros n Hn. unfold data_query. pose proof (inner_keeps_db e token payload st) as Hdb.
  destruct (data_query_inner e token payload st) as [r st1]. simpl in *.
  unfold record_drt_execution_audit. by rewrite audit_log_event_tables, Hdb.
Qed.
Lemma active_insert m r k :
  active_in (<[key_of r := r]> m) k = if decide (key_of r = k) then is_active r else active_in m k.
Proof. unfold active_in. case_decide; subst; by rewrite ?lookup_insert_eq, ?lookup_insert_ne. Qed.
Lemma active_alter m now sig j k :
  active_in (alter (revoked_record now sig) j m) k = if decide (j = k) then false else active_in m k.
Proof.
  unfold active_in. case_decide; subst; rewrite ?lookup_alter_eq, ?lookup_alter_ne by done; [|done].
  by destruct (m !! k).
Qed.

(** One request refines its decision on the map of grants. *)
Lemma run_req_rep r (st : St) m :
  grants_rep (tx_db st) m → req_wf r →
  ∃ m', grants_rep (tx_db (run_req r st).2) m' ∧
    ∀ k, active_in m' k = default (active_in m k) (decides k (r, (run_req r st).1)).
Proof.
  intros Hrep Hwf. destruct r as [e token p payload|e token p payload|e token q]; simpl in Hwf.
  - destruct Hwf as (Hp & Ha & Hidx). simpl.
    pose proof (grant_right_clean e token p payload st) as Hcl.
    destruct (grant_right e token p payload st) as [[resp|x] st'] eqn:Hg; simpl in *.
    + apply grant_right_ok in Hg as (_ & g & Hk & Hact & Hdb).
      assert (Hgw : op_wf (OpUpsert g)). { injection Hk as Hk1 Hk2 _. split; congruence. }
      destruct (exec_upsert (ge_index e) _ m g Hrep Hgw) as [(db' & Hu & Hr)|(? & ? & _)]; [|done].
      rewrite Hu in Hdb. exists (<[key_of g := g]> m). split; [by eapply but_audit_rep|].
      intros k. rewrite active_insert, Hk, Hact. by case_decide.
    + destruct Hcl as [Hf|Hdb]; [done|]. exists m. by rewrite Hdb.
  - destruct Hwf as (Hp & Ha & Hidx). simpl.
    pose proof (revoke_grant_clean e token p payload st) as Hcl.
    destruct (revoke_grant e token p payload st) as [[resp|x] st'] eqn:Hg; simpl in *.
    + apply revoke_grant_ok in Hg as (_ & sig & Hdb).
      destruct (exec_revoke (ge_index e) _ m (ge_secs e) p (gq_analyst_id payload)
        (gq_drt_name payload) sig Hrep (conj Hp Ha)) as [(db' & Hu & Hr)|(? & ? & _)]; [|done].
      rewrite Hu in Hdb. eexists. split; [by eapply but_audit_rep|].
      intros k. rewrite active_alter. by case_decide.
    + destruct Hcl as [Hf|Hdb]; [done|]. exists m. by rewrite Hdb.
  - exists m. split; [|done]. by eapply but_audit_rep; [apply data_query_tables|].
Qed.
Lemma run_reqs_rep rs (st : St) m :
  grants_rep (tx_db st) m → Forall req_wf rs →
  ∃ m', grants_rep (tx_db (run_reqs rs st).2) m' ∧
    ∀ k, active_in m' k = access k (active_in m k) (run_reqs rs st).1.
Proof.
  revert st m. induction rs as [|r rs IH]; intros st m Hrep Hwf; [by exists m|].
  apply Forall_cons in Hwf as [Hr Hwf]. destruct (run_req_rep r st m Hrep Hr) as (m1 & Hrep1 & Hk1).
  simpl. destruct (run_req r st) as [b st1]. simpl in *.
  destruct (IH st1 m1 Hrep1 Hwf) as (m2 & Hrep2 & Hk2). destruct (run_reqs rs st1) as [outs st2].
  exists m2. split; [done|]. intros k. by rewrite Hk2, Hk1.
Qed.

(** C11: rights are managed by the pool's owner alone.  A grant succeeds only if
    the caller's wallet is active and holds the key that owns the pool on chain,
    the pool's metadata has the DRT, the analyst had no active grant, the DRT's
    script (if it has one) was verified against its registered hash, and a
    transaction paid by that key, whose one instruction grants the commitment of
    the analyst, the pool and the right, was finalized.  A revocation succeeds
    only under the same authority, with the revoking transaction finalized. *)
Theorem rights_managed_by_owner (e : GrantEnv T) (token : TokenData) (p : string)
    (payload : GrantRequest) (st st' : St) (resp : GrantResponse) :
  (grant_right (K := K) e token p payload st = (Ok resp, st') →
   ∃ pool_pda right_id pool_uuid mint owner meta drt,
     granted e token p payload st resp pool_pda right_id pool_uuid mint owner meta drt) ∧
  (revoke_grant (K := K) e token p payload st = (Ok resp, st') → revoked e token p payload st resp).
Proof. split; [by intros [? _]%grant_right_ok|by intros [? _]%revoke_grant_ok]. Qed.

(** Access follows the acknowledged requests.  From an empty database, after
    any sequence of grants, revocations and queries by any callers with any
    faults but in the local index, the access check answers that an analyst may
    run a DRT exactly when the last acknowledged decision on that pool, analyst
    and DRT was a grant; when it was not, every query of theirs is refused. *)
Theorem access_follows_requests (rs : list api_req) (st0 : St) (env : renv (Db T)) (p a d : string) :
  tx_db st0 = open_fresh → Forall req_wf rs → reliable env → plain p = true → plain a = true →
  let '(outs, st) := run_reqs rs st0 in
  let granted_last := access (p, a, d) false outs in
  (is_grant_active env a p d (tx_db st)).1 = Ok granted_last ∧
  (granted_last = false → ∀ e token q,
     sub token = a → q_pool_pda q = p → q_drt_name q = d →
     is_ok (data_query e token q st).1 = false).
Proof.
  intros Hdb Hwf Henv Hp Ha.
  assert (Hrep : grants_rep (tx_db st0) ∅) by (rewrite Hdb; apply rep_fresh).
  destruct (run_reqs_rep rs st0 ∅ Hrep Hwf) as (m & Hm & Hacc).
  destruct (run_reqs rs st0) as [outs st]. cbn [fst snd] in *.
  specialize (Hacc (p, a, d)). change (active_in ∅ (p, a, d)) with false in Hacc.
  rewrite (is_grant_active_spec env _ m a p d Henv Hm Hp Ha). fold (active_in m (p, a, d)).
  split; [by rewrite <-Hacc|]. intros Hno e token q <- <- <-. rewrite Hno in Hacc.
  destruct (inner_denied e token q st) as [x Hx].
  - apply eq_None_not_Some. intros (p' & a' & d' & r & He & Hl & Hact)%(gr_analyst _ _ Hm).
    destruct (rep_plain _ _ _ _ _ _ Hm Hl). apply key3_inj in He as (<- & <- & <-); [|done..].
    unfold active_in in Hacc. rewrite Hl in Hacc. congruence.
  - unfold data_query. by rewrite Hx.
Qed.
End Grants.

(** ** Examples *)

#[local] Instance solana2 : SolanaCrates := {
  find_program_address seeds _ := (fit 32 (String.concat "" seeds), 255);
  pubkey_of_const s := fit 32 s;
  pubkey_from_str s := Some (fit 32 s);
  base58 s := hex_pairs s;
  std_b64_decode s := Some s;
}.
#[local] Instance wasm2 : Wasmtime unit Guest := mean_wasmtime guest1.
#[local] Instance wasm2_laws : WasmtimeLaws unit Guest := mean_wasmtime_laws guest1.

Definition meta2 : PoolMetadata :=
  mkPoolMetadata "P" "pool" Malta "000102030405060708090a0b0c0d0e0f"
    {["mean" := mkDrtMetadata "f0f1f2f3f4f5f6f7f8f9fafbfcfdfeff" "mint" 1 url0 hash_hex0]} "w1" None
    "s" VNone NeedsInit (mkDateTime 0 0) None None 0 0.
Definition fs2 : Fs := mkFs
  (files (storage (create0 "w1" wst0)) ∪
   {[pool_meta DATA_DIR "P" := match to_vec_pretty meta2 with Ok b => b | Err _ => "" end;
     join (pool_dataset_dir DATA_DIR "P") "initial.csv" := csv1;
     cache_path_for DATA_DIR hash_hex0 := "wasm"]})
  {[pool_dataset_dir DATA_DIR "P"]}.
Definition st2 : AppState table0 lru1 := mkAppState fs2 open_fresh (cache_new 1 60) None.
Definition rpc2 : Rpc :=
  mkRpc (Ok "bh") (λ _, Ok "sig") (λ _, Ok [Some (mkStatus false (Some "finalized"))])
    (λ n, 1000 * Z.of_nat n) (Ok [])
    (λ k, if bool_decide (k = fit 32 "P")
          then Ok (Some (DISC_POOL_ACCOUNT +:+ put_pool (mkPool (fit 16 "u") (fit 32 "A") 0 false 1)))
          else Ok None).
Definition genv (index : renv (Db table0)) : GrantEnv table0 :=
  mkGrantEnv IoOk env0 (mkFetchEnv IoOk IoOk IoOk net_down) re1 (λ _, IoOk) rpc2 index 7 ai0 env0
    "e2" (mkDateTime 7 0) (λ s, s).
Definition greq : GrantRequest := mkGrantRequest "w1" "mean" "ana".
Definition granted2 : AppState table0 lru1 :=
  (grant_right (K := list Z) (genv env0) alice "P" greq st2).2.

Lemma grant2_ok : is_ok (grant_right (K := list Z) (genv env0) alice "P" greq st2).1 = true.
Proof. vm_compute. reflexivity. Qed.
Lemma revoke2_ok : is_ok (revoke_grant (K := list Z) (genv env0) alice "P" greq granted2).1 = true.
Proof. vm_compute. reflexivity. Qed.

Lemma rights_managed_by_owner_witness :
  (∃ resp pool_pda right_id pool_uuid mint owner meta drt,
     granted (genv env0) alice "P" greq st2 resp pool_pda right_id pool_uuid mint owner meta drt) ∧
  ∃ resp, revoked (genv env0) alice "P" greq granted2 resp.
Proof.
  split.
  - pose proof grant2_ok as Hok.
    destruct (grant_right (K := list Z) (genv env0) alice "P" greq st2) as [[resp|x] st'] eqn:Hg;
      [|discriminate Hok].
    exists resp. exact (proj1 (rights_managed_by_owner (K := list Z) (genv env0) alice "P" greq st2 st'
      resp) Hg).
  - pose proof revoke2_ok as Hok.
    destruct (revoke_grant (K := list Z) (genv env0) alice "P" greq granted2) as [[resp|x] st'] eqn:Hg;
      [|discriminate Hok].
    exists resp. exact (proj2 (rights_managed_by_owner (K := list Z) (genv env0) alice "P" greq granted2
      st' resp) Hg).
Defined.

Definition history2 : list (api_req (T := table0)) :=
  [ReqGrant (genv env0) alice "P" greq; ReqQuery qe0 analyst0 query0;
   ReqRevoke (genv env0) alice "P" greq].
Lemma history2_wf : Forall req_wf history2.
Proof. repeat constructor; apply env0_reliable. Qed.
Lemma history2_outcomes : (run_reqs (K := list Z) history2 st2).1.*2 = [true; true; true].
Proof. vm_compute. reflexivity. Qed.
Lemma access_follows_requests_witness :
  (is_grant_active env0 "ana" "P" "mean" (tx_db (run_reqs (K := list Z) history2 st2).2)).1 = Ok false ∧
  is_ok (data_query qe0 analyst0 query0 (run_reqs (K := list Z) history2 st2).2).1 = false.
Proof.
  pose proof (access_follows_requests (K := list Z) history2 st2 env0 "P" "ana" "mean" eq_refl
    history2_wf env0_reliable eq_refl eq_refl) as Ha.
  assert (Hacc : access ("P", "ana", "mean") false (run_reqs (K := list Z) history2 st2).1 = false)
    by (vm_compute; reflexivity).
  destruct (run_reqs (K := list Z) history2 st2) as [outs st]. cbn [fst snd] in *.
  destruct Ha as [Hact Hq]. rewrite Hacc in Hact. split; [exact Hact|].
  exact (Hq Hacc qe0 analyst0 query0 eq_refl eq_refl eq_refl).
Defined.

