(* ===== verification/PoolApi.v ===== *)
(** * Creating and reading pools

    src/src/api/pools.rs: a pool is created on chain by one transaction (create,
    one registration per DRT, seal) and its metadata is then stored in the
    enclave. *)
From S2P Require Import Prelude.
From S2P Require Import RustStr.
From S2P Require Import RustFmt.
From S2P Require Import Errors.
From S2P Require Import Types.
From S2P Require Import Interfaces.
From S2P Require Import TxDatabase.
From S2P Require Import Text.
From S2P Require Import Storage.
From S2P Require Import TxCache.
From S2P Require Import AppState.
From S2P Require Import Wallets.
From S2P Require Import DataValidation.
From S2P Require Import VerifiedFetch.
From S2P Require Import DrtValidation.
From S2P Require Import DrtProgram.
From S2P Require Import Chain.

Local Open Scope Z_scope.
#[local] Arguments String.append : simpl nomatch.

(** ** Requests and responses *)

Record SchemaFieldRequest := mkSchemaField {
  sf_name : string; sf_field_type : Json; sf_nullable : bool }.
Record InlineSchemaRequest := mkInlineSchema {
  is_schema_id : option string; is_fields : list SchemaFieldRequest }.
Record CreateMaltaPoolRequest := mkCreateMalta {
  cm_wallet_id : string; cm_pool_name : string; cm_drts : list DrtRequest;
  cm_schema : InlineSchemaRequest }.
Record CreateIobErpPoolRequest := mkCreateIobErp {
  ci_wallet_id : string; ci_pool_name : string; ci_drts : list DrtRequest }.
Record CreatePoolResponse := mkCreatePoolResponse {
  cp_signature : string; cp_signatures : list string; cp_pool_pda : string; cp_pool_uuid : string;
  cp_mints : gmap string string; cp_right_ids : gmap string string; cp_explorer_url : string }.
Record DrtConfigResponse := mkDrtConfigResponse {
  dv_name : string; dv_right_id : string; dv_mint : string; dv_supply : Z;
  dv_code_repo_url : string; dv_code_hash : string }.
Record PoolInfoResponse := mkPoolInfo {
  pi_pool_pda : string; pi_pool_uuid : string; pi_name : string; pi_kind : string;
  pi_owner : string; pi_sealed : bool; pi_drts : list DrtConfigResponse }.
Record CreatedPool := mkCreatedPool {
  cr_pool_pda : string; cr_pool_uuid : string; cr_signatures : list string;
  cr_drts : gmap string DrtMetadata; cr_events : list DrtEvent }.

(** The environment: generated UUIDs, files, the node, the database, the clock. *)
Record PoolEnv (T : Type) `{RedbTxn (Db T)} := mkPoolEnv {
  pe_schema_uuid : string;
  pe_pool_uuid : string;
  pe_right_ids : nat → string;
  pe_wallet : nat → io_fault;
  pe_rpc : Rpc;
  pe_dir : io_fault;
  pe_created : DateTime;
  pe_meta : io_fault;
  pe_db : renv (Db T);
  pe_schema : io_fault;
  pe_audit : AuditIo;
  pe_audit_db : renv (Db T);
  pe_event_id : string;
  pe_now : DateTime;
  pe_explorer : string → string;
}.
Arguments mkPoolEnv {T _} _ _ _ _ _ _ _ _ _ _ _ _ _ _ _.
Arguments pe_schema_uuid {T _} _.
Arguments pe_pool_uuid {T _} _.
Arguments pe_right_ids {T _} _.
Arguments pe_wallet {T _} _.
Arguments pe_rpc {T _} _.
Arguments pe_dir {T _} _.
Arguments pe_created {T _} _.
Arguments pe_meta {T _} _.
Arguments pe_db {T _} _.
Arguments pe_schema {T _} _.
Arguments pe_audit {T _} _.
Arguments pe_audit_db {T _} _.
Arguments pe_event_id {T _} _.
Arguments pe_now {T _} _.
Arguments pe_explorer {T _} _.

Section Schema.
Context `{FromValue FieldType}.

Definition id_char (c : ascii) : bool :=
  is_ascii_alphanumeric c || bool_decide (c = "-"%char) || bool_decide (c = "_"%char).
(** The loop over the fields. *)
Fixpoint parse_fields (fs : list SchemaFieldRequest) : result ApiError (list FieldSchema) :=
  match fs with
  | [] => Ok []
  | f :: rest =>
      _ ← reject_if (bool_decide (sf_name f = "")) (Api.bad_request "schema field name cannot be empty");
      field_type ← map_err (λ e, Api.bad_request ("invalid field_type for '" +:+ sf_name f +:+ "': " +:+ e))
                     (from_value (sf_field_type f));
      fields ← parse_fields rest;
      Ok (mkFieldSchema (sf_name f) field_type (sf_nullable f) :: fields)
  end.
Definition parse_schema (uuid : string) (req : InlineSchemaRequest) :
    result ApiError (string * list FieldSchema) :=
  let given := match trim <$> is_schema_id req with
               | Some s => if bool_decide (s = "") then None else Some s
               | None => None
               end in
  schema_id ← match given with
              | Some s =>
                  if (128 <? len s) || negb (string_forallb id_char s)
                  then Err (Api.bad_request
                         "schema_id must be 1-128 chars, alphanumeric + hyphen/underscore")
                  else Ok s
              | None => Ok uuid
              end;
  _ ← reject_if (match is_fields req with [] => true | _ => false end)
        (Api.bad_request "schema must have at least one field");
  fields ← parse_fields (is_fields req);
  Ok (schema_id, fields).
End Schema.

Section Pools.
Context {T C K : Type} `{RedbTable T, RedbTxn (Db T), DbCrates, AuditCrates, HashCrates}.
Context `{SolanaCrates, SolanaKeys K, FromValue FieldType}.
Context `{Serde AuditEvent, Serde PoolMetadata, Serde WalletMetadata, Serde (list Z)}.
Context `{Serde (list FieldSchema)}.
Abbreviation St := (AppState T C).
Abbreviation handler A := (act St ApiError A).

(** ** The on-chain creation *)

(** The record of one DRT. *)
Definition drt_record (pool_pda : string) (d : ResolvedDrt) (rid : string) : DrtMetadata :=
  mkDrtMetadata (hex_of rid) (base58 (derive_mint_pda pool_pda rid).1) (rd_supply d)
    (rd_code_repo_url d) (hex_of (rd_code_hash d)).
(** The first loop, from DRT number [i] on. *)
Fixpoint drt_records (right_ids : nat → string) (pool_pda : string) (i : nat) (drts : list ResolvedDrt)
    (records : gmap string DrtMetadata) : gmap string DrtMetadata :=
  match drts with
  | [] => records
  | d :: rest => drt_records right_ids pool_pda (S i) rest
                   (<[rd_name d := drt_record pool_pda d (right_ids i)]> records)
  end.
(** The second loop: a registration per DRT and its right. *)
Fixpoint register_ixs (right_ids : nat → string) (owner pool_pda : string) (i : nat)
    (drts : list ResolvedDrt) : result ApiError (list Instruction) :=
  match drts with
  | [] => Ok []
  | d :: rest =>
      ix ← map_err Api.internal (build_register_drt owner pool_pda owner (right_ids i)
             (rd_code_repo_url d) (rd_code_hash d) (rd_supply d));
      ixs ← register_ixs right_ids owner pool_pda (S i) rest;
      Ok (ix :: ixs)
  end.
Definition create_pool_atomic (e : PoolEnv T) (owner_keypair : K) (drts : list ResolvedDrt) :
    result ApiError CreatedPool :=
  let owner_pk := kp_key owner_keypair in
  let pool_uuid := pe_pool_uuid e in
  let pool_pda := (derive_pool_pda pool_uuid).1 in
  let records := drt_records (pe_right_ids e) pool_pda 0 drts ∅ in
  registrations ← register_ixs (pe_right_ids e) owner_pk pool_pda 0 drts;
  let ixs := [build_compute_budget_ix 1400000; build_create_pool owner_pk pool_pda pool_uuid]
             ++ registrations ++ [build_seal_pool owner_pk pool_pda] in
  '(sig, events) ← sign_send_and_parse (pe_rpc e) owner_keypair ixs "confirmed";
  Ok (mkCreatedPool pool_pda pool_uuid [sig] records events).

(** ** The stored metadata *)

Definition new_meta (now : DateTime) (pool_pda pool_name : string) (kind : PoolKind)
    (pool_uuid_hex : string) (drts : gmap string DrtMetadata)
    (owner_wallet_id owner_pubkey schema_id : string) (mode : ValidationMode) : PoolMetadata :=
  mkPoolMetadata pool_pda pool_name kind pool_uuid_hex drts owner_wallet_id (Some owner_pubkey)
    schema_id mode NeedsInit now None None 0 0.
Definition persist_pool_metadata (e : PoolEnv T) (meta : PoolMetadata) : handler PoolMetadata :=
  let pool_pda := p_pool_pda meta in
  _ ← act_map_err (λ x, Api.internal ("failed to create pool directory: " +:+ display_storage x))
        (zoom storage set_storage (create_dir (pe_dir e) (pool_dataset_dir DATA_DIR pool_pda)));
  _ ← act_map_err (λ x, Api.internal ("failed to write pool metadata: " +:+ display_storage x))
        (zoom storage set_storage (write_json (pe_meta e) (pool_meta DATA_DIR pool_pda) meta));
  _ ← best_effort (zoom tx_db set_tx_db (upsert_pool_meta (pe_db e) meta));
  mret meta.

Definition pool_audit_event (e : PoolEnv T) (token : TokenData) (pool : string) (details : Json) :
    handler unit :=
  updating (audit_log_event (pe_audit e) (Some (pe_audit_db e))
    (with_details details (with_pool_pda pool (with_resource "drt_pool" pool
      (with_user (sub token) (event_new (pe_event_id e) (pe_now e) Types.PoolCreated)))))).
Definition create_response (e : PoolEnv T) (created : CreatedPool) (final_sig : string) :
    CreatePoolResponse :=
  mkCreatePoolResponse final_sig (cr_signatures created) (base58 (cr_pool_pda created))
    (hex_of (cr_pool_uuid created)) (d_mint <$> cr_drts created) (d_right_id_hex <$> cr_drts created)
    (pe_explorer e final_sig).

(** ** The endpoints *)

Definition create_malta_pool (e : PoolEnv T) (token : TokenData) (payload : CreateMaltaPoolRequest) :
    handler CreatePoolResponse :=
  _ ← lift (map_err api_of_fault (validate_pool_name (cm_pool_name payload)));
  resolved ← lift (map_err api_of_fault (validate_drt_requests (cm_drts payload) true));
  _ ← lift (reject_if (negb (existsb (λ d, bool_decide (rd_name d = APPEND_DRT_NAME)) resolved))
        (Api.bad_request "MALTA pools must include the 'append' DRT"));
  '(schema_id, fields) ← lift (parse_schema (pe_schema_uuid e) (cm_schema payload));
  wk ← load_wallet_keypair (K := K) (pe_wallet e) (cm_wallet_id payload) (sub token);
  let '(wallet, keypair) := wk in
  created ← lift (create_pool_atomic e keypair resolved);
  let pool_pda_str := base58 (cr_pool_pda created) in
  let pool_uuid_hex := hex_of (cr_pool_uuid created) in
  let final_sig := default "" (last (cr_signatures created)) in
  meta ← persist_pool_metadata e
           (new_meta (pe_created e) pool_pda_str (cm_pool_name payload) Malta pool_uuid_hex (cr_drts created)
              (w_wallet_id wallet) (w_public_address wallet) schema_id VHeadersOnly);
  _ ← act_map_err Api.internal
        (zoom storage set_storage (save_pool_schema (pe_schema e) DATA_DIR pool_pda_str fields));
  _ ← pool_audit_event e token pool_pda_str
        (obj [("kind", JStr "malta"); ("pool_name", JStr (cm_pool_name payload));
              ("pool_uuid", JStr pool_uuid_hex);
              ("tx_signatures", JArr (JStr <$> cr_signatures created));
              ("schema_id", JStr schema_id); ("drt_count", JNum (Z.of_nat (size (p_drts meta))));
              ("chain", chain_section (cr_signatures created) (cr_events created)
                          (pool_labels meta ∅))]);
  mret (create_response e created final_sig).

Definition create_iob_erp_pool (e : PoolEnv T) (token : TokenData) (payload : CreateIobErpPoolRequest) :
    handler CreatePoolResponse :=
  _ ← lift (map_err api_of_fault (validate_pool_name (ci_pool_name payload)));
  resolved ← lift (map_err api_of_fault (validate_drt_requests (ci_drts payload) false));
  wk ← load_wallet_keypair (K := K) (pe_wallet e) (ci_wallet_id payload) (sub token);
  let '(wallet, keypair) := wk in
  created ← lift (create_pool_atomic e keypair resolved);
  let pool_pda_str := base58 (cr_pool_pda created) in
  let pool_uuid_hex := hex_of (cr_pool_uuid created) in
  let final_sig := default "" (last (cr_signatures created)) in
  meta ← persist_pool_metadata e
           (new_meta (pe_created e) pool_pda_str (ci_pool_name payload) IobErp pool_uuid_hex (cr_drts created)
              (w_wallet_id wallet) (w_public_address wallet) "" VNone);
  _ ← pool_audit_event e token pool_pda_str
        (obj [("kind", JStr "iob_erp"); ("pool_name", JStr (ci_pool_name payload));
              ("pool_uuid", JStr pool_uuid_hex);
              ("tx_signatures", JArr (JStr <$> cr_signatures created));
              ("drt_count", JNum (Z.of_nat (size (p_drts meta))));
              ("chain", chain_section (cr_signatures created) (cr_events created)
                          (pool_labels meta ∅))]);
  mret (create_response e created final_sig).

Definition drt_response (x : string * DrtMetadata) : DrtConfigResponse :=
  mkDrtConfigResponse x.1 (d_right_id_hex x.2) (d_mint x.2) (d_supply x.2) (d_code_repo_url x.2)
    (d_code_hash_hex x.2).
Definition get_pool_info (rpc : Rpc) (io : io_fault) (pool_pda_str : string) :
    handler PoolInfoResponse :=
  pool_pda ← lift (ok_or (pubkey_from_str pool_pda_str) (Api.bad_request "invalid pool PDA address"));
  pool ← lift (fetch_pool (rpc_account rpc pool_pda) pool_pda);
  reading (λ st,
    let '(name, kind, drts) :=
      match (load_pool_meta io pool_pda_str st).1 with
      | Ok m => (p_pool_name m, match p_kind m with Malta => "malta" | IobErp => "iob_erp" end,
                 drt_response <$> merge_sort (λ x y, String.le x.1 y.1) (map_to_list (p_drts m)))
      | Err _ => ("", "unknown", [])
      end in
    Ok (mkPoolInfo pool_pda_str (hex_of (pl_uuid pool)) name kind (base58 (pl_owner pool))
          (pl_sealed pool) drts)).
Definition get_drt (rpc : Rpc) (io : io_fault) (pool_pda_str drt_name : string) :
    handler DrtConfigResponse :=
  pool_pda ← lift (ok_or (pubkey_from_str pool_pda_str) (Api.bad_request "invalid pool PDA address"));
  meta ← load_pool_meta io pool_pda_str;
  drt_meta ← lift (ok_or (p_drts meta !! drt_name)
               (Api.not_found ("DRT '" +:+ drt_name +:+ "' not found in pool")));
  right_id ← lift (decode_right_id (d_right_id_hex drt_meta));
  let drt_config_pda := (derive_drt_config_pda pool_pda right_id).1 in
  cfg ← lift (fetch_drt_config (rpc_account rpc drt_config_pda) drt_config_pda);
  mret (mkDrtConfigResponse drt_name (hex_of (dc_right_id cfg)) (base58 (dc_mint cfg)) (dc_supply cfg)
          (dc_code_repo_url cfg) (hex_of (dc_code_hash cfg))).
Definition get_tx_events (rpc : Rpc) (signature : string) : handler (string * list Json) :=
  events ← lift (parse_events_from_signature rpc);
  mret (signature, event_json <$> events).
End Pools.
