(* ===== verification/PoolFacts.v ===== *)
(** * What a created pool looks like

    The metadata the enclave keeps of a new pool describes what its one
    transaction put on chain, so that later grants and uploads, which read the
    metadata, address the registered rights. *)
From S2P Require Import Prelude.
From S2P Require Import RustStr.
From S2P Require Import RustFmt.
From S2P Require Import Errors.
From S2P Require Import Types.
From S2P Require Import Interfaces.
From S2P Require Import TxDatabase.
From S2P Require Import Text.
From S2P Require Import Instances.
From S2P Require Import Storage.
From S2P Require Import TxCache.
From S2P Require Import AppState.
From S2P Require Import AuditLog.
From S2P Require Import Wallets.
From S2P Require Import WalletFacts.
From S2P Require Import DataValidation.
From S2P Require Import VerifiedFetch.
From S2P Require Import FetchFacts.
From S2P Require Import DrtValidation.
From S2P Require Import DrtProgram.
From S2P Require Import DrtProgramFacts.
From S2P Require Import Chain.
From S2P Require Import ChainFacts.
From S2P Require Import PoolApi.

Local Open Scope Z_scope.
#[local] Arguments String.append : simpl nomatch.

(** ** Identifiers as hex text *)

Lemma parse_pairs_hex bad s : parse_pairs bad (String.length s) (hex_pairs s) = Ok s.
Proof.
  induction s as [|c s IH]; [done|]. simpl. rewrite IH.
  assert (Hr : match hex_pairs s with String d _ => is_cont d | EmptyString => false end = false).
  { destruct s as [|d s]; [done|]. by destruct d as [[] [] [] [] [] [] [] []]. }
  rewrite Hr. by destruct c as [[] [] [] [] [] [] [] []].
Qed.
Lemma length_hex_pairs s : String.length (hex_pairs s) = (2 * String.length s)%nat.
Proof. induction s as [|c s IH]; simpl; [done|]. rewrite IH. lia. Qed.

(** ** Files of a pool *)

Definition pool_file (id name : string) : string := "/data/pools/" +:+ id +:+ "/" +:+ name.
Lemma pool_path id name :
  safe_name id = true → starts_with "/" name = false →
  join (pool_dir DATA_DIR id) name = pool_file id name.
Proof.
  intros (Hn & Hne & Hs & He)%safe_name_facts Hname. unfold pool_dir, pool_file.
  rewrite join_dir by done. unfold pools_dir. rewrite join_dir by done. reflexivity.
Qed.
Lemma pool_file_inj i j n m :
  safe_name i = true → safe_name j = true → pool_file i n = pool_file j m → i = j ∧ n = m.
Proof.
  intros (Hi & _)%safe_name_facts (Hj & _)%safe_name_facts He.
  unfold pool_file in He. apply append_inj_len in He as [_ He]; [|done].
  by apply (split_inj "/") in He.
Qed.
Lemma pool_meta_file id : safe_name id = true → pool_meta DATA_DIR id = pool_file id "pool.meta.json".
Proof. intros. by apply pool_path. Qed.
Lemma pool_schema_file id : safe_name id = true → pool_schema DATA_DIR id = pool_file id "schema.json".
Proof. intros. by apply pool_path. Qed.
Lemma pool_file_parts id name :
  no_char "/" name = true →
  rsplit_once "/" (pool_file id name) = Some ("/data/pools/" +:+ id, name).
Proof.
  intros Hn. unfold pool_file. rewrite <-(append_assoc _ id).
  change ("/" +:+ name) with (String "/" name). by rewrite rsplit_once_app.
Qed.
Lemma pool_file_tmp id name stem ext :
  no_char "/" name = true → rsplit_once "." name = Some (stem, ext) → stem ≠ "" →
  with_extension (pool_file id name) "tmp" = pool_file id (stem +:+ ".tmp").
Proof.
  intros Hn Hs Hne. unfold with_extension, rsplit_next. rewrite pool_file_parts by done. rewrite Hs.
  destruct stem as [|c stem]; [done|]. unfold pool_file. by rewrite append_assoc.
Qed.
Lemma pool_meta_tmp id :
  with_extension (pool_file id "pool.meta.json") "tmp" = pool_file id "pool.meta.tmp".
Proof. by rewrite (pool_file_tmp id _ "pool.meta" "json"). Qed.
Lemma pool_not_audit id n d :
  no_char "/" d = true → pool_file id n ≠ audit_events_file DATA_DIR d.
Proof. intros Hd. rewrite audit_file_path by done. intros He. by simplify_eq/=. Qed.
Lemma pool_not_key id n : pool_file id n ≠ audit_key_path.
Proof. intros He. by simplify_eq/=. Qed.

Section Pools.
Context {T C K : Type} `{RedbTable T, RedbTxn (Db T), DbCratesLaws, AuditCrates}.
Context `{HashCratesLaws, SolanaLaws, SolanaKeys K, FromValue FieldType}.
Context `{Serde AuditEvent, SerdeLaws PoolMetadata, Serde WalletMetadata, Serde (list Z)}.
Context `{SerdeLaws (list FieldSchema)}.
Abbreviation St := (AppState T C).

Lemma decode_right_id_hex rid : len rid = 16 → decode_right_id (hex_of rid) = Ok rid.
Proof.
  intros Hl. unfold decode_right_id. rewrite hex_of_lower.
  assert (Hs : String.length rid = 16%nat) by (unfold len in Hl; lia).
  unfold len. rewrite length_hex_pairs, Hs. cbn [negb reject_if mbind result_bind].
  pose proof (parse_pairs_hex (Rejected (Api.internal "invalid hex in 16-byte id")) rid) as Hp.
  rewrite Hs in Hp. rewrite Hp. done.
Qed.

(** ** The two loops *)

Lemma drt_records_ne rids pda i ds records n :
  n ∉ rd_name <$> ds → drt_records rids pda i ds records !! n = records !! n.
Proof.
  revert i records. induction ds as [|d ds IH]; intros i records Hn; [done|]. simpl.
  rewrite IH by set_solver. rewrite lookup_insert_ne; [done|set_solver].
Qed.
Lemma drt_records_spec rids pda i ds records j d :
  NoDup (rd_name <$> ds) → ds !! j = Some d →
  drt_records rids pda i ds records !! rd_name d = Some (drt_record pda d (rids (i + j)%nat)).
Proof.
  revert i j records. induction ds as [|d' ds IH]; intros i j records Hnd Hj; [done|].
  apply NoDup_cons in Hnd as [Hd' Hnd]. simpl. destruct j as [|j]; simpl in Hj.
  - simplify_eq. rewrite drt_records_ne by done. rewrite lookup_insert_eq.
    by rewrite Nat.add_0_r.
  - rewrite (IH (S i) j) by done. by rewrite Nat.add_succ_comm.
Qed.
Lemma drt_records_names rids pda ds n :
  NoDup (rd_name <$> ds) → is_Some (drt_records rids pda 0 ds ∅ !! n) ↔ n ∈ rd_name <$> ds.
Proof.
  intros Hnd. split.
  - intros Hn. destruct (decide (n ∈ rd_name <$> ds)) as [|Hno]; [done|]. exfalso.
    rewrite drt_records_ne in Hn by done. by destruct Hn as [x Hx0%lookup_empty_Some].
  - intros (d & -> & Hin)%list_elem_of_fmap. apply list_elem_of_lookup in Hin as [i Hi].
    by rewrite (drt_records_spec _ _ 0 ds ∅ i d).
Qed.
Lemma register_ixs_spec rids owner pda i ds regs :
  register_ixs rids owner pda i ds = Ok regs →
  length regs = length ds ∧ ∀ j d, ds !! j = Some d → ∃ ix, regs !! j = Some ix ∧
    build_register_drt owner pda owner (rids (i + j)%nat) (rd_code_repo_url d) (rd_code_hash d)
      (rd_supply d) = Ok ix.
Proof.
  revert i regs. induction ds as [|d ds IH]; intros i regs Hr; [by simplify_eq/=|].
  apply result_bind_ok in Hr as (ix & Hix%map_err_ok & Hr).
  apply result_bind_ok in Hr as (rest & Hrest & Hr). simplify_eq.
  apply IH in Hrest as [Hl Hall]. split; [simpl; lia|]. intros [|j] d' Hj; simpl in Hj; simplify_eq.
  - exists ix. by rewrite Nat.add_0_r.
  - destruct (Hall j d' Hj) as (ix' & Hix' & Hb). exists ix'. by rewrite <-Nat.add_succ_comm.
Qed.

(** ** Creation on chain *)

(** The metadata [meta] describes the pool and the rights [drts] that the
    transaction [sig], paid by [owner], created. *)
Definition mirrors (e : PoolEnv T) (owner sig : string) (drts : list ResolvedDrt) (meta : PoolMetadata) :
    Prop :=
  let pda := (derive_pool_pda (pe_pool_uuid e)).1 in
  (∃ regs,
     sent_tx (pe_rpc e) "confirmed"
       ([build_compute_budget_ix 1400000; build_create_pool owner pda (pe_pool_uuid e)]
          ++ regs ++ [build_seal_pool owner pda]) owner sig ∧
     length regs = length drts ∧
     ∀ i d, drts !! i = Some d → ∃ ix dm,
       regs !! i = Some ix ∧
       build_register_drt owner pda owner (pe_right_ids e i) (rd_code_repo_url d) (rd_code_hash d)
         (rd_supply d) = Ok ix ∧
       p_drts meta !! rd_name d = Some dm ∧
       decode_right_id (d_right_id_hex dm) = Ok (pe_right_ids e i) ∧
       pubkey_from_str (d_mint dm) = Some (derive_mint_pda pda (pe_right_ids e i)).1 ∧
       d_supply dm = rd_supply d ∧ d_code_repo_url dm = rd_code_repo_url d ∧
       hex_decode (d_code_hash_hex dm) = Ok (rd_code_hash d)) ∧
  (∀ n, is_Some (p_drts meta !! n) ↔ n ∈ rd_name <$> drts) ∧
  pubkey_from_str (p_pool_pda meta) = Some pda ∧
  decode_right_id (p_pool_uuid_hex meta) = Ok (pe_pool_uuid e).

(** UUIDs have 16 bytes. *)
Definition uuids_ok (e : PoolEnv T) : Prop :=
  len (pe_pool_uuid e) = 16 ∧ ∀ i, len (pe_right_ids e i) = 16.

Lemma create_pool_atomic_ok e (kp : K) ds created meta :
  uuids_ok e → NoDup (rd_name <$> ds) → create_pool_atomic e kp ds = Ok created →
  p_drts meta = cr_drts created → p_pool_pda meta = base58 (cr_pool_pda created) →
  p_pool_uuid_hex meta = hex_of (cr_pool_uuid created) →
  ∃ sig, cr_signatures created = [sig] ∧ mirrors e (kp_key kp) sig ds meta ∧
    cr_pool_pda created = (derive_pool_pda (pe_pool_uuid e)).1.
Proof.
  intros [Hu Hr] Hnd Hc Hd Hp Hx. unfold create_pool_atomic in Hc.
  apply result_bind_ok in Hc as (regs & Hregs & Hc).
  apply result_bind_ok in Hc as ([sig events] & Hs%sign_send_ok & Hc). simplify_eq. simpl in *.
  apply register_ixs_spec in Hregs as [Hl Hall]. exists sig. split; [done|]. split; [|done].
  split; [|split; [|split]].
  - exists regs. split; [exact Hs|]. split; [done|]. intros i d Hi.
    destruct (Hall i d Hi) as (ix & Hix & Hb). eexists ix, _. split; [done|]. split; [done|].
    split; [rewrite Hd; by apply (drt_records_spec _ _ 0 ds ∅ i d)|]. simpl.
    split; [by apply decode_right_id_hex|].
    split; [apply pubkey_of_base58, program_address_len|].
    split; [done|]. split; [done|]. apply hex_decode_of.
  - intros n. rewrite Hd. by apply drt_records_names.
  - rewrite Hp. apply pubkey_of_base58, program_address_len.
  - rewrite Hx. by apply decode_right_id_hex.
Qed.

(** ** Stored metadata *)

Definition stored_meta (st : St) (id : string) (meta : PoolMetadata) : Prop :=
  ∃ data, files (storage st) !! pool_file id "pool.meta.json" = Some data ∧ from_slice data = Ok meta.

Lemma persist_ok e meta (st st' : St) m :
  safe_name (p_pool_pda meta) = true → persist_pool_metadata e meta st = (Ok m, st') →
  m = meta ∧ stored_meta st' (p_pool_pda meta) meta.
Proof.
  intros Hid Hp. unfold persist_pool_metadata in Hp. cbv zeta in Hp.
  apply act_bind_ok in Hp as (? & s1 & _ & Hp). apply act_bind_ok in Hp as (? & s2 & Hw & Hp).
  apply act_bind_ok in Hp as (? & s3 & Hu & Hp). injection Hp as <- <-. split; [done|].
  unfold act_map_err, zoom, write_json in Hw. rewrite pool_meta_file in Hw by done.
  destruct (to_vec_pretty_total meta) as [data Hd].
  rewrite act_bind_lift, Hd in Hw. cbn [map_err] in Hw. injection Hw as Hok%map_err_ok Hs2.
  exists data. split; [|by apply from_to_pretty].
  injection Hu as _ Hs3. rewrite <-Hs3, <-Hs2. simpl. rewrite atomic_write_files.
  - rewrite Hok. simpl. by rewrite decide_True.
  - rewrite pool_meta_tmp. intros [_ He]%pool_file_inj; done.
Qed.
Lemma stored_meta_frame (st st' : St) id meta :
  files (storage st') !! pool_file id "pool.meta.json" =
    files (storage st) !! pool_file id "pool.meta.json" →
  stored_meta st id meta → stored_meta st' id meta.
Proof. intros Hf (d & Hd & Hm). exists d. by rewrite Hf. Qed.
Lemma audit_pool_files ai db ev (st : St) id n :
  files (storage (audit_log_event ai db ev st)) !! pool_file id n = files (storage st) !! pool_file id n.
Proof.
  apply (proj2 (audit_log_event_frame ai db ev st)); [apply pool_not_key|].
  apply pool_not_audit, ymd_no_slash.
Qed.
Lemma save_schema_ok io id fields s s' :
  save_pool_schema io DATA_DIR id fields s = (Ok (), s') →
  ∃ json, to_vec_pretty fields = Ok json ∧ files s' = <[pool_schema DATA_DIR id := json]> (files s).
Proof.
  unfold save_pool_schema. destruct (to_vec_pretty fields) as [json|] eqn:Hj;
    destruct io; intros Hs; simplify_eq/=; by exists json.
Qed.

(** ** The endpoints *)

(** [owner] is the key of an active wallet of the user. *)
Definition caller_key (io : nat → io_fault) (wallet_id u : string) (fs : Fs) (owner : string) : Prop :=
  ∃ wallet (kp : K), (wallet_get (io 0%nat) wallet_id fs).1 = Ok wallet ∧
    w_owner_user_id wallet = u ∧ w_status wallet = WActive ∧
    kp_pubkey kp = w_public_address wallet ∧ owner = kp_key kp.

Lemma pool_tail_ok e token id details (resp resp' : CreatePoolResponse) (st st' : St) meta :
  (_ ← pool_audit_event e token id details; mret resp) st = (Ok resp', st') →
  resp' = resp ∧ (stored_meta st id meta → stored_meta st' id meta) ∧
  files (storage st') !! pool_file id "schema.json" = files (storage st) !! pool_file id "schema.json".
Proof.
  intros [= <- <-]. split; [done|]. split; [|apply audit_pool_files].
  apply stored_meta_frame, audit_pool_files.
Qed.

Lemma created_safe e : safe_name (base58 (derive_pool_pda (pe_pool_uuid e)).1) = true.
Proof. apply base58_safe, program_address_len. Qed.

Lemma create_malta_ok e token payload (st st' : St) resp :
  uuids_ok e → create_malta_pool (K := K) e token payload st = (Ok resp, st') →
  ∃ drts meta owner sid fields,
    validate_drt_requests (cm_drts payload) true = Ok drts ∧
    APPEND_DRT_NAME ∈ (rd_name <$> drts) ∧
    caller_key (pe_wallet e) (cm_wallet_id payload) (sub token) (storage st) owner ∧
    mirrors e owner (cp_signature resp) drts meta ∧ stored_meta st' (cp_pool_pda resp) meta ∧
    p_kind meta = Malta ∧ p_state meta = NeedsInit ∧
    parse_schema (pe_schema_uuid e) (cm_schema payload) = Ok (sid, fields) ∧ p_schema_id meta = sid ∧
    load_pool_schema IoOk DATA_DIR (cp_pool_pda resp) (storage st') = Some fields.
Proof.
  intros Hu Hc. unfold create_malta_pool in Hc. cbv zeta in Hc.
  peel Hc as ? _. peel Hc as drts Hv%map_err_ok. peel Hc as ? Happ%reject_if_ok.
  peel Hc as [sid fields] Hsch. apply act_bind_ok in Hc as ([wallet kp] & s1 & Hw & Hc).
  apply load_wallet_keypair_ok in Hw as (Hw & Hown & Hact & Hkp).
  peel Hc as created Hcr. apply act_bind_ok in Hc as (meta & s2 & Hp & Hc).
  pose proof (validated_names _ _ _ Hv) as [Hnd _].
  set (m := new_meta _ _ _ _ _ _ _ _ _ _) in Hp.
  destruct (create_pool_atomic_ok e kp drts created m Hu Hnd Hcr eq_refl eq_refl eq_refl)
    as (sig & Hsig & Hmir & Hpda).
  assert (Hsafe : safe_name (base58 (cr_pool_pda created)) = true) by (rewrite Hpda; apply created_safe).
  apply persist_ok in Hp as [-> Hst]; [|done]. apply act_bind_ok in Hc as ([] & s3 & Hs & Hc).
  unfold act_map_err, zoom in Hs.
  destruct (save_pool_schema _ _ _ _ (storage s2)) as [r fs] eqn:Hsave. injection Hs as Hr <-.
  apply map_err_ok in Hr as ->. apply save_schema_ok in Hsave as (json & Hj & Hfs).
  rewrite pool_schema_file in Hfs by done.
  assert (Hst3 : stored_meta (set_storage fs s2) (base58 (cr_pool_pda created)) m).
  { revert Hst. apply stored_meta_frame. simpl. rewrite Hfs, lookup_insert_ne; [done|].
    intros [_ ?]%pool_file_inj; done. }
  apply (pool_tail_ok _ _ _ _ _ _ _ _ m) in Hc as (-> & Hkeep & Hschf). rewrite Hsig. simpl.
  exists drts, m, (kp_key kp), sid, fields. split; [done|]. split.
  { apply negb_false_iff, existsb_exists in Happ as (d & Hd%list_elem_of_In & Hn%bool_decide_eq_true).
    rewrite <-Hn. by apply list_elem_of_fmap_2. }
  split; [by exists wallet, kp|]. split; [done|]. split; [by apply Hkeep|]. do 4 (split; [done|]).
  unfold load_pool_schema. rewrite pool_schema_file by done. cbn [storage set_storage] in Hschf.
  rewrite Hschf, Hfs, lookup_insert_eq. cbn. rewrite (to_vec_pretty_text _ _ Hj).
  by rewrite (from_to_pretty _ _ Hj).
Qed.

Lemma create_iob_erp_ok e token payload (st st' : St) resp :
  uuids_ok e → create_iob_erp_pool (K := K) e token payload st = (Ok resp, st') →
  ∃ drts meta owner,
    validate_drt_requests (ci_drts payload) false = Ok drts ∧
    (APPEND_DRT_NAME ∉ rd_name <$> drts) ∧
    caller_key (pe_wallet e) (ci_wallet_id payload) (sub token) (storage st) owner ∧
    mirrors e owner (cp_signature resp) drts meta ∧ stored_meta st' (cp_pool_pda resp) meta ∧
    p_kind meta = IobErp ∧ p_state meta = NeedsInit.
Proof.
  intros Hu Hc. unfold create_iob_erp_pool in Hc. cbv zeta in Hc.
  peel Hc as ? _. peel Hc as drts Hv%map_err_ok.
  apply act_bind_ok in Hc as ([wallet kp] & s1 & Hw & Hc).
  apply load_wallet_keypair_ok in Hw as (Hw & Hown & Hact & Hkp).
  peel Hc as created Hcr. apply act_bind_ok in Hc as (meta & s2 & Hp & Hc).
  pose proof (validated_names _ _ _ Hv) as [Hnd Hna].
  set (m := new_meta _ _ _ _ _ _ _ _ _ _) in Hp.
  destruct (create_pool_atomic_ok e kp drts created m Hu Hnd Hcr eq_refl eq_refl eq_refl)
    as (sig & Hsig & Hmir & Hpda).
  assert (Hsafe : safe_name (base58 (cr_pool_pda created)) = true) by (rewrite Hpda; apply created_safe).
  apply persist_ok in Hp as [-> Hst]; [|done].
  apply (pool_tail_ok _ _ _ _ _ _ _ _ m) in Hc as (-> & Hkeep & _). rewrite Hsig. simpl.
  exists drts, m, (kp_key kp). do 2 (split; [by auto|]). split; [by exists wallet, kp|].
  split; [done|]. split; [by apply Hkeep|done].
Qed.

(** C10: a new pool is on chain as its metadata says.  A pool creation succeeds
    only with one confirmed transaction, paid by the key of an active wallet of
    the caller, that creates the pool, registers each validated DRT and seals the
    pool.  The metadata then stored holds exactly those DRTs; each entry decodes
    to the registered right id, mint, supply, script URL and hash, and the pool's
    address and UUID decode to those of the transaction.  A MALTA pool has the
    [append] DRT and its schema can be read back; an ERP pool has no [append]. *)
Theorem created_pool_mirrors_chain (e : PoolEnv T) (token : TokenData) (st st' : St)
    (resp : CreatePoolResponse) :
  uuids_ok e →
  (∀ payload, create_malta_pool (K := K) e token payload st = (Ok resp, st') →
   ∃ drts meta owner sid fields,
     validate_drt_requests (cm_drts payload) true = Ok drts ∧
     APPEND_DRT_NAME ∈ (rd_name <$> drts) ∧
     caller_key (pe_wallet e) (cm_wallet_id payload) (sub token) (storage st) owner ∧
     mirrors e owner (cp_signature resp) drts meta ∧ stored_meta st' (cp_pool_pda resp) meta ∧
     p_kind meta = Malta ∧ p_state meta = NeedsInit ∧
     parse_schema (pe_schema_uuid e) (cm_schema payload) = Ok (sid, fields) ∧ p_schema_id meta = sid ∧
     load_pool_schema IoOk DATA_DIR (cp_pool_pda resp) (storage st') = Some fields) ∧
  (∀ payload, create_iob_erp_pool (K := K) e token payload st = (Ok resp, st') →
   ∃ drts meta owner,
     validate_drt_requests (ci_drts payload) false = Ok drts ∧
     (APPEND_DRT_NAME ∉ rd_name <$> drts) ∧
     caller_key (pe_wallet e) (ci_wallet_id payload) (sub token) (storage st) owner ∧
     mirrors e owner (cp_signature resp) drts meta ∧ stored_meta st' (cp_pool_pda resp) meta ∧
     p_kind meta = IobErp ∧ p_state meta = NeedsInit).
Proof.
  intros Hu. split; intros payload Hc; [by apply create_malta_ok|by apply create_iob_erp_ok].
Qed.
End Pools.

(** ** Examples *)

#[export] Instance solana0_laws : SolanaLaws.
Proof.
  assert (Hn : ∀ k, no_char "/" (hex_pairs k) = true).
  { induction k as [|c k IH]; [done|]. by destruct c as [[] [] [] [] [] [] [] []]. }
  split.
  - intros seeds p. change (Z.of_nat (String.length (fit 32 (String.concat "" seeds))) = 32).
    by rewrite fit_len.
  - intros k Hk. cbn [base58 solana0]. unfold safe_name. rewrite Hn.
    destruct k as [|c k]; [done|]. by destruct c as [[] [] [] [] [] [] [] []].
  - intros k Hk. cbn [base58 pubkey_from_str solana0]. destruct k as [|c k]; [done|].
    apply (unhex_hex_pairs (String c k)).
  - intros s k Hk. cbn [pubkey_from_str solana0] in Hk. destruct s as [|c s]; [done|].
    destruct (unhex_facts _ _ Hk) as (_ & Hs & Hd). unfold safe_name. rewrite Hs.
    rewrite !bool_decide_eq_false_2; [done|..]; intros He; by rewrite He in Hd.
Qed.
#[export] Instance FieldType_eq_dec : EqDecision FieldType.
Proof. solve_decision. Defined.
#[export] Instance FieldType_countable : Countable FieldType.
Proof.
  refine (inj_countable'
    (λ t, match t with
          | Char n => inl (inl n) | Varchar n => inl (inr n) | Decimal p s => inr (inl (p, s))
          | Integer => inr (inr 0) | DateDdMmYyyy => inr (inr 1) | Flag01 => inr (inr 2)
          end : (Z + Z) + (Z * Z + Z))
    (λ x, match x with
          | inl (inl n) => Char n | inl (inr n) => Varchar n | inr (inl (p, s)) => Decimal p s
          | inr (inr 0) => Integer | inr (inr 1) => DateDdMmYyyy | inr (inr _) => Flag01
          end) _). by intros [].
Defined.
#[export] Instance FieldSchema_eq_dec : EqDecision FieldSchema.
Proof. solve_decision. Defined.
#[export] Instance FieldSchema_countable : Countable FieldSchema.
Proof.
  refine (inj_countable' (λ f, (f_name f, f_type f, f_nullable f))
    (λ '(n, t, b), mkFieldSchema n t b) _). by intros [].
Defined.
#[export] Instance field_type0 : FromValue FieldType := {
  from_value j := match j with JStr "integer" => Ok Integer | _ => Err "unknown variant" end }.

Definition penv0 : PoolEnv table0 :=
  mkPoolEnv "uuid-1" (fit 16 "pool") (λ i, fit 16 (show_u64 (Z.of_nat i))) (λ _, IoOk)
    (mkRpc (Ok "bh") (λ _, Ok "sig") (λ _, Ok [Some (mkStatus false (Some "confirmed"))])
       (λ n, 400 * Z.of_nat n) (Ok []) (λ _, Ok None))
    IoOk (mkDateTime 3 0) IoOk env0 IoOk ai0 env0 "ev" (mkDateTime 4 0) (λ s, s).
Definition malta0 : CreateMaltaPoolRequest :=
  mkCreateMalta "w1" "pool one" drts0
    (mkInlineSchema None [mkSchemaField "age" (JStr "integer") true]).
Lemma created_pool_mirrors_chain_witness :
  ∃ resp st', create_malta_pool (K := list Z) penv0 alice malta0 (create0 "w1" wst0) = (Ok resp, st') ∧
    load_pool_schema IoOk DATA_DIR (cp_pool_pda resp) (storage st')
      = Some [mkFieldSchema "age" Integer true].
Proof.
  assert (Hok : is_ok (create_malta_pool (K := list Z) penv0 alice malta0 (create0 "w1" wst0)).1 = true)
    by (vm_compute; reflexivity).
  destruct (create_malta_pool (K := list Z) penv0 alice malta0 (create0 "w1" wst0)) as [[resp|x] st']
    eqn:Hc; [|discriminate Hok].
  exists resp, st'. split; [reflexivity|].
  assert (Hu : uuids_ok penv0).
  { split; [reflexivity|]. intros i.
    change (Z.of_nat (String.length (fit 16 (show_u64 (Z.of_nat i)))) = 16). by rewrite fit_len. }
  destruct (proj1 (created_pool_mirrors_chain (K := list Z) penv0 alice (create0 "w1" wst0) st' resp Hu)
    malta0 Hc) as (drts & meta & owner & sid & fields & _ & _ & _ & _ & _ & _ & _ & Hs & _ & Hl).
  rewrite Hl. f_equal. vm_compute in Hs. by injection Hs as _ <-.
Defined.
