(* ===== verification/Upload.v ===== *)
(** * Encrypted uploads

    The multipart form of src/src/handlers.rs and the decryption of
    src/src/crypto.rs (ECDH on P-256, HKDF-SHA256, AES-256-GCM), up to the checked
    plaintext.  The cryptographic crates are parameters. *)
From S2P Require Import Prelude.
From S2P Require Import RustStr.
From S2P Require Import RustFmt.
From S2P Require Import Errors.
From S2P Require Import Types.
From S2P Require Import Interfaces.
From S2P Require Import Storage.
From S2P Require Import AppState.
From S2P Require Import DataValidation.
From S2P Require Import VerifiedFetch.

Local Open Scope Z_scope.
#[local] Arguments String.append : simpl nomatch.

(** ** Third-party cryptography *)

(** [Sec] and [Pub] are P-256 secret and public keys. *)
Class CryptoCrates (Sec Pub : Type) := {
  (** base64 [URL_SAFE_NO_PAD], [STANDARD], [STANDARD_NO_PAD], [URL_SAFE] *)
  url_no_pad_encode : string → string;
  url_no_pad_decode : string → option string;
  standard_decode : string → option string;
  standard_no_pad_decode : string → option string;
  url_decode : string → option string;
  public_key : Sec → Pub;
  (** [PublicKey::from_sec1_bytes], [to_encoded_point(false)] *)
  from_sec1_bytes : string → option Pub;
  to_encoded_point : Pub → string;
  (** the raw bytes of the shared secret *)
  diffie_hellman : Sec → Pub → string;
  secret_bytes : Sec → string;
  (** [Hkdf::<Sha256>::new(salt, ikm).expand(info, 32 bytes)] *)
  hkdf_expand : option string → string → string → option string;
  (** AES-256-GCM under a key and a nonce *)
  aes_gcm_encrypt : string → string → string → string;
  aes_gcm_decrypt : string → string → string → option string;
}.
(** An encoding is read back, also with surrounding text trimmed off; both sides
    of an exchange get the same secret; 32 bytes can be derived from any secret;
    AES-GCM opens what it sealed. *)
Class CryptoLaws (Sec Pub : Type) `{CryptoCrates Sec Pub} := {
  url_no_pad_round (s : string) : url_no_pad_decode (url_no_pad_encode s) = Some s;
  url_no_pad_text (s : string) : s ≠ "" →
    trim (url_no_pad_encode s) = url_no_pad_encode s ∧ url_no_pad_encode s ≠ "";
  sec1_round (p : Pub) : from_sec1_bytes (to_encoded_point p) = Some p;
  sec1_nonempty (p : Pub) : to_encoded_point p ≠ "";
  dh_agrees (a b : Sec) : diffie_hellman a (public_key b) = diffie_hellman b (public_key a);
  hkdf_total salt ikm info : ∃ k, hkdf_expand salt ikm info = Some k;
  aes_gcm_opens key nonce m : aes_gcm_decrypt key nonce (aes_gcm_encrypt key nonce m) = Some m;
  aes_gcm_nonempty key nonce m : aes_gcm_encrypt key nonce m ≠ "";
}.

Definition MAX_BODY_SIZE : Z := 50 * 1024 * 1024.

(** ** The form *)

Record MultipartCsvInput := mkInput {
  in_encrypted_data : option string; in_ephemeral_public_key : option string; in_nonce : option string }.
(** A part of the form: its name, and what reading its text gives. *)
Record Part := mkPart { part_name : option string; part_text : option string }.
(** What successive calls of [next_field] answer: [None] is an error. *)
Abbreviation Multipart := (list (option Part)).

Definition validate_csv_multipart_field_name (name : string) : result ApiError unit :=
  if bool_decide (name = "encrypted_data") || bool_decide (name = "ephemeral_public_key")
     || bool_decide (name = "nonce") then Ok ()
  else if bool_decide (name = "file") then
    Err (Api.bad_request
      "plaintext file uploads are not accepted — use encrypted_data with ephemeral_public_key and nonce")
  else Err (Api.bad_request ("unsupported multipart field: " +:+ name)).

(** [if !value.trim().is_empty() { slot = Some(value.trim()) }]. *)
Definition keep_text (value : string) (slot : option string) : option string :=
  if bool_decide (trim value = "") then slot else Some (trim value).
Definition set_field (name value : string) (i : MultipartCsvInput) : MultipartCsvInput :=
  if bool_decide (name = "encrypted_data") then
    mkInput (keep_text value (in_encrypted_data i)) (in_ephemeral_public_key i) (in_nonce i)
  else if bool_decide (name = "ephemeral_public_key") then
    mkInput (in_encrypted_data i) (keep_text value (in_ephemeral_public_key i)) (in_nonce i)
  else mkInput (in_encrypted_data i) (in_ephemeral_public_key i) (keep_text value (in_nonce i)).
Fixpoint parse_multipart_from (input : MultipartCsvInput) (multipart : Multipart) :
    result ApiError MultipartCsvInput :=
  match multipart with
  | [] => Ok input
  | None :: _ => Err (Api.bad_request "invalid multipart payload")
  | Some part :: rest =>
      match part_name part with
      | None => parse_multipart_from input rest
      | Some name =>
          _ ← validate_csv_multipart_field_name name;
          value ← ok_or (part_text part) (Api.bad_request ("invalid " +:+ name +:+ " field"));
          parse_multipart_from (set_field name value input) rest
      end
  end.
Definition parse_multipart_fields : Multipart → result ApiError MultipartCsvInput :=
  parse_multipart_from (mkInput None None None).

Definition encrypted_parts (i : MultipartCsvInput) : result ApiError (string * string * string) :=
  encrypted_data ← ok_or (in_encrypted_data i) (Api.bad_request "missing encrypted_data field");
  ephemeral_key ← ok_or (in_ephemeral_public_key i)
    (Api.bad_request "ephemeral_public_key is required for encrypted uploads");
  nonce ← ok_or (in_nonce i) (Api.bad_request "nonce is required for encrypted uploads");
  Ok (encrypted_data, ephemeral_key, nonce).

Definition ensure_size_limit (bytes : string) : result ApiError unit :=
  reject_if (MAX_BODY_SIZE <? len bytes)
    (Api.bad_request ("payload exceeds maximum size of " +:+ show_u64 MAX_BODY_SIZE +:+ " bytes")).

(** ** Decryption *)

Section Decrypt.
Context {Sec Pub : Type} `{CryptoCrates Sec Pub}.

Definition or_else {A} (a b : option A) : option A := match a with Some x => Some x | None => b end.
Definition decode_base64_any (input : string) : option string :=
  or_else (or_else (or_else (url_no_pad_decode input) (standard_decode input))
    (standard_no_pad_decode input)) (url_decode input).

Definition UPLOAD_INFO : string := "relational-sdk:data-upload:v1".
(** [enclave] is the secret key of the process. *)
Definition decrypt_ecdh_payload (enclave : Sec) (ciphertext_b64 ephemeral_b64 nonce_b64 : string) :
    result string string :=
  ciphertext ← ok_or (decode_base64_any ciphertext_b64) "invalid encrypted_data encoding";
  ephemeral_bytes ← ok_or (decode_base64_any ephemeral_b64) "invalid ephemeral_public_key encoding";
  nonce_bytes ← ok_or (decode_base64_any nonce_b64) "invalid nonce encoding";
  _ ← reject_if (negb (len nonce_bytes =? 12)) "nonce must be 12 bytes for AES-GCM";
  peer_public ← ok_or (from_sec1_bytes ephemeral_bytes) "invalid ephemeral public key bytes";
  let shared_secret := diffie_hellman enclave peer_public in
  key ← ok_or (hkdf_expand None shared_secret UPLOAD_INFO) "failed to derive encryption key";
  ok_or (aes_gcm_decrypt key nonce_bytes ciphertext) "failed to decrypt encrypted_data".

Definition parse_csv_payload (enclave : Sec) (multipart : Multipart) : result ApiError string :=
  input ← parse_multipart_fields multipart;
  '(encrypted_data, ephemeral_key, nonce) ← encrypted_parts input;
  csv_bytes ← map_err Api.bad_request (decrypt_ecdh_payload enclave encrypted_data ephemeral_key nonce);
  _ ← ensure_size_limit csv_bytes;
  Ok csv_bytes.

(** [EnclaveKey::hmac_key]; deriving 32 bytes does not fail. *)
Definition hmac_key (enclave : Sec) (domain : string) : option string :=
  hkdf_expand (Some domain) (secret_bytes enclave) "relational-sdk:hmac:v1".
End Decrypt.

(** ** Validation of an upload *)

Section Validate.
Context `{CsvCrates, Serde (list FieldSchema)}.

Definition validate_payload (io : io_fault) (pool_pda csv_bytes : string) (mode : ValidationMode)
    (s : Fs) : result ApiError ValidationSummary :=
  match mode with
  | VNone => Ok (validate_csv_bytes csv_bytes [] mode)
  | _ =>
      schema ← ok_or (load_pool_schema io DATA_DIR pool_pda s)
        (Api.bad_request ("schema for pool " +:+ pool_pda
           +:+ " not found — upload one to the enclave first"));
      Ok (validate_csv_bytes csv_bytes schema mode)
  end.
End Validate.
