(* ===== verification/UploadFacts.v ===== *)
(** * What an upload guarantees

    A dataset sealed for the enclave's key is read back exactly; an accepted
    upload was sealed for it, under the fixed protocol label, and is within the
    size limit. *)
From S2P Require Import Prelude.
From S2P Require Import RustStr.
From S2P Require Import RustFmt.
From S2P Require Import Errors.
From S2P Require Import Types.
From S2P Require Import Interfaces.
From S2P Require Import Storage.
From S2P Require Import DataValidation.
From S2P Require Import VerifiedFetch.
From S2P Require Import FetchFacts.
From S2P Require Import AuditLog.
From S2P Require Import Upload.

Local Open Scope Z_scope.
#[local] Arguments String.append : simpl nomatch.

Definition accepted_names : list string := ["encrypted_data"; "ephemeral_public_key"; "nonce"].
Lemma field_name_ok name u :
  validate_csv_multipart_field_name name = Ok u → name ∈ accepted_names.
Proof.
  unfold validate_csv_multipart_field_name, accepted_names.
  case_bool_decide; [set_solver|]. case_bool_decide; [set_solver|]. case_bool_decide; [set_solver|].
  simpl. by case_bool_decide.
Qed.

(** Every part of a form that is read has an accepted name or none. *)
Lemma parse_multipart_names i mp o :
  parse_multipart_from i mp = Ok o →
  Forall (λ p, ∃ part, p = Some part ∧ ∀ n, part_name part = Some n → n ∈ accepted_names) mp.
Proof.
  revert i. induction mp as [|[part|] mp IH]; intros i Hp; simpl in Hp; [constructor| |done].
  destruct (part_name part) as [n|] eqn:Hn.
  - apply result_bind_ok in Hp as (u & Hu%field_name_ok & Hp).
    apply result_bind_ok in Hp as (v & _ & Hp). constructor; [|by eapply IH].
    exists part. split; [done|]. intros n' Hn'. by simplify_eq.
  - constructor; [|by eapply IH]. exists part. split; [done|]. intros n' Hn'. by simplify_eq.
Qed.

Section Upload.
Context {Sec Pub : Type} `{CryptoLaws Sec Pub}.

(** ** The sender *)

(** The form a client sends: a fresh key pair [eph], a nonce, and the dataset
    sealed under the key derived from the shared secret. *)
Definition text_part (name value : string) : option Part := Some (mkPart (Some name) (Some value)).
Definition upload_form (server : Pub) (eph : Sec) (nonce csv : string) : option Multipart :=
  key ← hkdf_expand None (diffie_hellman eph server) UPLOAD_INFO;
  Some [text_part "encrypted_data" (url_no_pad_encode (aes_gcm_encrypt key nonce csv));
        text_part "ephemeral_public_key" (url_no_pad_encode (to_encoded_point (public_key eph)));
        text_part "nonce" (url_no_pad_encode nonce)].

Lemma keep_encoded s slot : s ≠ "" → keep_text (url_no_pad_encode s) slot = Some (url_no_pad_encode s).
Proof.
  intros Hs. destruct (url_no_pad_text s Hs) as [Ht Hn]. unfold keep_text. rewrite Ht.
  by rewrite bool_decide_eq_false_2.
Qed.
Lemma decode_any_round s : decode_base64_any (url_no_pad_encode s) = Some s.
Proof. unfold decode_base64_any. by rewrite url_no_pad_round. Qed.

Lemma parse_form a b c :
  a ≠ "" → b ≠ "" → c ≠ "" →
  parse_multipart_fields [text_part "encrypted_data" (url_no_pad_encode a);
    text_part "ephemeral_public_key" (url_no_pad_encode b); text_part "nonce" (url_no_pad_encode c)]
  = Ok (mkInput (Some (url_no_pad_encode a)) (Some (url_no_pad_encode b)) (Some (url_no_pad_encode c))).
Proof.
  intros Ha Hb Hc.
  change (Ok (mkInput (keep_text (url_no_pad_encode a) None) (keep_text (url_no_pad_encode b) None)
    (keep_text (url_no_pad_encode c) None)) = Ok (E := ApiError) (mkInput (Some (url_no_pad_encode a))
      (Some (url_no_pad_encode b)) (Some (url_no_pad_encode c)))).
  by rewrite !keep_encoded.
Qed.

(** An upload reads back.  The form that a client builds for the enclave's public
    key, with any fresh key pair and any 12-byte nonce, exists and is decrypted to
    exactly the dataset, unless the dataset exceeds the size limit, and then the
    upload is refused. *)
Lemma upload_reads_back (enclave eph : Sec) (nonce csv : string) :
  len nonce = 12 →
  ∃ form, upload_form (public_key enclave) eph nonce csv = Some form ∧
    parse_csv_payload enclave form =
      if MAX_BODY_SIZE <? len csv
      then Err (Api.bad_request ("payload exceeds maximum size of " +:+ show_u64 MAX_BODY_SIZE +:+ " bytes"))
      else Ok csv.
Proof.
  intros Hn. unfold upload_form. destruct (hkdf_total None (diffie_hellman eph (public_key enclave))
    UPLOAD_INFO) as [key Hk]. rewrite Hk. simpl. eexists. split; [reflexivity|].
  unfold parse_csv_payload. rewrite parse_form; [|apply aes_gcm_nonempty|apply sec1_nonempty|by intros ->].
  cbn [mbind result_bind encrypted_parts in_encrypted_data in_ephemeral_public_key in_nonce ok_or].
  unfold decrypt_ecdh_payload. rewrite !decode_any_round.
  cbn [mbind result_bind ok_or]. rewrite Hn, sec1_round.
  cbn [negb Z.eqb Pos.eqb reject_if mbind result_bind ok_or]. rewrite (dh_agrees enclave eph), Hk.
  cbn [mbind result_bind ok_or]. rewrite aes_gcm_opens. cbn [map_err mbind result_bind ok_or].
  unfold ensure_size_limit, reject_if. by destruct (MAX_BODY_SIZE <? len csv).
Qed.

(** Nothing is stored that was not sealed for the enclave.  When an upload is
    accepted, every part of the form is one of the three encrypted fields; the
    ciphertext opens, under the key derived from the enclave's secret and the
    sender's public key with the upload label, to exactly the accepted dataset;
    the nonce has 12 bytes and the dataset is within the limit. *)
Theorem upload_only_sealed (enclave : Sec) (form : Multipart) (csv : string) :
  parse_csv_payload enclave form = Ok csv →
  Forall (λ p, ∃ part, p = Some part ∧ ∀ n, part_name part = Some n → n ∈ accepted_names) form ∧
  len csv ≤ MAX_BODY_SIZE ∧
  ∃ ciphertext peer nonce key,
    len nonce = 12 ∧ hkdf_expand None (diffie_hellman enclave peer) UPLOAD_INFO = Some key ∧
    aes_gcm_decrypt key nonce ciphertext = Some csv.
Proof.
  intros (i & Hi & Hr)%result_bind_ok. apply result_bind_ok in Hr as ([[d k] n] & _ & Hr).
  apply result_bind_ok in Hr as (b & Hd%map_err_ok & Hr).
  apply result_bind_ok in Hr as (? & Hs%reject_if_ok & Hr). injection Hr as ->.
  split; [by eapply parse_multipart_names|]. split; [by apply Z.ltb_ge in Hs|].
  apply result_bind_ok in Hd as (ct & _ & Hd). apply result_bind_ok in Hd as (eb & _ & Hd).
  apply result_bind_ok in Hd as (nb & _ & Hd).
  apply result_bind_ok in Hd as (? & Hl%reject_if_ok%negb_false_iff%Z.eqb_eq & Hd).
  apply result_bind_ok in Hd as (peer & _ & Hd). cbv zeta in Hd.
  apply result_bind_ok in Hd as (key & Hk%ok_or_ok & Hd%ok_or_ok). by exists ct, peer, nb, key.
Qed.
End Upload.

(** ** Example *)

(** A toy exchange: keys are numbers, the shared secret their product in unary,
    and a sealed text carries its key and nonce. *)
Fixpoint unary (n : nat) : string := match n with O => "" | S m => String "a" (unary m) end.
Lemma length_unary n : String.length (unary n) = n.
Proof. induction n as [|n IH]; simpl; congruence. Qed.
#[export] Instance crypto0 : CryptoCrates nat nat := {
  url_no_pad_encode := hex_pairs;
  url_no_pad_decode := unhex;
  standard_decode := unhex;
  standard_no_pad_decode := unhex;
  url_decode := unhex;
  public_key k := k;
  from_sec1_bytes s := match s with EmptyString => None | String _ r => Some (String.length r) end;
  to_encoded_point p := String "4" (unary p);
  diffie_hellman a b := unary (a * b);
  secret_bytes a := unary a;
  hkdf_expand _ ikm info := Some (fit 32 (ikm +:+ info));
  aes_gcm_encrypt k n m := "c" +:+ k +:+ n +:+ m;
  aes_gcm_decrypt k n c := strip_prefix ("c" +:+ k +:+ n) c;
}.
(** Visible ASCII text has nothing to trim. *)
Definition visible (c : ascii) : bool := in_range 33 126 c.
Lemma trim_dir_visible flip s : string_forallb visible s = true → trim_dir flip s = s.
Proof.
  destruct s as [|a s]; [done|]. simpl. intros [Ha _]%andb_true_iff.
  unfold visible, in_range in Ha. apply andb_true_iff in Ha as [Hl%Z.leb_le Hu%Z.leb_le].
  assert (Hw : ws1 a = false) by (unfold ws1, in_range; lia). rewrite Hw.
  destruct s as [|b s]; [done|].
  assert (H2 : (if flip then ws2 b a else ws2 a b) = false) by (destruct flip; unfold ws2; lia).
  rewrite H2. destruct s as [|c s]; [done|].
  assert (H3 : (if flip then ws3 c b a else ws3 a b c) = false)
    by (destruct flip; unfold ws3, in_range; lia).
  by rewrite H3.
Qed.
Lemma rev_involutive s : String.rev (String.rev s) = s.
Proof.
  assert (Hg : ∀ a b c, String.rev_app (String.rev_app a b) c = String.rev_app b (a +:+ c)).
  { intros a. induction a as [|x a IH]; intros b c; simpl; [done|]. by rewrite IH. }
  unfold String.rev. rewrite Hg. simpl. apply append_nil_r.
Qed.
Lemma trim_visible s : string_forallb visible s = true → trim s = s.
Proof.
  intros Hs. unfold trim, trim_start, trim_end. rewrite (trim_dir_visible false s) by done.
  rewrite trim_dir_visible by (by rewrite string_forallb_rev). apply rev_involutive.
Qed.
Lemma hex_pairs_visible s : string_forallb visible (hex_pairs s) = true.
Proof. induction s as [|c s IH]; [done|]. simpl. rewrite IH. by destruct c as [[] [] [] [] [] [] [] []]. Qed.
#[export] Instance crypto0_laws : CryptoLaws nat nat.
Proof.
  split; cbn [url_no_pad_encode url_no_pad_decode from_sec1_bytes to_encoded_point diffie_hellman
    public_key hkdf_expand aes_gcm_encrypt aes_gcm_decrypt crypto0].
  - apply unhex_hex_pairs.
  - intros s Hs. split; [apply trim_visible, hex_pairs_visible|]. by destruct s.
  - intros p. by rewrite length_unary.
  - done.
  - intros a b. by rewrite Nat.mul_comm.
  - eauto.
  - intros k n m. rewrite <-(strip_prefix_app ("c" +:+ k +:+ n) m). by rewrite !append_assoc.
  - done.
Qed.
Lemma upload_only_sealed_witness :
  ∃ form csv, parse_csv_payload (Sec := nat) 7%nat form = Ok csv ∧ len csv ≤ MAX_BODY_SIZE ∧ csv ≠ "".
Proof.
  destruct (upload_form (Sec := nat) 7%nat 5%nat "123456789012" "age") as [form|] eqn:Hf;
    [|discriminate Hf].
  assert (Hp : parse_csv_payload (Sec := nat) 7%nat form = Ok "age").
  { injection Hf as <-. vm_compute. reflexivity. }
  exists form, "age". split; [exact Hp|]. split; [|discriminate].
  exact (proj1 (proj2 (upload_only_sealed (Sec := nat) 7%nat form "age" Hp))).
Defined.
