(* ===== verification/EnclaveKey.v ===== *)
(** * The key of the enclave

    The key pair of src/src/crypto.rs: a [OnceLock] that the first caller fills,
    the JWK of the public key, and its uses: publication
    (src/src/handlers.rs, [get_public_key]), the decryption of uploads and the key
    of the cursor signature (src/src/storage/tx_database.rs).  A client that reads
    the published document obtains the key that opens its uploads, whatever the
    process did before and does between. *)
From S2P Require Import Prelude.
From S2P Require Import RustStr.
From S2P Require Import RustFmt.
From S2P Require Import Errors.
From S2P Require Import Types.
From S2P Require Import Interfaces.
From S2P Require Import Text.
From S2P Require Import Storage.
From S2P Require Import VerifiedFetch.
From S2P Require Import FetchFacts.
From S2P Require Import Auth.
From S2P Require Import Upload.
From S2P Require Import UploadFacts.

Local Open Scope Z_scope.
#[local] Arguments String.append : simpl nomatch.

(** ** The JWK as JSON *)

(** [Serialize]: the fields in order, those that are [None] skipped. *)
Definition jwk_value (j : Jwk) : Json :=
  JObj (("kty", JStr (kty j)) :: skip_none "crv" (jcrv j) ++ skip_none "x" (jx j) ++ skip_none "y" (jy j)
    ++ skip_none "n" (jn j) ++ skip_none "e" (je j) ++ skip_none "use" (juse j)
    ++ skip_none "alg" (jalg j) ++ skip_none "kid" (jkid j)).
(** [Deserialize]: [kty] is required; any other field may be absent or null;
    unknown fields are ignored.  [None] is an error. *)
Definition opt_string (key : string) (v : Json) : option (option string) :=
  match json_get key v with
  | None | Some JNull => Some None
  | Some (JStr s) => Some (Some s)
  | Some _ => None
  end.
Definition jwk_of_value (v : Json) : option Jwk :=
  k ← json_get "kty" v ≫= as_str;
  crv ← opt_string "crv" v; x ← opt_string "x" v; y ← opt_string "y" v; n ← opt_string "n" v;
  e ← opt_string "e" v; use_ ← opt_string "use" v; alg ← opt_string "alg" v; kid ← opt_string "kid" v;
  Some (mkJwk k crv x y n e use_ alg kid).

(** What is published is read back, also as the claim of a token. *)
Lemma jwk_value_round (j : Jwk) : jwk_of_value (jwk_value j) = Some j.
Proof. by destruct j as [k [] [] [] [] [] [] [] []]. Qed.

Lemma jwk_value_x (j : Jwk) : json_get "x" (jwk_value j) = JStr <$> jx j.
Proof. by destruct j as [k [] [] [] [] [] [] [] []]. Qed.
Lemma jwk_value_y (j : Jwk) : json_get "y" (jwk_value j) = JStr <$> jy j.
Proof. by destruct j as [k [] [] [] [] [] [] [] []]. Qed.

(** ** The key of the process *)

(** [&s[lo..hi]]; [None] is the panic of a range outside the bytes. *)
Definition byte_slice (lo hi : nat) (s : string) : option string :=
  if (lo <=? hi)%nat && (hi <=? String.length s)%nat then Some (String.substring lo (hi - lo) s) else None.

Section Key.
Context {Sec Pub : Type} `{CryptoCrates Sec Pub, HashCrates}.

Definition jwk_for_public_key (public_key : Pub) : option Jwk :=
  let bytes := to_encoded_point public_key in
  x ← byte_slice 1 33 bytes;
  y ← byte_slice 33 65 bytes;
  let kid := url_no_pad_encode (sha256 bytes) in
  Some (mkJwk "EC" (Some "P-256") (Some (url_no_pad_encode x)) (Some (url_no_pad_encode y)) None None
          (Some "enc") (Some "ECDH-ES") (Some kid)).

Record EnclaveKey := mkEnclaveKey { private_key : Sec; public_jwk : Jwk }.
(** [ENCLAVE_KEY]. *)
Abbreviation Cell := (option EnclaveKey).
(** [random] is what [SecretKey::random] would draw; the error is a panic, and
    a cell whose initialisation panics stays empty. *)
Definition enclave_key (random : Sec) : act Cell unit EnclaveKey := λ cell,
  match cell with
  | Some key => (Ok key, cell)
  | None =>
      match jwk_for_public_key (public_key random) with
      | Some jwk => let key := mkEnclaveKey random jwk in (Ok key, Some key)
      | None => (Err (), None)
      end
  end.
Definition get_public_key (random : Sec) : act Cell unit Json :=
  key ← enclave_key random; mret (jwk_value (public_jwk key)).
(** [sign_cursor] and [verify_cursor] use this key. *)
Definition cursor_hmac_key (random : Sec) : act Cell unit (option string) :=
  key ← enclave_key random; mret (hmac_key (private_key key) "cursor-hmac-v1").
(** [parse_csv_payload]: the key is asked for when the form is complete. *)
Definition receive_upload (random : Sec) (form : Multipart) : act Cell unit (result ApiError string) :=
  match (input ← parse_multipart_fields form; encrypted_parts input) with
  | Err e => mret (Err e)
  | Ok _ => key ← enclave_key random; mret (parse_csv_payload (private_key key) form)
  end.
(** The comparison of [validate_token]. *)
Definition bound_to (random : Sec) (token_key : Jwk) : act Cell unit bool :=
  key ← enclave_key random;
  mret (token_key_matches token_key (public_jwk key)).

(** ** The life of the process *)

Inductive key_use :=
| Publish
| Receive (form : Multipart)
| Bind (token_key : Jwk)
| SignCursor.
Definition use_key (cell : Cell) (u : Sec * key_use) : Cell :=
  match u with
  | (random, Publish) => (get_public_key random cell).2
  | (random, Receive form) => (receive_upload random form cell).2
  | (random, Bind token_key) => (bound_to random token_key cell).2
  | (random, SignCursor) => (cursor_hmac_key random cell).2
  end.
(** [main] asks for the key first. *)
Definition process (random : Sec) (uses : list (Sec * key_use)) : Cell :=
  foldl use_key (enclave_key random None).2 uses.

(** ** The client *)

(** A browser imports the published coordinates as an uncompressed point. *)
Definition import_key (v : Json) : option Pub :=
  xs ← json_get "x" v ≫= as_str; x ← url_no_pad_decode xs;
  ys ← json_get "y" v ≫= as_str; y ← url_no_pad_decode ys;
  from_sec1_bytes (String (ascii_of_nat 4) (x +:+ y)).
End Key.
Arguments EnclaveKey : clear implicits.
Arguments mkEnclaveKey {Sec} _ _.

(** ** Facts *)

(** SEC1: an uncompressed point of P-256 is the byte 4 and two coordinates of 32
    bytes. *)
Class Sec1Laws (Sec Pub : Type) `{CryptoCrates Sec Pub} := {
  sec1_uncompressed (p : Pub) : ∃ x y, to_encoded_point p = String (ascii_of_nat 4) (x +:+ y) ∧
    String.length x = 32%nat ∧ String.length y = 32%nat;
}.

Lemma substring_prefix a b : String.substring 0 (String.length a) (a +:+ b) = a.
Proof. induction a as [|c a IH]; [by destruct b|]. cbn. f_equal. exact IH. Qed.
Lemma substring_skip a b n : String.substring (String.length a) n (a +:+ b) = String.substring 0 n b.
Proof. induction a as [|c a IH]; [done|]. cbn. exact IH. Qed.
(** The part of a text between two others. *)
Lemma byte_slice_middle a b c :
  byte_slice (String.length a) (String.length a + String.length b) (a +:+ b +:+ c) = Some b.
Proof.
  unfold byte_slice. rewrite !length_append.
  rewrite (proj2 (Nat.leb_le _ _)) by lia. rewrite (proj2 (Nat.leb_le _ _)) by lia.
  by rewrite Nat.add_comm, Nat.add_sub, substring_skip, substring_prefix.
Qed.

Section KeyFacts.
Context {Sec Pub : Type} `{CryptoLaws Sec Pub, !Sec1Laws Sec Pub, HashCrates}.

(** The JWK of a key carries its coordinates and the digest of its point. *)
Lemma jwk_of_key (p : Pub) : ∃ x y,
  to_encoded_point p = String (ascii_of_nat 4) (x +:+ y) ∧
  jwk_for_public_key p =
    Some (mkJwk "EC" (Some "P-256") (Some (url_no_pad_encode x)) (Some (url_no_pad_encode y)) None None
            (Some "enc") (Some "ECDH-ES") (Some (url_no_pad_encode (sha256 (to_encoded_point p))))).
Proof.
  destruct (sec1_uncompressed p) as (x & y & He & Hx & Hy). exists x, y. split; [done|].
  unfold jwk_for_public_key. rewrite He.
  pose proof (byte_slice_middle (String (ascii_of_nat 4) "") x y) as Hs1.
  pose proof (byte_slice_middle (String (ascii_of_nat 4) x) y "") as Hs2.
  rewrite append_nil_r in Hs2. cbn in Hs1, Hs2. rewrite Hx in Hs1, Hs2. rewrite Hy in Hs2. cbn in Hs1, Hs2.
  change (String ?c "" +:+ ?r) with (String c r) in Hs1.
  rewrite Hs1. cbn [mbind option_bind]. by rewrite Hs2.
Qed.
Lemma import_jwk_value (j : Jwk) : import_key (Pub := Pub) (jwk_value j) =
  (xs ← jx j; x ← url_no_pad_decode xs; ys ← jy j; y ← url_no_pad_decode ys;
   from_sec1_bytes (String (ascii_of_nat 4) (x +:+ y))).
Proof. unfold import_key. rewrite jwk_value_x, jwk_value_y. by destruct (jx j), (jy j). Qed.
Lemma import_published (p : Pub) j : jwk_for_public_key p = Some j → import_key (jwk_value j) = Some p.
Proof.
  destruct (jwk_of_key p) as (x & y & He & ->). intros [= <-]. rewrite import_jwk_value.
  cbn [jx jy]. simpl. rewrite (url_no_pad_round x). simpl. rewrite (url_no_pad_round y). simpl.
  rewrite <-He. apply sec1_round.
Qed.
(** A token that passes the comparison names the key of the enclave. *)
Lemma matching_token_key (p : Pub) j tk :
  jwk_for_public_key p = Some j → token_key_matches tk j = true → import_key (jwk_value tk) = Some p.
Proof.
  intros Hj Hm. unfold token_key_matches in Hm. rewrite !andb_true_iff in Hm.
  destruct Hm as [[[Hx%bool_decide_eq_true Hy%bool_decide_eq_true] _] _].
  rewrite <-(import_published p j Hj), !import_jwk_value. by rewrite Hx, Hy.
Qed.
Lemma own_key_matches (p : Pub) j : jwk_for_public_key p = Some j → token_key_matches j j = true.
Proof.
  destruct (jwk_of_key p) as (x & y & _ & ->). intros [= <-]. unfold token_key_matches.
  by rewrite !bool_decide_eq_true_2 by eauto.
Qed.

(** A key that was made stays, and every use meets it. *)
Lemma use_key_kept (k : EnclaveKey Sec) (u : Sec * key_use) : use_key (Some k) u = Some k.
Proof.
  destruct u as [r []]; try done. cbn [use_key]. unfold receive_upload.
  by destruct (input ← _; _).
Qed.
Lemma uses_kept (k : EnclaveKey Sec) (us : list (Sec * key_use)) : foldl use_key (Some k) us = Some k.
Proof. induction us as [|u us IH]; [done|]. simpl. by rewrite use_key_kept. Qed.
Lemma process_key (s : Sec) us : ∃ jwk, jwk_for_public_key (public_key s) = Some jwk ∧
  process s us = Some (mkEnclaveKey s jwk).
Proof.
  destruct (jwk_of_key (public_key s)) as (x & y & _ & Hj). eexists. split; [exact Hj|].
  unfold process, enclave_key. rewrite Hj. apply uses_kept.
Qed.
Lemma bound_to_key (k : EnclaveKey Sec) r tk :
  (bound_to r tk (Some k)).1 = Ok (token_key_matches tk (public_jwk k)).
Proof. done. Qed.
Lemma receive_upload_key (k : EnclaveKey Sec) r form :
  (receive_upload r form (Some k)).1 = Ok (parse_csv_payload (private_key k) form).
Proof.
  unfold receive_upload, parse_csv_payload. cbn [mbind result_bind].
  destruct (parse_multipart_fields form) as [i|]; [|done]. cbn.
  by destruct (encrypted_parts i) as [[[]]|].
Qed.

(** C16: the published key serves the life of the process.  Whatever the process
    did before publishing its key and does afterwards, with any randomness, the
    document a client reads imports to the public key of the process; the form
    that the client seals for that key is decrypted to exactly the dataset, or
    refused when the dataset exceeds the size limit; a token that carries the
    document is bound to the process, and a token bound to it carries its key. *)
Theorem published_key_serves (random eph r1 r2 r3 : Sec) (nonce csv : string)
    (before after : list (Sec * key_use)) (Hn : len nonce = 12) :
  let later := process random (before ++ after) in
  ∃ v jwk pub form,
    (get_public_key r1 (process random before)).1 = Ok v ∧ import_key v = Some pub ∧
    upload_form pub eph nonce csv = Some form ∧
    (receive_upload r2 form later).1 = Ok (
      if MAX_BODY_SIZE <? len csv
      then Err (Api.bad_request ("payload exceeds maximum size of " +:+ show_u64 MAX_BODY_SIZE +:+ " bytes"))
      else Ok csv) ∧
    jwk_of_value v = Some jwk ∧ (bound_to r3 jwk later).1 = Ok true ∧
    ∀ token_key, (bound_to r3 token_key later).1 = Ok true → import_key (jwk_value token_key) = Some pub.
Proof.
  intros later. destruct (process_key random before) as (jwk & Hj & Hb).
  destruct (process_key random (before ++ after)) as (jwk' & Hj' & Hl). simplify_eq.
  destruct (upload_reads_back random eph nonce csv Hn) as (form & Hf & Hp).
  exists (jwk_value jwk), jwk, (public_key random), form. unfold later. rewrite Hb, Hl.
  split; [done|]. split; [by apply import_published|]. split; [done|].
  split; [by rewrite receive_upload_key; cbn [private_key]; rewrite Hp|]. split; [apply jwk_value_round|].
  split; [by rewrite bound_to_key, (own_key_matches (public_key random))|].
  intros tk. rewrite bound_to_key. intros [= Ht]. by eapply matching_token_key.
Qed.
End KeyFacts.

(** ** Example *)

(** Keys are bytes, a point repeats its byte as padding of the first coordinate,
    the shared secret is the product of the keys in unary. *)
#[export] Instance crypto1 : CryptoCrates ascii ascii := {
  url_no_pad_encode := hex_pairs;
  url_no_pad_decode := unhex;
  standard_decode := unhex;
  standard_no_pad_decode := unhex;
  url_decode := unhex;
  public_key k := k;
  from_sec1_bytes s := match s with String _ (String c _) => Some c | _ => None end;
  to_encoded_point p := String (ascii_of_nat 4) (String p (unary 31) +:+ unary 32);
  diffie_hellman a b := unary (nat_of_ascii a * nat_of_ascii b);
  secret_bytes a := String a "";
  hkdf_expand _ ikm info := Some (fit 32 (ikm +:+ info));
  aes_gcm_encrypt k n m := "c" +:+ k +:+ n +:+ m;
  aes_gcm_decrypt k n c := strip_prefix ("c" +:+ k +:+ n) c;
}.
#[export] Instance crypto1_laws : CryptoLaws ascii ascii.
Proof.
  split; try done.
  - apply unhex_hex_pairs.
  - intros s Hs. split; [apply trim_visible, hex_pairs_visible|]. by destruct s.
  - intros a b. cbn. by rewrite Nat.mul_comm.
  - cbn. eauto.
  - intros k n m. cbn [aes_gcm_decrypt aes_gcm_encrypt crypto1].
    rewrite <-(strip_prefix_app ("c" +:+ k +:+ n) m). by rewrite !append_assoc.
Qed.
#[export] Instance crypto1_sec1 : Sec1Laws ascii ascii.
Proof. split. intros p. by exists (String p (unary 31)), (unary 32). Qed.
Lemma published_key_serves_witness :
  let later := process (Sec := ascii) "k"%char ([("r"%char, Publish)] ++ [("q"%char, SignCursor)]) in
  ∃ v jwk pub form,
    (get_public_key "x"%char (process "k"%char [("r"%char, Publish)])).1 = Ok v ∧
    import_key (Sec := ascii) v = Some pub ∧
    upload_form pub "e"%char "123456789012" "age" = Some form ∧
    (receive_upload "y"%char form later).1 = Ok (Ok "age") ∧
    jwk_of_value v = Some jwk ∧ (bound_to "z"%char jwk later).1 = Ok true.
Proof.
  destruct (published_key_serves "k"%char "e"%char "x"%char "y"%char "z"%char "123456789012" "age"
    [("r"%char, Publish)] [("q"%char, SignCursor)] eq_refl)
    as (v & jwk & pub & form & Hv & Hi & Hf & Hr & Hj & Hb & _).
  exists v, jwk, pub, form. split; [exact Hv|]. split; [exact Hi|]. split; [exact Hf|].
  split; [exact Hr|]. split; [exact Hj|exact Hb].
Defined.
