(* ===== verification/Credentials.v ===== *)
(** * Uploading, issuing and revoking credentials

    src/src/api/credentials.rs: the endpoints that change a pool's dataset (schema
    upload, initial dataset, issuance, revocation).  The endpoints that only read
    are in PoolViews.v. *)
From S2P Require Import Prelude.
From S2P Require Import RustStr.
From S2P Require Import RustFmt.
From S2P Require Import Errors.
From S2P Require Import Types.
From S2P Require Import Interfaces.
From S2P Require Import TxDatabase.
From S2P Require Import Text.
From S2P Require Import Storage.
From S2P Require Import TxCache.
From S2P Require Import AppState.
From S2P Require Import Wallets.
From S2P Require Import DataValidation.
From S2P Require Import VerifiedFetch.
From S2P Require Import Query.
From S2P Require Import DrtValidation.
From S2P Require Import DrtProgram.
From S2P Require Import Chain.
From S2P Require Import PoolApi.
From S2P Require Import Upload.

Local Open Scope Z_scope.
#[local] Arguments String.append : simpl nomatch.

(** ** Requests, responses and stored records *)

Record InitializePoolResponse := mkInitialized {
  ip_rows : Z; ip_record_id : string; ip_state : string }.
Record IssueCredentialsResponse := mkIssued {
  ic_record_id : string; ic_rows_issued : Z; ic_redeem_signature : string; ic_total_rows : Z;
  ic_explorer_url : string }.
Record RevokeCredentialsRequest := mkRevoke {
  rq_wallet_id : string; rq_credential_ids : list string; rq_reason : option string }.
Record RevocationEntry := mkRevocation {
  rv_credential_id : string; rv_revoked_by : string; rv_revoked_at : string;
  rv_reason : option string }.
Record UploadSchemaRequest := mkUploadSchema {
  us_schema_id : string; us_fields : list FieldSchema }.
Record GetSchemaResponse := mkGetSchema {
  gs_pool_pda : string; gs_schema_id : string; gs_fields : list FieldSchema }.
Record DatasetFileMeta := mkFileMeta {
  fm_record_id : string; fm_uploaded_by : string; fm_rows : Z; fm_uploaded_at : string;
  fm_redeem_tx_signature : option string }.
Record DatasetAnchor := mkAnchor {
  an_record_id : string; an_sha256 : string; an_commitment : option string }.

(** The serialised forms that are read back as JSON values. *)
Definition file_meta_value (m : DatasetFileMeta) : Json :=
  JObj ([("record_id", JStr (fm_record_id m))]
        ++ skip_none "redeem_tx_signature" (fm_redeem_tx_signature m)
        ++ [("rows", JNum (fm_rows m)); ("uploaded_at", JStr (fm_uploaded_at m));
            ("uploaded_by", JStr (fm_uploaded_by m))]).
Definition revocation_value (r : RevocationEntry) : Json :=
  JObj ([("credential_id", JStr (rv_credential_id r))] ++ skip_none "reason" (rv_reason r)
        ++ [("revoked_at", JStr (rv_revoked_at r)); ("revoked_by", JStr (rv_revoked_by r))]).

(** The environment of a request: file operations, transactions and clock reads
    are numbered in the order of the handler. *)
Record CredEnv (T : Type) `{RedbTxn (Db T)} := mkCredEnv {
  ce_io : nat → io_fault;
  ce_db : nat → renv (Db T);
  ce_rpc : Rpc;
  (** [get_token_account_balance] and [get_token_supply]: the amount *)
  ce_balance : string → result string string;
  ce_supply : string → result string string;
  ce_audit : AuditIo;
  ce_event_id : string;
  ce_now : nat → DateTime;
  ce_record_id : string;
  ce_explorer : string → string;
}.
Arguments mkCredEnv {T _} _ _ _ _ _ _ _ _ _ _.
Arguments ce_io {T _} _.
Arguments ce_db {T _} _.
Arguments ce_rpc {T _} _.
Arguments ce_balance {T _} _.
Arguments ce_supply {T _} _.
Arguments ce_audit {T _} _.
Arguments ce_event_id {T _} _.
Arguments ce_now {T _} _.
Arguments ce_record_id {T _} _.
Arguments ce_explorer {T _} _.

(** ** Paths given by a caller *)

Definition path_of (rev_parts : list string) : string :=
  foldr (λ p acc, acc +:+ "/" +:+ p) "" rev_parts.
(** How the system resolves a path: empty and dot components stay in a
    directory, which must exist, and a double dot leaves it. *)
Fixpoint walk (s : Fs) (cur : list string) (parts : list string) : option (list string) :=
  match parts with
  | [] => Some cur
  | c :: rest =>
      let in_dir := bool_decide (cur = []) || bool_decide (path_of cur ∈ dirs s) in
      if bool_decide (c = "") || bool_decide (c = ".") then
        if in_dir then walk s cur rest else None
      else if bool_decide (c = "..") then if in_dir then walk s (tail cur) rest else None
      else walk s (c :: cur) rest
  end.
(** [EncryptedStorage::exists] of a path with such components. *)
Definition exists_resolved (io : io_fault) (path : string) (s : Fs) : bool :=
  match walk s [] (split_char "/" path) with
  | Some cur => exists_path io (path_of cur) s
  | None => false
  end.

(** ** Helpers *)

(** The result of a call as a value. *)
Definition caught {S E F A} (m : act S F A) : act S E (result F A) := λ s, (Ok (m s).1, (m s).2).

Definition count_csv_rows (csv_bytes : string) : Z :=
  let ls := List.filter (λ l, negb (bool_decide (trim l = ""))) (lines (from_utf8_lossy csv_bytes)) in
  if (1 <? length ls)%nat then Z.of_nat (length ls - 1) else 0.

Definition meta_initialized (now : DateTime) (rows : Z) (m : PoolMetadata) : PoolMetadata :=
  mkPoolMetadata (p_pool_pda m) (p_pool_name m) (p_kind m) (p_pool_uuid_hex m) (p_drts m)
    (p_owner_wallet_id m) (p_owner_pubkey m) (p_schema_id m) (p_validation_mode m) Ready
    (p_created_onchain_at m) (Some now) (p_last_issue_at m) rows (p_revoked_count m).
(** [u64] additions wrap around in a release build. *)
Definition meta_issued (now : DateTime) (rows : Z) (m : PoolMetadata) : PoolMetadata :=
  mkPoolMetadata (p_pool_pda m) (p_pool_name m) (p_kind m) (p_pool_uuid_hex m) (p_drts m)
    (p_owner_wallet_id m) (p_owner_pubkey m) (p_schema_id m) (p_validation_mode m) (p_state m)
    (p_created_onchain_at m) (p_initialized_at m) (Some now) (wrap64 (p_total_credentials m + rows))
    (p_revoked_count m).
Definition meta_revoked (n : Z) (m : PoolMetadata) : PoolMetadata :=
  mkPoolMetadata (p_pool_pda m) (p_pool_name m) (p_kind m) (p_pool_uuid_hex m) (p_drts m)
    (p_owner_wallet_id m) (p_owner_pubkey m) (p_schema_id m) (p_validation_mode m) (p_state m)
    (p_created_onchain_at m) (p_initialized_at m) (p_last_issue_at m) (p_total_credentials m)
    (wrap64 (p_revoked_count m + n)).

(** The path of a dataset file. *)
Definition dataset_file (pool_pda name : string) : string := join (pool_dataset_dir DATA_DIR pool_pda) name.

(** [OpenOptions::new().create(true).append(true).open(..)] and [write_all]. *)
Definition append_file (io : io_fault) (path data : string) : act Fs ApiError unit := λ s,
  let opened := match parent path with Some d => bool_decide (d ∈ dirs s) | None => true end in
  match io with
  | IoRead m | IoMkdir m | IoRename m => (Err (Api.internal ("failed to open revocations file: " +:+ m)), s)
  | IoWrite m _ =>
      if opened then (Err (Api.internal ("failed to write revocations: " +:+ m)), append_line io path data s)
      else (Err (Api.internal "failed to open revocations file: no such directory"), s)
  | IoOk =>
      if opened then (Ok (), append_line io path data s)
      else (Err (Api.internal "failed to open revocations file: no such directory"), s)
  end.

Section Credentials.
Context {T C K Sec Pub : Type} `{RedbTable T, RedbTxn (Db T), DbCrates, AuditCrates, HashCrates}.
Context `{SolanaCrates, SolanaKeys K, CryptoCrates Sec Pub, CsvCrates, TextCrates}.
Context `{Serde AuditEvent, Serde PoolMetadata, Serde WalletMetadata, Serde (list Z)}.
Context `{Serde (list FieldSchema), Serde DatasetFileMeta, Serde DatasetAnchor, Serde RevocationEntry}.
Abbreviation St := (AppState T C).
Abbreviation handler A := (act St ApiError A).

Definition sha256_hex (bytes : string) : string := hex_of (sha256 bytes).

(** [load_pool_meta] of this file. *)
Definition load_meta (io : io_fault) (pool_pda : string) : handler PoolMetadata :=
  act_map_err (λ _, Api.not_found ("pool metadata not found for " +:+ pool_pda
                      +:+ " — pool may need initialization"))
    (zoom storage set_storage (read_json io (pool_meta DATA_DIR pool_pda))).
Definition save_pool_meta (io : io_fault) (pool_pda : string) (meta : PoolMetadata) : handler unit :=
  act_map_err (λ x, Api.internal ("failed to write pool metadata: " +:+ display_storage x))
    (zoom storage set_storage (write_json io (pool_meta DATA_DIR pool_pda) meta)).
Definition ensure_pool_dirs (io_exists io_create : io_fault) (pool_pda : string) : handler bool :=
  let dataset_dir := pool_dataset_dir DATA_DIR pool_pda in
  present ← reading (λ st, Ok (exists_path io_exists dataset_dir (storage st)));
  if (present : bool) then mret false
  else
    _ ← act_map_err (λ x, Api.internal ("failed to create pool directory: " +:+ display_storage x))
          (zoom storage set_storage (create_dir io_create dataset_dir));
    mret true.

(** [if let Err(e) = state.tx_db.upsert_pool_meta(..) { warn!(..) }]. *)
Definition mirror_meta (env : renv (Db T)) (meta : PoolMetadata) : handler unit :=
  best_effort (zoom tx_db set_tx_db (upsert_pool_meta env meta)).
Definition record_issuance (env : renv (Db T)) (now : DateTime) (pool_pda : string)
    (m : DatasetFileMeta) : handler unit :=
  match to_vec m with
  | Ok json_bytes =>
      best_effort (zoom tx_db set_tx_db
        (upsert_issuance_record env pool_pda (fm_record_id m) (timestamp now) json_bytes))
  | Err _ => mret ()
  end.
Definition log_event (e : CredEnv T) (env : renv (Db T)) (ev : AuditEvent) : handler unit :=
  updating (audit_log_event (ce_audit e) (Some env) ev).
Definition cred_event (e : CredEnv T) (token : TokenData) (ty : AuditEventType) (pool_pda : string)
    (details : Json) : AuditEvent :=
  with_details details (with_resource "drt_pool" pool_pda
    (with_user (sub token) (event_new (ce_event_id e) (ce_now e 3%nat) ty))).

(** The validation of an upload against the pool's schema. *)
Definition check_csv (io : io_fault) (pool_pda csv_bytes : string) (mode : ValidationMode) : handler unit :=
  summary ← reading (λ st, validate_payload io pool_pda csv_bytes mode (storage st));
  lift (reject_if (negb (valid summary))
    (Api.bad_request ("CSV validation failed: " +:+ show_u64 (Z.of_nat (length (errors summary)))
       +:+ " error(s)"))).

(** ** Schemas *)

Definition upload_schema (e : CredEnv T) (token : TokenData) (pool_pda_str : string)
    (payload : UploadSchemaRequest) : handler (string * nat) :=
  let sid := us_schema_id payload in
  pool_pda ← lift (ok_or (pubkey_from_str pool_pda_str) (Api.bad_request "invalid pool PDA address"));
  _ ← lift (reject_if (bool_decide (sid = "") || (128 <? len sid) || negb (string_forallb id_char sid))
        (Api.bad_request
           "schema_id must be 1-128 characters, alphanumeric with hyphens/underscores only"));
  _ ← lift (reject_if (match us_fields payload with [] => true | _ => false end)
        (Api.bad_request "schema must have at least one field"));
  pool ← lift (fetch_pool (rpc_account (ce_rpc e) pool_pda) pool_pda);
  wallet ← get_active_wallet_for_user (ce_io e 0%nat) (ce_db e 0%nat) (sub token);
  _ ← lift (verify_pool_ownership pool wallet);
  meta ← load_meta (ce_io e 1%nat) pool_pda_str;
  _ ← lift (reject_if (negb (bool_decide (p_schema_id meta = sid)))
        (Api.bad_request ("pool's schema_id is '" +:+ p_schema_id meta
           +:+ "', but you are uploading '" +:+ sid +:+ "'")));
  let field_count := length (us_fields payload) in
  _ ← act_map_err Api.internal
        (zoom storage set_storage (save_pool_schema (ce_io e 2%nat) DATA_DIR pool_pda_str (us_fields payload)));
  _ ← log_event e (ce_db e 1%nat)
        (with_details (obj [("pool_pda", JStr pool_pda_str); ("schema_id", JStr sid);
                            ("field_count", JNum (Z.of_nat field_count))])
          (with_pool_pda pool_pda_str (with_resource "schema" sid
            (with_user (sub token) (event_new (ce_event_id e) (ce_now e 3%nat) SchemaUploaded)))));
  mret (sid, field_count).

Definition get_schema (e : CredEnv T) (pool_pda_str : string) : handler GetSchemaResponse :=
  meta ← load_meta (ce_io e 0%nat) pool_pda_str;
  fields ← reading (λ st, ok_or (load_pool_schema (ce_io e 1%nat) DATA_DIR pool_pda_str (storage st))
             (Api.not_found ("no schema uploaded yet for pool " +:+ pool_pda_str
                +:+ " — POST one to /v1/drt/pools/{pda}/schema")));
  mret (mkGetSchema pool_pda_str (p_schema_id meta) fields).

(** ** The initial dataset *)

Definition initialize_pool (enclave : Sec) (e : CredEnv T) (token : TokenData) (pool_pda_str : string)
    (multipart : Multipart) : handler InitializePoolResponse :=
  csv_bytes ← lift (parse_csv_payload enclave multipart);
  pool_pda ← lift (ok_or (pubkey_from_str pool_pda_str) (Api.bad_request "invalid pool PDA address"));
  pool ← lift (fetch_pool (rpc_account (ce_rpc e) pool_pda) pool_pda);
  wallet ← get_active_wallet_for_user (ce_io e 0%nat) (ce_db e 0%nat) (sub token);
  _ ← lift (verify_pool_ownership pool wallet);
  _ ← ensure_pool_dirs (ce_io e 1%nat) (ce_io e 2%nat) pool_pda_str;
  meta ← load_meta (ce_io e 3%nat) pool_pda_str;
  _ ← lift (reject_if (negb (bool_decide (p_state meta = NeedsInit)))
        (Api.bad_request "pool is already initialized — use /issue to add credentials"));
  _ ← lift (reject_if (bool_decide (p_kind meta = IobErp))
        (Api.conflict "IOB ERP pools cannot be initialised via dashboard upload"));
  _ ← check_csv (ce_io e 4%nat) pool_pda_str csv_bytes (p_validation_mode meta);
  let row_count := count_csv_rows csv_bytes in
  _ ← act_map_err (λ x, Api.internal ("failed to write initial dataset: " +:+ display_storage x))
        (zoom storage set_storage
           (write_raw (ce_io e 5%nat) (dataset_file pool_pda_str "initial.csv") csv_bytes));
  let file_meta := mkFileMeta "initial" (sub token) row_count (to_rfc3339 (ce_now e 0%nat)) None in
  let anchor := mkAnchor "initial" (sha256_hex csv_bytes) None in
  _ ← act_map_err (λ x, Api.internal ("failed to write dataset anchor: " +:+ display_storage x))
        (zoom storage set_storage
           (write_json (ce_io e 6%nat) (dataset_file pool_pda_str "initial.meta.json") anchor));
  let meta := meta_initialized (ce_now e 1%nat) row_count meta in
  _ ← save_pool_meta (ce_io e 7%nat) pool_pda_str meta;
  _ ← mirror_meta (ce_db e 1%nat) meta;
  _ ← record_issuance (ce_db e 2%nat) (ce_now e 2%nat) pool_pda_str file_meta;
  _ ← log_event e (ce_db e 3%nat) (cred_event e token DatasetInitialized pool_pda_str
        (obj [("pool_pda", JStr pool_pda_str); ("record_id", JStr "initial");
              ("row_count", JNum row_count); ("schema_id", JStr (p_schema_id meta));
              ("state_transition", JStr "needs_init -> ready")]));
  mret (mkInitialized row_count "initial" "ready").

(** ** Issuance *)

(** The balance test: an unreadable or unparsable balance counts as none. *)
Definition append_balance (r : result string string) : Z :=
  match r with Ok amount => default 0 (parse_u64 amount) | Err _ => 0 end.
Definition upload_labels (meta : PoolMetadata) (commitment record_id : string) : Json :=
  pool_labels meta {[hex_of commitment := JStr ("upload " +:+ record_id)]}.

(** What is checked, and read, before the burn: the pool's key, its metadata,
    the append DRT's address, mint and right, the pool's UUID and the signer. *)
Definition issue_checks (enclave : Sec) (e : CredEnv T) (token : TokenData) (pool_pda_str : string)
    (multipart : Multipart) : handler (string * string * PoolMetadata * (string * string * string) * K) :=
  csv_bytes ← lift (parse_csv_payload enclave multipart);
  pool_pda ← lift (ok_or (pubkey_from_str pool_pda_str) (Api.bad_request "invalid pool PDA address"));
  meta ← load_meta (ce_io e 0%nat) pool_pda_str;
  _ ← lift (reject_if (negb (bool_decide (p_state meta = Ready)))
        (Api.bad_request "pool not initialized — call /initialize first"));
  _ ← lift (reject_if (bool_decide (p_kind meta = IobErp))
        (Api.conflict "IOB ERP pools do not accept credential issuance"));
  append_meta ← lift (ok_or (p_drts meta !! APPEND_DRT_NAME)
                  (Api.internal "pool metadata missing 'append' DRT"));
  append_right_id ← lift (decode_right_id (d_right_id_hex append_meta));
  append_mint ← lift (ok_or (pubkey_from_str (d_mint append_meta))
                  (Api.internal "invalid mint pubkey in pool metadata"));
  pool_uuid ← lift (decode_right_id (p_pool_uuid_hex meta));
  caller_wallet ← get_active_wallet_for_user (ce_io e 1%nat) (ce_db e 0%nat) (sub token);
  keypair_bytes ← on_storage (wallet_read_keypair (ce_io e 2%nat) (w_wallet_id caller_wallet));
  keypair ← lift (keypair_from_bytes_verified keypair_bytes (w_public_address caller_wallet));
  pool ← lift (fetch_pool (rpc_account (ce_rpc e) pool_pda) pool_pda);
  _ ← lift (verify_pool_ownership pool caller_wallet);
  _ ← lift (reject_if (append_balance (ce_balance e (derive_user_ata (kp_key keypair) append_mint)) <? 1)
        (Api.bad_request "append DRT supply exhausted — pool needs to be re-registered"));
  _ ← check_csv (ce_io e 3%nat) pool_pda_str csv_bytes (p_validation_mode meta);
  mret (csv_bytes, pool_pda, meta, (append_right_id, append_mint, pool_uuid), keypair).

(** The part under the pool's lock, from the burn on. *)
Definition issue_locked (e : CredEnv T) (token : TokenData) (pool_pda_str csv_bytes pool_pda : string)
    (meta : PoolMetadata) (append : string * string * string) (keypair : K) :
    handler IssueCredentialsResponse :=
  let '(append_right_id, append_mint, pool_uuid) := append in
  let row_count := count_csv_rows csv_bytes in
  let record_id := ce_record_id e in
  let commitment := compute_commitment record_id pool_uuid append_right_id in
  let drt_config_pda := (derive_drt_config_pda pool_pda append_right_id).1 in
  let ix := build_grant_right pool_pda drt_config_pda append_mint (kp_key keypair) commitment in
  se ← lift (sign_send_and_parse (ce_rpc e) keypair [ix] "finalized");
  let '(sig_str, events) := se in
  w ← caught (zoom storage set_storage
        (write_raw (ce_io e 4%nat) (dataset_file pool_pda_str (record_id +:+ ".csv")) csv_bytes));
  match w with
  | Err x =>
      _ ← log_event e (ce_db e 3%nat) (cred_event e token CredentialIssuanceFailed pool_pda_str
            (obj [("pool_pda", JStr pool_pda_str); ("record_id", JStr record_id);
                  ("redeem_tx_sig", JStr sig_str); ("error", JStr (display_storage x));
                  ("chain", chain_section [sig_str] events (upload_labels meta commitment record_id))]));
      fail (Api.internal ("DRT burned (sig: " +:+ sig_str
              +:+ ") but file write failed — contact admin for recovery"))
  | Ok _ =>
      let file_meta := mkFileMeta record_id (sub token) row_count (to_rfc3339 (ce_now e 0%nat))
                         (Some sig_str) in
      let anchor := mkAnchor record_id (sha256_hex csv_bytes) (Some (hex_of commitment)) in
      _ ← best_effort (zoom storage set_storage
            (write_json (ce_io e 5%nat) (dataset_file pool_pda_str (record_id +:+ ".meta.json")) anchor));
      current ← load_meta (ce_io e 6%nat) pool_pda_str;
      let updated_meta := meta_issued (ce_now e 1%nat) row_count current in
      _ ← save_pool_meta (ce_io e 7%nat) pool_pda_str updated_meta;
      _ ← mirror_meta (ce_db e 1%nat) updated_meta;
      _ ← record_issuance (ce_db e 2%nat) (ce_now e 2%nat) pool_pda_str file_meta;
      _ ← log_event e (ce_db e 3%nat) (cred_event e token CredentialIssued pool_pda_str
            (obj [("pool_pda", JStr pool_pda_str); ("record_id", JStr record_id);
                  ("row_count", JNum row_count); ("redeem_tx_sig", JStr sig_str);
                  ("total_credentials", JNum (p_total_credentials updated_meta));
                  ("chain", chain_section [sig_str] events
                              (upload_labels updated_meta commitment record_id))]));
      mret (mkIssued record_id row_count sig_str (p_total_credentials updated_meta)
              (ce_explorer e sig_str))
  end.
Definition issue_credentials (enclave : Sec) (e : CredEnv T) (token : TokenData) (pool_pda_str : string)
    (multipart : Multipart) : handler IssueCredentialsResponse :=
  x ← issue_checks enclave e token pool_pda_str multipart;
  let '(csv_bytes, pool_pda, meta, append, keypair) := x in
  issue_locked e token pool_pda_str csv_bytes pool_pda meta append keypair.

(** ** Revocation *)

(** The loop that looks for the dataset files. *)
Fixpoint check_records (io : nat → io_fault) (pool_pda : string) (cids : list string) (s : Fs) :
    result ApiError unit :=
  match cids with
  | [] => Ok ()
  | cid :: rest =>
      _ ← reject_if (negb (exists_resolved (io (length rest)) (dataset_file pool_pda (cid +:+ ".csv")) s))
            (Api.not_found ("credential record '" +:+ cid +:+ "' not found in pool"));
      check_records io pool_pda rest s
  end.
Fixpoint revocation_lines (entry : string → RevocationEntry) (cids : list string) :
    result ApiError string :=
  match cids with
  | [] => Ok ""
  | cid :: rest =>
      json ← map_err (λ x, Api.internal ("failed to serialize revocation: " +:+ x)) (to_vec (entry cid));
      more ← revocation_lines entry rest;
      Ok (json +:+ newline +:+ more)
  end.
Fixpoint mirror_revocations (db : nat → renv (Db T)) (pool_pda : string)
    (entry : string → RevocationEntry) (cids : list string) : handler unit :=
  match cids with
  | [] => mret ()
  | cid :: rest =>
      _ ← match to_vec (entry cid) with
          | Ok json_bytes =>
              best_effort (zoom tx_db set_tx_db (upsert_revocation (db (length rest)) pool_pda cid json_bytes))
          | Err _ => mret ()
          end;
      mirror_revocations db pool_pda entry rest
  end.
Definition revoke_credentials (e : CredEnv T) (token : TokenData) (pool_pda_str : string)
    (payload : RevokeCredentialsRequest) : handler nat :=
  let cids := rq_credential_ids payload in
  _ ← lift (reject_if (match cids with [] => true | _ => false end)
        (Api.bad_request "credential_ids must not be empty"));
  pool_pda ← lift (ok_or (pubkey_from_str pool_pda_str) (Api.bad_request "invalid pool PDA address"));
  wk ← load_wallet_keypair (K := K) (ce_io e) (rq_wallet_id payload) (sub token);
  pool ← lift (fetch_pool (rpc_account (ce_rpc e) pool_pda) pool_pda);
  _ ← lift (verify_pool_ownership pool wk.1);
  _ ← load_meta (ce_io e 2%nat) pool_pda_str;
  _ ← reading (λ st, check_records (λ n, ce_io e (6 + n)%nat) pool_pda_str cids (storage st));
  let now := to_rfc3339 (ce_now e 0%nat) in
  let entry cid := mkRevocation cid (sub token) now (rq_reason payload) in
  text ← lift (revocation_lines entry cids);
  _ ← zoom storage set_storage (append_file (ce_io e 3%nat) (pool_revocations DATA_DIR pool_pda_str) text);
  let revoked_count := length cids in
  current ← load_meta (ce_io e 4%nat) pool_pda_str;
  let updated_meta := meta_revoked (Z.of_nat revoked_count) current in
  _ ← save_pool_meta (ce_io e 5%nat) pool_pda_str updated_meta;
  _ ← mirror_meta (ce_db e 0%nat) updated_meta;
  _ ← mirror_revocations (λ n, ce_db e (2 + n)%nat) pool_pda_str entry cids;
  _ ← log_event e (ce_db e 1%nat) (cred_event e token CredentialRevoked pool_pda_str
        (obj [("pool_pda", JStr pool_pda_str); ("credential_ids", JArr (JStr <$> cids));
              ("revoked_count", JNum (Z.of_nat revoked_count)); ("reason", json_opt (rq_reason payload))]));
  mret revoked_count.
End Credentials.
