(* ===== verification/PoolViews.v ===== *)
(** * Reading pools

    The endpoints of src/src/api/credentials.rs that only read: revocations, the
    audit trail of a pool, its summary, the pools of a wallet, the marketplace
    listing and the issuance log. *)
From S2P Require Import Prelude.
From S2P Require Import RustStr.
From S2P Require Import RustFmt.
From S2P Require Import Errors.
From S2P Require Import Types.
From S2P Require Import Interfaces.
From S2P Require Import TxDatabase.
From S2P Require Import Text.
From S2P Require Import Storage.
From S2P Require Import TxCache.
From S2P Require Import AppState.
From S2P Require Import Wallets.
From S2P Require Import VerifiedFetch.
From S2P Require Import Runtime.
From S2P Require Import DrtProgram.
From S2P Require Import Chain.
From S2P Require Import Credentials.

Local Open Scope Z_scope.
#[local] Arguments String.append : simpl nomatch.

(** ** Queries and responses *)

Record PaginationQuery := mkPagination { pg_limit : nat; pg_offset : nat }.
Record RevocationsResponse := mkRevocations {
  rr_pool_pda : string; rr_revocations : list RevocationEntry; rr_total : nat }.
Record PoolAuditQuery := mkAuditQuery {
  aq_limit : nat; aq_offset : nat; aq_event_type : option string; aq_actor : option string;
  aq_status : option string; aq_from : option string; aq_to : option string }.
Record PoolAuditResponse := mkPoolAudit {
  pa_pool_pda : string; pa_events : list AuditEvent; pa_total : nat }.
Record DrtConfigResponseCompact := mkCompact {
  dk_drt_type : string; dk_supply : Z; dk_remaining_supply : Z; dk_mint : string }.
Record PoolSummaryResponse := mkPoolSummary {
  ps_pool_pda : string; ps_pool_name : string; ps_owner : string; ps_schema_id : string;
  ps_validation_mode : ValidationMode; ps_state : string; ps_total_rows : Z; ps_revoked_count : Z;
  ps_created_at : string; ps_initialized_at : option string; ps_last_issue_at : option string;
  ps_drts : list DrtConfigResponseCompact; ps_recent_events : list AuditEvent }.
Record PoolListEntry := mkListEntry {
  le_pool_pda : string; le_pool_name : string; le_total_rows : Z; le_revoked_count : Z;
  le_schema_id : string; le_state : string; le_created_at : string }.
Record PoolsByWalletResponse := mkByWallet {
  bw_wallet_id : string; bw_pools : list PoolListEntry; bw_total : nat }.
Record MarketplaceDrtEntry := mkMarketDrt {
  md_drt_type : string; md_supply : Z; md_remaining_supply : Z }.
Record MarketplacePoolEntry := mkMarketPool {
  mp_pool_pda : string; mp_pool_name : string; mp_kind : string; mp_owner : string;
  mp_schema_id : string; mp_state : string; mp_total_rows : Z; mp_revoked_count : Z;
  mp_created_at : string; mp_drt_count : nat; mp_drts : list MarketplaceDrtEntry }.
Record AllPoolsResponse := mkAllPools {
  ap_pools : list MarketplacePoolEntry; ap_total : nat; ap_limit : nat; ap_offset : nat }.
Record ListAllPoolsQuery := mkListAll {
  lq_state : option string; lq_search : option string; lq_sort : string; lq_limit : nat;
  lq_offset : nat }.
Record IssuanceRecord := mkIssuance {
  ir_record_id : string; ir_uploaded_by : string; ir_rows : Z; ir_uploaded_at : string;
  ir_redeem_tx_signature : option string }.
Record IssuanceLogResponse := mkIssuanceLog {
  il_pool_pda : string; il_records : list IssuanceRecord; il_total : nat }.

(** [serde] names of the event types. *)
Definition event_type_name (ty : AuditEventType) : string :=
  match ty with
  | WalletCreated => "wallet_created" | WalletDeleted => "wallet_deleted"
  | WalletAccessed => "wallet_accessed" | TransactionSigned => "transaction_signed"
  | TransactionBroadcast => "transaction_broadcast" | PermissionDenied => "permission_denied"
  | AdminAccess => "admin_access" | Types.PoolCreated => "pool_created" | PoolClosed => "pool_closed"
  | DatasetInitialized => "dataset_initialized" | CredentialIssued => "credential_issued"
  | CredentialIssuanceFailed => "credential_issuance_failed"
  | CredentialRevoked => "credential_revoked" | RoleAssigned => "role_assigned"
  | DrtPurchased => "drt_purchased" | DrtRedeemed => "drt_redeemed"
  | SchemaUploaded => "schema_uploaded" | Types.RightGranted => "right_granted"
  | Types.RightRevoked => "right_revoked" | DrtExecuted => "drt_executed"
  end.
Definition state_str (s : PoolState) : string :=
  match s with NeedsInit => "needs_init" | Ready => "ready" end.
Definition kind_str (k : PoolKind) : string := match k with Malta => "malta" | IobErp => "iob_erp" end.

(** The entries of [meta.drts], a [BTreeMap]. *)
Definition sorted_drts (m : PoolMetadata) : list (string * DrtMetadata) :=
  merge_sort (λ x y, String.le x.1 y.1) (map_to_list (p_drts m)).

(** The closure of the issuance log. *)
Definition issuance_of_value (v : Json) : option IssuanceRecord :=
  record_id ← json_get "record_id" v ≫= as_str;
  uploaded_by ← json_get "uploaded_by" v ≫= as_str;
  rows ← json_get "rows" v ≫= as_u64;
  uploaded_at ← json_get "uploaded_at" v ≫= as_str;
  Some (mkIssuance record_id uploaded_by rows uploaded_at (json_get "redeem_tx_signature" v ≫= as_str)).

Section Views.
Context {T C : Type} `{RedbTable T, RedbTxn (Db T), DbCrates, SolanaCrates, TextCrates}.
Context `{Serde AuditEvent, Serde PoolMetadata, Serde WalletMetadata, Serde Json}.
Context `{FromValue RevocationEntry}.
Abbreviation St := (AppState T C).
Abbreviation handler A := (act St ApiError A).

(** [state.tx_db.f(..).map_err(|e| ApiError::internal(format!("{msg}: {e}")))?]. *)
Definition db_query {A} (msg : string) (m : act (Db T) TxDbError A) : handler A :=
  act_map_err (λ x, Api.internal (msg +:+ ": " +:+ display_txdb x)) (zoom tx_db set_tx_db m).
(** [.unwrap_or(d)]. *)
Definition db_or {A} (d : A) (m : act (Db T) TxDbError A) : handler A :=
  reading (λ st, Ok (unwrap_or (m (tx_db st)).1 d)).

Definition api_list_revocations (e : CredEnv T) (pool_pda_str : string) (p : PaginationQuery) :
    handler RevocationsResponse :=
  let limit := clamped_limit (pg_limit p) in
  raw_entries ← db_query "failed to query revocations"
                  (list_revocations (ce_db e 0%nat) pool_pda_str limit (pg_offset p));
  let entries := filter_map (λ v, ok (from_value v)) raw_entries in
  total ← db_or (length entries) (count_revocations (ce_db e 1%nat) pool_pda_str);
  mret (mkRevocations pool_pda_str entries total).

(** ** The audit trail of a pool *)

Definition has_filters (q : PoolAuditQuery) : bool :=
  bool_decide (is_Some (aq_event_type q)) || bool_decide (is_Some (aq_actor q))
  || bool_decide (is_Some (aq_status q)) || bool_decide (is_Some (aq_from q))
  || bool_decide (is_Some (aq_to q)).
Definition type_filter (s : string) : list string :=
  List.filter (λ t, negb (bool_decide (t = ""))) (trim <$> split_char "," s).
(** The filter of the events. *)
Definition audit_match (q : PoolAuditQuery) (ev : AuditEvent) : bool :=
  match aq_event_type q with
  | Some s => existsb (λ t, bool_decide (t = event_type_name (a_event_type ev))) (type_filter s)
  | None => true
  end
  && match aq_actor q with Some a => bool_decide (a_user_id ev = Some a) | None => true end
  && match aq_status q with
     | Some s =>
         if bool_decide (s = "ok") || bool_decide (s = "success") then a_success ev
         else if bool_decide (s = "failed") || bool_decide (s = "error") then negb (a_success ev)
         else true
     | None => true
     end
  && match aq_from q ≫= parse_from_rfc3339 with
     | Some from => negb (dt_ltb (a_timestamp ev) from)
     | None => true
     end
  && match aq_to q ≫= parse_from_rfc3339 with
     | Some to => negb (dt_ltb to (a_timestamp ev))
     | None => true
     end.
Definition pool_audit (e : CredEnv T) (pool_pda_str : string) (q : PoolAuditQuery) :
    handler PoolAuditResponse :=
  let limit := Nat.min (aq_limit q) 200 in
  let filters := has_filters q in
  let fetch_limit := if filters then 1000%nat else limit in
  let fetch_offset := if filters then 0%nat else aq_offset q in
  raw_events ← db_query "failed to query audit events"
                 (list_audit_by_resource (ce_db e 0%nat) pool_pda_str fetch_limit fetch_offset);
  let filtered := List.filter (audit_match q) raw_events in
  let page := if filters then take limit (drop (aq_offset q) filtered) else filtered in
  total ← (if filters then mret (length filtered)
           else db_or 0%nat (count_audit_by_resource (ce_db e 1%nat) pool_pda_str));
  mret (mkPoolAudit pool_pda_str page total).

(** ** Summaries and listings *)

Definition compact_drt (supply : string → result string string) (x : string * DrtMetadata) :
    DrtConfigResponseCompact :=
  let '(name, d) := x in
  let remaining_supply := match pubkey_from_str (d_mint d) with
                          | Some mint_pk =>
                              match supply mint_pk with
                              | Ok amount => default (d_supply d) (parse_u64 amount)
                              | Err _ => d_supply d
                              end
                          | None => d_supply d
                          end in
  mkCompact name (d_supply d) remaining_supply (d_mint d).
Definition pool_summary (e : CredEnv T) (pool_pda_str : string) : handler PoolSummaryResponse :=
  pool_pda ← lift (ok_or (pubkey_from_str pool_pda_str) (Api.bad_request "invalid pool PDA address"));
  meta ← load_meta (ce_io e 0%nat) pool_pda_str;
  pool ← lift (fetch_pool (rpc_account (ce_rpc e) pool_pda) pool_pda);
  let drts := compact_drt (ce_supply e) <$> sorted_drts meta in
  recent_events ← db_or [] (list_audit_by_resource (ce_db e 0%nat) pool_pda_str 10 0);
  mret (mkPoolSummary pool_pda_str (p_pool_name meta) (base58 (pl_owner pool)) (p_schema_id meta)
          (p_validation_mode meta) (state_str (p_state meta)) (p_total_credentials meta)
          (p_revoked_count meta) (to_rfc3339 (p_created_onchain_at meta))
          (to_rfc3339 <$> p_initialized_at meta) (to_rfc3339 <$> p_last_issue_at meta) drts
          recent_events).

Definition pool_list_entry (meta : PoolMetadata) : PoolListEntry :=
  mkListEntry (p_pool_pda meta) (p_pool_name meta) (p_total_credentials meta) (p_revoked_count meta)
    (p_schema_id meta) (state_str (p_state meta)) (to_rfc3339 (p_created_onchain_at meta)).
Definition list_pools_by_wallet (e : CredEnv T) (token : TokenData) (wallet_id : string)
    (p : PaginationQuery) : handler PoolsByWalletResponse :=
  wallet ← on_storage (wallet_get (ce_io e 0%nat) wallet_id);
  _ ← lift (map_err api_of_storage (verify_ownership (w_owner_user_id wallet) (sub token)));
  metas ← db_query "failed to query pools by owner" (list_pools_by_owner (ce_db e 0%nat) wallet_id);
  let total := length metas in
  let pools := pool_list_entry <$> take (clamped_limit (pg_limit p)) (drop (pg_offset p) metas) in
  mret (mkByWallet wallet_id pools total).

(** The two [continue]s of the loop. *)
Definition pool_matches (q : ListAllPoolsQuery) (meta : PoolMetadata) : bool :=
  match lq_state q with Some s => bool_decide (state_str (p_state meta) = s) | None => true end
  && match lq_search q with
     | Some s => str_contains (to_lowercase s) (to_lowercase (p_pool_name meta))
     | None => true
     end.
Definition market_entry (meta : PoolMetadata) : MarketplacePoolEntry :=
  let pool_drts := (λ x : string * DrtMetadata, mkMarketDrt x.1 (d_supply x.2) (d_supply x.2))
                     <$> sorted_drts meta in
  mkMarketPool (p_pool_pda meta) (p_pool_name meta) (kind_str (p_kind meta))
    (default "unknown" (p_owner_pubkey meta)) (p_schema_id meta) (state_str (p_state meta))
    (p_total_credentials meta) (p_revoked_count meta) (to_rfc3339 (p_created_onchain_at meta))
    (length pool_drts) pool_drts.
(** The comparison chosen by the query: [true] when the first may stay first. *)
Definition market_leb (sort : string) (a b : MarketplacePoolEntry) : bool :=
  if bool_decide (sort = "created_asc") then str_leb (mp_created_at a) (mp_created_at b)
  else if bool_decide (sort = "name_asc") then
    str_leb (to_lowercase (mp_pool_name a)) (to_lowercase (mp_pool_name b))
  else if bool_decide (sort = "credentials_desc") then mp_total_rows b <=? mp_total_rows a
  else str_leb (mp_created_at b) (mp_created_at a).
Definition list_all_pools (e : CredEnv T) (q : ListAllPoolsQuery) : handler AllPoolsResponse :=
  all_metas ← db_query "failed to list pool metadata" (list_all_pool_metas (ce_db e 0%nat));
  let entries := sort_by (market_leb (lq_sort q)) (market_entry <$> List.filter (pool_matches q) all_metas) in
  let total := length entries in
  let limit := Nat.min (lq_limit q) 100 in
  let offset := Nat.min (lq_offset q) total in
  mret (mkAllPools (take limit (drop offset entries)) total limit offset).

Definition get_issuance_log (e : CredEnv T) (pool_pda_str : string) (p : PaginationQuery) :
    handler IssuanceLogResponse :=
  let limit := clamped_limit (pg_limit p) in
  raw_records ← db_query "failed to query issuance records"
                  (list_issuance_records (ce_db e 0%nat) pool_pda_str limit (pg_offset p));
  let records := filter_map issuance_of_value raw_records in
  total ← db_or (length records) (count_issuance_records (ce_db e 1%nat) pool_pda_str);
  mret (mkIssuanceLog pool_pda_str records total).
End Views.
