(* ===== verification/PoolExamples.v ===== *)
(** * A concrete run of the pool endpoints

    Instances of the remaining third-party interfaces and a server that creates a
    pool, seeds it, issues to it and revokes: the hypotheses of the theorems about
    pools hold along this run. *)
From S2P Require Import Prelude.
From S2P Require Import RustStr.
From S2P Require Import RustFmt.
From S2P Require Import Errors.
From S2P Require Import Types.
From S2P Require Import Interfaces.
From S2P Require Import TxDatabase.
From S2P Require Import Instances.
From S2P Require Import Text.
From S2P Require Import Storage.
From S2P Require Import TxCache.
From S2P Require Import AppState.
From S2P Require Import AuditLog.
From S2P Require Import Wallets.
From S2P Require Import WalletFacts.
From S2P Require Import DataValidation.
From S2P Require Import VerifiedFetch.
From S2P Require Import FetchFacts.
From S2P Require Import DrtValidation.
From S2P Require Import DrtProgram.
From S2P Require Import DrtProgramFacts.
From S2P Require Import Chain.
From S2P Require Import PoolApi.
From S2P Require Import PoolFacts.
From S2P Require Import Upload.
From S2P Require Import UploadFacts.
From S2P Require Import Credentials.

Local Open Scope Z_scope.
#[local] Arguments String.append : simpl nomatch.

(** ** Instances *)

(** A type stored as its JSON value. *)
Definition value_serde {A} (to_value : A → Json) (of_value : Json → option A) : Serde A := {|
  to_vec a := to_vec (to_value a);
  to_vec_pretty a := to_vec_pretty (to_value a);
  from_slice s := match from_slice s with
                  | Ok v => ok_or (of_value v) "unexpected value"
                  | Err x => Err x
                  end;
|}.
Definition opt_str (key : string) (v : Json) : option string := json_get key v ≫= as_str.
Definition as_num (v : Json) : option Z := match v with JNum z => Some z | _ => None end.
Definition revocation_of (v : Json) : option RevocationEntry :=
  c ← opt_str "credential_id" v; b ← opt_str "revoked_by" v; a ← opt_str "revoked_at" v;
  Some (mkRevocation c b a (opt_str "reason" v)).
Definition file_meta_of (v : Json) : option DatasetFileMeta :=
  r ← opt_str "record_id" v; u ← opt_str "uploaded_by" v; n ← json_get "rows" v ≫= as_num;
  t ← opt_str "uploaded_at" v; Some (mkFileMeta r u n t (opt_str "redeem_tx_signature" v)).
Lemma revocation_of_value r : revocation_of (revocation_value r) = Some r.
Proof. by destruct r as [c b a []]. Qed.
Lemma file_meta_of_value m : file_meta_of (file_meta_value m) = Some m.
Proof. by destruct m as [r u n t []]. Qed.
Lemma value_serde_laws {A} (to_value : A → Json) (of_value : Json → option A) :
  (∀ a, of_value (to_value a) = Some a) → @SerdeLaws A (value_serde to_value of_value).
Proof.
  intros Hv. split; cbn [to_vec to_vec_pretty from_slice value_serde].
  - intros a. apply (to_vec_total (to_value a)).
  - intros a b Hb. by rewrite (from_to _ _ Hb), Hv.
  - intros a. apply (to_vec_pretty_total (to_value a)).
  - intros a b Hb. by rewrite (from_to_pretty _ _ Hb), Hv.
  - intros a b. apply (to_vec_text (to_value a)).
  - intros a b. apply (to_vec_pretty_text (to_value a)).
Qed.
#[export] Instance revocation_serde : Serde RevocationEntry := value_serde revocation_value revocation_of.
#[export] Instance file_meta_serde : Serde DatasetFileMeta := value_serde file_meta_value file_meta_of.
#[export] Instance revocation_from_value : FromValue RevocationEntry := {
  from_value v := ok_or (revocation_of v) "unexpected value" }.
Lemma json_text_value (v : Json) b : to_vec v = Ok b → from_slice b = Ok v.
Proof. apply from_to. Qed.
#[export] Instance revocation_value_laws : ValueLaws RevocationEntry revocation_value.
Proof. split. intros a b. apply json_text_value. Qed.
#[export] Instance revocation_from_laws : FromValueLaws RevocationEntry revocation_value.
Proof. split. intros a. cbn [from_value revocation_from_value]. by rewrite revocation_of_value. Qed.
#[export] Instance file_meta_value_laws : ValueLaws DatasetFileMeta file_meta_value.
Proof. split. intros a b. apply json_text_value. Qed.
#[export] Instance revocation_serde_laws : SerdeLaws RevocationEntry.
Proof. apply value_serde_laws, revocation_of_value. Qed.
#[export] Instance file_meta_serde_laws : SerdeLaws DatasetFileMeta.
Proof. apply value_serde_laws, file_meta_of_value. Qed.
#[export] Instance DatasetAnchor_eq_dec : EqDecision DatasetAnchor.
Proof. solve_decision. Defined.
#[export] Instance DatasetAnchor_countable : Countable DatasetAnchor.
Proof.
  refine (inj_countable' (λ a, (an_record_id a, an_sha256 a, an_commitment a))
    (λ '(r, s, c), mkAnchor r s c) _). by intros [].
Defined.
#[export] Instance text0 : TextCrates := {
  to_rfc3339 d := show_i64 (dt_secs d);
  parse_from_rfc3339 s := (λ z, mkDateTime z 0) <$> parse_u64 s;
  from_timestamp z := Some (mkDateTime z 0);
  to_lowercase := to_ascii_lowercase;
}.
#[export] Instance csv3 : CsvCrates := {
  csv_read s := match lines s with
                | [] => (Some [], [])
                | h :: rest => (Some (split_char "," h), (λ r, Some (split_char "," r)) <$> rest)
                end;
  parses_dmy _ := false;
  parses_ymd _ := false;
}.

(** ** The run *)

Definition owner3 : string := key0 "owner".
#[export] Instance keys3 : SolanaKeys unit := {
  kp_try_from _ := Ok ();
  kp_to_bytes _ := [7];
  kp_pubkey _ := hex_pairs owner3;
}.
Definition rpc3 : Rpc :=
  mkRpc (Ok "bh") (λ _, Ok "sig") (λ _, Ok [Some (mkStatus false (Some "finalized"))])
    (λ n, 1000 * Z.of_nat n) (Ok [])
    (λ _, Ok (Some (DISC_POOL_ACCOUNT +:+ put_pool (mkPool (fit 16 "u") owner3 0 true 1)))).
Definition penv3 : PoolEnv table0 :=
  mkPoolEnv "uuid-1" (fit 16 "pool") (λ i, fit 16 (show_u64 (Z.of_nat i))) (λ _, IoOk) rpc3
    IoOk (mkDateTime 3 0) IoOk env0 IoOk ai0 env0 "ev" (mkDateTime 4 0) (λ s, s).
Definition cenv3 (rid : string) : CredEnv table0 :=
  mkCredEnv (λ _, IoOk) (λ _, env0) rpc3 (λ _, Ok "5") (λ _, Ok "4") ai0 ("ev-" +:+ rid)
    (λ n, mkDateTime (5 + Z.of_nat n) 0) rid (λ s, s).
Definition pool3 : string := base58 (derive_pool_pda (fit 16 "pool")).1.
Definition enclave3 : nat := 7%nat.
Definition form3 (csv : string) : Multipart :=
  default [] (upload_form (Sec := nat) (public_key enclave3) 5%nat "123456789012" csv).
Definition csv_a : string := "age" +:+ newline +:+ "41" +:+ newline +:+ "7" +:+ newline.
Definition csv_b : string := "age" +:+ newline +:+ "30" +:+ newline.

Abbreviation World := (AppState table0 lru1).
Definition w_wallet : World := (create_wallet (K := unit) req0 alice None () "w1" wst0).2.
Definition w_pool : World := (create_malta_pool (K := unit) penv3 alice malta0 w_wallet).2.
Definition w_ready : World := (initialize_pool enclave3 (cenv3 "-") alice pool3 (form3 csv_a) w_pool).2.
Definition w_issued : World :=
  (issue_credentials (K := unit) enclave3 (cenv3 "r1") alice pool3 (form3 csv_b) w_ready).2.
Definition revoke3 : RevokeCredentialsRequest := mkRevoke "w1" ["r1"; "initial"] (Some "typo").
Definition w_revoked : World := (revoke_credentials (K := unit) (cenv3 "-") alice pool3 revoke3 w_issued).2.

Lemma run_succeeds :
  is_ok (create_malta_pool (K := unit) penv3 alice malta0 w_wallet).1 = true ∧
  (initialize_pool enclave3 (cenv3 "-") alice pool3 (form3 csv_a) w_pool).1
    = Ok (mkInitialized 2 "initial" "ready") ∧
  (issue_credentials (K := unit) enclave3 (cenv3 "r1") alice pool3 (form3 csv_b) w_ready).1
    = Ok (mkIssued "r1" 1 "sig" 3 "sig") ∧
  (revoke_credentials (K := unit) (cenv3 "-") alice pool3 revoke3 w_issued).1 = Ok 2%nat.
Proof. vm_compute. done. Qed.
