(* ===== verification/PoolRegistry.v ===== *)
(** * The registry of pools

    The pools of the enclave are the [pool.meta.json] files.  Abstractly they are
    a registry, a partial map from pool addresses to metadata, on which the
    requests act by five transitions.  Every handler that writes a pool's
    directory refines one of them, whether it answers or fails half-way, so that
    the invariants of a pool's life are proved on the transitions. *)
From S2P Require Import Prelude.
From S2P Require Import RustStr.
From S2P Require Import RustFmt.
From S2P Require Import Errors.
From S2P Require Import Types.
From S2P Require Import Interfaces.
From S2P Require Import TxDatabase.
From S2P Require Import Text.
From S2P Require Import Storage.
From S2P Require Import TxCache.
From S2P Require Import AppState.
From S2P Require Import AuditLog.
From S2P Require Import Wallets.
From S2P Require Import WalletFacts.
From S2P Require Import DataValidation.
From S2P Require Import VerifiedFetch.
From S2P Require Import Query.
From S2P Require Import DrtValidation.
From S2P Require Import DrtProgram.
From S2P Require Import Chain.
From S2P Require Import ChainFacts.
From S2P Require Import PoolApi.
From S2P Require Import PoolFacts.
From S2P Require Import Upload.
From S2P Require Import Credentials.

Local Open Scope Z_scope.
#[local] Arguments String.append : simpl nomatch.

(** ** The abstract registry *)

Definition Registry : Type := string → option PoolMetadata.
(** Two registries agree on the addresses that can be file names. *)
Definition reg_eq (r r' : Registry) : Prop := ∀ id, safe_name id = true → r id = r' id.
#[export] Instance reg_eq_equivalence : Equivalence reg_eq.
Proof.
  split; [by intros r id|intros r r' He id Hid; by rewrite He|].
  intros r r' r'' H1 H2 id Hid. by rewrite H1, H2.
Qed.
Definition reg_insert (id : string) (m : PoolMetadata) (r : Registry) : Registry :=
  λ j, if decide (j = id) then Some m else r j.
#[export] Instance reg_insert_proper id m : Proper (reg_eq ==> reg_eq) (reg_insert id m).
Proof. intros r r' He j Hj. unfold reg_insert. by rewrite (He j Hj). Qed.

(** Metadata as creation stores it. *)
Definition fresh_meta (m : PoolMetadata) : Prop :=
  p_state m = NeedsInit ∧ p_initialized_at m = None ∧ p_last_issue_at m = None ∧
  p_total_credentials m = 0 ∧ p_revoked_count m = 0 ∧
  (p_kind m = Malta ↔ is_Some (p_drts m !! APPEND_DRT_NAME)).

Inductive reg_step (r r' : Registry) : Prop :=
| reg_same : reg_eq r' r → reg_step r r'
| reg_create id m :
    safe_name id = true → r id = None → fresh_meta m → p_pool_pda m = id →
    reg_eq r' (reg_insert id m r) → reg_step r r'
| reg_init id m now rows :
    safe_name id = true → r id = Some m → p_state m = NeedsInit → p_kind m = Malta → is_u64 rows →
    reg_eq r' (reg_insert id (meta_initialized now rows m) r) → reg_step r r'
| reg_issue id m now rows :
    safe_name id = true → r id = Some m → p_state m = Ready → p_kind m = Malta → is_u64 rows →
    reg_eq r' (reg_insert id (meta_issued now rows m) r) → reg_step r r'
| reg_revoke id m n :
    safe_name id = true → r id = Some m → 0 < n →
    reg_eq r' (reg_insert id (meta_revoked n m) r) → reg_step r r'.

#[export] Instance reg_step_proper : Proper (reg_eq ==> reg_eq ==> iff) reg_step.
Proof.
  assert (Hi : ∀ r1 r2 r1' r2', reg_eq r1 r2 → reg_eq r1' r2' → reg_step r1 r1' → reg_step r2 r2').
  { intros r1 r2 r1' r2' He He'.
    intros [Hs|id m Hid Hr Hf Hp Hs|id m now rows Hid Hr Hst Hk Hu Hs|id m now rows Hid Hr Hst Hk Hu Hs
           |id m n Hid Hr Hn Hs]; rewrite He, He' in Hs; try (rewrite (He id Hid) in Hr).
    - by apply reg_same.
    - by eapply reg_create.
    - by eapply reg_init.
    - by eapply reg_issue.
    - by eapply reg_revoke. }
  intros r1 r2 He r1' r2' He'. split; apply Hi; by symmetry || done.
Qed.

(** ** Files outside the registry *)

Lemma append_last_inj (a b : string) (c d : ascii) :
  a +:+ String c "" = b +:+ String d "" → c = d.
Proof.
  revert b. induction a as [|x a IH]; intros [|y b] He; simplify_eq/=; try done.
  - by destruct b.
  - by destruct a.
  - by eapply IH.
Qed.
Definition meta_file (id : string) : string := pool_file id "pool.meta.json".
(** A temporary file ends in [p]; no other file of a pool does. *)
Lemma tmp_ends q : ∃ a, with_extension q "tmp" = a +:+ String "p" "".
Proof.
  unfold with_extension. cbv zeta. destruct (rsplit_once "/" q) as [[dir ?]|].
  - match goal with |- ∃ a, _ +:+ _ +:+ ?s +:+ _ = _ => generalize s end. intros stem.
    exists (dir +:+ "/" +:+ stem +:+ ".tm"). by rewrite !append_assoc.
  - match goal with |- ∃ a, ?s +:+ _ = _ => generalize s end. intros stem.
    exists (stem +:+ ".tm"). by rewrite !append_assoc.
Qed.
Definition no_tmp (p : string) : Prop := ∃ a c, p = a +:+ String c "" ∧ c ≠ "p"%char.
Lemma tmp_not q p : no_tmp p → p ≠ with_extension q "tmp".
Proof.
  intros (a & c & -> & Hc). destruct (tmp_ends q) as [b ->]. by intros ?%append_last_inj.
Qed.
Lemma meta_no_tmp id : no_tmp (meta_file id).
Proof.
  exists ("/data/pools/" +:+ id +:+ "/pool.meta.jso"), "n"%char. split; [|done].
  unfold meta_file, pool_file. by rewrite !append_assoc.
Qed.
Lemma tmp_not_meta q id : with_extension q "tmp" ≠ meta_file id.
Proof. apply not_eq_sym, tmp_not, meta_no_tmp. Qed.
(** A write changes no file but its target. *)
Lemma atomic_write_other io path data s p :
  no_tmp p → p ≠ path → files (atomic_write io path data s).2 !! p = files s !! p.
Proof.
  intros Ht Hp. rewrite atomic_write_files by (by apply tmp_not).
  destruct (is_ok _); [|done]. by rewrite decide_False.
Qed.
Lemma dataset_path id name :
  safe_name id = true → starts_with "/" name = false →
  dataset_file id name = pool_file id ("dataset/" +:+ name).
Proof.
  intros Hid Hn. unfold dataset_file, pool_dataset_dir, pool_dir. rewrite join_dir by done.
  change (join (pools_dir DATA_DIR) id) with (pool_dir DATA_DIR id).
  rewrite pool_path by done. unfold pool_file. by rewrite !append_assoc.
Qed.
Lemma dataset_not_meta id name j :
  safe_name id = true → safe_name j = true → starts_with "/" name = false →
  dataset_file id name ≠ meta_file j.
Proof. intros Hid Hj Hn. rewrite dataset_path by done. intros [_ He]%pool_file_inj; done. Qed.
Lemma atomic_write_meta io path data s id :
  path ≠ meta_file id →
  files (atomic_write io path data s).2 !! meta_file id = files s !! meta_file id.
Proof.
  intros Hp. apply atomic_write_other; [apply meta_no_tmp|done].
Qed.

(** ** Rows *)

Lemma utf8_step_le s : ((utf8_step s).1 ≤ 4)%nat.
Proof.
  destruct s as [|a s]; simpl; [lia|]. cbv zeta.
  repeat match goal with |- context [if ?b then _ else _] => destruct b end; simpl; lia.
Qed.
Lemma length_substring k s : (String.length (String.substring 0 k s) ≤ k)%nat.
Proof.
  revert s. induction k as [|k IH]; intros [|c s]; simpl; try lia. specialize (IH s). lia.
Qed.
Lemma length_lossy fuel s : (String.length (lossy fuel s) ≤ 4 * fuel)%nat.
Proof.
  revert s. induction fuel as [|n IH]; intros s; [done|]. destruct s as [|a s]; [simpl; lia|].
  cbn [lossy]. destruct (utf8_step (String a s)) as [k good] eqn:Hk. rewrite length_append.
  specialize (IH (String.substring k (String.length (String a s) - k) (String a s))).
  assert (Hg : (String.length (if good then String.substring 0 k (String a s) else replacement) ≤ 4)%nat).
  { destruct good; [|simpl; lia]. etrans; [apply length_substring|].
    pose proof (utf8_step_le (String a s)). rewrite Hk in *. done. }
  lia.
Qed.
Lemma length_lines_from cur s : (length (lines_from cur s) ≤ S (String.length s))%nat.
Proof.
  revert cur. induction s as [|c s IH]; intros cur; simpl; [case_bool_decide; simpl; lia|].
  destruct (byte c =? 10); simpl; [specialize (IH "")|specialize (IH (cur +:+ String c ""))]; lia.
Qed.
(** A dataset of an accepted size has a 64-bit number of rows. *)
Lemma rows_u64 csv : len csv ≤ MAX_BODY_SIZE → is_u64 (count_csv_rows csv).
Proof.
  intros Hl. unfold count_csv_rows. set (ls := List.filter _ _).
  assert (Hb : (length ls ≤ 4 * String.length csv + 1)%nat).
  { pose proof (List.filter_length_le (λ l, negb (bool_decide (trim l = ""))) (lines (from_utf8_lossy csv))).
    pose proof (length_lines_from "" (from_utf8_lossy csv)).
    pose proof (length_lossy (String.length csv) csv). unfold lines, from_utf8_lossy in *.
    subst ls. unfold lines, from_utf8_lossy. lia. }
  unfold len, MAX_BODY_SIZE in Hl. unfold is_u64, U64_MAX. destruct (1 <? length ls)%nat; lia.
Qed.

(** ** The registry of a state *)

Section Registry.
Context {T C K Sec Pub : Type} `{RedbTable T, RedbTxn (Db T), DbCratesLaws, AuditCrates}.
Context `{HashCratesLaws, SolanaLaws, SolanaKeys K, FromValue FieldType, CryptoCrates Sec Pub}.
Context `{CsvCrates, TextCrates}.
Context `{Serde AuditEvent, SerdeLaws PoolMetadata, Serde WalletMetadata, Serde (list Z)}.
Context `{SerdeLaws (list FieldSchema)}.
Context `{Serde DatasetFileMeta, Serde DatasetAnchor, Serde RevocationEntry}.
Abbreviation St := (AppState T C).
Abbreviation handler A := (act St ApiError A).

Definition registry (st : St) : Registry := λ id,
  files (storage st) !! meta_file id ≫= λ data, ok (from_slice data).

(** An action that leaves the registry alone. *)
Definition still {E A} (m : act St E A) : Prop := ∀ st, reg_eq (registry (m st).2) (registry st).

Lemma still_bind {E A B} (m : act St E A) (f : A → act St E B) :
  still m → (∀ a, still (f a)) → still (m ≫= f).
Proof.
  intros Hm Hf st. rewrite act_bind_eq. specialize (Hm st).
  destruct (m st) as [[a|x] st1]; simpl in *; [|done]. by rewrite (Hf a st1).
Qed.
Lemma still_ret {E A} (a : A) : still (mret a : act St E A).
Proof. by intros st. Qed.
Lemma still_fail {E A} (x : E) : still (fail x : act St E A).
Proof. by intros st. Qed.
Lemma still_lift {E A} (r : result E A) : still (lift r).
Proof. by intros st. Qed.
Lemma still_reading {E A} (f : St → result E A) : still (reading f).
Proof. by intros st. Qed.
Lemma still_best_effort {E F A} (m : act St F A) : still m → still (best_effort m : act St E unit).
Proof. intros Hm st. apply Hm. Qed.
Lemma still_caught {E F A} (m : act St F A) : still m → still (caught m : act St E (result F A)).
Proof. intros Hm st. apply Hm. Qed.
Lemma still_map_err {E F A} (f : F → E) (m : act St F A) : still m → still (act_map_err f m).
Proof. intros Hm st. apply Hm. Qed.
Lemma still_db {E A} (m : act (Db T) E A) : still (zoom tx_db set_tx_db m : act St E A).
Proof. by intros st. Qed.
Lemma still_on_db {A} (m : act (Db T) TxDbError A) : still (on_db m : act St ApiError A).
Proof. by intros st. Qed.
Lemma still_fs {E A} (m : act Fs E A) :
  (∀ s id, safe_name id = true → files (m s).2 !! meta_file id = files s !! meta_file id) →
  still (zoom storage set_storage m : act St E A).
Proof. intros Hm st id Hid. unfold registry. simpl. by rewrite Hm. Qed.
Lemma still_log e env ev : still (log_event e env ev : handler unit).
Proof. intros st id Hid. unfold registry, meta_file. simpl. by rewrite audit_pool_files. Qed.

(** Reads change nothing. *)
Definition reads {E A} (m : act St E A) : Prop := ∀ st, (m st).2 = st.
Lemma still_reads {E A} (m : act St E A) : reads m → still m.
Proof. intros Hm st. by rewrite Hm. Qed.
Lemma reads_bind {E A B} (m : act St E A) (f : A → act St E B) :
  reads m → (∀ a, reads (f a)) → reads (m ≫= f).
Proof.
  intros Hm Hf st. rewrite act_bind_eq. specialize (Hm st).
  destruct (m st) as [[a|x] st1]; simpl in *; subst; [apply Hf|done].
Qed.
Lemma reads_lift {E A} (r : result E A) : reads (lift r).
Proof. by intros st. Qed.
Lemma reads_ret {E A} (a : A) : reads (mret a : act St E A).
Proof. by intros st. Qed.
Lemma reads_reading {E A} (f : St → result E A) : reads (reading f).
Proof. by intros st. Qed.
Lemma read_json_same {A} `{Serde A} io path s : (read_json (A := A) io path s).2 = s.
Proof.
  unfold read_json. rewrite act_bind_eq. unfold read_raw, reading.
  by destruct (match io with IoRead _ => _ | _ => _ end).
Qed.
Lemma on_storage_reads {A} (m : act Fs StorageError A) :
  (∀ s, (m s).2 = s) → reads (on_storage m : handler A).
Proof. intros Hm st. rewrite on_storage_run. simpl. by rewrite Hm, set_storage_id. Qed.
Lemma wallet_get_reads io id : reads (on_storage (wallet_get io id) : handler _).
Proof. apply on_storage_reads. intros s. apply read_json_same. Qed.
Lemma keypair_reads io id : reads (on_storage (wallet_read_keypair io id) : handler _).
Proof. apply on_storage_reads. intros s. apply read_json_same. Qed.
Lemma active_wallet_reads io env u : reads (get_active_wallet_for_user io env u : handler _).
Proof.
  apply reads_bind; [intros st; rewrite on_db_run; apply set_tx_db_id|]. intros found.
  apply reads_bind; [apply reads_lift|]. intros id. apply reads_bind; [apply wallet_get_reads|].
  intros w. apply reads_bind; [apply reads_lift|]. intros _. apply reads_ret.
Qed.
Lemma wallet_keypair_reads io id u : reads (load_wallet_keypair (K := K) io id u : handler _).
Proof.
  unfold load_wallet_keypair. apply reads_bind; [apply wallet_get_reads|]. intros w.
  do 3 (apply reads_bind; [apply reads_lift|]; intros _).
  apply reads_bind; [apply keypair_reads|]. intros kb.
  apply reads_bind; [apply reads_lift|]. intros kp. apply reads_ret.
Qed.
Lemma load_meta_reads io id : reads (load_meta io id : handler _).
Proof.
  intros st. unfold load_meta, act_map_err, zoom. simpl. by rewrite read_json_same, set_storage_id.
Qed.
Lemma check_csv_reads io id csv mode : reads (check_csv io id csv mode : handler _).
Proof. apply reads_bind; [apply reads_reading|]. intros s. apply reads_lift. Qed.
(** What is loaded is the registry's entry. *)
Lemma load_meta_ok io id (st : St) m :
  safe_name id = true → (load_meta io id st).1 = Ok m → registry st id = Some m.
Proof.
  intros Hid Hl. unfold load_meta, act_map_err, zoom in Hl. cbn [fst] in Hl. apply map_err_ok in Hl.
  unfold read_json in Hl. rewrite act_bind_eq in Hl. unfold read_raw, reading in Hl.
  rewrite pool_meta_file in Hl by done. unfold registry.
  destruct io; try done; change (pool_file id "pool.meta.json") with (meta_file id) in Hl;
    (destruct (files (storage st) !! meta_file id) as [data|]; [|done]); simpl in Hl |- *;
    by rewrite (map_err_ok _ _ _ Hl).
Qed.

(** Writes outside the registry. *)
Lemma ensure_dirs_still io1 io2 id : still (ensure_pool_dirs io1 io2 id : handler _).
Proof.
  unfold ensure_pool_dirs. apply still_bind; [apply still_reading|]. intros []; [apply still_ret|].
  apply still_bind; [|intros _; apply still_ret]. apply still_map_err, still_fs.
  intros s j _. by destruct io2.
Qed.
Lemma dataset_write_still io id name data :
  safe_name id = true → starts_with "/" name = false →
  still (zoom storage set_storage (write_raw io (dataset_file id name) data) : act St _ _).
Proof.
  intros Hid Hn. apply still_fs. intros s j Hj.
  by apply atomic_write_meta, dataset_not_meta.
Qed.
Lemma dataset_json_still {A} `{Serde A} io id name (a : A) :
  safe_name id = true → starts_with "/" name = false →
  still (zoom storage set_storage (write_json io (dataset_file id name) a) : act St _ _).
Proof.
  intros Hid Hn. apply still_fs. intros s j Hj. unfold write_json. rewrite act_bind_lift.
  destruct (map_err _ _); [|done]. by apply atomic_write_meta, dataset_not_meta.
Qed.
Lemma save_schema_still io id fields :
  safe_name id = true →
  still (zoom storage set_storage (save_pool_schema io DATA_DIR id fields) : act St _ _).
Proof.
  intros Hid. apply still_fs. intros s j Hj. unfold save_pool_schema.
  assert (Hne : pool_schema DATA_DIR id ≠ meta_file j).
  { rewrite pool_schema_file by done. intros [_ He]%pool_file_inj; done. }
  destruct io as [| | |m [x|]|], (to_vec_pretty fields); simpl; by rewrite ?lookup_insert_ne.
Qed.
Lemma append_still io id data :
  safe_name id = true →
  still (zoom storage set_storage (append_file io (pool_revocations DATA_DIR id) data) : handler _).
Proof.
  intros Hid. apply still_fs. intros s j Hj.
  assert (Hne : pool_revocations DATA_DIR id ≠ meta_file j).
  { unfold pool_revocations. rewrite pool_path by done. intros [_ He]%pool_file_inj; done. }
  unfold append_file. cbv zeta. destruct io as [| | |m [x|]|]; try done.
  all: match goal with |- context [if ?b then _ else _] => destruct b end; simpl;
    by rewrite ?lookup_insert_ne.
Qed.
Lemma mirror_still env m : still (mirror_meta env m : handler _).
Proof. apply still_best_effort, still_db. Qed.
Lemma record_still env now id m : still (record_issuance env now id m : handler _).
Proof.
  unfold record_issuance. destruct (to_vec m); [|apply still_ret].
  apply still_best_effort, still_db.
Qed.
Lemma mirror_revocations_still db id entry cids :
  still (mirror_revocations db id entry cids : handler _).
Proof.
  induction cids as [|cid rest IH]; [apply still_ret|]. apply still_bind; [|by intros _].
  destruct (to_vec _); [apply still_best_effort, still_db|apply still_ret].
Qed.

(** ** Handlers as transitions *)

(** From a state whose registry is [r], the action makes one transition. *)
Definition makes_step {E A} (r : Registry) (m : act St E A) : Prop :=
  ∀ st, reg_eq (registry st) r → reg_step r (registry (m st).2).

Lemma step_still {E A} r (m : act St E A) : still m → makes_step r m.
Proof. intros Hm st Hr. apply reg_same. by rewrite (Hm st). Qed.
Lemma step_bind {E A B} r (m : act St E A) (f : A → act St E B) :
  still m → (∀ a, makes_step r (f a)) → makes_step r (m ≫= f).
Proof.
  intros Hm Hf st Hr. rewrite act_bind_eq. specialize (Hm st).
  destruct (m st) as [[a|x] st1]; simpl in *.
  - apply Hf. by rewrite Hm.
  - apply reg_same. by rewrite Hm.
Qed.
Lemma step_bind_reads {E A B} r (m : act St E A) (f : A → act St E B) :
  reads m → (∀ st a, reg_eq (registry st) r → m st = (Ok a, st) → makes_step r (f a)) →
  makes_step r (m ≫= f).
Proof.
  intros Hm Hf st Hr. rewrite act_bind_eq. specialize (Hm st).
  destruct (m st) as [[a|x] st1] eqn:He; simpl in *; subst st1.
  - by apply (Hf st a).
  - by apply reg_same.
Qed.
Lemma step_lift {E A B} r (x : result E A) (f : A → act St E B) :
  (∀ a, x = Ok a → makes_step r (f a)) → makes_step r (lift x ≫= f).
Proof.
  intros Hf st Hr. rewrite act_bind_lift. destruct x as [a|e]; [by apply Hf|by apply reg_same].
Qed.
Lemma step_load {B} r io id (f : PoolMetadata → handler B) :
  safe_name id = true → (∀ m, r id = Some m → makes_step r (f m)) →
  makes_step r (load_meta io id ≫= f).
Proof.
  intros Hid Hf st Hr. rewrite act_bind_eq. pose proof (still_reads _ (load_meta_reads io id) st) as Hs.
  pose proof (λ m, load_meta_ok io id st m Hid) as Hok.
  destruct (load_meta io id st) as [[m|x] st1]; simpl in *.
  - apply Hf; [by rewrite <-Hr, (Hok m)|by rewrite Hs].
  - apply reg_same. by rewrite Hs.
Qed.
(** Saving metadata either fails and changes nothing or replaces the entry. *)
Lemma save_meta_effect io id m (st : St) :
  safe_name id = true →
  let '(r, st') := save_pool_meta io id m st in
  reg_eq (registry st') (if is_ok r then reg_insert id m (registry st) else registry st).
Proof.
  intros Hid. unfold save_pool_meta, act_map_err, zoom. cbn [fst snd].
  destruct (to_vec_pretty_total m) as [data Hd]. unfold write_json.
  rewrite pool_meta_file by done. rewrite act_bind_lift, Hd. cbn [map_err].
  change (pool_file id "pool.meta.json") with (meta_file id).
  pose proof (λ j, atomic_write_files io (meta_file id) data (storage st) (meta_file j)) as Hf.
  destruct (atomic_write io (meta_file id) data (storage st)) as [[[]|x] s'] eqn:Hw; simpl in *.
  - intros j Hj. unfold registry, reg_insert. simpl.
    rewrite Hf by (intros He; by apply (tmp_not_meta (meta_file id) j)).
    destruct (decide (j = id)) as [->|Hji].
    + rewrite decide_True by done. simpl. by rewrite (from_to_pretty _ _ Hd).
    + rewrite decide_False; [done|]. intros [He _]%pool_file_inj; done.
  - intros j Hj. unfold registry. simpl.
    by rewrite Hf by (intros He; by apply (tmp_not_meta (meta_file id) j)).
Qed.
Lemma step_save {B} r io id m (f : unit → handler B) :
  safe_name id = true → (∀ r', reg_eq r' (reg_insert id m r) → reg_step r r') →
  (∀ u, still (f u)) → makes_step r (save_pool_meta io id m ≫= f).
Proof.
  intros Hid Hst Hf st Hr. rewrite act_bind_eq. pose proof (save_meta_effect io id m st Hid) as Hs.
  destruct (save_pool_meta io id m st) as [[u|x] st1]; simpl in *.
  - rewrite (Hf u st1). apply Hst. by rewrite Hs, Hr.
  - apply reg_same. by rewrite Hs.
Qed.
End Registry.
#[export] Hint Resolve still_bind still_ret still_fail still_lift still_reading still_best_effort
  still_caught still_map_err still_db still_on_db still_log ensure_dirs_still dataset_write_still
  dataset_json_still save_schema_still append_still mirror_still record_still
  mirror_revocations_still still_reads : rsdk.
#[export] Hint Resolve reads_bind reads_ret reads_lift reads_reading wallet_get_reads keypair_reads
  active_wallet_reads wallet_keypair_reads load_meta_reads check_csv_reads : rsdk.
