(* ===== verification/PoolLife.v ===== *)
(** * The life of a pool

    The handlers that write pool directories as steps of the server; each refines
    a transition of the registry (PoolRegistry.v).  From the transitions: what a
    pool is never changes, it becomes ready at most once, and its metadata stays
    well formed. *)
From S2P Require Import Prelude.
From S2P Require Import RustStr.
From S2P Require Import RustFmt.
From S2P Require Import Errors.
From S2P Require Import Types.
From S2P Require Import Interfaces.
From S2P Require Import TxDatabase.
From S2P Require Import Instances.
From S2P Require Import Text.
From S2P Require Import Storage.
From S2P Require Import TxCache.
From S2P Require Import AppState.
From S2P Require Import AuditLog.
From S2P Require Import Wallets.
From S2P Require Import WalletFacts.
From S2P Require Import DataValidation.
From S2P Require Import VerifiedFetch.
From S2P Require Import FetchFacts.
From S2P Require Import DrtValidation.
From S2P Require Import DrtProgram.
From S2P Require Import DrtProgramFacts.
From S2P Require Import Chain.
From S2P Require Import ChainFacts.
From S2P Require Import PoolApi.
From S2P Require Import PoolFacts.
From S2P Require Import Upload.
From S2P Require Import Credentials.
From S2P Require Import PoolRegistry.
From S2P Require Import UploadFacts.
From S2P Require Import PoolExamples.

Local Open Scope Z_scope.
#[local] Arguments String.append : simpl nomatch.

(** ** Invariants of the registry *)

(** What a pool is: everything but its state, times and counters. *)
Definition same_pool (m m' : PoolMetadata) : Prop :=
  p_pool_pda m' = p_pool_pda m ∧ p_pool_name m' = p_pool_name m ∧ p_kind m' = p_kind m ∧
  p_pool_uuid_hex m' = p_pool_uuid_hex m ∧ p_drts m' = p_drts m ∧
  p_owner_wallet_id m' = p_owner_wallet_id m ∧ p_owner_pubkey m' = p_owner_pubkey m ∧
  p_schema_id m' = p_schema_id m ∧ p_validation_mode m' = p_validation_mode m ∧
  p_created_onchain_at m' = p_created_onchain_at m.
Definition evolves (m m' : PoolMetadata) : Prop :=
  same_pool m m' ∧
  (p_state m = Ready → p_state m' = Ready ∧ p_initialized_at m' = p_initialized_at m).
#[export] Instance evolves_preorder : PreOrder evolves.
Proof.
  split.
  - intros m. split; [by split_and!|done].
  - intros a b c [Hab Hrab] [Hbc Hrbc]. split; [unfold same_pool in *; intuition congruence|].
    intros Ha. destruct (Hrab Ha) as [Hb Hi]. destruct (Hrbc Hb) as [Hc Hi']. split; congruence.
Qed.
Lemma reg_step_evolves r r' id m :
  reg_step r r' → safe_name id = true → r id = Some m → ∃ m', r' id = Some m' ∧ evolves m m'.
Proof.
  assert (Hins : ∀ j x, (j = id → evolves m x) → r id = Some m → safe_name id = true →
    reg_eq r' (reg_insert j x r) → ∃ m', r' id = Some m' ∧ evolves m m').
  { intros j x Hx Hm Hid He. rewrite (He id Hid). unfold reg_insert.
    destruct (decide (id = j)) as [<-|]; [by eauto|]. by exists m. }
  intros [Hs|j x Hj Hr Hf Hp Hs|j x now rows Hj Hr Hst Hk Hu Hs|j x now rows Hj Hr Hst Hk Hu Hs
         |j x n Hj Hr Hn Hs] Hid Hm.
  - exists m. by rewrite (Hs id Hid).
  - eapply Hins; [|done..]. congruence.
  - eapply Hins; [|done..]. intros ->. assert (x = m) as -> by congruence.
    split; [by split_and!|]. congruence.
  - eapply Hins; [|done..]. intros ->. assert (x = m) as -> by congruence. split; [by split_and!|done].
  - eapply Hins; [|done..]. intros ->. assert (x = m) as -> by congruence. split; [by split_and!|done].
Qed.

(** Well-formed metadata: counters fit their type; a pool that is not ready was
    never written to; only a MALTA pool becomes ready, and it is the kind that
    has the append right. *)
Record wf_meta (m : PoolMetadata) : Prop := {
  wf_total : is_u64 (p_total_credentials m);
  wf_revoked : is_u64 (p_revoked_count m);
  wf_new : p_state m = NeedsInit →
    p_total_credentials m = 0 ∧ p_initialized_at m = None ∧ p_last_issue_at m = None;
  wf_ready : p_state m = Ready → p_kind m = Malta ∧ is_Some (p_initialized_at m);
  wf_append : p_kind m = Malta ↔ is_Some (p_drts m !! APPEND_DRT_NAME);
}.
(** Every pool is filed under its own address and is well formed. *)
Definition reg_wf (r : Registry) : Prop :=
  ∀ id m, safe_name id = true → r id = Some m → p_pool_pda m = id ∧ wf_meta m.
Lemma wrap64_u64 z : is_u64 (wrap64 z).
Proof. unfold is_u64, wrap64, U64_MAX. pose proof (Z.mod_pos_bound z (2 ^ 64)). lia. Qed.
Lemma reg_step_wf r r' : reg_step r r' → reg_wf r → reg_wf r'.
Proof.
  assert (Hins : ∀ j x, (p_pool_pda x = j ∧ wf_meta x) → reg_wf r →
    reg_eq r' (reg_insert j x r) → reg_wf r').
  { intros j x Hx Hr He id m Hid Hm. rewrite (He id Hid) in Hm. unfold reg_insert in Hm.
    destruct (decide (id = j)) as [->|]; [by simplify_eq|by apply Hr]. }
  assert (H0 : is_u64 0) by done.
  intros [Hs|j x Hj Hr (Hst & Hi & Hl & Ht & Hv & Hk) Hp Hs|j x now rows Hj Hr Hst Hk Hu Hs
         |j x now rows Hj Hr Hst Hk Hu Hs|j x n Hj Hr Hn Hs] Hwf.
  - intros id m Hid Hm. rewrite (Hs id Hid) in Hm. by apply Hwf.
  - eapply Hins; [|done..]. split; [done|]. split; rewrite ?Ht, ?Hv; try done. congruence.
  - eapply Hins; [|done..]. destruct (Hwf j x Hj Hr) as [Hp [Htot Hrv Hnew Hrd Happ]].
    split; [done|]. split; simpl; done.
  - eapply Hins; [|done..]. destruct (Hwf j x Hj Hr) as [Hp [Htot Hrv Hnew Hrd Happ]].
    split; [done|]. split; simpl; try done; [apply wrap64_u64|congruence].
  - eapply Hins; [|done..]. destruct (Hwf j x Hj Hr) as [Hp [Htot Hrv Hnew Hrd Happ]].
    split; [done|]. split; simpl; try done. apply wrap64_u64.
Qed.

(** Steps that leave the registry alone. *)
Ltac solve_still :=
  repeat match goal with |- still (_ ≫= _) => apply still_bind; [|intros ?] end; eauto 8 with rsdk.

Section Life.
Context {T C K Sec Pub : Type} `{RedbTable T, RedbTxn (Db T), DbCratesLaws, AuditCrates}.
Context `{HashCratesLaws, SolanaLaws, SolanaKeys K, FromValue FieldType, CryptoCrates Sec Pub}.
Context `{CsvCrates, TextCrates}.
Context `{Serde AuditEvent, SerdeLaws PoolMetadata, Serde WalletMetadata, Serde (list Z)}.
Context `{SerdeLaws (list FieldSchema)}.
Context `{Serde DatasetFileMeta, Serde DatasetAnchor, Serde RevocationEntry}.
Abbreviation St := (AppState T C).

Lemma parse_csv_size (enclave : Sec) mp csv :
  parse_csv_payload enclave mp = Ok csv → len csv ≤ MAX_BODY_SIZE.
Proof.
  intros (i & _ & Hr)%result_bind_ok. apply result_bind_ok in Hr as ([[d k] n] & _ & Hr).
  apply result_bind_ok in Hr as (b & _ & Hr). apply result_bind_ok in Hr as (? & Hs%reject_if_ok & Hr).
  injection Hr as ->. by apply Z.ltb_ge in Hs.
Qed.
Lemma pubkey_arg_safe id k :
  ok_or (pubkey_from_str id) (Api.bad_request "invalid pool PDA address") = Ok k →
  safe_name id = true.
Proof. intros Hk%ok_or_ok. by eapply pubkey_str_safe. Qed.

Lemma upload_schema_step r e token id payload :
  makes_step r (upload_schema e token id payload : act St _ _).
Proof.
  unfold upload_schema. cbv zeta. apply step_lift. intros pda Hid%pubkey_arg_safe.
  apply step_still. solve_still.
Qed.

Lemma initialize_step r (enclave : Sec) e token id mp :
  makes_step r (initialize_pool enclave e token id mp : act St _ _).
Proof.
  unfold initialize_pool. cbv zeta. apply step_lift. intros csv Hsize%parse_csv_size.
  apply step_lift. intros pda Hid%pubkey_arg_safe. apply step_lift. intros pool _.
  apply step_bind; [auto with rsdk|]. intros wallet. apply step_bind; [auto with rsdk|]. intros _.
  apply step_bind; [auto with rsdk|]. intros _. apply step_load; [done|]. intros m Hm.
  apply step_lift. intros _ Hst%reject_if_ok%negb_false_iff%bool_decide_eq_true.
  apply step_lift. intros _ Hk%reject_if_ok%bool_decide_eq_false.
  apply step_bind; [auto with rsdk|]. intros _. apply step_bind; [auto with rsdk|]. intros _.
  apply step_bind; [auto with rsdk|]. intros _. apply step_save; [done| |intros _; solve_still].
  intros r' Hr'. eapply reg_init; [done..| |by apply rows_u64|exact Hr'].
  by destruct (p_kind m).
Qed.

(** ** Issuance *)

(** What is known once the checks of an issuance have passed: the decrypted
    dataset, the pool's key and metadata, its append right, mint and UUID, and the
    key that signs. *)
Record issue_ready (enclave : Sec) (e : CredEnv T) (token : TokenData) (id : string) (mp : Multipart)
    (st : St) (csv pda : string) (meta : PoolMetadata) (rid mint uuid : string) (kp : K) : Prop := {
  iy_csv : parse_csv_payload enclave mp = Ok csv;
  iy_pda : pubkey_from_str id = Some pda;
  iy_meta : registry st id = Some meta;
  iy_state : p_state meta = Ready;
  iy_kind : p_kind meta = Malta;
  iy_append : ∃ drt, p_drts meta !! APPEND_DRT_NAME = Some drt ∧
    decode_right_id (d_right_id_hex drt) = Ok rid ∧ pubkey_from_str (d_mint drt) = Some mint;
  iy_uuid : decode_right_id (p_pool_uuid_hex meta) = Ok uuid;
  iy_owner : ∃ wallet pool,
    (get_active_wallet_for_user (ce_io e 1%nat) (ce_db e 0%nat) (sub token) st).1 = Ok wallet ∧
    fetch_pool (rpc_account (ce_rpc e) pda) pda = Ok pool ∧
    kp_pubkey kp = w_public_address wallet ∧ kp_key kp = pl_owner pool;
  iy_balance : 1 ≤ append_balance (ce_balance e (derive_user_ata (kp_key kp) mint));
  iy_valid : ∃ summary,
    validate_payload (ce_io e 3%nat) id csv (p_validation_mode meta) (storage st) = Ok summary ∧
    valid summary = true;
}.

Lemma kp_key_owner (kp : K) pool wallet u :
  verify_pool_ownership pool wallet = Ok u → kp_pubkey kp = w_public_address wallet →
  kp_key kp = pl_owner pool.
Proof. intros Hv%verify_pool_ownership_ok Hk. unfold kp_key. by rewrite Hk, Hv. Qed.
Lemma check_csv_ok io id csv mode (st : St) u st' :
  check_csv io id csv mode st = (Ok u, st') →
  ∃ s, validate_payload io id csv mode (storage st) = Ok s ∧ valid s = true.
Proof.
  intros (s & s1 & Hv & Hr)%act_bind_ok. injection Hv as Hv ->. injection Hr as Hr _.
  apply reject_if_ok, negb_false_iff in Hr. by exists s.
Qed.

Lemma issue_checks_reads (enclave : Sec) e token id mp :
  reads (issue_checks (K := K) enclave e token id mp : act St _ _).
Proof.
  unfold issue_checks. repeat (apply reads_bind; [auto with rsdk|]; intros ?). auto with rsdk.
Qed.
(** Peel a step that only reads. *)
Lemma reads_bind_ok {A B} (m : act St ApiError A) (f : A → act St ApiError B) st b st' :
  reads m → (m ≫= f) st = (Ok b, st') → ∃ a, (m st).1 = Ok a ∧ f a st = (Ok b, st').
Proof.
  intros Hm (a & s1 & Ha & Hf)%act_bind_ok. specialize (Hm st). rewrite Ha in *. simpl in Hm. subst.
  by exists a.
Qed.
Lemma issue_checks_ok (enclave : Sec) e token id mp (st st' : St) csv pda meta rid mint uuid kp :
  issue_checks (K := K) enclave e token id mp st = (Ok (csv, pda, meta, (rid, mint, uuid), kp), st') →
  issue_ready enclave e token id mp st csv pda meta rid mint uuid kp.
Proof.
  intros Hc. unfold issue_checks in Hc. peel Hc as csv' Hcsv. peel Hc as pda' Hpda%ok_or_ok.
  pose proof (pubkey_str_safe _ _ Hpda) as Hid.
  apply reads_bind_ok in Hc as (meta' & Hm & Hc); [|auto with rsdk].
  apply load_meta_ok in Hm; [|done].
  peel Hc as [] Hst%reject_if_ok%negb_false_iff%bool_decide_eq_true.
  peel Hc as [] Hk%reject_if_ok%bool_decide_eq_false.
  peel Hc as drt Hd%ok_or_ok. peel Hc as rid' Hrid. peel Hc as mint' Hmint%ok_or_ok.
  peel Hc as uuid' Hu. apply reads_bind_ok in Hc as (wallet & Hw & Hc); [|auto with rsdk].
  apply reads_bind_ok in Hc as (kb & _ & Hc); [|auto with rsdk].
  peel Hc as kp' Hkp%keypair_verified_ok. peel Hc as pool Hpool. peel Hc as [] Hown.
  peel Hc as [] Hb%reject_if_ok%Z.ltb_ge.
  apply act_bind_ok in Hc as (u & s1 & Hv & Hc). injection Hc as -> -> -> -> -> -> -> _.
  split; try done; [by destruct (p_kind meta)|by exists drt| |by eapply check_csv_ok].
  exists wallet, pool. split_and!; [done..|]. by eapply kp_key_owner.
Qed.

Lemma issue_step r (enclave : Sec) e token id mp :
  safe_name (ce_record_id e) = true →
  makes_step r (issue_credentials (K := K) enclave e token id mp : act St _ _).
Proof.
  intros (Hno & _)%safe_name_facts.
  assert (Hn : ∀ s, starts_with "/" s = false → starts_with "/" (ce_record_id e +:+ s) = false)
    by (intros s; by apply not_starts_slash).
  unfold issue_credentials. apply step_bind_reads; [apply issue_checks_reads|].
  intros st [[[[csv pda] meta] [[rid mint] uuid]] kp] Hr Hok%issue_checks_ok.
  destruct Hok as [Hcsv Hpda Hm Hst Hk _ _ _ _ _]. pose proof (pubkey_str_safe _ _ Hpda) as Hid.
  apply parse_csv_size in Hcsv. rewrite (Hr id Hid) in Hm.
  unfold issue_locked. cbv zeta. apply step_bind; [auto with rsdk|]. intros [sig events].
  apply step_bind; [auto with rsdk|]. intros [[]|x].
  - apply step_bind; [auto with rsdk|]. intros _. apply step_load; [done|]. intros m Hm'.
    assert (m = meta) as -> by congruence.
    apply step_save; [done| |intros _; solve_still]. intros r' Hr'.
    eapply reg_issue; [done..|by apply rows_u64|exact Hr'].
  - apply step_still. solve_still.
Qed.

Lemma revoke_step r e token id payload :
  makes_step r (revoke_credentials (K := K) e token id payload : act St _ _).
Proof.
  unfold revoke_credentials. cbv zeta. apply step_lift. intros _ Hne%reject_if_ok.
  apply step_lift. intros pda Hid%pubkey_arg_safe. apply step_bind; [auto with rsdk|]. intros wk.
  do 2 (apply step_bind; [auto with rsdk|]; intros ?). apply step_bind; [auto with rsdk|]. intros _.
  apply step_bind; [auto with rsdk|]. intros _. apply step_bind; [auto with rsdk|]. intros text.
  apply step_bind; [auto with rsdk|]. intros _. apply step_load; [done|]. intros m Hm.
  apply step_save; [done| |intros _; solve_still]. intros r' Hr'.
  eapply reg_revoke; [done..| |exact Hr']. destruct (rq_credential_ids payload); [done|]. simpl. lia.
Qed.

(** ** Creation *)

Lemma step_assoc {E A B D} r (m : act St E A) (f : A → act St E B) (g : B → act St E D) :
  makes_step r (m ≫= λ a, f a ≫= g) → makes_step r ((m ≫= f) ≫= g).
Proof.
  intros Hm st Hr. specialize (Hm st Hr). rewrite !act_bind_eq in *. by destruct (m st) as [[a|x] s1].
Qed.
Lemma created_names e (kp : K) ds created :
  create_pool_atomic e kp ds = Ok created → NoDup (rd_name <$> ds) →
  cr_pool_pda created = (derive_pool_pda (pe_pool_uuid e)).1 ∧
  ∀ n, is_Some (cr_drts created !! n) ↔ n ∈ rd_name <$> ds.
Proof.
  intros (regs & _ & Hc)%result_bind_ok Hnd. apply result_bind_ok in Hc as ([sig evs] & _ & Hc).
  injection Hc as <-. split; [done|]. intros n. by apply drt_records_names.
Qed.
Lemma persist_step {B} r e m (f : PoolMetadata → act St ApiError B) :
  safe_name (p_pool_pda m) = true → r (p_pool_pda m) = None → fresh_meta m → (∀ a, still (f a)) →
  makes_step r (persist_pool_metadata e m ≫= f).
Proof.
  intros Hid Hr Hf Hst. unfold persist_pool_metadata. cbv zeta. apply step_assoc, step_bind.
  { apply still_map_err, still_fs. intros s j _. by destruct (pe_dir e). }
  intros _. apply step_assoc. apply (step_save r (pe_meta e) (p_pool_pda m) m); [done| |].
  - intros r' Hr'. by eapply reg_create.
  - intros _. apply still_bind; [|done].
    apply still_bind; [apply still_best_effort, still_db|]. intros _. apply still_ret.
Qed.
Lemma pool_audit_still e token id d : still (pool_audit_event e token id d : act St _ _).
Proof. intros st j Hj. unfold registry, meta_file. simpl. by rewrite audit_pool_files. Qed.

Definition new_pool_id (e : PoolEnv T) : string := base58 (derive_pool_pda (pe_pool_uuid e)).1.
Lemma create_malta_step r e token payload :
  r (new_pool_id e) = None → makes_step r (create_malta_pool (K := K) e token payload : act St _ _).
Proof.
  intros Hr. unfold create_malta_pool. cbv zeta. apply step_lift. intros _ _. apply step_lift.
  intros ds Hv%map_err_ok. apply step_lift. intros _ Happ%reject_if_ok. apply step_lift.
  intros [sid fields] _. apply step_bind; [auto with rsdk|]. intros [wallet kp]. apply step_lift.
  intros created Hc. destruct (validated_names _ _ _ Hv) as [Hnd _].
  destruct (created_names _ _ _ _ Hc Hnd) as [Hpda Hnames].
  assert (Hid : base58 (cr_pool_pda created) = new_pool_id e) by (unfold new_pool_id; by rewrite Hpda).
  rewrite Hid. apply persist_step; [apply created_safe|done| |].
  - split_and!; [done..|]. simpl. rewrite Hnames. split; [intros _|done].
    apply negb_false_iff, existsb_exists in Happ as (d & Hd%list_elem_of_In & Hn%bool_decide_eq_true).
    rewrite <-Hn. by apply list_elem_of_fmap_2.
  - intros meta. apply still_bind; [apply still_map_err, save_schema_still, created_safe|]. intros _.
    apply still_bind; [apply pool_audit_still|]. intros _. apply still_ret.
Qed.
Lemma create_iob_erp_step r e token payload :
  r (new_pool_id e) = None → makes_step r (create_iob_erp_pool (K := K) e token payload : act St _ _).
Proof.
  intros Hr. unfold create_iob_erp_pool. cbv zeta. apply step_lift. intros _ _. apply step_lift.
  intros ds Hv%map_err_ok. apply step_bind; [auto with rsdk|]. intros [wallet kp]. apply step_lift.
  intros created Hc. destruct (validated_names _ _ _ Hv) as [Hnd Hna].
  destruct (created_names _ _ _ _ Hc Hnd) as [Hpda Hnames].
  assert (Hid : base58 (cr_pool_pda created) = new_pool_id e) by (unfold new_pool_id; by rewrite Hpda).
  rewrite Hid. apply persist_step; [apply created_safe|done| |].
  - split_and!; [done..|]. simpl. rewrite Hnames. split; [done|]. intros Hin. by destruct (Hna eq_refl).
  - intros meta. apply still_bind; [apply pool_audit_still|]. intros _. apply still_ret.
Qed.

(** ** The server *)

(** One request that writes a pool's directory, with any environment.  The record
    id of an issuance is a generated UUID; the UUID of a new pool is fresh. *)
Inductive pool_request (enclave : Sec) (st : St) : St → Prop :=
| req_create_malta e token payload :
    registry st (new_pool_id e) = None →
    pool_request enclave st (create_malta_pool (K := K) e token payload st).2
| req_create_iob_erp e token payload :
    registry st (new_pool_id e) = None →
    pool_request enclave st (create_iob_erp_pool (K := K) e token payload st).2
| req_upload_schema e token id payload :
    pool_request enclave st (upload_schema e token id payload st).2
| req_initialize e token id mp :
    pool_request enclave st (initialize_pool enclave e token id mp st).2
| req_issue e token id mp :
    safe_name (ce_record_id e) = true →
    pool_request enclave st (issue_credentials (K := K) enclave e token id mp st).2
| req_revoke e token id payload :
    pool_request enclave st (revoke_credentials (K := K) e token id payload st).2.

Lemma request_refines (enclave : Sec) (st st' : St) :
  pool_request enclave st st' → reg_step (registry st) (registry st').
Proof.
  intros [e token payload Hf|e token payload Hf|e token id payload|e token id mp|e token id mp Hid
         |e token id payload].
  - by apply (create_malta_step (registry st) e token payload Hf).
  - by apply (create_iob_erp_step (registry st) e token payload Hf).
  - by apply (upload_schema_step (registry st)).
  - by apply (initialize_step (registry st)).
  - by apply (issue_step (registry st)).
  - by apply (revoke_step (registry st)).
Qed.

(** The pool endpoints implement the registry.  Each request that creates a
    pool, uploads a schema, seeds, issues or revokes, with any outcome of its
    file, database and network operations, changes the stored metadata by one
    transition of the abstract registry or not at all: a new fresh entry; a MALTA
    pool made ready with the number of rows of its dataset; a ready MALTA pool
    with an issuance counted; a revocation counted.  A request that fails half-way
    leaves the registry as it was. *)
Theorem pool_requests_refine_registry (enclave : Sec) (st st' : St) :
  pool_request enclave st st' → reg_step (registry st) (registry st').
Proof. exact (request_refines enclave st st'). Qed.

(** A pool keeps its identity.  Over any sequence of such requests, a stored
    pool stays stored, and its address, name, kind, UUID, DRTs (right ids, mints,
    supplies, script hashes), owner, schema id, validation mode and creation time
    never change; once ready, it stays ready with the time of its
    initialisation, so it is initialised at most once. *)
Theorem pool_identity_stable (enclave : Sec) (st st' : St) (id : string) (m : PoolMetadata) :
  rtc (pool_request enclave) st st' → safe_name id = true → registry st id = Some m →
  ∃ m', registry st' id = Some m' ∧ evolves m m'.
Proof.
  intros Hr Hid. revert m. induction Hr as [st|st st1 st' Hs _ IH]; intros m Hm; [by exists m|].
  destruct (reg_step_evolves _ _ id m (request_refines _ _ _ Hs) Hid Hm) as (m1 & Hm1 & He).
  destruct (IH m1 Hm1) as (m' & Hm' & He'). exists m'. split; [done|]. by etrans.
Qed.

(** Stored pools are well typed.  Over any sequence of such requests, every
    stored pool is filed under its own address; its counters are 64-bit values; a
    pool that is not ready has no rows, no initialisation and no issuance; a ready
    pool is a MALTA pool with its initialisation time; and the MALTA pools are
    exactly those with the append right. *)
Theorem pool_metadata_well_typed (enclave : Sec) (st st' : St) :
  rtc (pool_request enclave) st st' → reg_wf (registry st) → reg_wf (registry st').
Proof.
  induction 1 as [|st st1 st' Hs _ IH]; intros Hwf; [done|].
  apply IH. by eapply reg_step_wf; [by apply request_refines in Hs|].
Qed.
End Life.

(** ** The example run *)

Lemma fresh3 : registry w_wallet (new_pool_id penv3) = None.
Proof. vm_compute. reflexivity. Qed.
Lemma step_create3 : pool_request (K := unit) enclave3 w_wallet w_pool.
Proof. unfold w_pool. apply req_create_malta, fresh3. Qed.
Lemma step_ready3 : pool_request (K := unit) enclave3 w_pool w_ready.
Proof. unfold w_ready. apply req_initialize. Qed.
Lemma step_issue3 : pool_request (K := unit) enclave3 w_ready w_issued.
Proof. unfold w_issued. apply req_issue. reflexivity. Qed.
Lemma step_revoke3 : pool_request (K := unit) enclave3 w_issued w_revoked.
Proof. unfold w_revoked. apply req_revoke. Qed.
Lemma run3 : rtc (pool_request (K := unit) enclave3) w_wallet w_revoked.
Proof.
  eapply rtc_l; [exact step_create3|]. eapply rtc_l; [exact step_ready3|].
  eapply rtc_l; [exact step_issue3|]. eapply rtc_l; [exact step_revoke3|]. apply rtc_refl.
Qed.
Lemma registry3 :
  (p_state <$> registry w_ready pool3) = Some Ready ∧
  ((λ m, (p_total_credentials m, p_revoked_count m)) <$> registry w_revoked pool3) = Some (3, 2) ∧
  safe_name pool3 = true.
Proof. vm_compute. done. Qed.

Lemma pool_requests_refine_registry_witness :
  pool_request (K := unit) enclave3 w_issued w_revoked ∧ reg_step (registry w_issued) (registry w_revoked).
Proof.
  split; [exact step_revoke3|].
  exact (pool_requests_refine_registry (K := unit) enclave3 w_issued w_revoked step_revoke3).
Defined.
Lemma pool_identity_stable_witness :
  ∃ m m', registry w_ready pool3 = Some m ∧ registry w_revoked pool3 = Some m' ∧ evolves m m'.
Proof.
  destruct registry3 as (Hr & _ & Hid).
  destruct (registry w_ready pool3) as [m|] eqn:Hm; [|discriminate Hr].
  assert (Hrun : rtc (pool_request (K := unit) enclave3) w_ready w_revoked).
  { eapply rtc_l; [exact step_issue3|]. eapply rtc_l; [exact step_revoke3|]. apply rtc_refl. }
  destruct (pool_identity_stable (K := unit) enclave3 w_ready w_revoked pool3 m Hrun Hid Hm)
    as (m' & Hm' & He).
  exists m, m'. split; [reflexivity|]. split; [exact Hm'|exact He].
Defined.
Lemma registry_wallet3 : reg_wf (registry w_wallet).
Proof.
  intros id m Hid Hm. exfalso. unfold registry in Hm.
  destruct (files (storage w_wallet) !! meta_file id) as [data|] eqn:Hf; [|done].
  apply elem_of_map_to_list in Hf. revert Hf.
  assert (Hk : (map_to_list (files (storage w_wallet))).*1 =
    ["/data/wallets/w1/keypair.json"; "/data/wallets/w1/meta.json"; "/data/audit/1970-01-01.jsonl"]).
  { vm_compute. reflexivity. }
  intros Hf. apply (list_elem_of_fmap_2 fst) in Hf. rewrite Hk in Hf.
  apply list_elem_of_In in Hf as [He|[He|[He|[]]]]; discriminate He.
Qed.
Lemma pool_metadata_well_typed_witness : reg_wf (registry w_revoked).
Proof.
  exact (pool_metadata_well_typed (K := unit) enclave3 w_wallet w_revoked run3 registry_wallet3).
Defined.
