(* ===== verification/CredFacts.v ===== *)
(** * Issuance and revocation

    What a successful issuance or revocation leaves behind, and what remains on
    record when an issuance fails after the burn. *)
From S2P Require Import Prelude.
From S2P Require Import RustStr.
From S2P Require Import RustFmt.
From S2P Require Import Errors.
From S2P Require Import Types.
From S2P Require Import Interfaces.
From S2P Require Import TxDatabase.
From S2P Require Import Instances.
From S2P Require Import TxScans.
From S2P Require Import Text.
From S2P Require Import Storage.
From S2P Require Import TxCache.
From S2P Require Import AppState.
From S2P Require Import AuditLog.
From S2P Require Import Wallets.
From S2P Require Import WalletFacts.
From S2P Require Import DataValidation.
From S2P Require Import VerifiedFetch.
From S2P Require Import FetchFacts.
From S2P Require Import Query.
From S2P Require Import QueryFacts.
From S2P Require Import DrtValidation.
From S2P Require Import DrtProgram.
From S2P Require Import DrtProgramFacts.
From S2P Require Import Chain.
From S2P Require Import ChainFacts.
From S2P Require Import PoolApi.
From S2P Require Import PoolFacts.
From S2P Require Import Upload.
From S2P Require Import UploadFacts.
From S2P Require Import Credentials.
From S2P Require Import PoolViews.
From S2P Require Import PoolExamples.
From S2P Require Import PoolRegistry.
From S2P Require Import PoolLife.

Local Open Scope Z_scope.
#[local] Arguments String.append : simpl nomatch.

(** ** Files of a dataset *)

Definition dataset_csv (id rid : string) : string := pool_file id ("dataset/" +:+ rid +:+ ".csv").
Definition dataset_anchor (id rid : string) : string :=
  pool_file id ("dataset/" +:+ rid +:+ ".meta.json").
Lemma csv_no_tmp id rid : no_tmp (dataset_csv id rid).
Proof.
  exists ("/data/pools/" +:+ id +:+ "/dataset/" +:+ rid +:+ ".cs"), "v"%char. split; [|done].
  unfold dataset_csv, pool_file. by rewrite !append_assoc.
Qed.
Lemma anchor_no_tmp id rid : no_tmp (dataset_anchor id rid).
Proof.
  exists ("/data/pools/" +:+ id +:+ "/dataset/" +:+ rid +:+ ".meta.jso"), "n"%char. split; [|done].
  unfold dataset_anchor, pool_file. by rewrite !append_assoc.
Qed.
Lemma append_inj_r (a b s : string) : a +:+ s = b +:+ s → a = b.
Proof.
  intros He. apply (f_equal String.length) in He as Hl. rewrite !length_append in Hl.
  apply (append_inj_len a b s s); [lia|done].
Qed.
Lemma csv_inj id j r n :
  safe_name id = true → safe_name j = true → dataset_csv id r = dataset_csv j n → id = j ∧ r = n.
Proof.
  intros Hi Hj [-> He]%pool_file_inj; [|done..]. split; [done|].
  injection He as He. by apply append_inj_r in He.
Qed.
Lemma csv_not_anchor id j r n : dataset_csv id r ≠ dataset_anchor j n.
Proof.
  unfold dataset_csv, dataset_anchor, pool_file.
  change (r +:+ ".csv") with (r +:+ (".cs" +:+ String "v" "")).
  change (n +:+ ".meta.json") with (n +:+ (".meta.jso" +:+ String "n" "")).
  rewrite <-!append_assoc. by intros [=]%append_last_inj.
Qed.
Lemma csv_not_meta id j r : safe_name id = true → safe_name j = true → dataset_csv id r ≠ meta_file j.
Proof. intros Hi Hj [_ He]%pool_file_inj; done. Qed.
Lemma anchor_not_meta id j r :
  safe_name id = true → safe_name j = true → dataset_anchor id r ≠ meta_file j.
Proof. intros Hi Hj [_ He]%pool_file_inj; done. Qed.

Section Frames.
Context {T C : Type} `{RedbTable T, RedbTxn (Db T), DbCratesLaws, AuditCrates, Serde AuditEvent}.
Abbreviation St := (AppState T C).

(** An action that leaves a file, or a table, alone. *)
Definition keeps_file {E A} (p : string) (m : act St E A) : Prop :=
  ∀ st, files (storage (m st).2) !! p = files (storage st) !! p.
Definition keeps_table {E A} (n : TableDefinition) (m : act St E A) : Prop :=
  ∀ st, tx_db (m st).2 n = tx_db st n.
Lemma keeps_file_bind {E A B} p (m : act St E A) (f : A → act St E B) :
  keeps_file p m → (∀ a, keeps_file p (f a)) → keeps_file p (m ≫= f).
Proof.
  intros Hm Hf st. rewrite act_bind_eq. specialize (Hm st). destruct (m st) as [[a|] s1]; simpl in *;
    [by rewrite (Hf a s1)|done].
Qed.
Lemma keeps_file_ret {E A} p (a : A) : keeps_file p (mret a : act St E A).
Proof. by intros st. Qed.
Lemma keeps_file_db {E F A} p (m : act (Db T) F A) :
  keeps_file p (best_effort (zoom tx_db set_tx_db m) : act St E unit).
Proof. by intros st. Qed.
Lemma keeps_file_log e env ev id n : keeps_file (pool_file id n) (log_event e env ev : act St ApiError _).
Proof. intros st. apply audit_pool_files. Qed.
Lemma keeps_file_raw io path data p :
  no_tmp p → p ≠ path →
  keeps_file p (zoom storage set_storage (write_raw io path data) : act St StorageError _).
Proof. intros Ht Hp st. by apply atomic_write_other. Qed.
Lemma keeps_file_json {A} `{Serde A} io path (a : A) p :
  no_tmp p → p ≠ path →
  keeps_file p (zoom storage set_storage (write_json io path a) : act St StorageError _).
Proof.
  intros Ht Hp st. unfold write_json, zoom. rewrite act_bind_lift.
  destruct (map_err _ _); [|done]. by apply atomic_write_other.
Qed.
Lemma keeps_file_map_err {E F A} p (f : F → E) (m : act St F A) :
  keeps_file p m → keeps_file p (act_map_err f m).
Proof. intros Hm st. apply Hm. Qed.
Lemma keeps_file_best_effort {E F A} p (m : act St F A) :
  keeps_file p m → keeps_file p (best_effort m : act St E unit).
Proof. intros Hm st. apply Hm. Qed.
Lemma keeps_file_caught {E F A} p (m : act St F A) :
  keeps_file p m → keeps_file p (caught m : act St E _).
Proof. intros Hm st. apply Hm. Qed.
Lemma keeps_file_reads {E A} p (m : act St E A) : reads m → keeps_file p m.
Proof. intros Hm st. by rewrite Hm. Qed.
Lemma write_raw_ok io path data (st : St) s :
  zoom storage set_storage (write_raw io path data) st = (Ok (), s) →
  files (storage s) !! path = Some data ∧ tx_db s = tx_db st.
Proof.
  unfold zoom. destruct (write_raw io path data (storage st)) as [r fs] eqn:Hw.
  intros [= -> <-]. split; [|done]. simpl. unfold write_raw in Hw.
  pose proof (atomic_write_files io path data (storage st) path) as Hf. rewrite Hw in Hf. simpl in Hf.
  destruct (decide (path = with_extension path "tmp")) as [He|Hne].
  - destruct io; simpl in Hw; simplify_eq; simpl; by rewrite lookup_insert_eq.
  - rewrite Hf by done. by rewrite decide_True.
Qed.
End Frames.

Section Issue.
Context {T C K Sec Pub : Type} `{RedbTableLaws T, RedbTxnLaws (Db T), DbCratesLaws, AuditCrates}.
Context `{HashCratesLaws, SolanaLaws, SolanaKeys K, CryptoCrates Sec Pub, CsvCrates, TextCrates}.
Context `{SerdeLaws AuditEvent, SerdeLaws PoolMetadata, Serde WalletMetadata, Serde (list Z)}.
Context `{SerdeLaws (list FieldSchema), Serde Json, SerdeLaws DatasetFileMeta}.
Context `{SerdeLaws DatasetAnchor, SerdeLaws RevocationEntry, FromValue RevocationEntry}.
Context `{!ValueLaws DatasetFileMeta file_meta_value, !ValueLaws RevocationEntry revocation_value}.
Context `{!FromValueLaws RevocationEntry revocation_value}.
Abbreviation St := (AppState T C).

Lemma dataset_csv_path id rid :
  safe_name id = true → safe_name rid = true → dataset_file id (rid +:+ ".csv") = dataset_csv id rid.
Proof.
  intros Hid (Hn & _)%safe_name_facts. apply dataset_path; [done|]. by apply not_starts_slash.
Qed.
Lemma dataset_anchor_path id rid :
  safe_name id = true → safe_name rid = true →
  dataset_file id (rid +:+ ".meta.json") = dataset_anchor id rid.
Proof.
  intros Hid (Hn & _)%safe_name_facts. apply dataset_path; [done|]. by apply not_starts_slash.
Qed.

(** The writes after the dataset: the files of the pool's dataset stay. *)
Lemma save_keeps_file io id m p :
  safe_name id = true → no_tmp p → p ≠ meta_file id → keeps_file p (save_pool_meta io id m : act St _ _).
Proof.
  intros Hid Ht Hp. unfold save_pool_meta. rewrite pool_meta_file by done.
  by apply keeps_file_map_err, keeps_file_json.
Qed.
Lemma record_keeps_file env now id m p : keeps_file p (record_issuance env now id m : act St _ _).
Proof. unfold record_issuance. destruct (to_vec m); [apply keeps_file_db|apply keeps_file_ret]. Qed.

(** An issuance record in the database. *)
Definition issuance_logged (st : St) (id : string) (ts : Z) (r : IssuanceRecord) : Prop :=
  ∃ json v, t_get (tx_db st ISSUANCE_RECORDS) (make_pool_ts_key id ts (ir_record_id r)) = Some json ∧
    json_value "" json = Some v ∧ issuance_of_value v = Some r.
Lemma file_meta_reads m :
  is_u64 (fm_rows m) →
  issuance_of_value (file_meta_value m) =
    Some (mkIssuance (fm_record_id m) (fm_uploaded_by m) (fm_rows m) (fm_uploaded_at m)
            (fm_redeem_tx_signature m)).
Proof.
  destruct m as [r u n t s]. cbn [fm_rows]. intros [Hlo Hhi].
  assert (Hn : as_u64 (JNum n) = Some n).
  { unfold as_u64. by rewrite (proj2 (Z.leb_le 0 n) Hlo), (proj2 (Z.leb_le n U64_MAX) Hhi). }
  transitivity (rows ← as_u64 (JNum n); Some (mkIssuance r u rows t s)); [by destruct s|].
  by rewrite Hn.
Qed.
Lemma record_issuance_stored env now id m (st : St) :
  reliable env → is_u64 (fm_rows m) →
  issuance_logged (record_issuance env now id m st).2 id (timestamp now)
    (mkIssuance (fm_record_id m) (fm_uploaded_by m) (fm_rows m) (fm_uploaded_at m)
       (fm_redeem_tx_signature m)).
Proof.
  intros Henv Hu. destruct (to_vec_total m) as [json Hj]. unfold record_issuance. rewrite Hj.
  exists json, (file_meta_value m). split; [|split; [|by apply file_meta_reads]].
  - unfold best_effort, zoom, upsert_issuance_record. cbn [snd tx_db set_tx_db].
    rewrite run_write_reliable by done. unfold tbl_insert, updating. cbn [fst snd].
    rewrite set_table_eq. apply t_get_insert_eq.
  - unfold json_value. by rewrite (text_value _ _ Hj).
Qed.
Lemma log_keeps_table e env ev n :
  n ∉ [AUDIT_EVENTS; AUDIT_BY_RESOURCE; AUDIT_BY_DATE] →
  keeps_table n (log_event e env ev : act St ApiError _).
Proof. intros Hn st. by apply audit_log_event_tables. Qed.

Lemma record_names r :
  safe_name r = true → starts_with "/" (r +:+ ".csv") = false ∧ starts_with "/" (r +:+ ".meta.json") = false.
Proof. intros (Hn & _)%safe_name_facts. split; by apply not_starts_slash. Qed.
Lemma caught_ok {E F A} (m : act St F A) (st : St) r (s : St) :
  (caught m : act St E _) st = (Ok r, s) → m st = (r, s).
Proof. unfold caught. intros [= <- <-]. by destruct (m st). Qed.

(** The dataset and its anchor are written: nothing else changes. *)
Lemma dataset_stage io io' id r csv (a : DatasetAnchor) (st s1 s2 : St) :
  safe_name id = true → safe_name r = true →
  zoom storage set_storage (write_raw io (dataset_csv id r) csv) st = (Ok (), s1) →
  (zoom storage set_storage (write_json io' (dataset_anchor id r) a) s1).2 = s2 →
  reg_eq (registry s2) (registry st) ∧ files (storage s2) !! dataset_csv id r = Some csv ∧
  (∀ j n, safe_name j = true → (j, n) ≠ (id, r) →
     files (storage s2) !! dataset_csv j n = files (storage st) !! dataset_csv j n) ∧
  (io' = IoOk → ∃ data, files (storage s2) !! dataset_anchor id r = Some data ∧ from_slice data = Ok a).
Proof.
  intros Hid Hr Hw <-. destruct (write_raw_ok _ _ _ _ _ Hw) as [Hcsv _]. split_and!.
  - destruct (record_names r Hr) as [Hn Hn'].
    rewrite <-(dataset_anchor_path id r) by done. etrans; [by apply dataset_json_still|].
    rewrite <-(dataset_csv_path id r) in Hw by done.
    replace s1 with (zoom storage set_storage (write_raw io (dataset_file id (r +:+ ".csv")) csv) st).2
      by (by rewrite Hw).
    by apply dataset_write_still.
  - rewrite (keeps_file_json _ _ _ _ (csv_no_tmp id r) (csv_not_anchor _ _ _ _)). done.
  - intros j n Hj Hne. rewrite (keeps_file_json _ _ _ _ (csv_no_tmp j n) (csv_not_anchor _ _ _ _)).
    replace s1 with (zoom storage set_storage (write_raw io (dataset_csv id r) csv) st).2 by (by rewrite Hw).
    apply keeps_file_raw; [apply csv_no_tmp|]. intros [-> ->]%csv_inj; done.
  - intros ->. destruct (to_vec_pretty_total a) as [data Hd]. exists data. split; [|by apply from_to_pretty].
    unfold zoom, write_json. rewrite act_bind_lift, Hd. simpl. by rewrite lookup_insert_eq.
Qed.
(** The metadata is saved and mirrored, the record stored and the event logged. *)
Lemma bookkeeping_stage {A} e env io db db' now id m fm ev (x y : A) (st st' : St) :
  safe_name id = true → is_u64 (fm_rows fm) →
  (_ ← save_pool_meta io id m; _ ← mirror_meta db m; _ ← record_issuance db' now id fm;
   _ ← log_event e env ev; mret x) st = (Ok y, st') →
  y = x ∧ registry st' id = Some m ∧
  (∀ j n, no_tmp (pool_file j n) → pool_file j n ≠ meta_file id →
     files (storage st') !! pool_file j n = files (storage st) !! pool_file j n) ∧
  (reliable db' → issuance_logged st' id (timestamp now)
     (mkIssuance (fm_record_id fm) (fm_uploaded_by fm) (fm_rows fm) (fm_uploaded_at fm)
        (fm_redeem_tx_signature fm))).
Proof.
  intros Hid Hu Hi. pose proof (save_meta_effect io id m st Hid) as Hreg.
  pose proof (λ p Ht Hp, save_keeps_file io id m p Hid Ht Hp st) as Hf.
  apply act_bind_ok in Hi as (u1 & s1 & Hs & Hi). rewrite Hs in *. cbn [is_ok] in Hreg. cbn [snd] in Hf.
  apply act_bind_ok in Hi as (u2 & s2 & Hm & Hi). injection Hm as <- <-.
  apply act_bind_ok in Hi as (u3 & s3 & Hr & Hi).
  apply act_bind_ok in Hi as (u4 & s4 & Hl & Hi). injection Hi as <- <-.
  set (s2 := set_tx_db _ s1) in *.
  pose proof (record_still db' now id fm s2) as Hreg3.
  pose proof (λ p, record_keeps_file db' now id fm p s2) as Hf3.
  pose proof (record_issuance_stored db' now id fm s2) as Hlogged.
  rewrite Hr in *. cbn [snd] in *.
  pose proof (still_log e env ev s3) as Hreg4. pose proof (λ j n, keeps_file_log e env ev j n s3) as Hf4.
  pose proof (λ n Hn, log_keeps_table e env ev n Hn s3) as Ht4. rewrite Hl in *. cbn [snd] in *.
  split; [done|]. split; [|split].
  - rewrite (Hreg4 id Hid), (Hreg3 id Hid). change (registry s2 id) with (registry s1 id).
    rewrite (Hreg id Hid). unfold reg_insert. by rewrite decide_True.
  - intros j n Htmp Hne. rewrite Hf4, Hf3. by apply Hf.
  - intros Henv. destruct (Hlogged Henv Hu) as (json & v & Hg & Hj & Hv). exists json, v.
    split; [|done]. rewrite Ht4; [done|set_solver].
Qed.

(** What the dataset write and the bookkeeping after it leave, for one record. *)
Lemma issue_locked_ok e token id csv pda meta rid mint uuid (kp : K) (st st' : St) resp :
  let r := ce_record_id e in
  let c := compute_commitment r uuid rid in
  let sig := ic_redeem_signature resp in
  let rows := count_csv_rows csv in
  safe_name id = true → safe_name r = true → registry st id = Some meta → is_u64 rows →
  issue_locked e token id csv pda meta (rid, mint, uuid) kp st = (Ok resp, st') →
  sent_tx (ce_rpc e) "finalized"
    [build_grant_right pda (derive_drt_config_pda pda rid).1 mint (kp_key kp) c] (kp_key kp) sig ∧
  resp = mkIssued r rows sig (wrap64 (p_total_credentials meta + rows)) (ce_explorer e sig) ∧
  files (storage st') !! dataset_csv id r = Some csv ∧
  registry st' id = Some (meta_issued (ce_now e 1%nat) rows meta) ∧
  (∀ j n, safe_name j = true → (j, n) ≠ (id, r) →
     files (storage st') !! dataset_csv j n = files (storage st) !! dataset_csv j n) ∧
  (ce_io e 5%nat = IoOk → ∃ data, files (storage st') !! dataset_anchor id r = Some data ∧
     from_slice data = Ok (mkAnchor r (sha256_hex csv) (Some (hex_of c)))) ∧
  (reliable (ce_db e 2%nat) →
     issuance_logged st' id (timestamp (ce_now e 2%nat))
       (mkIssuance r (sub token) rows (to_rfc3339 (ce_now e 0%nat)) (Some sig))).
Proof.
  cbv zeta. intros Hid Hr Hm Hu Hi. unfold issue_locked in Hi. cbv zeta in Hi.
  peel Hi as [sig events] Hs%sign_send_ok. rewrite dataset_csv_path, dataset_anchor_path in Hi by done.
  apply act_bind_ok in Hi as (w & s1 & Hw%caught_ok & Hi).
  destruct w as [[]|x]; [|by apply act_bind_ok in Hi as (? & ? & _ & Hi)].
  apply act_bind_ok in Hi as (u2 & s2 & Ha & Hi). injection Ha as <- Hs2.
  apply reads_bind_ok in Hi as (cur & Hl & Hi); [|auto with rsdk].
  set (r := ce_record_id e) in *. set (c := compute_commitment r uuid rid) in *.
  set (rows := count_csv_rows csv) in *.
  destruct (dataset_stage _ _ _ _ _ _ _ _ _ Hid Hr Hw Hs2) as (Hreg & Hcsv & Hother & Hanchor).
  apply load_meta_ok in Hl; [|done]. rewrite (Hreg id Hid), Hm in Hl. injection Hl as <-.
  apply bookkeeping_stage in Hi as (-> & Hreg' & Hf & Hlog); [|done..]. simpl.
  split; [done|]. split; [done|]. split_and!; [|done| | |exact Hlog].
  - unfold dataset_csv. rewrite Hf; [done|apply csv_no_tmp|by apply csv_not_meta].
  - intros j n Hj Hne. rewrite <-(Hother j n Hj Hne). unfold dataset_csv at 1.
    rewrite Hf; [done|apply csv_no_tmp|by apply csv_not_meta].
  - intros Hio. destruct (Hanchor Hio) as (data & Hd & Hdec). exists data. split; [|done].
    unfold dataset_anchor. rewrite Hf; [done|apply anchor_no_tmp|by apply anchor_not_meta].
Qed.

(** C6: an issuance stores what it received, once, and leaves its receipts.  A
    successful issuance was made by the owner of a ready MALTA pool who holds an
    append right, with a dataset that was sealed for the enclave and passes the
    pool's schema; the append right was burned by a finalized transaction that
    commits to the record id, the pool and the right.  The record's file holds
    exactly the decrypted dataset and every other dataset of every pool is
    unchanged; the pool's row count grew by the rows of the dataset; the anchor,
    if its write worked, holds the digest and the commitment; the issuance log, if
    its transaction worked, has the record with the burn's signature. *)
Theorem issuance_recorded (enclave : Sec) (e : CredEnv T) (token : TokenData) (id : string)
    (mp : Multipart) (st st' : St) (resp : IssueCredentialsResponse) :
  let r := ce_record_id e in
  safe_name r = true →
  issue_credentials (K := K) enclave e token id mp st = (Ok resp, st') →
  ∃ csv pda meta rid mint uuid (kp : K),
    let rows := count_csv_rows csv in
    let c := compute_commitment r uuid rid in
    let sig := ic_redeem_signature resp in
    issue_ready enclave e token id mp st csv pda meta rid mint uuid kp ∧
    sent_tx (ce_rpc e) "finalized"
      [build_grant_right pda (derive_drt_config_pda pda rid).1 mint (kp_key kp) c] (kp_key kp) sig ∧
    resp = mkIssued r rows sig (wrap64 (p_total_credentials meta + rows)) (ce_explorer e sig) ∧
    files (storage st') !! dataset_csv id r = Some csv ∧
    registry st' id = Some (meta_issued (ce_now e 1%nat) rows meta) ∧
    (∀ j n, safe_name j = true → (j, n) ≠ (id, r) →
       files (storage st') !! dataset_csv j n = files (storage st) !! dataset_csv j n) ∧
    (ce_io e 5%nat = IoOk → ∃ data, files (storage st') !! dataset_anchor id r = Some data ∧
       from_slice data = Ok (mkAnchor r (sha256_hex csv) (Some (hex_of c)))) ∧
    (reliable (ce_db e 2%nat) →
       issuance_logged st' id (timestamp (ce_now e 2%nat))
         (mkIssuance r (sub token) rows (to_rfc3339 (ce_now e 0%nat)) (Some sig))).
Proof.
  cbv zeta. intros Hr Hi.
  apply reads_bind_ok in Hi as ([[[[csv pda] meta] [[rid mint] uuid]] kp] & Hc & Hi);
    [|apply issue_checks_reads].
  pose proof (issue_checks_ok enclave e token id mp st _ csv pda meta rid mint uuid kp
    (surjective_pairing_with _ _ Hc)) as Hready.
  exists csv, pda, meta, rid, mint, uuid, kp. split; [done|].
  destruct Hready as [Hcsv Hpda Hm _ _ _ _ _ _ _].
  by apply (issue_locked_ok e token id csv pda meta rid mint uuid kp st st' resp
    (pubkey_str_safe _ _ Hpda) Hr Hm (rows_u64 _ (parse_csv_size _ _ _ Hcsv))).
Qed.

(** ** A failed write after the burn *)

Lemma failed_details v1 v2 v3 v4 v5 :
  json_get "redeem_tx_sig" (obj [("pool_pda", v1); ("record_id", v2); ("redeem_tx_sig", v3);
    ("error", v4); ("chain", v5)]) = Some v3.
Proof. vm_compute. reflexivity. Qed.

End Issue.

(** ** Revocation *)

Section Revoke.
Context {T C K : Type} `{RedbTableLaws T, RedbTxnLaws (Db T), DbCratesLaws, AuditCrates}.
Context `{HashCratesLaws, SolanaLaws, SolanaKeys K, TextCrates}.
Context `{SerdeLaws AuditEvent, SerdeLaws PoolMetadata, Serde WalletMetadata, Serde (list Z)}.
Context `{SerdeLaws (list FieldSchema), Serde Json, SerdeLaws RevocationEntry, FromValue RevocationEntry}.
Context `{!ValueLaws RevocationEntry revocation_value, !FromValueLaws RevocationEntry revocation_value}.
Abbreviation St := (AppState T C).

Definition revocations_file (id : string) : string := pool_file id "revocations.jsonl".
Lemma revocations_path id : safe_name id = true → pool_revocations DATA_DIR id = revocations_file id.
Proof. intros Hid. by apply pool_path. Qed.
Lemma revocations_no_tmp id : no_tmp (revocations_file id).
Proof.
  exists ("/data/pools/" +:+ id +:+ "/revocations.json"), "l"%char. split; [|done].
  unfold revocations_file, pool_file. by rewrite !append_assoc.
Qed.

Lemma check_records_ok io id cids s u :
  check_records io id cids s = Ok u →
  ∀ cid, cid ∈ cids → ∃ f, exists_resolved f (dataset_file id (cid +:+ ".csv")) s = true.
Proof.
  induction cids as [|c rest IH]; intros Hc cid Hin; [by apply elem_of_nil in Hin|].
  apply result_bind_ok in Hc as (? & Hr%reject_if_ok%negb_false_iff & Hc).
  apply elem_of_cons in Hin as [->|Hin]; [by eauto|by apply IH].
Qed.
Lemma revocation_lines_ok entry cids text :
  revocation_lines entry cids = Ok text →
  ∃ ls, text = unlines ls ∧ Forall2 (λ cid l, to_vec (entry cid) = Ok l) cids ls.
Proof.
  revert text. induction cids as [|c rest IH]; intros text Hl; simpl in Hl; [injection Hl as <-; by exists []|].
  apply result_bind_ok in Hl as (l & Hj%map_err_ok & Hl). apply result_bind_ok in Hl as (more & Hm & Hl).
  injection Hl as <-. destruct (IH _ Hm) as (ls & -> & Hall). exists (l :: ls). split; [done|].
  by constructor.
Qed.
Lemma append_file_ok io path data s s' :
  append_file io path data s = (Ok (), s') →
  files s' = <[path := default "" (files s !! path) +:+ data]> (files s).
Proof.
  unfold append_file. cbv zeta. destruct io; try done;
    match goal with |- context [if ?b then _ else _] => destruct b end; by intros [= <-].
Qed.

(** A revocation in the database. *)
Definition revocation_stored (db : Db T) (id : string) (entry : RevocationEntry) : Prop :=
  ∃ json v, t_get (db REVOCATIONS) (key2 id (rv_credential_id entry)) = Some json ∧
    json_value "" json = Some v ∧ from_value v = Ok entry.
Lemma mirror_revocation_one env id cid json (st : St) :
  reliable env →
  tx_db ((best_effort (zoom tx_db set_tx_db (upsert_revocation env id cid json)) : act St ApiError _) st).2
    = set_table REVOCATIONS (t_insert (key2 id cid) json (tx_db st REVOCATIONS)) (tx_db st).
Proof.
  intros Henv. unfold best_effort, zoom, upsert_revocation. cbn [snd tx_db set_tx_db].
  by rewrite run_write_reliable.
Qed.
Lemma mirror_revocations_stored db id (entry : string → RevocationEntry) cids (st : St) :
  (∀ n, reliable (db n)) → (∀ cid, rv_credential_id (entry cid) = cid) →
  let st' := (mirror_revocations db id entry cids st).2 in
  (∀ cid, cid ∈ cids → revocation_stored (tx_db st') id (entry cid)) ∧
  (∀ k, (∀ cid, cid ∈ cids → k ≠ key2 id cid) →
     t_get (tx_db st' REVOCATIONS) k = t_get (tx_db st REVOCATIONS) k).
Proof.
  intros Henv Hent. cbv zeta. revert st. induction cids as [|c rest IH]; intros st.
  { split; [by intros cid ?%elem_of_nil|done]. }
  cbn [mirror_revocations]. destruct (to_vec_total (entry c)) as [json Hj]. rewrite Hj, act_bind_eq.
  set (m := best_effort _). pose proof (mirror_revocation_one (db (length rest)) id c json st (Henv _)) as Hdb1.
  change (tx_db (m st).2 = set_table REVOCATIONS (t_insert (key2 id c) json (tx_db st REVOCATIONS))
    (tx_db st)) in Hdb1.
  assert (Hm : m st = (Ok (), (m st).2)) by done. rewrite Hm. clear Hm. generalize dependent (m st).2.
  intros s1 Hdb1. destruct (IH s1) as [Hin Hout]. split.
  - intros cid Hc. destruct (decide (cid ∈ rest)) as [Hr|Hr]; [by apply Hin|].
    assert (cid = c) as -> by (apply elem_of_cons in Hc as [?|?]; done).
    exists json, (revocation_value (entry c)). rewrite Hent. split; [|split].
    + rewrite Hout, Hdb1, set_table_eq, t_get_insert_eq; [done|].
      intros cid' Hc' He. apply append_inj_len in He as [_ He]; [|done]. by simplify_eq/=.
    + unfold json_value. by rewrite (text_value _ _ Hj).
    + apply from_to_value.
  - intros k Hk. rewrite Hout by set_solver. rewrite Hdb1, set_table_eq, t_get_insert_ne; [done|].
    intros He. apply (Hk c); [set_solver|done].
Qed.

Lemma mirror_revocations_files db id entry cids p :
  keeps_file p (mirror_revocations db id entry cids : act St _ _).
Proof.
  induction cids as [|c rest IH]; [apply keeps_file_ret|]. apply keeps_file_bind; [|by intros _].
  destruct (to_vec _); [apply keeps_file_db|apply keeps_file_ret].
Qed.
Lemma mirror_keeps_revocations env m : keeps_table REVOCATIONS (mirror_meta env m : act St ApiError _).
Proof.
  intros st. unfold mirror_meta, best_effort, zoom. cbn [snd tx_db set_tx_db].
  assert (Ht : touches [POOL_METADATA; POOL_BY_OWNER] (upsert_pool_meta (T := T) env m))
    by (unfold upsert_pool_meta; solve_touches).
  apply Ht. set_solver.
Qed.
(** The metadata is saved and mirrored, the entries stored and the event logged. *)
Lemma revoke_tail {A} e env io db dbs id m (entry : string → RevocationEntry) cids ev (x y : A)
    (st st' : St) :
  safe_name id = true → (∀ cid, rv_credential_id (entry cid) = cid) →
  (_ ← save_pool_meta io id m; _ ← mirror_meta db m; _ ← mirror_revocations dbs id entry cids;
   _ ← log_event e env ev; mret x) st = (Ok y, st') →
  y = x ∧ registry st' id = Some m ∧
  (∀ j n, no_tmp (pool_file j n) → pool_file j n ≠ meta_file id →
     files (storage st') !! pool_file j n = files (storage st) !! pool_file j n) ∧
  (reliable db → (∀ n, reliable (dbs n)) →
     (∀ cid, cid ∈ cids → revocation_stored (tx_db st') id (entry cid)) ∧
     ∀ k, (∀ cid, cid ∈ cids → k ≠ key2 id cid) →
       t_get (tx_db st' REVOCATIONS) k = t_get (tx_db st REVOCATIONS) k).
Proof.
  intros Hid Hent Hi. pose proof (save_meta_effect io id m st Hid) as Hreg.
  pose proof (λ p Ht Hp, save_keeps_file io id m p Hid Ht Hp st) as Hf.
  assert (Hdb1 : tx_db (save_pool_meta io id m st).2 = tx_db st) by done.
  apply act_bind_ok in Hi as (u1 & s1 & Hs & Hi). rewrite Hs in *. cbn [is_ok] in Hreg. cbn [snd] in *.
  pose proof (mirror_keeps_revocations db m s1) as Hdb2.
  apply act_bind_ok in Hi as (u2 & s2 & Hm & Hi). rewrite Hm in Hdb2. injection Hm as <- <-.
  apply act_bind_ok in Hi as (u3 & s3 & Hr & Hi).
  apply act_bind_ok in Hi as (u4 & s4 & Hl & Hi). injection Hi as <- <-.
  set (s2 := set_tx_db _ s1) in *. cbn [snd] in Hdb2.
  pose proof (mirror_revocations_still dbs id entry cids s2) as Hreg3.
  pose proof (λ p, mirror_revocations_files dbs id entry cids p s2) as Hf3.
  pose proof (mirror_revocations_stored dbs id entry cids s2) as Hstored.
  rewrite Hr in *. cbn [snd] in *.
  pose proof (still_log e env ev s3) as Hreg4. pose proof (λ j n, keeps_file_log e env ev j n s3) as Hf4.
  pose proof (λ n Hn, log_keeps_table e env ev n Hn s3) as Ht4. rewrite Hl in *. cbn [snd] in *.
  split; [done|]. split; [|split].
  - rewrite (Hreg4 id Hid), (Hreg3 id Hid). change (registry s2 id) with (registry s1 id).
    rewrite (Hreg id Hid). unfold reg_insert. by rewrite decide_True.
  - intros j n Htmp Hne. rewrite Hf4, Hf3. by apply Hf.
  - intros Henv Henvs. destruct (Hstored Henvs Hent) as [Hin Hout]. split.
    + intros cid Hc. destruct (Hin cid Hc) as (json & v & Hg & Hj & Hfv). exists json, v.
      split; [|done]. rewrite Ht4; [done|set_solver].
    + intros k Hk. rewrite Ht4 by set_solver. rewrite Hout by done. by rewrite Hdb2, Hdb1.
Qed.

(** C18: a revocation is recorded everywhere it is read.  A successful revocation
    was asked by the active owner of the pool, for credentials whose dataset files
    can all be opened.  It appended to the revocation file one line per credential
    that reads back as its entry, counted them in the pool's metadata, changed no
    dataset, and, when the database transactions worked, stored an entry per
    credential and kept every other one. *)
Theorem revocation_recorded (e : CredEnv T) (token : TokenData) (id : string)
    (payload : RevokeCredentialsRequest) (st st' : St) (n : nat) :
  let cids := rq_credential_ids payload in
  let entry cid := mkRevocation cid (sub token) (to_rfc3339 (ce_now e 0%nat)) (rq_reason payload) in
  revoke_credentials (K := K) e token id payload st = (Ok n, st') →
  n = length cids ∧ (0 < n)%nat ∧
  (∃ pda pool wallet meta,
     pubkey_from_str id = Some pda ∧ fetch_pool (rpc_account (ce_rpc e) pda) pda = Ok pool ∧
     w_owner_user_id wallet = sub token ∧ w_status wallet = WActive ∧
     pubkey_from_str (w_public_address wallet) = Some (pl_owner pool) ∧
     registry st id = Some meta ∧ registry st' id = Some (meta_revoked (Z.of_nat n) meta)) ∧
  (∀ cid, cid ∈ cids → ∃ f, exists_resolved f (dataset_file id (cid +:+ ".csv")) (storage st) = true) ∧
  (∃ ls, Forall2 (λ cid l, from_slice l = Ok (entry cid)) cids ls ∧
     files (storage st') !! revocations_file id
       = Some (default "" (files (storage st) !! revocations_file id) +:+ unlines ls)) ∧
  (∀ j r, safe_name j = true →
     files (storage st') !! dataset_csv j r = files (storage st) !! dataset_csv j r) ∧
  ((∀ k, reliable (ce_db e k)) →
     (∀ cid, cid ∈ cids → revocation_stored (tx_db st') id (entry cid)) ∧
     ∀ k, (∀ cid, cid ∈ cids → k ≠ key2 id cid) →
       t_get (tx_db st' REVOCATIONS) k = t_get (tx_db st REVOCATIONS) k).
Proof.
  cbv zeta. intros Hv. unfold revoke_credentials in Hv. cbv zeta in Hv.
  peel Hv as [] Hne%reject_if_ok. peel Hv as pda Hpda%ok_or_ok.
  pose proof (pubkey_str_safe _ _ Hpda) as Hid.
  apply act_bind_ok in Hv as ([wallet kp] & s0 & Hw & Hv).
  pose proof (wallet_keypair_reads (K := K) (ce_io e) (rq_wallet_id payload) (sub token) st) as Hs0.
  rewrite Hw in Hs0. simpl in Hs0. subst s0.
  apply load_wallet_keypair_ok in Hw as (_ & Hown & Hact & _).
  peel Hv as pool Hpool. peel Hv as [] Hok%verify_pool_ownership_ok.
  apply reads_bind_ok in Hv as (m0 & Hm0 & Hv); [|auto with rsdk].
  apply reads_bind_ok in Hv as ([] & Hrec & Hv); [|auto with rsdk].
  peel Hv as text (ls & -> & Hls)%revocation_lines_ok.
  apply act_bind_ok in Hv as ([] & s1 & Hap & Hv).
  pose proof (append_still (ce_io e 3%nat) id (unlines ls) Hid st) as Hreg1. rewrite Hap in Hreg1. cbn [snd] in Hreg1.
  unfold zoom in Hap. destruct (append_file _ _ _ (storage st)) as [ra fs] eqn:Hfs.
  injection Hap as -> <-. apply append_file_ok in Hfs. rewrite revocations_path in Hfs by done.
  set (s1 := set_storage fs st) in *.
  apply reads_bind_ok in Hv as (cur & Hcur & Hv); [|auto with rsdk].
  apply load_meta_ok in Hm0, Hcur; [|done..]. rewrite (Hreg1 id Hid), Hm0 in Hcur. injection Hcur as <-.
  apply revoke_tail in Hv as (-> & Hreg' & Hf & Hdb); [|done..].
  split; [done|]. split; [destruct (rq_credential_ids payload) as [|c l]; [done|simpl; lia]|].
  split; [by exists pda, pool, wallet, m0|]. split; [exact (check_records_ok _ _ _ _ _ Hrec)|]. split_and!.
  - exists ls. split; [eapply Forall2_impl; [exact Hls|]; intros cid l Hl; by apply from_to|].
    unfold revocations_file at 1. rewrite Hf; [|apply revocations_no_tmp|by intros [_ ?]%pool_file_inj].
    simpl. rewrite Hfs. apply lookup_insert_eq.
  - intros j r Hj. unfold dataset_csv at 1. rewrite Hf; [|apply csv_no_tmp|by apply csv_not_meta].
    simpl. rewrite Hfs. apply lookup_insert_ne. by intros [_ ?]%pool_file_inj.
  - intros Henv. apply Hdb; intros; apply Henv.
Qed.
End Revoke.

(** ** The example run *)

Lemma issuance_recorded_witness :
  ∃ resp, issue_credentials (K := unit) enclave3 (cenv3 "r1") alice pool3 (form3 csv_b) w_ready
            = (Ok resp, w_issued) ∧
    files (storage w_issued) !! dataset_csv pool3 "r1" = Some csv_b.
Proof.
  assert (Hr : (issue_credentials (K := unit) enclave3 (cenv3 "r1") alice pool3 (form3 csv_b) w_ready).1
    = Ok (mkIssued "r1" 1 "sig" 3 "sig")) by exact (proj1 (proj2 (proj2 run_succeeds))).
  pose proof (surjective_pairing_with _ _ Hr) as Hi.
  exists (mkIssued "r1" 1 "sig" 3 "sig"). split; [exact Hi|].
  destruct (issuance_recorded (K := unit) enclave3 (cenv3 "r1") alice pool3 (form3 csv_b) w_ready w_issued
    _ eq_refl Hi) as (csv & pda & meta & rid & mint & uuid & kp & Hready & _ & _ & Hcsv & _).
  assert (Hc : csv = csv_b).
  { pose proof (iy_csv _ _ _ _ _ _ _ _ _ _ _ _ _ Hready) as Hp.
    assert (Hf : parse_csv_payload enclave3 (form3 csv_b) = Ok csv_b) by (vm_compute; reflexivity).
    rewrite Hf in Hp. by injection Hp as <-. }
  rewrite Hc in Hcsv. exact Hcsv.
Defined.

Definition cenv4 : CredEnv table0 :=
  mkCredEnv (λ n, if (n =? 4)%nat then IoWrite "disk full" None else IoOk) (λ _, env0) rpc3 (λ _, Ok "5")
    (λ _, Ok "4") ai0 "ev-4" (λ n, mkDateTime (5 + Z.of_nat n) 0) "r1" (λ s, s).
Lemma checks4 :
  match (issue_checks (K := unit) enclave3 cenv4 alice pool3 (form3 csv_b) w_ready).1 with
  | Ok x => x.1.1.1.1
  | Err _ => ""
  end = csv_b.
Proof. vm_compute. reflexivity. Qed.

Lemma revocation_recorded_witness :
  revocation_stored (tx_db w_revoked) pool3 (mkRevocation "r1" "al" "5" (Some "typo")).
Proof.
  pose proof (proj2 (proj2 (proj2 run_succeeds))) as Hr.
  pose proof (surjective_pairing_with _ _ Hr) as Hv.
  destruct (revocation_recorded (K := unit) (cenv3 "-") alice pool3 revoke3 w_issued w_revoked 2 Hv)
    as (_ & _ & _ & _ & _ & _ & Hdb).
  apply (proj1 (Hdb (λ _, env0_reliable)) "r1"). apply list_elem_of_here.
Defined.

(** The revocation counter counts requests, not revocations.  Revoking the
    same credential twice in one request is answered with 2 and the pool's
    metadata counts 2 revoked credentials, while the database holds one
    revocation. *)
Theorem repeated_revocation_counted_twice :
  let payload := mkRevoke "w1" ["r1"; "r1"] None in
  let '(res, st') := revoke_credentials (K := unit) (cenv3 "-") alice pool3 payload w_issued in
  res = Ok 2%nat ∧ (p_revoked_count <$> registry st' pool3) = Some 2 ∧
  (count_revocations env0 pool3 (tx_db st')).1 = Ok 1%nat.
Proof. vm_compute. done. Qed.

(** A credential id may name a file outside the pool's records.  The check
    that a credential exists follows parent directories: the id [../dataset/r1],
    which no issuance ever produced, is accepted, counted and stored as a
    revocation. *)
Theorem revocation_follows_parent_directories :
  let cid := "../dataset/r1" in
  let '(res, st') :=
    revoke_credentials (K := unit) (cenv3 "-") alice pool3 (mkRevoke "w1" [cid] None) w_issued in
  res = Ok 1%nat ∧ files (storage w_issued) !! dataset_csv pool3 cid = None ∧
  revocation_stored (tx_db st') pool3 (mkRevocation cid "al" "5" None).
Proof. vm_compute. split; [done|]. split; [done|]. eexists _, _. split; [reflexivity|]. done. Qed.
