(* ===== verification/PoolRaces.v ===== *)
(** * Concurrent updates of a pool

    The server runs requests on several threads.  The requests of
    src/src/api/credentials.rs that update a pool's metadata load the file, change
    the record and save it; issuance does so under a lock per pool, initialisation
    and revocation do not.  Here a schedule interleaves such requests at those
    points: one event lets one thread take its next step, which is the lock, the
    load ([load_meta]) or the save ([save_pool_meta]), each atomic and with its
    own failure.  What the requests do between these points does not change the
    metadata (the [still] lemmas of [PoolRegistry]). *)
From S2P Require Import Prelude.
From S2P Require Import RustStr.
From S2P Require Import RustFmt.
From S2P Require Import Errors.
From S2P Require Import Types.
From S2P Require Import Interfaces.
From S2P Require Import TxDatabase.
From S2P Require Import Instances.
From S2P Require Import Text.
From S2P Require Import Storage.
From S2P Require Import TxCache.
From S2P Require Import AppState.
From S2P Require Import AuditLog.
From S2P Require Import Wallets.
From S2P Require Import WalletFacts.
From S2P Require Import DataValidation.
From S2P Require Import VerifiedFetch.
From S2P Require Import FetchFacts.
From S2P Require Import DrtProgram.
From S2P Require Import DrtProgramFacts.
From S2P Require Import PoolFacts.
From S2P Require Import Upload.
From S2P Require Import UploadFacts.
From S2P Require Import Credentials.
From S2P Require Import PoolExamples.
From S2P Require Import PoolRegistry.
From S2P Require Import PoolLife.

Local Open Scope Z_scope.
#[local] Arguments String.append : simpl nomatch.

(** ** Threads *)

Inductive update :=
| Initialise (now : DateTime) (rows : Z)
| Issue (now : DateTime) (rows : Z)
| Revoke (count : Z).
Record job := mkJob { j_pool : string; j_update : update }.
Inductive pc :=
| Start
| Holding
| Loaded (m : PoolMetadata)
| Finished (success : bool).

(** [state.pool_locks]: the thread that holds the lock of a pool. *)
Abbreviation locks := (gmap string (option nat)).
Definition acquire_pool_lock (pool : string) (l : locks) : locks :=
  match l !! pool with Some _ => l | None => <[pool := None]> l end.

(** Only an issuance takes the lock. *)
Definition takes_lock (u : update) : bool := match u with Issue _ _ => true | _ => false end.
(** The checks between the load and the save; those of an issuance come before
    its lock. *)
Definition admits (u : update) (m : PoolMetadata) : bool :=
  match u with
  | Initialise _ _ => bool_decide (p_state m = NeedsInit) && negb (bool_decide (p_kind m = IobErp))
  | _ => true
  end.
Definition updated (u : update) (m : PoolMetadata) : PoolMetadata :=
  match u with
  | Initialise now rows => meta_initialized now rows m
  | Issue now rows => meta_issued now rows m
  | Revoke n => meta_revoked n m
  end.
(** The guard is dropped when the thread that holds it ends. *)
Definition release (i : nat) (pool : string) (l : locks) : locks :=
  if bool_decide (l !! pool = Some (Some i)) then <[pool := None]> l else l.

(** ** Schedules *)

Section Race.
Context {T C : Type} `{Serde PoolMetadata}.
Abbreviation St := (AppState T C).

Record race := mkRace { rs_state : St; rs_locks : locks; rs_threads : list (job * pc) }.

Definition do_load (i : nat) (io : io_fault) (j : job) (c : race) : race :=
  let '(r, st) := load_meta io (j_pool j) (rs_state c) in
  match r with
  | Ok m =>
      if admits (j_update j) m then
        mkRace st (rs_locks c) (<[i := (j, Loaded m)]> (rs_threads c))
      else mkRace st (release i (j_pool j) (rs_locks c)) (<[i := (j, Finished false)]> (rs_threads c))
  | Err _ => mkRace st (release i (j_pool j) (rs_locks c)) (<[i := (j, Finished false)]> (rs_threads c))
  end.
Definition do_save (i : nat) (io : io_fault) (j : job) (m : PoolMetadata) (c : race) : race :=
  let '(r, st) := save_pool_meta io (j_pool j) (updated (j_update j) m) (rs_state c) in
  mkRace st (release i (j_pool j) (rs_locks c)) (<[i := (j, Finished (is_ok r))]> (rs_threads c)).
Definition do_lock (i : nat) (j : job) (c : race) : race :=
  let l := acquire_pool_lock (j_pool j) (rs_locks c) in
  match l !! j_pool j with
  | Some None => mkRace (rs_state c) (<[j_pool j := Some i]> l) (<[i := (j, Holding)]> (rs_threads c))
  | _ => mkRace (rs_state c) l (rs_threads c)
  end.
(** One event: the thread that runs, and the outcome of its file operation. *)
Definition race_step (c : race) (ev : nat * io_fault) : race :=
  let '(i, io) := ev in
  match rs_threads c !! i with
  | Some (j, Start) => if takes_lock (j_update j) then do_lock i j c else do_load i io j c
  | Some (j, Holding) => do_load i io j c
  | Some (j, Loaded m) => do_save i io j m c
  | Some (j, Finished _) => c
  | None => c
  end.
Definition race_run (schedule : list (nat * io_fault)) (c : race) : race := foldl race_step c schedule.
Definition race_start (st : St) (jobs : list job) : race := mkRace st ∅ ((λ j, (j, Start)) <$> jobs).
End Race.
Arguments race : clear implicits.
Arguments mkRace {T C} _ _ _.

(** ** Counting *)

(** The rows a thread has added to a pool. *)
Definition added_rows (pool : string) (t : job * pc) : Z :=
  match t with
  | (mkJob p (Issue _ rows), Finished true) => if decide (p = pool) then rows else 0
  | _ => 0
  end.
#[global] Arguments added_rows : simpl never.
Fixpoint total_added (pool : string) (ts : list (job * pc)) : Z :=
  match ts with
  | [] => 0
  | t :: ts' => added_rows pool t + total_added pool ts'
  end.
Lemma total_added_insert pool ts i t t' :
  ts !! i = Some t →
  total_added pool (<[i := t']> ts) = total_added pool ts - added_rows pool t + added_rows pool t'.
Proof.
  revert i. induction ts as [|x ts IH]; intros [|i] Hi; simpl in *; try done.
  - simplify_eq. lia.
  - rewrite IH by done. lia.
Qed.
Definition is_issue (j : job) : Prop :=
  safe_name (j_pool j) = true ∧ ∃ now rows, j_update j = Issue now rows.
Definition in_section (p : pc) : Prop := match p with Holding | Loaded _ => True | _ => False end.

Section Serial.
Context {T C : Type} `{SerdeLaws PoolMetadata}.
Abbreviation St := (AppState T C).

(** Threads in their critical section hold the lock of their pool, and what they
    loaded is still what is stored; the total of a pool is what it was and the
    rows of the issuances that succeeded. *)
Record serial (st0 : St) (c : race T C) : Prop := {
  se_jobs i j p : rs_threads c !! i = Some (j, p) → is_issue j;
  se_lock i j p : rs_threads c !! i = Some (j, p) → in_section p → rs_locks c !! j_pool j = Some (Some i);
  se_load i j m : rs_threads c !! i = Some (j, Loaded m) → registry (rs_state c) (j_pool j) = Some m;
  se_total pool m0 : safe_name pool = true → registry st0 pool = Some m0 →
    is_u64 (p_total_credentials m0) →
    ∃ m, registry (rs_state c) pool = Some m ∧
      p_total_credentials m = wrap64 (p_total_credentials m0 + total_added pool (rs_threads c));
}.
Lemma serial_start st0 jobs : Forall is_issue jobs → serial st0 (race_start st0 jobs).
Proof.
  intros Hj. split; simpl.
  - intros i j p (x & Hx & Hi)%list_lookup_fmap_Some. simplify_eq. by eapply Forall_lookup_1.
  - intros i j p (x & Hx & Hi)%list_lookup_fmap_Some. by simplify_eq.
  - intros i j m (x & Hx & Hi)%list_lookup_fmap_Some. by simplify_eq.
  - intros pool m0 Hp Hm Hu. exists m0. split; [done|].
    assert (Ht : total_added pool ((λ j, (j, Start)) <$> jobs) = 0).
    { clear Hj. induction jobs as [|[p u] jobs IH]; [done|]. rewrite fmap_cons. cbn [total_added].
      rewrite IH. by destruct u. }
    rewrite Ht, Z.add_0_r, wrap64_small; done.
Qed.

(** Thread [i] moves on. *)
Lemma serial_move st0 (c : race T C) i j p p' st' l' :
  serial st0 c → rs_threads c !! i = Some (j, p) →
  (∀ k jk pk, k ≠ i → rs_threads c !! k = Some (jk, pk) → in_section pk →
     l' !! j_pool jk = Some (Some k)) →
  (in_section p' → l' !! j_pool j = Some (Some i)) →
  (∀ m, p' = Loaded m → registry st' (j_pool j) = Some m) →
  (∀ k jk m, k ≠ i → rs_threads c !! k = Some (jk, Loaded m) →
     registry st' (j_pool jk) = registry (rs_state c) (j_pool jk)) →
  (∀ pool m, safe_name pool = true → registry (rs_state c) pool = Some m →
     is_u64 (p_total_credentials m) →
     ∃ m', registry st' pool = Some m' ∧ p_total_credentials m' =
       wrap64 (p_total_credentials m + (added_rows pool (j, p') - added_rows pool (j, p)))) →
  serial st0 (mkRace st' l' (<[i := (j, p')]> (rs_threads c))).
Proof.
  intros [Hjobs Hlock Hload Htotal] Hi Hl Hli Hm Hk Ht. split; cbn [rs_threads rs_locks rs_state].
  - intros k jk pk [(<- & Hx & _)|[_ Hx]]%list_lookup_insert_Some; [|by eapply Hjobs].
    simplify_eq. by eapply Hjobs.
  - intros k jk pk [(<- & Hx & _)|[Hne Hx]]%list_lookup_insert_Some; [|by apply Hl].
    injection Hx as -> ->. done.
  - intros k jk m [(<- & Hx & _)|[Hne Hx]]%list_lookup_insert_Some.
    + injection Hx as -> ->. by apply Hm.
    + rewrite (Hk k jk m) by done. by eapply Hload.
  - intros pool m0 Hp Hm0 Hu. destruct (Htotal pool m0 Hp Hm0 Hu) as (m & Hreg & Hsum).
    destruct (Ht pool m Hp Hreg) as (m' & Hreg' & Hsum'); [rewrite Hsum; apply wrap64_range|].
    exists m'. split; [done|]. rewrite Hsum', Hsum, (total_added_insert pool _ i (j, p)) by done.
    unfold wrap64. rewrite Zplus_mod_idemp_l. f_equal. lia.
Qed.

Lemma acquire_keeps pool l p h : l !! p = Some h → acquire_pool_lock pool l !! p = Some h.
Proof.
  intros Hp. unfold acquire_pool_lock. destruct (l !! pool) eqn:He; [done|].
  rewrite lookup_insert_ne; [done|]. by intros ->; rewrite He in Hp.
Qed.
Lemma release_keeps i k pool l p : k ≠ i → l !! p = Some (Some k) → release i pool l !! p = Some (Some k).
Proof.
  intros Hne Hp. unfold release. case_bool_decide as Hr; [|done].
  rewrite lookup_insert_ne; [done|]. intros ->. congruence.
Qed.
Lemma unchanged_total (st : St) j p p' :
  (∀ pool, added_rows pool (j, p') = added_rows pool (j, p)) →
  ∀ pool m, safe_name pool = true → registry st pool = Some m → is_u64 (p_total_credentials m) →
    ∃ m', registry st pool = Some m' ∧ p_total_credentials m' =
      wrap64 (p_total_credentials m + (added_rows pool (j, p') - added_rows pool (j, p))).
Proof.
  intros Ha pool m _ Hr Hu. exists m. split; [done|]. rewrite Ha, Z.sub_diag, Z.add_0_r.
  by rewrite wrap64_small.
Qed.
Lemma added_unfinished pool j p : (∀ b, p = Finished b → b = false) → added_rows pool (j, p) = 0.
Proof. intros Hp. unfold added_rows. destruct j as [q []], p as [| | |[]]; try done. by specialize (Hp true eq_refl). Qed.

Lemma serial_lock st0 (c : race T C) i j :
  serial st0 c → rs_threads c !! i = Some (j, Start) → serial st0 (do_lock i j c).
Proof.
  intros Hs Hi. pose proof Hs as [Hjobs Hlock Hload Htotal]. unfold do_lock.
  destruct (acquire_pool_lock (j_pool j) (rs_locks c) !! j_pool j) as [[h|]|] eqn:Ha.
  - split; cbn [rs_threads rs_locks rs_state]; try done. intros. by eapply acquire_keeps, Hlock.
  - apply (serial_move st0 c i j Start); try done; cbn [j_pool].
    + intros k jk pk Hne Hk Hin. specialize (Hlock k jk pk Hk Hin).
      apply (acquire_keeps (j_pool j)) in Hlock. rewrite lookup_insert_ne; [done|].
      intros He. rewrite He in Ha. congruence.
    + intros _. by rewrite lookup_insert_eq.
    + apply unchanged_total. intros pool. by rewrite !added_unfinished.
  - split; cbn [rs_threads rs_locks rs_state]; try done. intros. by eapply acquire_keeps, Hlock.
Qed.
Lemma serial_load st0 (c : race T C) i io j :
  serial st0 c → rs_threads c !! i = Some (j, Holding) → serial st0 (do_load i io j c).
Proof.
  intros Hs Hi. pose proof Hs as [Hjobs Hlock Hload Htotal]. unfold do_load.
  destruct (Hjobs i j _ Hi) as [Hsafe _].
  pose proof (load_meta_reads io (j_pool j) (rs_state c)) as Hr.
  pose proof (λ m, load_meta_ok io (j_pool j) (rs_state c) m Hsafe) as Hok.
  destruct (load_meta io (j_pool j) (rs_state c)) as [r st]. simpl in Hr, Hok. subst st.
  assert (Hfail : serial st0 (mkRace (rs_state c) (release i (j_pool j) (rs_locks c))
    (<[i := (j, Finished false)]> (rs_threads c)))).
  { apply (serial_move st0 c i j Holding); try done.
    - intros k jk pk Hne Hk Hin. by eapply release_keeps, Hlock.
    - apply unchanged_total. intros pool. rewrite !added_unfinished; [done..|]. by intros b [= <-]. }
  destruct r as [m|]; [|done]. destruct (admits (j_update j) m); [|done].
  apply (serial_move st0 c i j Holding); try done.
  - intros k jk pk Hne Hk Hin. by eapply Hlock.
  - intros _. by apply (Hlock i j Holding).
  - intros m' [= <-]. by apply Hok.
  - apply unchanged_total. intros pool. by rewrite !added_unfinished.
Qed.

Lemma issued_total j m :
  is_issue j → p_total_credentials (updated (j_update j) m) =
    wrap64 (p_total_credentials m + added_rows (j_pool j) (j, Finished true)).
Proof.
  intros (_ & now & rows & Hj). destruct j as [q u]. simpl in Hj. subst u. unfold added_rows. simpl.
  by rewrite decide_True.
Qed.
Lemma added_elsewhere pool j p : pool ≠ j_pool j → added_rows pool (j, p) = 0.
Proof. intros Hne. unfold added_rows. destruct j as [q []], p as [| | |[]]; try done. by rewrite decide_False. Qed.
Lemma serial_save st0 (c : race T C) i io j m :
  serial st0 c → rs_threads c !! i = Some (j, Loaded m) → serial st0 (do_save i io j m c).
Proof.
  intros Hs Hi. pose proof Hs as [Hjobs Hlock Hload Htotal]. unfold do_save.
  pose proof (Hjobs i j _ Hi) as Hj.
  pose proof (save_meta_effect io (j_pool j) (updated (j_update j) m) (rs_state c) (proj1 Hj)) as He.
  destruct (save_pool_meta io (j_pool j) (updated (j_update j) m) (rs_state c)) as [r st].
  assert (Hother : ∀ pool, safe_name pool = true → pool ≠ j_pool j →
    registry st pool = registry (rs_state c) pool).
  { intros pool Hp Hne. rewrite (He pool Hp). destruct (is_ok r); [|done]. unfold reg_insert.
    by rewrite decide_False. }
  apply (serial_move st0 c i j (Loaded m)); try done.
  - intros k jk pk Hne Hk Hin. by eapply release_keeps, Hlock.
  - intros k jk m' Hne Hk. apply Hother; [apply (Hjobs k jk _ Hk)|]. intros Heq.
    pose proof (Hlock k jk _ Hk I) as Hlk. pose proof (Hlock i j _ Hi I) as Hli.
    rewrite Heq in Hlk. congruence.
  - intros pool mp Hp Hreg Hu. rewrite (added_unfinished pool j (Loaded m)), Z.sub_0_r by done.
    destruct (decide (pool = j_pool j)) as [->|Hne].
    + rewrite (Hload i j m Hi) in Hreg. injection Hreg as <-. rewrite (He _ Hp). destruct (is_ok r).
      * exists (updated (j_update j) m). unfold reg_insert. rewrite decide_True by done.
        split; [done|by apply issued_total].
      * exists m. split; [by eapply Hload|].
        rewrite added_unfinished, Z.add_0_r, wrap64_small; [done..|]. by intros b [= <-].
    + exists mp. rewrite Hother by done. split; [done|].
      by rewrite added_elsewhere, Z.add_0_r, wrap64_small.
Qed.
Lemma serial_step st0 (c : race T C) ev : serial st0 c → serial st0 (race_step c ev).
Proof.
  intros Hs. destruct ev as [i io]. unfold race_step.
  destruct (rs_threads c !! i) as [[j []]|] eqn:Hi; try done.
  - destruct (se_jobs _ _ Hs i j _ Hi) as (_ & now & rows & ->). by apply serial_lock.
  - by apply serial_load.
  - by apply serial_save.
Qed.

Lemma serial_run st0 schedule (c : race T C) : serial st0 c → serial st0 (race_run schedule c).
Proof.
  unfold race_run. revert c. induction schedule as [|ev evs IH]; intros c Hc; [done|].
  simpl. by apply IH, serial_step.
Qed.

(** C14: concurrent issuances are not lost.  Any number of issuances to any pools,
    interleaved in any way at their locks, loads and saves, with any failures,
    leave every pool with the total it had and the rows of exactly those
    issuances that succeeded (as 64-bit values). *)
Theorem issuances_serialised (st : St) (jobs : list job) (schedule : list (nat * io_fault))
    (pool : string) (m : PoolMetadata) (Hjobs : Forall is_issue jobs) (Hpool : safe_name pool = true)
    (Hstored : registry st pool = Some m) (Htotal : is_u64 (p_total_credentials m)) :
  let c := race_run schedule (race_start st jobs) in
  ∃ m', registry (rs_state c) pool = Some m' ∧
    p_total_credentials m' = wrap64 (p_total_credentials m + total_added pool (rs_threads c)).
Proof.
  pose proof (serial_run st schedule _ (serial_start st jobs Hjobs)) as Hs. by apply (se_total _ _ Hs pool m).
Qed.
End Serial.

(** ** Examples *)

Definition two_issues : list job :=
  [mkJob pool3 (Issue (mkDateTime 30 0) 5); mkJob pool3 (Issue (mkDateTime 31 0) 7)].
(** The second thread waits for the lock; the first one's save works. *)
Definition turns : list (nat * io_fault) :=
  [(0%nat, IoOk); (1%nat, IoOk); (0%nat, IoOk); (1%nat, IoOk); (0%nat, IoOk);
   (1%nat, IoOk); (1%nat, IoOk); (1%nat, IoOk)].
Definition meta3 : PoolMetadata :=
  default (mkPoolMetadata "" "" Malta "" ∅ "" None "" VStrict NeedsInit (mkDateTime 0 0) None None 0 0)
    (registry w_ready pool3).
Lemma meta3_stored : registry w_ready pool3 = Some meta3.
Proof. vm_compute. reflexivity. Qed.

Lemma issuances_serialised_witness :
  let c := race_run turns (race_start w_ready two_issues) in
  ∃ m', registry (rs_state c) pool3 = Some m' ∧
    p_total_credentials m' = wrap64 (p_total_credentials meta3 + total_added pool3 (rs_threads c)).
Proof.
  apply (issuances_serialised w_ready two_issues turns pool3 meta3); [| |apply meta3_stored|].
  - apply Forall_forall. intros j [->|[->|[]%not_elem_of_nil]%elem_of_cons]%elem_of_cons;
      (split; [by vm_compute|by do 2 eexists]).
  - by vm_compute.
  - by vm_compute.
Defined.

