(* ===== verification/RaceProgress.v ===== *)
(** * Concurrent updates of a pool finish

    The lock of a pool is held only by a thread that will release it, so no
    schedule of [PoolRaces] that keeps giving every thread its turn can block:
    the steps that are left decrease with every round.  With a working file
    system every issuance succeeds and all of their rows are counted. *)
From S2P Require Import Prelude.
From S2P Require Import RustStr.
From S2P Require Import RustFmt.
From S2P Require Import Errors.
From S2P Require Import Types.
From S2P Require Import Interfaces.
From S2P Require Import TxDatabase.
From S2P Require Import Instances.
From S2P Require Import Text.
From S2P Require Import Storage.
From S2P Require Import TxCache.
From S2P Require Import AppState.
From S2P Require Import AuditLog.
From S2P Require Import Wallets.
From S2P Require Import WalletFacts.
From S2P Require Import DataValidation.
From S2P Require Import VerifiedFetch.
From S2P Require Import FetchFacts.
From S2P Require Import DrtProgram.
From S2P Require Import DrtProgramFacts.
From S2P Require Import PoolFacts.
From S2P Require Import Upload.
From S2P Require Import UploadFacts.
From S2P Require Import Credentials.
From S2P Require Import PoolExamples.
From S2P Require Import PoolRegistry.
From S2P Require Import PoolLife.
From S2P Require Import PoolRaces.

Local Open Scope Z_scope.
#[local] Arguments String.append : simpl nomatch.

(** ** The work that is left *)

Definition pc_work (p : pc) : nat :=
  match p with Start => 3 | Holding => 2 | Loaded _ => 1 | Finished _ => 0 end.
Fixpoint work (ts : list (job * pc)) : nat :=
  match ts with [] => 0 | t :: ts' => (pc_work t.2 + work ts')%nat end.
Lemma work_insert ts i j p p' :
  ts !! i = Some (j, p) → (work (<[i := (j, p')]> ts) + pc_work p = work ts + pc_work p')%nat.
Proof.
  revert i. induction ts as [|t ts IH]; intros [|i] Hi; simpl in *; try done.
  - simplify_eq. simpl. lia.
  - specialize (IH i Hi). lia.
Qed.
Lemma work_zero ts i j p : work ts = 0%nat → ts !! i = Some (j, p) → ∃ b, p = Finished b.
Proof.
  revert i. induction ts as [|t ts IH]; intros [|i] Hw Hi; simpl in *; try done.
  - simplify_eq. destruct p; simpl in Hw; try lia. eauto.
  - eapply IH; [|exact Hi]. lia.
Qed.
Lemma work_bound ts : (work ts ≤ 3 * length ts)%nat.
Proof. induction ts as [|[j []] ts IH]; simpl; lia. Qed.

(** The thread that holds the lock of a pool. *)
Definition held (l : locks) (pool : string) : option nat := l !! pool ≫= id.
Lemma held_some l pool k : held l pool = Some k ↔ l !! pool = Some (Some k).
Proof. unfold held. destruct (l !! pool) as [[]|]; simpl; naive_solver. Qed.
Lemma held_acquire pool l q : held (acquire_pool_lock pool l) q = held l q.
Proof.
  unfold acquire_pool_lock, held. destruct (l !! pool) eqn:Hl; [done|].
  destruct (decide (q = pool)) as [->|Hne]; [by rewrite lookup_insert_eq, Hl|].
  by rewrite lookup_insert_ne.
Qed.
Lemma held_release i pool l q k :
  held (release i pool l) q = Some k → held l q = Some k ∧ ¬ (q = pool ∧ k = i).
Proof.
  rewrite !held_some. unfold release. case_bool_decide as Hb.
  - destruct (decide (q = pool)) as [->|Hne]; [by rewrite lookup_insert_eq|].
    rewrite lookup_insert_ne by done. naive_solver.
  - intros Hq. split; [done|]. intros [-> ->]. done.
Qed.

Section Progress.
Context {T C : Type} `{Serde PoolMetadata}.
Abbreviation Race := (race T C).

(** A lock is held by a thread of that pool that is in its critical section. *)
Definition holders (c : Race) : Prop :=
  ∀ pool k, held (rs_locks c) pool = Some k →
    ∃ j p, rs_threads c !! k = Some (j, p) ∧ j_pool j = pool ∧ in_section p.
(** A thread that its turn does not advance. *)
Definition stuck (c : Race) (i : nat) : Prop :=
  ∀ j p, rs_threads c !! i = Some (j, p) →
    (∃ b, p = Finished b) ∨ p = Start ∧ is_Some (held (rs_locks c) (j_pool j)).
Definition unmoved (c c' : Race) : Prop :=
  rs_threads c' = rs_threads c ∧ ∀ q, held (rs_locks c') q = held (rs_locks c) q.
(** Thread [i] advances, and gives its lock up when it leaves the section. *)
Definition advanced (i : nat) (c c' : Race) : Prop :=
  ∃ j p p', rs_threads c !! i = Some (j, p) ∧ rs_threads c' = <[i := (j, p')]> (rs_threads c) ∧
    (pc_work p' < pc_work p)%nat ∧
    ∀ q k, held (rs_locks c') q = Some k →
      (k = i ∧ q = j_pool j ∧ in_section p') ∨
      held (rs_locks c) q = Some k ∧ (k = i → q = j_pool j → in_section p').

Lemma do_load_advanced i io j p (c : Race) :
  rs_threads c !! i = Some (j, p) → (1 < pc_work p)%nat → advanced i c (do_load i io j c).
Proof.
  intros Hi Hw. unfold do_load. destruct (load_meta io (j_pool j) (rs_state c)) as [[m|x] st].
  - destruct (admits (j_update j) m).
    + exists j, p, (Loaded m). split_and!; [done|done|simpl; lia|]. intros q k Hk. by right.
    + exists j, p, (Finished false). split_and!; [done|done|simpl; lia|].
      intros q k [Hk Hn]%held_release. right. split; [done|]. intros -> ->. by destruct Hn.
  - exists j, p, (Finished false). split_and!; [done|done|simpl; lia|].
    intros q k [Hk Hn]%held_release. right. split; [done|]. intros -> ->. by destruct Hn.
Qed.
Lemma do_save_advanced i io j m (c : Race) :
  rs_threads c !! i = Some (j, Loaded m) → advanced i c (do_save i io j m c).
Proof.
  intros Hi. unfold do_save. destruct (save_pool_meta _ _ _ _) as [r st].
  exists j, (Loaded m), (Finished (is_ok r)). split_and!; [done|done|simpl; lia|].
  intros q k [Hk Hn]%held_release. right. split; [done|]. intros -> ->. by destruct Hn.
Qed.
Lemma do_lock_cases i j (c : Race) :
  rs_threads c !! i = Some (j, Start) →
  advanced i c (do_lock i j c) ∨ unmoved c (do_lock i j c) ∧ is_Some (held (rs_locks c) (j_pool j)).
Proof.
  intros Hi. unfold do_lock. pose proof (held_acquire (j_pool j) (rs_locks c)) as Ha.
  destruct (acquire_pool_lock (j_pool j) (rs_locks c) !! j_pool j) as [[k|]|] eqn:Hl.
  - right. split; [by split|]. rewrite <-Ha. exists k. by apply held_some.
  - left. exists j, Start, Holding. split_and!; [done|done|simpl; lia|].
    intros q k Hk. cbn [rs_locks] in Hk. apply held_some in Hk.
    destruct (decide (q = j_pool j)) as [->|Hne].
    + rewrite lookup_insert_eq in Hk. left. naive_solver.
    + rewrite lookup_insert_ne in Hk by done. right. rewrite <-Ha. split; [by apply held_some|done].
  - exfalso. revert Hl. unfold acquire_pool_lock. destruct (rs_locks c !! j_pool j) eqn:He.
    + by rewrite He.
    + by rewrite lookup_insert_eq.
Qed.
(** A turn advances its thread, or the thread is stuck and nothing moves. *)
Lemma step_cases i io (c : Race) :
  advanced i c (race_step c (i, io)) ∨ unmoved c (race_step c (i, io)) ∧ stuck c i.
Proof.
  unfold race_step. destruct (rs_threads c !! i) as [[j p]|] eqn:Hi.
  2:{ right. split; [done|]. intros j p Hj. congruence. }
  destruct p as [| |m|b].
  - destruct (takes_lock (j_update j)); [|left; apply (do_load_advanced i io j Start); [done|simpl; lia]].
    destruct (do_lock_cases i j c Hi) as [|[Hu Hh]]; [by left|]. right. split; [done|].
    intros j' p' Hj. rewrite Hi in Hj. injection Hj as <- <-. by right.
  - left. apply (do_load_advanced i io j Holding); [done|simpl; lia].
  - left. by apply do_save_advanced.
  - right. split; [done|]. intros j' p' Hj. rewrite Hi in Hj. injection Hj as <- <-. left. eauto.
Qed.

Lemma holders_advanced i (c c' : Race) : holders c → advanced i c c' → holders c'.
Proof.
  intros Hh (j & p & p' & Hi & Ht & _ & Hl) pool k Hk. rewrite Ht.
  pose proof (lookup_lt_Some _ _ _ Hi) as Hlt.
  destruct (Hl pool k Hk) as [(-> & -> & Hs)|[Ho Hs]].
  - exists j, p'. by rewrite list_lookup_insert_eq.
  - destruct (Hh pool k Ho) as (j' & pk & Hj & Hp & Hin). destruct (decide (k = i)) as [->|Hne].
    + rewrite Hi in Hj. injection Hj as <- <-. exists j, p'. rewrite list_lookup_insert_eq by done.
      auto.
    + exists j', pk. by rewrite list_lookup_insert_ne.
Qed.
Lemma holders_unmoved (c c' : Race) : holders c → unmoved c c' → holders c'.
Proof. intros Hh [Ht Hl] pool k. rewrite Hl, Ht. apply Hh. Qed.
Lemma advanced_work i (c c' : Race) :
  advanced i c c' → (work (rs_threads c') < work (rs_threads c))%nat ∧
    length (rs_threads c') = length (rs_threads c).
Proof.
  intros (j & p & p' & Hi & Ht & Hw & _). rewrite Ht, length_insert.
  pose proof (work_insert _ i j p p' Hi). lia.
Qed.

(** A round either does work or finds every thread of the round stuck. *)
Lemma round_cases (r : list (nat * io_fault)) (c : Race) :
  holders c →
  holders (race_run r c) ∧ length (rs_threads (race_run r c)) = length (rs_threads c) ∧
  ((work (rs_threads (race_run r c)) < work (rs_threads c))%nat ∨
   unmoved c (race_run r c) ∧ ∀ i, i ∈ fst <$> r → stuck c i).
Proof.
  unfold race_run. revert c. induction r as [|[i io] r IH]; intros c Hh; cbn [foldl].
  { split_and!; [done..|]. right. split; [done|]. intros i Hi. by apply elem_of_nil in Hi. }
  destruct (step_cases i io c) as [Ha|[Hu Hs]].
  - destruct (advanced_work i _ _ Ha) as [Hw Hn].
    destruct (IH (race_step c (i, io)) (holders_advanced i _ _ Hh Ha)) as (Hh' & Hn' & Hc).
    split_and!; [done|congruence|]. left. destruct Hc as [Hc|[[Ht _] _]]; [lia|]. by rewrite Ht.
  - destruct (IH (race_step c (i, io)) (holders_unmoved _ _ Hh Hu)) as (Hh' & Hn' & Hc).
    destruct Hu as [Ht Hl]. rewrite Ht in Hn', Hc. split_and!; [done|done|].
    destruct Hc as [Hc|[[Ht' Hl'] Hr]]; [by left|]. right.
    split; [split; [congruence|intros q; by rewrite Hl', Hl]|].
    intros k [->|Hk]%elem_of_cons; [done|]. intros j p Hj. rewrite <-Ht in Hj.
    destruct (Hr k Hk j p Hj) as [|[-> Hd]]; [by left|]. right. by rewrite <-Hl.
Qed.
(** When no thread can advance, none has anything left to do. *)
Lemma all_stuck_finished (c : Race) :
  holders c → (∀ i, (i < length (rs_threads c))%nat → stuck c i) → work (rs_threads c) = 0%nat.
Proof.
  intros Hh Hs.
  assert (Hf : ∀ i j p, rs_threads c !! i = Some (j, p) → pc_work p = 0%nat).
  { intros i j p Hi. destruct (Hs i (lookup_lt_Some _ _ _ Hi) j p Hi) as [[b ->]|[_ [k Hk]]]; [done|].
    destruct (Hh _ k Hk) as (j' & pk & Hj & _ & Hin).
    destruct (Hs k (lookup_lt_Some _ _ _ Hj) j' pk Hj) as [[b ->]|[-> _]]; done. }
  clear Hh Hs. induction (rs_threads c) as [|[j p] ts IH]; [done|]. simpl.
  rewrite (Hf 0%nat j p eq_refl). apply IH. intros i j' p' Hi. exact (Hf (S i) j' p' Hi).
Qed.

(** A round gives every one of [n] threads a turn. *)
Definition fair_round (n : nat) (r : list (nat * io_fault)) : Prop := ∀ i, (i < n)%nat → i ∈ fst <$> r.
Lemma rounds_work (rounds : list (list (nat * io_fault))) (c : Race) :
  holders c → Forall (fair_round (length (rs_threads c))) rounds →
  (work (rs_threads (race_run (mjoin rounds) c)) ≤ work (rs_threads c) - length rounds)%nat.
Proof.
  intros Hh Hr. remember (length (rs_threads c)) as n eqn:Hn. revert c Hh Hn.
  induction Hr as [|r rounds Hf _ IH]; intros c Hh Hn; simpl; [lia|].
  unfold race_run. rewrite foldl_app. fold (race_run r c).
  destruct (round_cases r c Hh) as (Hh' & Hn' & Hc).
  specialize (IH (race_run r c) Hh' ltac:(congruence)). unfold race_run in IH at 1.
  destruct Hc as [Hc|[[Ht Hl] Hs]]; [lia|].
  assert (Hw : work (rs_threads c) = 0%nat).
  { apply all_stuck_finished; [done|]. intros i Hi. apply Hs, Hf. lia. }
  rewrite Ht, Hw in IH. lia.
Qed.
Lemma holders_start (st : AppState T C) jobs : holders (race_start st jobs).
Proof. intros pool k Hk. unfold held in Hk. cbn [rs_locks race_start] in Hk. by rewrite lookup_empty in Hk. Qed.
End Progress.

(** ** With a working file system *)

(** The rows that a job asks to add to a pool. *)
Definition asked (pool : string) (j : job) : Z :=
  match j with mkJob p (Issue _ rows) => if decide (p = pool) then rows else 0 | _ => 0 end.
Fixpoint total_asked (pool : string) (jobs : list job) : Z :=
  match jobs with [] => 0 | j :: jobs' => asked pool j + total_asked pool jobs' end.
Lemma added_asked pool jobs :
  total_added pool ((λ j, (j, Finished true)) <$> jobs) = total_asked pool jobs.
Proof.
  induction jobs as [|[p u] jobs IH]; [done|]. rewrite fmap_cons. cbn [total_added total_asked].
  rewrite IH. by destruct u.
Qed.

Section Works.
Context {T C : Type} `{SerdeLaws PoolMetadata}.
Abbreviation Race := (race T C).
Abbreviation St := (AppState T C).

Lemma load_meta_found id (st : St) m :
  safe_name id = true → registry st id = Some m → load_meta IoOk id st = (Ok m, st).
Proof.
  intros Hid Hr. unfold registry, meta_file in Hr. unfold load_meta, act_map_err, zoom, read_json.
  rewrite act_bind_eq, pool_meta_file by done. unfold read_raw, reading.
  destruct (files (storage st) !! pool_file id "pool.meta.json") as [data|]; [|done].
  cbn. simpl in Hr. destruct (from_slice data); simplify_eq/=. by rewrite set_storage_id.
Qed.
Lemma save_meta_works id m (st : St) : is_ok (save_pool_meta IoOk id m st).1 = true.
Proof.
  unfold save_pool_meta, act_map_err, zoom, write_json. cbn [fst].
  destruct (to_vec_pretty_total m) as [data Hd]. by rewrite act_bind_lift, Hd.
Qed.

(** No thread has failed, and the pools of all threads are stored. *)
Record well (st0 : St) (jobs : list job) (c : Race) : Prop := {
  we_serial : serial st0 c;
  we_jobs : fst <$> rs_threads c = jobs;
  we_fine i j : rs_threads c !! i ≠ Some (j, Finished false);
}.
Definition stored_pools (st : St) (jobs : list job) : Prop :=
  ∀ j, j ∈ jobs → ∃ m, registry st (j_pool j) = Some m ∧ is_u64 (p_total_credentials m).

Lemma insert_fst (ts : list (job * pc)) i j p p' :
  ts !! i = Some (j, p) → fst <$> <[i := (j, p')]> ts = fst <$> ts.
Proof.
  intros Hi. rewrite list_fmap_insert. apply list_insert_id. by rewrite list_lookup_fmap, Hi.
Qed.
Lemma insert_fine (ts : list (job * pc)) i j p' :
  p' ≠ Finished false → (∀ k j', ts !! k ≠ Some (j', Finished false)) →
  ∀ k j', <[i := (j, p')]> ts !! k ≠ Some (j', Finished false).
Proof.
  intros Hp Hf k j' [(<- & Hx & _)|[_ Hx]]%list_lookup_insert_Some; [|by eapply Hf]. by injection Hx.
Qed.

Lemma well_step st0 jobs (c : Race) i :
  stored_pools st0 jobs → well st0 jobs c → well st0 jobs (race_step c (i, IoOk)).
Proof.
  intros Hst [Hs Hj Hf]. pose proof (serial_step st0 c (i, IoOk) Hs) as Hs'.
  split; [exact Hs'| |]; clear Hs'; unfold race_step;
    destruct (rs_threads c !! i) as [[j p]|] eqn:Hi; try done;
    destruct (se_jobs _ _ Hs i j p Hi) as (Hsafe & now & rows & Hu);
    assert (Hin : j ∈ jobs) by (rewrite <-Hj; apply list_elem_of_fmap; exists (j, p); split; [done|];
      by eapply list_elem_of_lookup_2);
    destruct (Hst j Hin) as (m0 & Hm0 & Hu0);
    destruct (se_total _ _ Hs _ m0 Hsafe Hm0 Hu0) as (m & Hm & _).
  - destruct p as [| |m'|b]; [| | |done].
    + rewrite Hu. cbn [takes_lock]. unfold do_lock. destruct (_ !! j_pool j) as [[]|]; try done.
      cbn [rs_threads]. by rewrite (insert_fst _ _ _ Start).
    + unfold do_load. rewrite (load_meta_found _ _ m) by done. rewrite Hu. cbn [admits rs_threads].
      by rewrite (insert_fst _ _ _ Holding).
    + unfold do_save. destruct (save_pool_meta _ _ _ _) as [r s']. cbn [rs_threads].
      by rewrite (insert_fst _ _ _ (Loaded m')).
  - destruct p as [| |m'|b]; [| | |done].
    + rewrite Hu. cbn [takes_lock]. unfold do_lock. destruct (_ !! j_pool j) as [[]|]; try done.
      by apply insert_fine.
    + unfold do_load. rewrite (load_meta_found _ _ m) by done. rewrite Hu. by apply insert_fine.
    + unfold do_save. pose proof (save_meta_works (j_pool j) (updated (j_update j) m') (rs_state c)) as Hw.
      destruct (save_pool_meta _ _ _ _) as [r s']. simpl in Hw. rewrite Hw. by apply insert_fine.
Qed.
Lemma well_run st0 jobs schedule (c : Race) :
  stored_pools st0 jobs → Forall (λ ev, ev.2 = IoOk) schedule → well st0 jobs c →
  well st0 jobs (race_run schedule c).
Proof.
  intros Hst Hio. unfold race_run. revert c. induction Hio as [|[i io] evs Hx _ IH]; intros c Hc; [done|].
  cbn [foldl]. simpl in Hx. subst io. by apply IH, well_step.
Qed.
Lemma finished_threads (ts : list (job * pc)) :
  work ts = 0%nat → (∀ i j, ts !! i ≠ Some (j, Finished false)) →
  ts = (λ j, (j, Finished true)) <$> (fst <$> ts).
Proof.
  induction ts as [|[j p] ts IH]; intros Hw Hf; [done|]. simpl in Hw. cbn. rewrite <-IH.
  - destruct p as [| |m|[]]; try (simpl in Hw; lia); [done|]. by destruct (Hf 0%nat j).
  - lia.
  - intros i j'. exact (Hf (S i) j').
Qed.

(** C15: concurrent updates finish.  Any requests that update pools, with or without
    the lock, and any failures: once every request had its turn in three rounds
    per request, in any order within a round, all of them have ended.  When they
    are issuances to stored pools and the file system works, every one of them
    succeeded, and the total of each pool grew by the rows of all of its
    issuances (as 64-bit values). *)
Theorem concurrent_updates_finish (st : St) (jobs : list job) (rounds : list (list (nat * io_fault)))
    (Hfair : Forall (fair_round (length jobs)) rounds) (Hlong : (3 * length jobs ≤ length rounds)%nat) :
  let c := race_run (mjoin rounds) (race_start st jobs) in
  (∀ i j p, rs_threads c !! i = Some (j, p) → ∃ b, p = Finished b) ∧
  (Forall is_issue jobs → Forall (λ ev, ev.2 = IoOk) (mjoin rounds) → stored_pools st jobs →
   rs_threads c = (λ j, (j, Finished true)) <$> jobs ∧
   ∀ pool m, safe_name pool = true → registry st pool = Some m → is_u64 (p_total_credentials m) →
     ∃ m', registry (rs_state c) pool = Some m' ∧
       p_total_credentials m' = wrap64 (p_total_credentials m + total_asked pool jobs)).
Proof.
  intros c. assert (Hw : work (rs_threads c) = 0%nat).
  { assert (Hl : length (rs_threads (race_start st jobs)) = length jobs) by apply length_fmap.
    pose proof (rounds_work rounds (race_start st jobs) (holders_start st jobs)) as Hr.
    rewrite Hl in Hr. specialize (Hr Hfair). pose proof (work_bound (rs_threads (race_start st jobs))) as Hb.
    rewrite Hl in Hb. fold c in Hr. lia. }
  split; [intros i j p; by apply work_zero|]. intros Hj Hio Hst.
  assert (Hwell : well st jobs c).
  { apply well_run; [done..|]. split; [by apply serial_start| |].
    - cbn [rs_threads race_start]. rewrite <-list_fmap_compose. apply list_fmap_id.
    - intros i j (x & Hx & _)%list_lookup_fmap_Some. congruence. }
  destruct Hwell as [Hs Hjobs Hf]. pose proof (finished_threads _ Hw Hf) as Ht. rewrite Hjobs in Ht.
  split; [exact Ht|]. intros pool m Hp Hm Hu. destruct (se_total _ _ Hs pool m Hp Hm Hu) as (m' & Hr & Hsum).
  exists m'. split; [done|]. by rewrite Hsum, Ht, added_asked.
Qed.
End Works.

(** ** Example *)

(** Two issuances to one pool and nine rounds, the turns of each in either order. *)
Definition nine_rounds : list (list (nat * io_fault)) :=
  repeat [(1%nat, IoOk); (0%nat, IoOk)] 5 ++ repeat [(0%nat, IoOk); (1%nat, IoOk)] 4.
Lemma nine_rounds_fair : Forall (fair_round 2) nine_rounds.
Proof.
  unfold nine_rounds. apply Forall_app. split; apply Forall_forall;
    intros r Hr%list_elem_of_In%repeat_spec i Hi; subst r;
    (assert (Hc : i = 0%nat ∨ i = 1%nat) by lia); destruct Hc as [->| ->]; set_solver.
Qed.
Lemma concurrent_updates_finish_witness :
  let c := race_run (mjoin nine_rounds) (race_start w_ready two_issues) in
  rs_threads c = (λ j, (j, Finished true)) <$> two_issues ∧
  ∃ m', registry (rs_state c) pool3 = Some m' ∧
    p_total_credentials m' = wrap64 (p_total_credentials meta3 + 12).
Proof.
  assert (Hsafe : safe_name pool3 = true) by (vm_compute; reflexivity).
  assert (Hu : is_u64 (p_total_credentials meta3)) by (vm_compute; done).
  assert (Ha : total_asked pool3 two_issues = 12) by (vm_compute; reflexivity).
  destruct (concurrent_updates_finish w_ready two_issues nine_rounds) as [_ Hw].
  - exact nine_rounds_fair.
  - apply Nat.leb_le. reflexivity.
  - destruct Hw as [Ht Hreg].
    + apply Forall_forall. intros j [->|[->|[]%not_elem_of_nil]%elem_of_cons]%elem_of_cons;
        (split; [by vm_compute|by do 2 eexists]).
    + repeat constructor.
    + intros j [->|[->|[]%not_elem_of_nil]%elem_of_cons]%elem_of_cons;
        (exists meta3; split; [apply meta3_stored|exact Hu]).
    + split; [exact Ht|]. specialize (Hreg pool3 meta3 Hsafe meta3_stored Hu). rewrite Ha in Hreg. exact Hreg.
Defined.
