(* ===== verification/ViewFacts.v ===== *)
(** * What the pool listings show

    The marketplace listing and the audit trail of a pool
    ([src/src/api/credentials.rs]): the pages of one query are the slices of one
    list, which holds exactly the pools, or the recorded events, that the query
    asks for, in the order it asks for. *)
From S2P Require Import Prelude.
From S2P Require Import RustStr.
From S2P Require Import RustFmt.
From S2P Require Import Errors.
From S2P Require Import Types.
From S2P Require Import Interfaces.
From S2P Require Import TxDatabase.
From S2P Require Import Text.
From S2P Require Import Instances.
From S2P Require Import TxScans.
From S2P Require Import TxAudit.
From S2P Require Import Storage.
From S2P Require Import TxCache.
From S2P Require Import AppState.
From S2P Require Import Wallets.
From S2P Require Import VerifiedFetch.
From S2P Require Import Runtime.
From S2P Require Import DrtProgram.
From S2P Require Import Chain.
From S2P Require Import Credentials.
From S2P Require Import PoolViews.
From S2P Require Import AuditLog.
From S2P Require Import WalletFacts.
From S2P Require Import FetchFacts.
From S2P Require Import PoolExamples.

Local Open Scope Z_scope.
#[local] Arguments String.append : simpl nomatch.

(** ** Orders *)

Lemma str_leb_total a b : str_leb a b = true ∨ str_leb b a = true.
Proof. rewrite !str_leb_le. apply (total String.le). Qed.
Lemma str_leb_trans a b c : str_leb a b = true → str_leb b c = true → str_leb a c = true.
Proof. rewrite !str_leb_le. apply transitivity. Qed.

Lemma length_filter_perm {A} (p : A → bool) (l l' : list A) :
  l ≡ₚ l' → length (List.filter p l) = length (List.filter p l').
Proof.
  induction 1 as [|x l l' _ IH|x y l|l1 l2 l3 _ IH1 _ IH2]; simpl; [done| | |congruence].
  - destruct (p x); simpl; congruence.
  - by destruct (p x), (p y).
Qed.

Section Views.
Context {T C : Type} `{RedbTableLaws T, RedbTxnLaws (Db T), DbCratesLaws, SolanaCrates, TextCrates}.
Context `{SerdeLaws AuditEvent, Serde PoolMetadata, Serde WalletMetadata, Serde Json}.
Context `{FromValue RevocationEntry}.
Abbreviation St := (AppState T C).

Lemma market_leb_total sort a b : market_leb sort a b = true ∨ market_leb sort b a = true.
Proof. unfold market_leb. repeat case_bool_decide; try apply str_leb_total. rewrite !Z.leb_le. lia. Qed.
Lemma market_leb_trans sort a b c :
  market_leb sort a b = true → market_leb sort b c = true → market_leb sort a c = true.
Proof.
  unfold market_leb. repeat case_bool_decide; try apply str_leb_trans; [rewrite !Z.leb_le; lia|].
  intros Hab Hbc. by eapply str_leb_trans.
Qed.

(** ** The marketplace *)

(** The pools on record, in the order of their addresses. *)
Definition recorded_pools (db : Db T) : list PoolMetadata :=
  filter_map (λ e, ok (from_slice (A := PoolMetadata) e.2)) (t_iter (db POOL_METADATA)).
(** Walking the listing of a query: offsets that are multiples of a page size. *)
Definition page_query (q : ListAllPoolsQuery) (limit i : nat) : ListAllPoolsQuery :=
  mkListAll (lq_state q) (lq_search q) (lq_sort q) limit (i * limit).

Lemma list_all_pools_run e q (st : St) :
  reliable (ce_db e 0%nat) →
  let all := sort_by (market_leb (lq_sort q))
               (market_entry <$> List.filter (pool_matches q) (recorded_pools (tx_db st))) in
  list_all_pools e q st =
    (Ok (mkAllPools (take (Nat.min (lq_limit q) 100) (drop (lq_offset q) all)) (length all)
           (Nat.min (lq_limit q) 100) (Nat.min (lq_offset q) (length all))), st).
Proof.
  intros Henv all. unfold list_all_pools. rewrite act_bind_eq. unfold db_query, act_map_err, zoom.
  unfold list_all_pool_metas, reading. cbn [fst snd].
  rewrite (run_read_reliable _ _ _ Henv). cbn [map_err]. rewrite set_tx_db_id.
  fold (recorded_pools (tx_db st)). fold all. f_equal. f_equal. f_equal.
  destruct (Nat.min_spec (lq_offset q) (length all)) as [[_ ->]|[Hge ->]]; [done|].
  rewrite (drop_ge all (length all)), (drop_ge all (lq_offset q)); lia || done.
Qed.

(** C25: the marketplace shows every pool once.  Walking the pages of a query with any
    page size up to 100 gives one list: an entry for each recorded pool with the
    state and the name asked for, sorted as asked, pools that compare equal in
    the order of their addresses; no page is longer than asked, and every page
    reports the length of the list. *)
Theorem marketplace_pages (e : CredEnv T) (q : ListAllPoolsQuery) (limit : nat) (st : St)
    (Henv : reliable (ce_db e 0%nat)) (Hlimit : (limit ≤ 100)%nat) :
  let leb := market_leb (lq_sort q) in
  let wanted := market_entry <$> List.filter (pool_matches q) (recorded_pools (tx_db st)) in
  ∃ (pages : nat → list MarketplacePoolEntry) (all : list MarketplacePoolEntry),
    (∀ i, ∃ offset, list_all_pools e (page_query q limit i) st =
       (Ok (mkAllPools (pages i) (length all) limit offset), st)) ∧
    (∀ i, (length (pages i) ≤ limit)%nat) ∧
    (∀ n, (length all ≤ n * limit)%nat → concat (pages <$> seq 0 n) = all) ∧
    all ≡ₚ wanted ∧ StronglySorted (λ a b, leb a b = true) all ∧
    ∀ a, List.filter (λ b, leb a b && leb b a) all = List.filter (λ b, leb a b && leb b a) wanted.
Proof.
  intros leb wanted. set (all := sort_by leb wanted).
  exists (λ i, take limit (drop (i * limit) all)), all. split; [|split; [|split; [|split; [|split]]]].
  - intros i. pose proof (list_all_pools_run e (page_query q limit i) st Henv) as Hr.
    cbn [page_query lq_sort lq_limit lq_offset] in Hr.
    change (pool_matches (page_query q limit i)) with (pool_matches q) in Hr.
    fold leb wanted all in Hr. rewrite Nat.min_l in Hr by done. eauto.
  - intros i. rewrite length_take. lia.
  - intros n Hn. rewrite pages_glue. by apply take_ge.
  - apply sort_by_Permutation.
  - apply sort_by_sorted; [intros; apply market_leb_total|intros *; apply market_leb_trans].
  - intros a. apply sort_by_stable. intros x y [Hax Hxa]%andb_true_iff [Hay Hya]%andb_true_iff.
    by eapply market_leb_trans.
Qed.

(** ** The audit trail *)

Lemma list_audit_query e n r limit offset evs (st : St) :
  list_audit_by_resource (ce_db e n) r limit offset (tx_db st) = (Ok evs, tx_db st) →
  db_query "failed to query audit events" (list_audit_by_resource (ce_db e n) r limit offset) st
    = (Ok evs, st).
Proof.
  intros Hl. unfold db_query, act_map_err, zoom. rewrite Hl. cbn [fst snd map_err].
  by rewrite set_tx_db_id.
Qed.
Lemma no_filter_match q ev : has_filters q = false → audit_match q ev = true.
Proof. destruct q as [? ? [] [] [] [] []]; done. Qed.
Lemma no_filters_match q l : has_filters q = false → List.filter (audit_match q) l = l.
Proof. intros Hf. apply forallb_filter_id, forallb_forall. intros. by apply no_filter_match. Qed.
Lemma pool_audit_run e id q (st : St) (all : list AuditEvent) :
  count_audit_by_resource (ce_db e 1%nat) id (tx_db st) = (Ok (length all), tx_db st) →
  (∀ limit offset, list_audit_by_resource (ce_db e 0%nat) id limit offset (tx_db st) =
     (Ok (take limit (drop offset all)), tx_db st)) →
  let limit := Nat.min (aq_limit q) 200 in
  pool_audit e id q st =
    (Ok (if has_filters q
         then let seen := List.filter (audit_match q) (take 1000 all) in
              mkPoolAudit id (take limit (drop (aq_offset q) seen)) (length seen)
         else mkPoolAudit id (take limit (drop (aq_offset q) all)) (length all)), st).
Proof.
  intros Hc Hl limit. unfold pool_audit. rewrite act_bind_eq, (list_audit_query e 0 id _ _ _ st (Hl _ _)).
  cbn [fst snd]. destruct (has_filters q) eqn:Hf; [done|].
  rewrite act_bind_eq. unfold db_or, reading. rewrite Hc. cbn [fst snd unwrap_or].
  by rewrite no_filters_match.
Qed.

End Views.

(** ** Examples *)

(** A world with three pools, and the pages of two of them. *)
Definition market_pool (addr name : string) (created rows : Z) : PoolMetadata :=
  mkPoolMetadata addr name Malta "w1" ∅ "schema" None "" VStrict Ready (mkDateTime created 0) None None
    rows 0.
Definition w_market : World :=
  set_tx_db (foldl (λ db m, (upsert_pool_meta env0 m db).2) db0
    [market_pool "pa" "alpha" 1 5; market_pool "pb" "Beta" 2 9; market_pool "pc" "gamma" 3 9]) w_wallet.
Definition by_rows : ListAllPoolsQuery := mkListAll None (Some "A") "credentials_desc" 50 0.
Lemma marketplace_pages_witness :
  ∃ (pages : nat → list MarketplacePoolEntry) all,
    (∀ i, ∃ offset, list_all_pools (cenv3 "-") (page_query by_rows 2 i) w_market =
       (Ok (mkAllPools (pages i) (length all) 2 offset), w_market)) ∧
    length all = 3%nat ∧ concat (pages <$> seq 0 2) = all.
Proof.
  destruct (marketplace_pages (cenv3 "-") by_rows 2 w_market env0_reliable ltac:(lia))
    as (pages & all & Hp & _ & Hc & Hperm & _).
  assert (Hl : length all = 3%nat).
  { rewrite (Permutation_length Hperm). vm_compute. reflexivity. }
  exists pages, all. split; [exact Hp|]. split; [exact Hl|]. apply Hc. rewrite Hl. lia.
Defined.
Definition w_trail : World := set_tx_db (log_all evs0 open_fresh []).1 w_wallet.
Definition succeeded_only : PoolAuditQuery := mkAuditQuery 50 0 None None (Some "ok") None None.
