(* ===== verification/SolanaRpc.v ===== *)
(** * The JSON-RPC client

    src/src/blockchain/rpc.rs: the request envelope and its counter, the typed
    calls, and the lenient readers of transaction details.  The HTTP stack is the
    environment ([Http.v]); [bincode], hashes and signatures are parameters. *)
From S2P Require Import Prelude.
From S2P Require Import RustStr.
From S2P Require Import RustFmt.
From S2P Require Import Errors.
From S2P Require Import Types.
From S2P Require Import Interfaces.
From S2P Require Import Text.
From S2P Require Import Http.
From S2P Require Import DrtValidation.
From S2P Require Import DrtProgram.
From S2P Require Import Chain.

Local Open Scope Z_scope.
#[local] Arguments String.append : simpl nomatch.

(** ** Data *)

Record RpcErrorObject := mkRpcErrorObject { ro_code : Z; ro_message : string }.
Record RpcResponse := mkRpcResponse { rp_result : option Json; rp_error : option RpcErrorObject }.
(** [RpcContext<T>]: the context is not used. *)
Record RpcContext (A : Type) := mkContext { cx_value : A }.
Arguments mkContext {A} _.
Arguments cx_value {A} _.
Record BlockhashInner := mkBlockhashInner { bi_blockhash : string; bi_last_valid_block_height : Z }.
Record TokenAmountInfo := mkTokenAmount {
  ta_amount : string; ta_decimals : Z; ta_ui_amount_string : option string }.
Record TransactionMeta := mkTxMeta {
  tm_fee : Z; tm_log_messages : list string; tm_err : option Json;
  tm_pre_balances : list Z; tm_post_balances : list Z }.
Record TransactionEnvelope := mkEnvelope { te_account_keys : list string }.
Record TransactionDetail := mkTxDetail {
  td_slot : Z; td_meta : option TransactionMeta; td_transaction : TransactionEnvelope }.
Record SignatureInfo := mkSigInfo {
  si_signature : string; si_slot : option Z; si_err : option Json; si_block_time : option Z;
  si_confirmation_status : option string }.

(** ** [serde_json::Value] *)

(** [v["key"]]: null when there is no such member. *)
Definition json_index (key : string) (v : Json) : Json := default JNull (json_get key v).
Definition is_null (v : Json) : bool := match v with JNull => true | _ => false end.
Definition as_array (v : Json) : option (list Json) := match v with JArr l => Some l | _ => None end.

(** ** Transaction details *)

Definition u64_array (v : Json) : list Z := default [] (filter_map as_u64 <$> as_array v).
Definition parse_tx_meta (v : Json) : option TransactionMeta :=
  if is_null v then None
  else Some (mkTxMeta (default 0 (as_u64 (json_index "fee" v)))
    (default [] (filter_map as_str <$> as_array (json_index "logMessages" v)))
    (if is_null (json_index "err" v) then None else Some (json_index "err" v))
    (u64_array (json_index "preBalances" v)) (u64_array (json_index "postBalances" v))).
Definition account_key (item : Json) : option string :=
  match as_str item with Some s => Some s | None => as_str (json_index "pubkey" item) end.
Definition parse_tx_envelope (v : Json) : TransactionEnvelope :=
  mkEnvelope (default [] (filter_map account_key
    <$> as_array (json_index "accountKeys" (json_index "message" v)))).

(** ** The client *)

Record JsonRpcClient := mkRpcClient { rc_url : string; rc_commitment : string; rc_next_id : Z }.
Definition bump_id (c : JsonRpcClient) : JsonRpcClient :=
  mkRpcClient (rc_url c) (rc_commitment c) (wrap64 (rc_next_id c + 1)).

(** The crates: [StatusCode]'s text, [bincode] of a transaction and of a message,
    [Hash] and [Signature] from text, standard base64, and error texts. *)
Class RpcCrates := {
  status_display : Z → string;
  bincode_tx : Tx → result string string;
  bincode_message : list Instruction → string → string → result string string;
  hash_from_str : string → option string;
  signature_from_str : string → option string;
  std_b64_encode : string → string;
  (** the texts of a UTF-8 and of a base64 error *)
  utf8_error : string → string;
  b64_error : string → string;
}.

Section Client.
Context `{RpcCrates, SolanaCrates, Serde Json, Serde RpcResponse}.
Abbreviation rpc A := (act JsonRpcClient string A).

Definition call (net : Net) (timeout method : string) (params : Json) : rpc Json := λ c,
  let body := obj [("jsonrpc", JStr "2.0"); ("id", JNum (rc_next_id c)); ("method", JStr method);
                   ("params", params)] in
  (resp ← map_err (λ e, "HTTP error: " +:+ e) (HttpClient.post_json net timeout (rc_url c) body);
   text ← (if utf8_valid (r_body resp) then Ok (r_body resp)
           else Err ("response read error: response not valid UTF-8: " +:+ utf8_error (r_body resp)));
   _ ← reject_if (negb (is_success resp))
         ("HTTP " +:+ status_display (r_status resp) +:+ ": " +:+ text);
   rpc_resp ← map_err (λ e, "JSON parse: " +:+ e) (from_slice (A := RpcResponse) text);
   _ ← match rp_error rpc_resp with
       | Some err => Err ("RPC error " +:+ show_i64 (ro_code err) +:+ ": " +:+ ro_message err)
       | None => Ok ()
       end;
   ok_or (rp_result rpc_resp) "missing result in response",
   bump_id c).
Definition call_typed {A} `{FromValue A} (net : Net) (timeout method : string) (params : Json) : rpc A :=
  value ← call net timeout method params;
  lift (map_err (λ e, "deserialize: " +:+ e) (from_value value)).

Context `{FromValue (RpcContext BlockhashInner), FromValue (RpcContext (list (option SignatureStatus)))}.
Context `{FromValue (RpcContext Z), FromValue (RpcContext (option Z)), FromValue (RpcContext Json)}.
Context `{FromValue (RpcContext TokenAmountInfo), FromValue (list SignatureInfo), FromValue string}.

Definition committed (c : JsonRpcClient) : Json := obj [("commitment", JStr (rc_commitment c))].
(** A call whose parameters need the client's commitment. *)
Definition with_client {A : Type} (f : JsonRpcClient → rpc A) : rpc A := λ c, f c c.

Definition get_latest_blockhash (net : Net) (timeout : string) : rpc string :=
  ctx ← with_client (λ c, call_typed (A := RpcContext BlockhashInner) net timeout "getLatestBlockhash"
          (JArr [committed c]));
  lift (ok_or (hash_from_str (bi_blockhash (cx_value ctx))) "invalid blockhash").
Definition rpc_send_transaction (net : Net) (timeout : string) (tx : Tx) : rpc string :=
  bytes ← lift (map_err (λ e, "serialize tx: " +:+ e) (bincode_tx tx));
  sig_str ← with_client (λ c, call_typed (A := string) net timeout "sendTransaction"
    (JArr [JStr (std_b64_encode bytes);
           obj [("encoding", JStr "base64"); ("skipPreflight", JBool false);
                ("preflightCommitment", JStr (rc_commitment c))]]));
  lift (ok_or (signature_from_str sig_str) "invalid signature in response").
Definition get_signature_statuses (net : Net) (timeout : string) (sigs : list string) :
    rpc (list (option SignatureStatus)) :=
  ctx ← call_typed (A := RpcContext (list (option SignatureStatus))) net timeout "getSignatureStatuses"
    (JArr [JArr (JStr <$> sigs); obj [("searchTransactionHistory", JBool false)]]);
  mret (cx_value ctx).
Definition rpc_get_balance (net : Net) (timeout pubkey : string) : rpc Z :=
  ctx ← with_client (λ c, call_typed (A := RpcContext Z) net timeout "getBalance"
          (JArr [JStr (base58 pubkey); committed c]));
  mret (cx_value ctx).
(** The error [inr ()] is a panic: indexing an empty array. *)
Definition get_account_data (net : Net) (timeout pubkey : string) :
    act JsonRpcClient (string + unit) (option string) :=
  ctx ← act_map_err inl (with_client (λ c, call_typed (A := RpcContext Json) net timeout "getAccountInfo"
            (JArr [JStr (base58 pubkey);
                   obj [("encoding", JStr "base64"); ("commitment", JStr (rc_commitment c))]])));
  let value := cx_value ctx in
  if is_null value then mret None
  else
    data_arr ← lift (ok_or (as_array (json_index "data" value)) (inl "missing data field"));
    first ← lift (ok_or (head data_arr) (inr ()));
    b64 ← lift (ok_or (as_str first) (inl "data[0] not a string"));
    bytes ← lift (ok_or (std_b64_decode b64) (inl ("base64 decode: " +:+ b64_error b64)));
    mret (Some bytes).
Definition get_fee_for_message (net : Net) (timeout : string) (ixs : list Instruction)
    (payer blockhash : string) : rpc Z :=
  msg_bytes ← lift (map_err (λ e, "serialize: " +:+ e) (bincode_message ixs payer blockhash));
  ctx ← with_client (λ c, call_typed (A := RpcContext (option Z)) net timeout "getFeeForMessage"
            (JArr [JStr (std_b64_encode msg_bytes); committed c]));
  lift (ok_or (cx_value ctx) "null fee response").
Definition get_health (net : Net) (timeout : string) : rpc unit :=
  r ← call_typed (A := string) net timeout "getHealth" (JArr []);
  lift (reject_if (negb (bool_decide (r = "ok"))) ("unhealthy: " +:+ r)).
Definition get_token_account_balance (net : Net) (timeout pubkey : string) : rpc TokenAmountInfo :=
  ctx ← with_client (λ c, call_typed (A := RpcContext TokenAmountInfo) net timeout
          "getTokenAccountBalance" (JArr [JStr (base58 pubkey); committed c]));
  mret (cx_value ctx).
Definition get_token_supply (net : Net) (timeout mint : string) : rpc TokenAmountInfo :=
  ctx ← with_client (λ c, call_typed (A := RpcContext TokenAmountInfo) net timeout "getTokenSupply"
          (JArr [JStr (base58 mint); committed c]));
  mret (cx_value ctx).
Definition rpc_get_transaction (net : Net) (timeout signature commitment : string) :
    rpc TransactionDetail :=
  r ← call net timeout "getTransaction"
        (JArr [JStr signature;
               obj [("encoding", JStr "jsonParsed"); ("commitment", JStr commitment);
                    ("maxSupportedTransactionVersion", JNum 0)]]);
  _ ← lift (reject_if (is_null r) ("transaction " +:+ signature +:+ " not found"));
  mret (mkTxDetail (default 0 (as_u64 (json_index "slot" r))) (parse_tx_meta (json_index "meta" r))
          (parse_tx_envelope (json_index "transaction" r))).
Definition sigs_config (before until : option string) (limit : option Z) (commitment : string) : Json :=
  let m : gmap string Json := {["commitment" := JStr commitment]} in
  let m := match before with Some b => <["before" := JStr b]> m | None => m end in
  let m := match until with Some u => <["until" := JStr u]> m | None => m end in
  let m := match limit with Some l => <["limit" := JNum l]> m | None => m end in
  json_map m.
Definition get_signatures_for_address (net : Net) (timeout address : string)
    (before until : option string) (limit : option Z) (commitment : string) : rpc (list SignatureInfo) :=
  call_typed net timeout "getSignaturesForAddress"
    (JArr [JStr (base58 address); sigs_config before until limit commitment]).
End Client.
