(* ===== verification/Lamports.v ===== *)
(** * Amounts in SOL

    [lamports as f64 / 1_000_000_000.0] printed with nine decimals, as
    src/src/blockchain/client.rs, src/src/api/transactions.rs and
    src/src/indexer/poller.rs do it: two roundings to 53 significant bits and one
    to nine decimals. *)
From S2P Require Import Prelude.
From S2P Require Import RustStr.
From S2P Require Import RustFmt.

Local Open Scope Z_scope.
#[local] Arguments String.append : simpl nomatch.

(** ** Rounding *)

(** The integer nearest to [n / d], ties to even. *)
Definition round_half_even (n d : Z) : Z :=
  let q := n / d in
  let r := n mod d in
  if 2 * r <? d then q
  else if d <? 2 * r then q + 1
  else if Z.even q then q else q + 1.
(** The exponent of the leading bit of [n / d]. *)
Definition ratio_log2 (n d : Z) : Z :=
  let e := Z.log2 n - Z.log2 d in
  if (if 0 <=? e then n <? d * 2 ^ e else n * 2 ^ (- e) <? d) then e - 1 else e.
(** The double nearest to [n / d], as a fraction (no value here is subnormal). *)
Definition f64_round (n d : Z) : Z * Z :=
  if n =? 0 then (0, 1)
  else
    let e := ratio_log2 n d - 52 in
    if 0 <=? e then (round_half_even n (d * 2 ^ e) * 2 ^ e, 1)
    else (round_half_even (n * 2 ^ (- e)) d, 2 ^ (- e)).

(** ** Printing *)

Fixpoint pad_digits (n : nat) (z : Z) (acc : string) : string :=
  match n with
  | O => acc
  | S m => pad_digits m (z / 10) (String (digit_char (z mod 10)) acc)
  end.
(** [format!("{x:.9}")]. *)
Definition fmt_fixed9 (x : Z * Z) : string :=
  let k := round_half_even (x.1 * 10 ^ 9) x.2 in
  show_u64 (k / 10 ^ 9) +:+ "." +:+ pad_digits 9 (k mod 10 ^ 9) "".
Definition lamports_to_sol (lamports : Z) : Z * Z :=
  let x := f64_round lamports 1 in f64_round x.1 (x.2 * 10 ^ 9).
Definition fmt_sol (lamports : Z) : string := fmt_fixed9 (lamports_to_sol lamports).

(** ** Facts *)

Lemma round_half_even_near n d : 0 < d → 2 * Z.abs (round_half_even n d * d - n) ≤ d.
Proof.
  intros Hd. unfold round_half_even. pose proof (Z.div_mod n d ltac:(lia)) as Hn.
  pose proof (Z.mod_pos_bound n d Hd) as Hr. set (q := n / d) in *. set (r := n mod d) in *.
  destruct (Z.ltb_spec (2 * r) d); [nia|]. destruct (Z.ltb_spec d (2 * r)); [nia|].
  destruct (Z.even q); nia.
Qed.
Lemma round_half_even_unique n d k : 0 < d → 2 * Z.abs (k * d - n) < d → round_half_even n d = k.
Proof. intros Hd Hk. pose proof (round_half_even_near n d Hd). nia. Qed.
Lemma round_half_even_exact k d : 0 < d → round_half_even (k * d) d = k.
Proof. intros Hd. apply round_half_even_unique; [done|]. rewrite Z.sub_diag. simpl. lia. Qed.

Lemma pow2_pos e : 0 ≤ e → 0 < 2 ^ e.
Proof. intros. by apply Z.pow_pos_nonneg. Qed.
(** [2 ^ e ≤ n / d < 2 ^ (e + 1)]. *)
Definition leads (n d e : Z) : Prop :=
  (0 ≤ e → d * 2 ^ e ≤ n < 2 * d * 2 ^ e) ∧ (e < 0 → d ≤ n * 2 ^ (- e) < 2 * d).
Lemma ratio_log2_spec n d : 0 < n → 0 < d → leads n d (ratio_log2 n d).
Proof.
  intros Hn Hd. pose proof (Z.log2_spec n Hn) as [Hn1 Hn2]. pose proof (Z.log2_spec d Hd) as [Hd1 Hd2].
  pose proof (Z.log2_nonneg n) as Ha. pose proof (Z.log2_nonneg d) as Hb.
  unfold ratio_log2. set (a := Z.log2 n) in *. set (b := Z.log2 d) in *.
  rewrite Z.pow_succ_r in Hn2, Hd2 by done. cbv zeta. unfold leads.
  destruct (Z.leb_spec 0 (a - b)) as [He|He].
  - assert (Hab : 2 ^ a = 2 ^ b * 2 ^ (a - b)) by (rewrite <-Z.pow_add_r by lia; f_equal; lia).
    pose proof (pow2_pos (a - b) He) as Hp. set (P := 2 ^ (a - b)) in *.
    destruct (Z.ltb_spec n (d * P)) as [Hlt|Hge].
    + destruct (decide (a - b = 0)) as [H0|H0].
      * split; [lia|]. intros _. replace (- (a - b - 1)) with 1 by lia.
        assert (P = 1) by (subst P; by rewrite H0). nia.
      * split; [|lia]. intros _.
        assert (HP : P = 2 * 2 ^ (a - b - 1))
          by (subst P; rewrite <-Z.pow_succ_r by lia; f_equal; lia).
        nia.
    + split; [|lia]. intros _. nia.
  - assert (Hab : 2 ^ b = 2 ^ a * 2 ^ (- (a - b))) by (rewrite <-Z.pow_add_r by lia; f_equal; lia).
    pose proof (pow2_pos (- (a - b)) ltac:(lia)) as Hp.
    assert (HQ : 2 ^ (- (a - b - 1)) = 2 * 2 ^ (- (a - b)))
      by (rewrite <-Z.pow_succ_r by lia; f_equal; lia).
    set (P := 2 ^ (- (a - b))) in *.
    destruct (Z.ltb_spec (n * P) d) as [Hlt|Hge]; (split; [lia|]); intros _; [rewrite HQ|]; nia.
Qed.

(** A double is within one part in [2 ^ 53]. *)
Lemma f64_round_near n d :
  0 ≤ n → 0 < d →
  let '(p, q) := f64_round n d in 0 < q ∧ 2 ^ 53 * Z.abs (p * d - n * q) ≤ n * q.
Proof.
  intros Hn Hd. unfold f64_round. destruct (Z.eqb_spec n 0) as [->|Hn0]; [lia|]. cbv zeta.
  pose proof (ratio_log2_spec n d ltac:(lia) Hd) as [Hpos Hneg]. set (l := ratio_log2 n d) in *.
  destruct (Z.leb_spec 0 (l - 52)) as [He|He].
  - split; [lia|]. pose proof (pow2_pos (l - 52) He) as Hp.
    pose proof (round_half_even_near n (d * 2 ^ (l - 52)) ltac:(nia)) as Hr.
    assert (Hl : 2 ^ l = 2 ^ 52 * 2 ^ (l - 52)) by (rewrite <-Z.pow_add_r by lia; f_equal; lia).
    destruct (Hpos ltac:(lia)) as [Hlo _]. set (P := 2 ^ (l - 52)) in *.
    set (k := round_half_even n (d * P)) in *.
    replace (k * P * d - n * 1) with (k * (d * P) - n) by lia. nia.
  - pose proof (pow2_pos (- (l - 52)) ltac:(lia)) as Hp. split; [done|].
    pose proof (round_half_even_near (n * 2 ^ (- (l - 52))) d Hd) as Hr.
    set (k := round_half_even (n * 2 ^ (- (l - 52))) d) in *.
    assert (Hbig : 2 ^ 52 * d ≤ n * 2 ^ (- (l - 52))).
    { destruct (Z_lt_le_dec l 0) as [Hl|Hl].
      - assert (Hx : 2 ^ (- (l - 52)) = 2 ^ 52 * 2 ^ (- l))
          by (rewrite <-Z.pow_add_r by lia; f_equal; lia).
        rewrite Hx. destruct (Hneg Hl) as [Hlo _]. nia.
      - assert (Hx : 2 ^ l * 2 ^ (- (l - 52)) = 2 ^ 52)
          by (rewrite <-Z.pow_add_r by lia; f_equal; lia).
        destruct (Hpos Hl) as [Hlo _]. rewrite <-Hx. nia. }
    set (P := 2 ^ (- (l - 52))) in *. nia.
Qed.
(** An integer below [2 ^ 53] is a double. *)
Lemma f64_round_small n :
  0 ≤ n < 2 ^ 53 → (f64_round n 1).1 = n * (f64_round n 1).2 ∧ 0 < (f64_round n 1).2.
Proof.
  intros Hn. unfold f64_round. destruct (Z.eqb_spec n 0) as [->|Hn0]; [simpl; lia|]. cbv zeta.
  pose proof (ratio_log2_spec n 1 ltac:(lia) ltac:(lia)) as [Hpos Hneg]. set (l := ratio_log2 n 1) in *.
  assert (Hl : l ≤ 52).
  { destruct (Z_lt_le_dec 52 l) as [Hl|]; [|done]. destruct (Hpos ltac:(lia)) as [Hlo _].
    assert (2 ^ 53 ≤ 2 ^ l) by (apply Z.pow_le_mono_r; lia). lia. }
  destruct (Z.leb_spec 0 (l - 52)) as [He|He]; cbn [fst snd].
  - replace (l - 52) with 0 by lia. split; [|lia]. rewrite Z.pow_0_r, !Z.mul_1_r.
    rewrite <-(Z.mul_1_r n) at 1. by apply round_half_even_exact.
  - split; [|apply pow2_pos; lia]. rewrite <-(Z.mul_1_r (n * _)) at 1. by apply round_half_even_exact.
Qed.

(** Amounts below [2 ^ 52] lamports are printed exactly. *)
Lemma fmt_sol_exact n :
  0 ≤ n < 2 ^ 52 →
  fmt_sol n = show_u64 (n / 10 ^ 9) +:+ "." +:+ pad_digits 9 (n mod 10 ^ 9) "".
Proof.
  intros Hn. unfold fmt_sol, lamports_to_sol. destruct (f64_round_small n) as [Hx Hp]; [lia|].
  destruct (f64_round n 1) as [a b]. simpl in Hx, Hp. simpl. subst a.
  pose proof (f64_round_near (n * b) (b * 10 ^ 9) ltac:(nia) ltac:(lia)) as Hr.
  destruct (f64_round (n * b) (b * 10 ^ 9)) as [p q]. destruct Hr as [Hq Hr].
  unfold fmt_fixed9. simpl fst. simpl snd.
  rewrite (round_half_even_unique (p * 10 ^ 9) q n); [done|done|].
  assert (Hb : 2 ^ 53 * Z.abs (p * 10 ^ 9 - n * q) ≤ n * q).
  { replace (p * (b * 10 ^ 9) - n * b * q) with (b * (p * 10 ^ 9 - n * q)) in Hr by lia.
    rewrite Z.abs_mul, (Z.abs_eq b) in Hr by lia. nia. }
  nia.
Qed.
