(* ===== verification/Indexer.v ===== *)
(** * The transaction indexer

    src/src/indexer/poller.rs: for one address, the new signatures since the last
    seen one are fetched, the unknown transactions are read and stored, and the
    checkpoint moves to the newest signature.  The node is the environment. *)
From S2P Require Import Prelude.
From S2P Require Import RustStr.
From S2P Require Import RustFmt.
From S2P Require Import Errors.
From S2P Require Import Types.
From S2P Require Import Interfaces.
From S2P Require Import TxDatabase.
From S2P Require Import Text.
From S2P Require Import Storage.
From S2P Require Import TxCache.
From S2P Require Import AppState.
From S2P Require Import DataValidation.
From S2P Require Import DrtProgram.
From S2P Require Import Chain.
From S2P Require Import SolanaRpc.
From S2P Require Import Lamports.

Local Open Scope Z_scope.
#[local] Arguments String.append : simpl nomatch.

(** ** Networks (src/src/blockchain/types.rs) *)

Record NetworkConfig := mkNetwork {
  nc_name : string; nc_rpc_url : string; nc_explorer_url : string; nc_explorer_suffix : string }.
Definition explorer_tx_url (n : NetworkConfig) (signature : string) : string :=
  nc_explorer_url n +:+ "/tx/" +:+ signature +:+ nc_explorer_suffix n.
Definition explorer_address_url (n : NetworkConfig) (address : string) : string :=
  nc_explorer_url n +:+ "/address/" +:+ address +:+ nc_explorer_suffix n.
Definition devnet_config (rpc_url : string) : NetworkConfig :=
  mkNetwork "Solana Devnet" rpc_url "https://explorer.solana.com" "?cluster=devnet".
Definition mainnet_config (rpc_url : string) : NetworkConfig :=
  mkNetwork "Solana Mainnet" rpc_url "https://explorer.solana.com" "".

(** ** Environment *)

(** What the node answers, the transactions of each step (by the index of the
    signature in the loop), the clock. *)
Record IdxEnv (T : Type) `{RedbTxn (Db T)} := mkIdxEnv {
  ie_state : renv (Db T);
  ie_sigs : string → option string → result string (list SignatureInfo);
  ie_known : nat → renv (Db T);
  ie_detail : string → result string TransactionDetail;
  ie_resolve : nat → renv (Db T);
  ie_store : nat → renv (Db T);
  ie_checkpoint : renv (Db T);
  ie_now : nat → DateTime;
  ie_cooldown : renv (Db T);
  ie_stamp : renv (Db T);
}.
Arguments mkIdxEnv {T _} _ _ _ _ _ _ _ _ _ _.
Arguments ie_state {T _} _.
Arguments ie_sigs {T _} _.
Arguments ie_known {T _} _.
Arguments ie_detail {T _} _.
Arguments ie_resolve {T _} _.
Arguments ie_store {T _} _.
Arguments ie_checkpoint {T _} _.
Arguments ie_now {T _} _.
Arguments ie_cooldown {T _} _.
Arguments ie_stamp {T _} _.

Definition SYNC_COOLDOWN_SECS : Z := 10.
Definition state_key (address : string) : string := "last_sig:" +:+ address.
Definition cooldown_key (address : string) : string := "last_sync_ts:" +:+ address.

(** ** One transaction *)

(** [iter().position(..)]. *)
Fixpoint position_from (i : nat) (x : string) (l : list string) : option nat :=
  match l with
  | [] => None
  | y :: l' => if bool_decide (y = x) then Some i else position_from (S i) x l'
  end.
Definition position (x : string) (l : list string) : option nat := position_from 0 x l.

(** The amount from the balances before and after. *)
Definition parse_amount (address : string) (is_sender : bool) (detail : TransactionDetail) :
    option Z * string :=
  match td_meta detail with
  | Some meta =>
      match position address (te_account_keys (td_transaction detail)) with
      | Some idx =>
          let pre := default 0 (tm_pre_balances meta !! idx) in
          let post := default 0 (tm_post_balances meta !! idx) in
          let lam := if is_sender then u64_saturating_sub (u64_saturating_sub pre post) (tm_fee meta)
                     else u64_saturating_sub post pre in
          (Some lam, fmt_sol lam)
      | None => (None, "0")
      end
  | None => (None, "0")
  end.
Definition sent_by (address : string) (detail : TransactionDetail) : bool :=
  bool_decide (default "" (head (te_account_keys (td_transaction detail))) = address).
(** The sender and the receiver of the transfer. *)
Definition parties (address : string) (detail : TransactionDetail) : string * string :=
  let keys := te_account_keys (td_transaction detail) in
  if sent_by address detail then (address, default "" (keys !! 1%nat))
  else (default "" (head keys), address).

Section Poller.
Context {T C : Type} `{RedbTable T, RedbTxn (Db T), DbCrates, SolanaCrates, TextCrates}.
Context `{Lru C CacheEntry, Serde StoredTransaction}.
Abbreviation St := (AppState T C).
Abbreviation task A := (act St string A).

(** [tx_db.f(..)?] in the poller. *)
Definition idx_db {A} (m : act (Db T) TxDbError A) : task A :=
  act_map_err display_txdb (zoom tx_db set_tx_db m).

Definition stored_of (net : NetworkConfig) (address wallet_id : string) (info : SignatureInfo)
    (detail : TransactionDetail) (now : DateTime) (counterparty : option string) : StoredTransaction :=
  let '(amount_lamports, amount_display) := parse_amount address (sent_by address detail) detail in
  let '(from_addr, to_addr) := parties address detail in
  mkStoredTransaction (si_signature info) wallet_id counterparty from_addr to_addr amount_display
    amount_lamports Native (nc_name net)
    (match si_err info with Some _ => TxFailed | None => TxConfirmed end)
    (Some (td_slot detail)) (tm_fee <$> td_meta detail) (explorer_tx_url net (si_signature info))
    (default now (si_block_time info ≫= from_timestamp)) now.

(** The body of the loop, for the [i]th signature. *)
Definition poll_one (net : NetworkConfig) (e : IdxEnv T) (address wallet_id : string) (i : nat)
    (info : SignatureInfo) : task unit :=
  let sig_str := si_signature info in
  known ← idx_db (get_transaction (ie_known e i) sig_str);
  match known with
  | Some _ => mret ()
  | None =>
      match ie_detail e sig_str with
      | Ok detail =>
          let '(from_addr, to_addr) := parties address detail in
          let other := if sent_by address detail then to_addr else from_addr in
          counterparty ← reading (λ st, Ok (match (get_wallet_id_for_address (ie_resolve e i) other
                                                     (tx_db st)).1 with
                                            | Ok found => found
                                            | Err _ => None
                                            end));
          let stored := stored_of net address wallet_id info detail (ie_now e i) counterparty in
          let direction := if sent_by address detail then "sent" else "received" in
          best_effort (zoom tx_db set_tx_db
            (upsert_transaction (ie_store e i) stored [(address, direction)]))
      | Err _ => mret ()
      end
  end.
Fixpoint poll_sigs (net : NetworkConfig) (e : IdxEnv T) (address wallet_id : string) (i : nat)
    (sigs : list SignatureInfo) : task unit :=
  match sigs with
  | [] => mret ()
  | info :: rest =>
      _ ← poll_one net e address wallet_id i info;
      poll_sigs net e address wallet_id (S i) rest
  end.
Definition poll_address (net : NetworkConfig) (e : IdxEnv T) (address wallet_id : string) : task unit :=
  pubkey ← lift (ok_or (pubkey_from_str address) "invalid address");
  last_sig ← idx_db (get_indexer_state (ie_state e) (state_key address));
  let until_sig := match last_sig with
                   | Some bytes => if utf8_valid bytes then Some bytes else None
                   | None => None
                   end in
  sigs ← lift (ie_sigs e pubkey until_sig);
  match sigs with
  | [] => mret ()
  | newest :: _ =>
      _ ← poll_sigs net e address wallet_id 0 sigs;
      _ ← idx_db (set_indexer_state (ie_checkpoint e) (state_key address) (si_signature newest));
      updating (λ st, set_tx_cache (invalidate address (tx_cache st)) st)
  end.

(** [sync_address_once]: at most one poll of an address per cooldown. *)
Definition cooling (e : IdxEnv T) (now : Z) (address : string) (st : St) : bool :=
  match (get_indexer_state (ie_cooldown e) (cooldown_key address) (tx_db st)).1 with
  | Ok (Some ts_bytes) =>
      if utf8_valid ts_bytes then
        match parse_i64 ts_bytes with
        | Some last_ts => i64_sub now last_ts <? SYNC_COOLDOWN_SECS
        | None => false
        end
      else false
  | _ => false
  end.
Definition sync_address_once (net : NetworkConfig) (e : IdxEnv T) (start finish : DateTime)
    (address wallet_id : string) : task unit :=
  skip ← reading (λ st, Ok (cooling e (timestamp start) address st));
  if (skip : bool) then mret ()
  else
    _ ← poll_address net e address wallet_id;
    idx_db (set_indexer_state (ie_stamp e) (cooldown_key address) (show_i64 (timestamp finish))).

(** [poll_once]: a failure of one address does not stop the cycle. *)
Fixpoint poll_all (net : NetworkConfig) (e : nat → IdxEnv T) (i : nat)
    (addresses : list (string * string)) : task unit :=
  match addresses with
  | [] => mret ()
  | (address, wallet_id) :: rest =>
      _ ← best_effort (poll_address net (e i) address wallet_id);
      poll_all net e (S i) rest
  end.
Definition poll_once (net : NetworkConfig) (env : renv (Db T)) (e : nat → IdxEnv T) : task unit :=
  addresses ← idx_db (get_all_addresses env);
  poll_all net e 0 addresses.
End Poller.
