(* ===== verification/IndexerFacts.v ===== *)
(** * What the indexer records

    Whatever the node and the database do, the indexer only adds transactions,
    and each one it adds translates a detail the node returned for a signature it
    listed.  When the database works a poll records every listed transaction
    whose detail the node returned; one whose detail call fails is passed over
    for good, because the checkpoint moves past it. *)
From S2P Require Import Prelude.
From S2P Require Import RustStr.
From S2P Require Import RustFmt.
From S2P Require Import Errors.
From S2P Require Import Types.
From S2P Require Import Interfaces.
From S2P Require Import TxDatabase.
From S2P Require Import Instances.
From S2P Require Import TxScans.
From S2P Require Import Text.
From S2P Require Import Storage.
From S2P Require Import TxCache.
From S2P Require Import AppState.
From S2P Require Import AuditLog.
From S2P Require Import DrtProgram.
From S2P Require Import DrtProgramFacts.
From S2P Require Import Chain.
From S2P Require Import PoolExamples.
From S2P Require Import SolanaRpc.
From S2P Require Import Lamports.
From S2P Require Import Indexer.

Local Open Scope Z_scope.
#[local] Arguments String.append : simpl nomatch.

Section Added.
Context {T C : Type} `{RedbTableLaws T, RedbTxnLaws (Db T)}.
Abbreviation St := (AppState T C).
Abbreviation Source := (Db T → string → StoredTransaction → Prop).
Context `{Serde StoredTransaction}.

Definition INDEXED : list TableDefinition := [TRANSACTIONS; WALLET_TX_INDEX; INDEXER_STATE].
Definition stored_bytes (db : Db T) (sig : string) : option string := t_get (db TRANSACTIONS) sig.

(** Outside the indexer's tables nothing changes, and in the table of
    transactions only records from [src] are new. *)
Definition adds (src : Source) (db db' : Db T) : Prop :=
  (∀ n, n ∉ INDEXED → db' n = db n) ∧
  ∀ sig, stored_bytes db' sig = stored_bytes db sig ∨
    stored_bytes db sig = None ∧
    ∃ tx b, src db sig tx ∧ to_vec tx = Ok b ∧ stored_bytes db' sig = Some b.
(** [src] depends on the tables the indexer does not write. *)
Definition framed (src : Source) : Prop :=
  ∀ db db' sig tx, (∀ n, n ∉ INDEXED → db' n = db n) → src db' sig tx → src db sig tx.

Lemma adds_refl src db : adds src db db.
Proof. split; auto. Qed.
Lemma adds_trans src db1 db2 db3 :
  framed src → adds src db1 db2 → adds src db2 db3 → adds src db1 db3.
Proof.
  intros Hf [Hn1 Ha1] [Hn2 Ha2]. split; [intros n Hn; by rewrite Hn2, Hn1|]. intros sig.
  destruct (Ha2 sig) as [->|(Hnone & tx & b & Hs & Hb & Hv)]; [apply Ha1|].
  destruct (Ha1 sig) as [Heq|(_ & ? & ? & _ & _ & Hv')]; [|congruence].
  right. split; [congruence|]. exists tx, b. split; [by eapply Hf|done].
Qed.
Lemma adds_other src db db' :
  (∀ n, n ∉ [WALLET_TX_INDEX; INDEXER_STATE] → db' n = db n) → adds src db db'.
Proof.
  intros Hn. split; [intros n Hni; apply Hn; set_solver|]. intros sig. left.
  unfold stored_bytes. rewrite Hn; [done|set_solver].
Qed.
Lemma adds_mono (src src' : Source) db db' :
  (∀ d sig tx, src d sig tx → src' d sig tx) → adds src db db' → adds src' db db'.
Proof.
  intros Hs [Hn Ha]. split; [done|]. intros sig. destruct (Ha sig) as [|(? & tx & b & ? & ?)]; [auto|].
  right. split; [done|]. exists tx, b. eauto.
Qed.

(** Actions that only add, and leave the files and the audit key. *)
Definition adding {E A} (src : Source) (m : act St E A) : Prop :=
  ∀ st, adds src (tx_db st) (tx_db (m st).2) ∧ storage (m st).2 = storage st ∧
        audit_key (m st).2 = audit_key st.
Lemma adding_bind {E A B} src (m : act St E A) (f : A → act St E B) :
  framed src → adding src m → (∀ a, adding src (f a)) → adding src (m ≫= f).
Proof.
  intros Hfr Hm Hf st. rewrite act_bind_eq. destruct (Hm st) as (Ha & Hs & Hk).
  destruct (m st) as [[a|e] s]; simpl in *; [|done]. destruct (Hf a s) as (Ha' & Hs' & Hk').
  split_and!; [by eapply adds_trans|congruence..].
Qed.
Lemma adding_still {E A} src (m : act St E A) : (∀ st, (m st).2 = st) → adding src m.
Proof. intros Hm st. rewrite Hm. auto using adds_refl. Qed.
Lemma adding_ret {E A} src (a : A) : adding src (mret a : act St E A).
Proof. by apply adding_still. Qed.
Lemma adding_lift {E A} src (r : result E A) : adding src (lift r : act St E A).
Proof. by apply adding_still. Qed.
Lemma adding_best_effort {E F A} src (m : act St F A) :
  adding src m → adding src (best_effort m : act St E unit).
Proof. intros Hm st. apply Hm. Qed.
Lemma adding_map_err {E F A} src (f : F → E) (m : act St F A) :
  adding src m → adding src (act_map_err f m).
Proof. intros Hm st. apply Hm. Qed.
Lemma adding_db {E A} src (m : act (Db T) E A) :
  touches [WALLET_TX_INDEX; INDEXER_STATE] m → adding src (zoom tx_db set_tx_db m : act St E A).
Proof.
  intros Hm st. simpl. split_and!; [|done..].
  apply adds_other. intros n Hn. by apply Hm.
Qed.
Lemma adding_cache {E} src (f : St → TxCache C) :
  adding src (updating (λ st, set_tx_cache (f st) st) : act St E unit).
Proof. intros st. simpl. auto using adds_refl. Qed.
End Added.
#[export] Hint Resolve adding_bind adding_ret adding_lift adding_best_effort adding_map_err
  adding_cache : rsdk.

(** ** One upsert *)

Section Upsert.
Context {T : Type} `{RedbTableLaws T, RedbTxnLaws (Db T), DbCrates, SerdeLaws StoredTransaction}.

Lemma upsert_body tx b dirs (db : Db T) :
  ∃ db', (_ ← tbl_insert TRANSACTIONS (tx_signature tx) b; insert_directions tx dirs : act (Db T) TxDbError _) db
           = (Ok (), db') ∧
    db' TRANSACTIONS = t_insert (tx_signature tx) b (db TRANSACTIONS).
Proof.
  assert (Hd : ∀ ds (d : Db T), ∃ d', insert_directions tx ds d = (Ok (), d') ∧
    d' TRANSACTIONS = d TRANSACTIONS).
  { induction ds as [|[a x] ds IH]; intros d; [by exists d|]. simpl. rewrite act_bind_eq. simpl.
    destruct (IH (set_table WALLET_TX_INDEX (t_insert (make_index_key a (timestamp (tx_created_at tx))
      (tx_signature tx)) x (d WALLET_TX_INDEX)) d)) as (d' & -> & Hd').
    exists d'. split; [done|]. rewrite Hd'. by apply set_table_ne. }
  rewrite act_bind_eq. simpl. destruct (Hd dirs (set_table TRANSACTIONS
    (t_insert (tx_signature tx) b (db TRANSACTIONS)) db)) as (d' & -> & Hd').
  exists d'. split; [done|]. rewrite Hd'. apply set_table_eq.
Qed.
(** An upsert writes the record, or nothing. *)
Lemma upsert_cases env tx dirs (db : Db T) :
  ∃ b, to_vec tx = Ok b ∧
    let r := upsert_transaction env tx dirs db in
    (r.1 = Ok () ∧ r.2 TRANSACTIONS = t_insert (tx_signature tx) b (db TRANSACTIONS) ∨
     ¬ reliable env ∧ r.2 = db).
Proof.
  destruct (to_vec_total tx) as [b Hb]. exists b. split; [done|]. unfold upsert_transaction.
  rewrite Hb. cbn [json_err map_err]. rewrite act_bind_lift. destruct (upsert_body tx b dirs db) as (db' & Hm & Ht).
  destruct (run_write_cases env _ db () db' Hm) as [->|(e & Hr & ->)]; [by left|by right].
Qed.
Lemma upsert_touches env tx dirs :
  touches [TRANSACTIONS; WALLET_TX_INDEX] (upsert_transaction (T := T) env tx dirs).
Proof. unfold upsert_transaction. solve_touches. Qed.
Lemma get_transaction_ok env sig (db : Db T) r :
  (get_transaction env sig db).1 = Ok r →
  match r with
  | Some tx => ∃ b, stored_bytes db sig = Some b ∧ from_slice b = Ok tx
  | None => stored_bytes db sig = None
  end.
Proof.
  unfold get_transaction, reading, stored_bytes. simpl. intros Hr%run_read_ok.
  destruct (t_get _ _) as [b|]; [|by simplify_eq].
  apply result_bind_ok in Hr as (tx & Htx%map_err_ok & Hr). simplify_eq. eauto.
Qed.
Lemma get_transaction_reliable env sig (db : Db T) :
  reliable env →
  (get_transaction env sig db).1 =
    match stored_bytes db sig with
    | Some b => tx ← json_err (from_slice b); Ok (Some tx)
    | None => Ok None
    end.
Proof. intros Hr. unfold get_transaction, reading. simpl. by rewrite run_read_reliable. Qed.
End Upsert.

(** ** Polling *)

Section Polls.
Context {T C : Type} `{RedbTableLaws T, RedbTxnLaws (Db T), DbCrates, SolanaCrates, TextCrates}.
Context `{Lru C CacheEntry, SerdeLaws StoredTransaction}.
Abbreviation St := (AppState T C).

(** The address on the other side of a transfer. *)
Definition other_party (address : string) (detail : TransactionDetail) : string :=
  if sent_by address detail then (parties address detail).2 else (parties address detail).1.
(** [tx] translates the detail the node returned for [sig], the [i]th of the
    signatures [sigs]; a counterparty is the wallet registered for its address. *)
Definition translated (net : NetworkConfig) (e : IdxEnv T) (address wallet_id : string)
    (sigs : list SignatureInfo) (db : Db T) (sig : string) (tx : StoredTransaction) : Prop :=
  ∃ i info detail counterparty,
    sigs !! i = Some info ∧ si_signature info = sig ∧ ie_detail e sig = Ok detail ∧
    (∀ w, counterparty = Some w →
       t_get (db ADDRESS_WALLET_MAP) (other_party address detail) = Some w) ∧
    tx = stored_of net address wallet_id info detail (ie_now e i) counterparty.
(** ... for signatures the node listed for the address. *)
Definition from_node (net : NetworkConfig) (e : IdxEnv T) (address wallet_id : string)
    (db : Db T) (sig : string) (tx : StoredTransaction) : Prop :=
  ∃ key until sigs, pubkey_from_str address = Some key ∧ ie_sigs e key until = Ok sigs ∧
    translated net e address wallet_id sigs db sig tx.

Lemma translated_framed net e address wid sigs : framed (translated net e address wid sigs).
Proof.
  intros db db' sig tx Hn (i & info & detail & c & Hi & Hs & Hd & Hc & ->).
  exists i, info, detail, c. split_and!; [done..| |done]. intros w Hw. rewrite <-Hn; [auto|set_solver].
Qed.
Lemma from_node_framed net e address wid : framed (from_node net e address wid).
Proof.
  intros db db' sig tx Hn (key & u & sigs & Hk & Hu & Ht). exists key, u, sigs. split_and!; [done..|].
  by eapply translated_framed.
Qed.

Lemma stored_signature net address wid info detail now c :
  tx_signature (stored_of net address wid info detail now c) = si_signature info.
Proof. unfold stored_of. by destruct (parse_amount _ _ _), (parties _ _). Qed.
Lemma idx_db_adding {A} src (m : act (Db T) TxDbError A) :
  touches [WALLET_TX_INDEX; INDEXER_STATE] m → adding src (idx_db m : act St string A).
Proof. intros. by apply adding_map_err, adding_db. Qed.

Lemma idx_db_reading {A} (m : act (Db T) TxDbError A) (st : St) :
  (m (tx_db st)).2 = tx_db st → idx_db m st = (map_err display_txdb (m (tx_db st)).1, st).
Proof. intros Hm. unfold idx_db, act_map_err, zoom. cbn [fst snd]. by rewrite Hm, set_tx_db_id. Qed.

(** The step for an unknown signature whose detail arrived. *)
Definition record_one (net : NetworkConfig) (e : IdxEnv T) (address wallet_id : string) (i : nat)
    (info : SignatureInfo) (detail : TransactionDetail) (st : St) : StoredTransaction :=
  let found := (get_wallet_id_for_address (ie_resolve e i) (other_party address detail) (tx_db st)).1 in
  stored_of net address wallet_id info detail (ie_now e i)
    (match found with Ok c => c | Err _ => None end).
Lemma poll_one_run net e address wid i info (st : St) :
  poll_one net e address wid i info st =
    match (get_transaction (ie_known e i) (si_signature info) (tx_db st)).1 with
    | Ok (Some _) => (Ok (), st)
    | Ok None =>
        match ie_detail e (si_signature info) with
        | Ok detail =>
            (Ok (), set_tx_db (upsert_transaction (ie_store e i)
               (record_one net e address wid i info detail st)
               [(address, if sent_by address detail then "sent" else "received")] (tx_db st)).2 st)
        | Err _ => (Ok (), st)
        end
    | Err x => (Err (display_txdb x), st)
    end.
Proof.
  unfold poll_one. rewrite act_bind_eq, idx_db_reading by done.
  destruct (get_transaction (ie_known e i) (si_signature info) (tx_db st)) as [[[tx|]|x] d];
    cbn [map_err fst snd]; try done.
  destruct (ie_detail e (si_signature info)) as [detail|]; [|done].
  unfold record_one, other_party. destruct (parties address detail) as [from to]. cbn [fst snd].
  rewrite act_bind_eq. unfold reading at 1. cbn [fst snd].
  unfold best_effort, zoom. by destruct (sent_by address detail).
Qed.
Lemma record_one_translated net e address wid sigs i info detail (st : St) :
  sigs !! i = Some info → ie_detail e (si_signature info) = Ok detail →
  translated net e address wid sigs (tx_db st) (si_signature info)
    (record_one net e address wid i info detail st).
Proof.
  intros Hi Hd. eexists i, info, detail, _. split_and!; [done..| |done]. intros w.
  unfold get_wallet_id_for_address, reading. cbn [fst].
  destruct (run_read (ie_resolve e i) _ (tx_db st)) as [c|] eqn:Hr; [|done].
  apply run_read_ok in Hr. intros ->. by injection Hr.
Qed.
Lemma poll_one_adding net e address wid sigs i info :
  sigs !! i = Some info → adding (C := C) (translated net e address wid sigs)
    (poll_one net e address wid i info).
Proof.
  intros Hi st. rewrite poll_one_run.
  destruct (get_transaction _ _ (tx_db st)) as [[[tx|]|x] d] eqn:Hg; cbn [fst snd];
    [by auto using adds_refl| |by auto using adds_refl].
  apply (f_equal fst), get_transaction_ok in Hg. simpl in Hg.
  destruct (ie_detail e (si_signature info)) as [detail|] eqn:Hd; cbn [fst snd];
    [|by auto using adds_refl].
  set (tx := record_one _ _ _ _ _ _ _ st). simpl. split_and!; [|done..].
  pose proof (upsert_touches (ie_store e i) tx
    [(address, if sent_by address detail then "sent" else "received")] (tx_db st)) as Ht.
  split; [intros n Hn; apply Ht; set_solver|]. intros sig.
  destruct (upsert_cases (ie_store e i) tx
    [(address, if sent_by address detail then "sent" else "received")] (tx_db st))
    as (b & Hb & [[_ Hw]|[_ Hw]]); [|left; unfold stored_bytes; by rewrite Hw].
  assert (Hsig : tx_signature tx = si_signature info) by apply stored_signature.
  unfold stored_bytes. rewrite Hw, t_get_insert, Hsig. case_decide as Hs; [|by left]. subst sig. right. split; [done|].
  exists tx, b. split_and!; [by apply record_one_translated|done..].
Qed.
Lemma poll_sigs_adding net e address wid all i sigs :
  (∀ j info, sigs !! j = Some info → all !! (i + j)%nat = Some info) →
  adding (C := C) (translated net e address wid all) (poll_sigs net e address wid i sigs).
Proof.
  revert i. induction sigs as [|info sigs IH]; intros i Hall; simpl; [apply adding_ret|].
  apply adding_bind; [apply translated_framed| |intros _].
  - apply poll_one_adding. rewrite <-(Nat.add_0_r i). by apply Hall.
  - apply IH. intros j x Hj. replace (S i + j)%nat with (i + S j)%nat by lia. by apply Hall.
Qed.
Lemma poll_address_adding net e address wid :
  adding (C := C) (from_node net e address wid) (poll_address net e address wid).
Proof.
  unfold poll_address. intros st. rewrite act_bind_lift.
  destruct (pubkey_from_str address) as [key|] eqn:Hk; cbn [ok_or]; [|by auto using adds_refl].
  revert st. apply adding_bind; [apply from_node_framed|apply idx_db_adding; solve_touches|].
  intros last st. cbv zeta. set (u := match last with Some b => _ | None => None end).
  rewrite act_bind_lift. destruct (ie_sigs e key u) as [sigs|] eqn:Hu; [|by auto using adds_refl].
  destruct sigs as [|newest rest]; [by auto using adds_refl|]. set (sigs := newest :: rest) in *.
  revert st. apply adding_bind; [apply from_node_framed| |intros _].
  - intros st. destruct (poll_sigs_adding net e address wid sigs 0 sigs ltac:(done) st) as (Ha & ? & ?).
    split_and!; [|done..]. eapply adds_mono; [|exact Ha]. intros d sig tx Ht. by exists key, u, sigs.
  - apply adding_bind; [apply from_node_framed| |intros _; apply adding_cache].
    apply idx_db_adding. unfold set_indexer_state. solve_touches.
Qed.
Lemma sync_adding net e start finish address wid :
  adding (C := C) (from_node net e address wid) (sync_address_once net e start finish address wid).
Proof.
  unfold sync_address_once. apply adding_bind; [apply from_node_framed|by apply adding_still|].
  intros [|]; [apply adding_ret|]. apply adding_bind; [apply from_node_framed| |intros _].
  - apply poll_address_adding.
  - apply idx_db_adding. unfold set_indexer_state. solve_touches.
Qed.

(** ** Histories of syncs and cycles *)

Inductive idx_op :=
| Sync (net : NetworkConfig) (e : IdxEnv T) (start finish : DateTime) (address wallet_id : string)
| Cycle (net : NetworkConfig) (env : renv (Db T)) (e : nat → IdxEnv T).
Definition idx_run (o : idx_op) : act St string unit :=
  match o with
  | Sync net e start finish address wid => sync_address_once net e start finish address wid
  | Cycle net env e => poll_once net env e
  end.
Definition idx_history (ops : list idx_op) (st : St) : St := foldl (λ s o, (idx_run o s).2) st ops.
(** Where a record added by an operation comes from; a cycle visits the
    registered addresses. *)
Definition op_source (o : idx_op) (db : Db T) (sig : string) (tx : StoredTransaction) : Prop :=
  match o with
  | Sync net e _ _ address wid => from_node net e address wid db sig tx
  | Cycle net _ e => ∃ i address wid,
      t_get (db ADDRESS_WALLET_MAP) address = Some wid ∧ from_node net (e i) address wid db sig tx
  end.
Definition ops_source (ops : list idx_op) (db : Db T) (sig : string) (tx : StoredTransaction) : Prop :=
  ∃ o, o ∈ ops ∧ op_source o db sig tx.

Lemma op_source_framed o : framed (op_source o).
Proof.
  destruct o as [net e start finish address wid|net env e]; [apply from_node_framed|].
  intros db db' sig tx Hn (i & address & wid & Hr & Hs). exists i, address, wid.
  split; [rewrite <-Hn; [done|set_solver]|by eapply from_node_framed].
Qed.
Lemma ops_source_framed ops : framed (ops_source ops).
Proof. intros db db' sig tx Hn (o & Ho & Hs). exists o. split; [done|by eapply op_source_framed]. Qed.

(** The registered addresses do not change during a cycle. *)
Lemma poll_all_adding net env e i l (st0 : St) :
  (∀ a w, (a, w) ∈ l → t_get (tx_db st0 ADDRESS_WALLET_MAP) a = Some w) →
  ∀ st, tx_db st ADDRESS_WALLET_MAP = tx_db st0 ADDRESS_WALLET_MAP →
    let s := (poll_all net e i l st).2 in
    adds (op_source (Cycle net env e)) (tx_db st) (tx_db s) ∧ storage s = storage st ∧
    audit_key s = audit_key st.
Proof.
  revert i. induction l as [|[a w] l IH]; intros i Hl st Hst; simpl; [by auto using adds_refl|].
  rewrite act_bind_eq. unfold best_effort. cbn [fst snd].
  destruct (poll_address_adding net (e i) a w st) as (Ha & Hs & Hk).
  set (s1 := (poll_address net (e i) a w st).2) in *.
  assert (Hs1 : tx_db s1 ADDRESS_WALLET_MAP = tx_db st0 ADDRESS_WALLET_MAP).
  { rewrite <-Hst. apply Ha. set_solver. }
  destruct (IH (S i) ltac:(set_solver) s1 Hs1) as (Ha' & Hs' & Hk').
  split_and!; [|congruence..]. eapply adds_trans; [apply op_source_framed| |exact Ha'].
  destruct Ha as [Hn Ha]. split; [done|]. intros sig.
  destruct (Ha sig) as [|(? & tx & b & Hf & ?)]; [by left|]. right. split; [done|].
  exists tx, b. split; [|done]. exists i, a, w. split; [|done]. rewrite Hst. apply Hl. set_solver.
Qed.
Lemma idx_run_adding o : adding (op_source o) (idx_run o).
Proof.
  destruct o as [net e start finish address wid|net env e]; [apply sync_adding|].
  intros st. simpl. unfold poll_once. rewrite act_bind_eq, idx_db_reading by done.
  destruct (get_all_addresses env (tx_db st)).1 as [l|] eqn:Hl; cbn [map_err];
    [|by auto using adds_refl].
  apply (poll_all_adding net env e 0 l st); [|done]. intros a w Haw.
  unfold get_all_addresses, reading in Hl. simpl in Hl. apply run_read_ok in Hl. injection Hl as <-.
  by apply t_iter_get.
Qed.

Lemma idx_history_adding all ops (st : St) :
  ops ⊆ all →
  let st' := idx_history ops st in
  storage st' = storage st ∧ audit_key st' = audit_key st ∧
  adds (ops_source all) (tx_db st) (tx_db st').
Proof.
  revert st. induction ops as [|o ops IH]; intros st Hall; simpl; [by auto using adds_refl|].
  destruct (idx_run_adding o st) as (Ha & Hs & Hk). destruct (IH (idx_run o st).2) as (Hs' & Hk' & Ha');
    [set_solver|]. split_and!; [congruence..|].
  eapply adds_trans; [apply ops_source_framed| |exact Ha']. eapply adds_mono; [|exact Ha].
  intros d sig tx Hsrc. exists o. split; [set_solver|done].
Qed.

(** The indexer only adds.  After any history of on-demand syncs and polling
    cycles, with any answers of the node and any failures, the files are
    unchanged, so is every table but the three of the indexer, every transaction
    recorded before is still there as it was, and each new record translates a
    detail the node returned for a signature it listed for the address (in a
    cycle: a registered address, for its wallet); its counterparty is the wallet
    registered for the other address. *)
Theorem indexer_only_adds (ops : list idx_op) (st : St) :
  let st' := idx_history ops st in
  storage st' = storage st ∧ audit_key st' = audit_key st ∧
  (∀ n, n ∉ [TRANSACTIONS; WALLET_TX_INDEX; INDEXER_STATE] → tx_db st' n = tx_db st n) ∧
  ∀ sig, stored_bytes (tx_db st') sig = stored_bytes (tx_db st) sig ∨
    stored_bytes (tx_db st) sig = None ∧
    ∃ o tx b, o ∈ ops ∧ op_source o (tx_db st) sig tx ∧ to_vec tx = Ok b ∧
      stored_bytes (tx_db st') sig = Some b.
Proof.
  destruct (idx_history_adding ops ops st) as (Hs & Hk & Hn & Ha); [done|]. split_and!; [done..|].
  intros sig. destruct (Ha sig) as [|(? & tx & b & (o & Ho & Hsrc) & ? & ?)]; [by left|].
  right. split; [done|]. by exists o, tx, b.
Qed.

(** ** A poll with a working database *)

Record working (e : IdxEnv T) : Prop := {
  wk_state : reliable (ie_state e);
  wk_known i : reliable (ie_known e i);
  wk_store i : reliable (ie_store e i);
  wk_checkpoint : reliable (ie_checkpoint e);
}.
(** The stored records can be read. *)
Definition readable (db : Db T) : Prop :=
  ∀ sig b, stored_bytes db sig = Some b → ∃ tx, from_slice (A := StoredTransaction) b = Ok tx.
(** The checkpoint of an address, as text. *)
Definition last_seen (db : Db T) (address : string) : option string :=
  match t_get (db INDEXER_STATE) (state_key address) with
  | Some b => if utf8_valid b then Some b else None
  | None => None
  end.
Definition answered (e : IdxEnv T) (sig : string) : Prop := ∃ detail, ie_detail e sig = Ok detail.

Lemma adds_readable src (db db' : Db T) : adds src db db' → readable db → readable db'.
Proof.
  intros [_ Ha] Hr sig b Hb. destruct (Ha sig) as [Heq|(_ & tx & b' & _ & Hv & Hs)].
  - apply (Hr sig). congruence.
  - exists tx. apply from_to. congruence.
Qed.
Lemma adds_keeps src (db db' : Db T) sig :
  adds src db db' → is_Some (stored_bytes db sig) → stored_bytes db' sig = stored_bytes db sig.
Proof. intros [_ Ha] [b Hb]. destruct (Ha sig) as [|[? _]]; [done|congruence]. Qed.

Lemma poll_one_working net e address wid i info (st : St) :
  working e → readable (tx_db st) →
  ∃ st', poll_one net e address wid i info st = (Ok (), st') ∧
    ∀ sig, is_Some (stored_bytes (tx_db st') sig) ↔
      is_Some (stored_bytes (tx_db st) sig) ∨ sig = si_signature info ∧ answered e sig.
Proof.
  intros Hw Hr. rewrite poll_one_run, get_transaction_reliable by apply Hw.
  destruct (stored_bytes (tx_db st) (si_signature info)) as [b|] eqn:Hb.
  { destruct (Hr _ _ Hb) as [tx Htx]. rewrite Htx. exists st. split; [done|]. intros sig. split; [auto|].
    intros [?|[-> _]]; [done|]. rewrite Hb. eauto. }
  destruct (ie_detail e (si_signature info)) as [detail|x] eqn:Hd.
  - eexists. split; [done|]. intros sig. simpl. set (tx := record_one _ _ _ _ _ _ _ st).
    destruct (upsert_cases (ie_store e i) tx
      [(address, if sent_by address detail then "sent" else "received")] (tx_db st))
      as (b & _ & [[_ Hu]|[Hn _]]); [|by destruct (Hn (wk_store e Hw i))].
    assert (Hsig : tx_signature tx = si_signature info) by apply stored_signature.
    unfold stored_bytes. rewrite Hu, t_get_insert, Hsig. case_decide as Hs.
    + subst sig. split; [|by eauto]. intros _. right. split; [done|by exists detail].
    + split; [auto|]. intros [?|[-> _]]; done.
  - exists st. split; [done|]. intros sig. split; [auto|]. intros [?|[-> [d Hd']]]; [done|congruence].
Qed.
Lemma poll_sigs_working net e address wid i sigs (st : St) :
  working e → readable (tx_db st) →
  ∃ st', poll_sigs net e address wid i sigs st = (Ok (), st') ∧
    ∀ sig, is_Some (stored_bytes (tx_db st') sig) ↔
      is_Some (stored_bytes (tx_db st) sig) ∨ sig ∈ si_signature <$> sigs ∧ answered e sig.
Proof.
  intros Hw. revert i st. induction sigs as [|info sigs IH]; intros i st Hr; simpl.
  { exists st. split; [done|]. intros sig. set_solver. }
  destruct (poll_one_working net e address wid i info st Hw Hr) as (s1 & Hp1 & Hs1).
  assert (Hr1 : readable (tx_db s1)).
  { destruct (poll_one_adding net e address wid (replicate (S i) info) i info) with (st := st) as (Ha & _);
      [by apply lookup_replicate_2; lia|]. rewrite Hp1 in Ha. by eapply adds_readable. }
  destruct (IH (S i) s1 Hr1) as (s2 & Hp2 & Hs2). exists s2. split.
  - by rewrite act_bind_eq, Hp1.
  - intros sig. rewrite Hs2, Hs1, elem_of_cons. tauto.
Qed.

(** C23: a poll records what the node answers.  When the database works and its
    records can be read, a poll of an address for which the node lists
    signatures newer than the checkpoint succeeds, moves the checkpoint to the
    first of them, keeps every record, and afterwards exactly the transactions
    recorded before and the listed ones whose detail the node returned are
    recorded. *)
Theorem poll_records_answered (net : NetworkConfig) (e : IdxEnv T) (address wallet_id key : string)
    (newest : SignatureInfo) (rest : list SignatureInfo) (st : St)
    (Hworking : working e) (Hreadable : readable (tx_db st))
    (Hkey : pubkey_from_str address = Some key)
    (Hsigs : ie_sigs e key (last_seen (tx_db st) address) = Ok (newest :: rest)) :
  ∃ st', poll_address net e address wallet_id st = (Ok (), st') ∧
    t_get (tx_db st' INDEXER_STATE) (state_key address) = Some (si_signature newest) ∧
    ∀ sig, (is_Some (stored_bytes (tx_db st) sig) →
              stored_bytes (tx_db st') sig = stored_bytes (tx_db st) sig) ∧
      (is_Some (stored_bytes (tx_db st') sig) ↔
        is_Some (stored_bytes (tx_db st) sig) ∨
        sig ∈ si_signature <$> newest :: rest ∧ answered e sig).
Proof.
  set (sigs := newest :: rest) in *.
  destruct (poll_sigs_working net e address wallet_id 0 sigs st Hworking Hreadable) as (s1 & Hp & Hs1).
  assert (Hrun : poll_address net e address wallet_id st =
    (Ok (), set_tx_cache (invalidate address (tx_cache s1))
       (set_tx_db (set_table INDEXER_STATE (t_insert (state_key address) (si_signature newest)
          (tx_db s1 INDEXER_STATE)) (tx_db s1)) s1))).
  { unfold poll_address. rewrite act_bind_lift, Hkey. cbn [ok_or].
    rewrite act_bind_eq, idx_db_reading by done. unfold get_indexer_state, reading at 1. cbn [fst].
    rewrite run_read_reliable by apply Hworking. cbn [map_err]. fold (last_seen (tx_db st) address).
    rewrite act_bind_lift, Hsigs. unfold sigs at 1. cbv beta iota. fold sigs.
    rewrite act_bind_eq, Hp, act_bind_eq. unfold idx_db, act_map_err, zoom, set_indexer_state.
    rewrite run_write_reliable by apply Hworking. done. }
  pose proof (poll_address_adding net e address wallet_id st) as (Ha & _).
  eexists. split; [exact Hrun|]. cbn [tx_db set_tx_cache set_tx_db]. split; [by rewrite set_table_eq, t_get_insert_eq|].
  intros sig. split; [intros Hs; rewrite Hrun in Ha; by apply (adds_keeps _ _ _ _ Ha)|].
  rewrite <-Hs1. unfold stored_bytes. by rewrite set_table_ne.
Qed.
End Polls.

(** ** Examples *)

Definition sig_info (s : string) : SignatureInfo := mkSigInfo s (Some 7) None (Some 1700000000) None.
(** A node that lists what is newer than [until]. *)
Definition node_sigs (_ : string) (until : option string) : result string (list SignatureInfo) :=
  if bool_decide (until = Some "s2") then Ok []
  else if bool_decide (until = Some "s1") then Ok [sig_info "s2"]
  else Ok [sig_info "s2"; sig_info "s1"].
Definition detail0 : TransactionDetail :=
  mkTxDetail 7 (Some (mkTxMeta 5000 [] None [3000005000; 0] [1000000000; 2000000000]))
    (mkEnvelope ["ab"; "cd"]).
(** The detail of the transactions named in [lost] cannot be fetched. *)
Definition ienv0 (lost : list string) : IdxEnv table0 :=
  mkIdxEnv env0 node_sigs (λ _, env0) (λ s, if bool_decide (s ∈ lost) then Err "timeout" else Ok detail0)
    (λ _, env0) (λ _, env0) env0 (λ _, mkDateTime 1700000009 0) env0 env0.
Definition net0 : NetworkConfig := devnet_config "https://rpc".
Definition poll0 (lost : list string) (st : AppState table0 lru1) :
    result string unit * AppState table0 lru1 := poll_address net0 (ienv0 lost) "ab" "w1" st.

Lemma working0 lost : working (ienv0 lost).
Proof. by split. Qed.
Lemma poll_records_answered_witness :
  ∃ st', poll_address net0 (ienv0 []) "ab" "w1" st0 = (Ok (), st') ∧
    t_get (tx_db st' INDEXER_STATE) (state_key "ab") = Some "s2" ∧
    ∀ sig, (is_Some (stored_bytes (tx_db st0) sig) →
              stored_bytes (tx_db st') sig = stored_bytes (tx_db st0) sig) ∧
      (is_Some (stored_bytes (tx_db st') sig) ↔
        is_Some (stored_bytes (tx_db st0) sig) ∨
        sig ∈ si_signature <$> [sig_info "s2"; sig_info "s1"] ∧ answered (ienv0 []) sig).
Proof.
  apply (poll_records_answered net0 (ienv0 []) "ab" "w1" (default "" (pubkey_from_str "ab"))
    (sig_info "s2") [sig_info "s1"] st0 (working0 [])); [|by vm_compute..].
  intros sig b Hb. by apply db0_get in Hb.
Defined.
Lemma indexer_only_adds_witness :
  let st' := idx_history [Sync net0 (ienv0 []) (mkDateTime 1 0) (mkDateTime 2 0) "ab" "w1"] st0 in
  is_Some (stored_bytes (tx_db st') "s1") ∧ storage st' = storage st0 ∧ audit_key st' = audit_key st0.
Proof.
  split; [eexists; vm_compute; reflexivity|].
  destruct (indexer_only_adds [Sync net0 (ienv0 []) (mkDateTime 1 0) (mkDateTime 2 0) "ab" "w1"] st0)
    as (Hs & Hk & _). by split.
Defined.

