(* ===== verification/Transfers.v ===== *)
(** * Transfers, balances and transaction history

    src/src/blockchain/transactions.rs and src/src/blockchain/spl_token.rs build,
    send and confirm transfers; src/src/api/transactions.rs and
    src/src/api/balance.rs are the endpoints over them, the transaction tables,
    the first-page cache and the on-demand indexer. *)
From S2P Require Import Prelude.
From S2P Require Import RustStr.
From S2P Require Import RustFmt.
From S2P Require Import Errors.
From S2P Require Import Types.
From S2P Require Import Interfaces.
From S2P Require Import TxDatabase.
From S2P Require Import Text.
From S2P Require Import Storage.
From S2P Require Import TxCache.
From S2P Require Import AppState.
From S2P Require Import Wallets.
From S2P Require Import VerifiedFetch.
From S2P Require Import DrtProgram.
From S2P Require Import Chain.
From S2P Require Import SolanaRpc.
From S2P Require Import Lamports.
From S2P Require Import Indexer.

Local Open Scope Z_scope.
#[local] Arguments String.append : simpl nomatch.

(** ** Requests and responses *)

Record EstimateFeeRequest := mkEstimateReq { eq_recipient : string; eq_amount : Z }.
Record EstimateFeeResponse := mkEstimate {
  es_estimated_fee_lamports : Z; es_estimated_fee_sol : string }.
Record SendTransactionRequest := mkSendReq {
  sq_recipient : string; sq_amount : Z; sq_token : string; sq_decimals : option Z }.
Record SendTransactionResponse := mkSent {
  sr_signature : string; sr_explorer_url : string; sr_wallet_id : string }.
Record ListTransactionsQuery := mkListQuery { lt_cursor : option string; lt_limit : option nat }.
Record TransactionEntry := mkEntry { en_tx : StoredTransaction; en_direction : string }.
Record ListTransactionsResponse := mkTxList {
  tl_transactions : list TransactionEntry; tl_next_cursor : option string }.
Record TransactionStatusResponse := mkTxStatus { ts_transaction : StoredTransaction }.
Record SendResult := mkSendResult { sn_signature : string; sn_explorer_url : string }.
Record TokenBalance := mkBalance {
  tb_token : string; tb_mint : string; tb_raw_amount : string; tb_ui_amount : string;
  tb_decimals : Z }.
Record BalanceResponse := mkBalances {
  br_wallet_id : string; br_address : string; br_network : string; br_balances : list TokenBalance }.
(** The double quote. *)
Definition quote : string := String (char_of 34) EmptyString.
Definition default_token : string := "native".

(** ** SPL instructions (spl_token.rs) *)

Definition SPL_TOKEN_PROGRAM_ID_STR : string := "TokenkegQfeZyiNwAJbNbGKPFXCWuBvf9Ss623VQ5DA".
Definition ATA_PROGRAM_ID_STR : string := "ATokenGPvbdGVxr1b2hvZbsiqW5xWH25efTNsLJA8knL".

(** [solana_system_interface::instruction::transfer]. *)
Class SystemCrates := { system_transfer : string → string → Z → Instruction }.

Section Spl.
Context `{SolanaCrates}.
Definition spl_token_program_id : string := pubkey_of_const SPL_TOKEN_PROGRAM_ID_STR.
Definition ata_program_id : string := pubkey_of_const ATA_PROGRAM_ID_STR.
Definition get_associated_token_address (wallet mint : string) : string :=
  (find_program_address [wallet; spl_token_program_id; mint] ata_program_id).1.
Definition create_ata_instruction (funder wallet mint : string) : Instruction :=
  let ata := get_associated_token_address wallet mint in
  mkInstruction ata_program_id
    [meta_new funder true; meta_new ata false; meta_readonly wallet false; meta_readonly mint false;
     meta_readonly system_program_id false; meta_readonly spl_token_program_id false]
    (bytes_of [0]).
Definition transfer_checked_instruction (source mint destination authority : string)
    (amount decimals : Z) : Instruction :=
  mkInstruction spl_token_program_id
    [meta_new source false; meta_readonly mint false; meta_new destination false;
     meta_readonly authority true]
    (put_u8 12 +:+ put_u64 amount +:+ put_u8 decimals).
End Spl.

(** ** Environment of one request *)

Record TransferEnv (T : Type) `{RedbTxn (Db T)} := mkTransferEnv {
  te_req : ReqEnv T;
  te_net : NetworkConfig;
  te_rpc : Rpc;
  te_balance : string → result string Z;
  te_fee : list Instruction → string → string → result string Z;
  (** [Utc::now] of the stored transaction *)
  te_now : DateTime;
  (** the on-demand sync, and its clock *)
  te_sync : IdxEnv T;
  te_sync_start : DateTime;
  te_sync_finish : DateTime;
  (** the cache's clock at the lookup and at the insertion *)
  te_cache_get : Z;
  te_cache_put : Z;
}.
Arguments mkTransferEnv {T _} _ _ _ _ _ _ _ _ _ _ _.
Arguments te_req {T _} _.
Arguments te_net {T _} _.
Arguments te_rpc {T _} _.
Arguments te_balance {T _} _ _.
Arguments te_fee {T _} _ _ _ _.
Arguments te_now {T _} _.
Arguments te_sync {T _} _.
Arguments te_sync_start {T _} _.
Arguments te_sync_finish {T _} _.
Arguments te_cache_get {T _} _.
Arguments te_cache_put {T _} _.

Section Transfers.
Context {T C K : Type} `{RedbTable T, RedbTxn (Db T), DbCrates, SolanaCrates, TextCrates, SystemCrates}.
Context `{AuditCrates, SolanaKeys K, Lru C CacheEntry}.
Context `{Serde StoredTransaction, Serde WalletMetadata, Serde (list Z), Serde AuditEvent}.
Abbreviation St := (AppState T C).
Abbreviation handler A := (act St ApiError A).

(** ** The client *)

(** Message, signature, send, confirmation: the common end of both transfers;
    [what] is the text of a failed send. *)
Definition send_and_confirm (net : NetworkConfig) (rpc : Rpc) (what : string) (keypair : K)
    (instructions : list Instruction) : result ApiError SendResult :=
  recent_blockhash ← map_err (λ e, Api.service_unavailable ("blockhash fetch failed: " +:+ e))
                       (rpc_blockhash rpc);
  signature ← map_err (λ e, Api.service_unavailable (what +:+ " send failed: " +:+ e))
                (rpc_send rpc (mkTx instructions (kp_key keypair) recent_blockhash));
  _ ← await_confirmation rpc "confirmed";
  Ok (mkSendResult signature (explorer_tx_url net signature)).
Definition send_native (net : NetworkConfig) (rpc : Rpc) (keypair : K) (recipient : string)
    (lamports : Z) : result ApiError SendResult :=
  to ← ok_or (pubkey_from_str recipient) (Api.unprocessable ("invalid recipient: " +:+ recipient));
  send_and_confirm net rpc "transaction" keypair [system_transfer (kp_key keypair) to lamports].
Definition spl_instructions (rpc : Rpc) (from to mint : string) (amount decimals : Z) :
    list Instruction :=
  let from_ata := get_associated_token_address from mint in
  let to_ata := get_associated_token_address to mint in
  let to_ata_exists := match rpc_account rpc to_ata with Ok (Some _) => true | _ => false end in
  (if to_ata_exists then [] else [create_ata_instruction from to mint]) ++
  [transfer_checked_instruction from_ata mint to_ata from amount decimals].
Definition send_spl_token (net : NetworkConfig) (rpc : Rpc) (keypair : K)
    (recipient mint_address : string) (amount decimals : Z) : result ApiError SendResult :=
  to_pubkey ← ok_or (pubkey_from_str recipient)
                (Api.unprocessable ("invalid recipient: " +:+ recipient));
  mint ← ok_or (pubkey_from_str mint_address) (Api.unprocessable "invalid mint address");
  send_and_confirm net rpc "SPL transfer" keypair
    (spl_instructions rpc (kp_key keypair) to_pubkey mint amount decimals).
Definition client_estimate_fee (rpc : Rpc) (fee : list Instruction → string → string → result string Z)
    (from to : string) (lamports : Z) : result ApiError Z :=
  let instruction := system_transfer from to lamports in
  recent_blockhash ← map_err (λ e, Api.service_unavailable ("blockhash fetch failed: " +:+ e))
                       (rpc_blockhash rpc);
  map_err (λ e, Api.service_unavailable ("fee estimation failed: " +:+ e))
    (fee [instruction] from recent_blockhash).
Definition get_native_balance (balance : string → result string Z) (address : string) :
    result ApiError TokenBalance :=
  pubkey ← ok_or (pubkey_from_str address)
             (Api.bad_request ("invalid Solana address: " +:+ address));
  lamports ← map_err (λ e, Api.service_unavailable ("Solana RPC error: " +:+ e)) (balance pubkey);
  Ok (mkBalance "SOL" "" (show_u64 lamports) (fmt_sol lamports) 9).

(** ** Endpoints *)

(** [repo.get(..)?] and [enforce_owner_active(..)?]. *)
Definition owned_wallet (e : TransferEnv T) (token : TokenData) (wallet_id : string) :
    handler WalletMetadata :=
  wallet ← on_storage (wallet_get (re_io (te_req e) 0%nat) wallet_id);
  _ ← lift (enforce_owner_active wallet (sub token));
  mret wallet.

Definition estimate_fee (e : TransferEnv T) (token : TokenData) (wallet_id : string)
    (payload : EstimateFeeRequest) : handler EstimateFeeResponse :=
  wallet ← owned_wallet e token wallet_id;
  from ← lift (ok_or (pubkey_from_str (w_public_address wallet))
                 (Api.internal "stored address is invalid"));
  to ← lift (ok_or (pubkey_from_str (eq_recipient payload))
               (Api.unprocessable "invalid recipient address"));
  fee ← lift (client_estimate_fee (te_rpc e) (te_fee e) from to (eq_amount payload));
  mret (mkEstimate fee (fmt_sol fee +:+ " SOL")).

(** The send itself, by token type. *)
Definition dispatch_send (net : NetworkConfig) (rpc : Rpc) (keypair : K)
    (payload : SendTransactionRequest) : result ApiError (SendResult * TokenType) :=
  if bool_decide (sq_token payload = "native") then
    r ← send_native net rpc keypair (sq_recipient payload) (sq_amount payload);
    Ok (r, Native)
  else
    match strip_prefix "spl:" (sq_token payload) with
    | Some mint =>
        decimals ← ok_or (sq_decimals payload)
                     (Api.bad_request "decimals required for SPL transfers");
        r ← send_spl_token net rpc keypair (sq_recipient payload) mint (sq_amount payload) decimals;
        Ok (r, SplToken mint)
    | None =>
        Err (Api.bad_request ("invalid token type — use " +:+ quote +:+ "native" +:+ quote +:+ " or "
               +:+ quote +:+ "spl:{mint}" +:+ quote))
    end.
Definition sent_record (net : NetworkConfig) (wallet : WalletMetadata) (wallet_id : string)
    (payload : SendTransactionRequest) (r : SendResult) (ty : TokenType) (now : DateTime) :
    StoredTransaction :=
  mkStoredTransaction (sn_signature r) wallet_id None (w_public_address wallet)
    (sq_recipient payload) (show_u64 (sq_amount payload)) (Some (sq_amount payload)) ty (nc_name net)
    TxConfirmed None None (sn_explorer_url r) now now.
Definition send_transaction (e : TransferEnv T) (token : TokenData) (wallet_id : string)
    (payload : SendTransactionRequest) : handler SendTransactionResponse :=
  wallet ← owned_wallet e token wallet_id;
  _ ← lift (ok_or (pubkey_from_str (sq_recipient payload))
              (Api.unprocessable "invalid recipient address"));
  _ ← lift (reject_if (sq_amount payload =? 0) (Api.bad_request "amount must be greater than zero"));
  keypair_bytes ← on_storage (wallet_read_keypair (re_io (te_req e) 1%nat) wallet_id);
  keypair ← lift (keypair_from_bytes_verified keypair_bytes (w_public_address wallet) : result _ K);
  sent ← lift (dispatch_send (te_net e) (te_rpc e) keypair payload);
  let '(result, token_type) := sent in
  let stored := sent_record (te_net e) wallet wallet_id payload result token_type (te_now e) in
  _ ← best_effort (zoom tx_db set_tx_db (upsert_transaction (re_db (te_req e) 0%nat) stored
        [(w_public_address wallet, "sent"); (sq_recipient payload, "received")]));
  _ ← updating (λ st, set_tx_cache (invalidate (w_public_address wallet) (tx_cache st)) st);
  _ ← audit (te_req e) (re_db (te_req e) 1%nat) TransactionBroadcast (sub token) "wallet" wallet_id;
  mret (mkSent (sn_signature result) (sn_explorer_url result) wallet_id).

(** The on-demand sync; a failure is logged. *)
Definition sync_wallet (e : TransferEnv T) (wallet : WalletMetadata) (wallet_id : string) :
    handler unit :=
  best_effort (sync_address_once (te_net e) (te_sync e) (te_sync_start e) (te_sync_finish e)
    (w_public_address wallet) wallet_id).
(** [state.tx_db.f(..).map_err(|e| ApiError::internal(format!("tx database error: {e}")))?]. *)
Definition tx_query {A} (m : act (Db T) TxDbError A) : handler A :=
  act_map_err (λ x, Api.internal ("tx database error: " +:+ display_txdb x)) (zoom tx_db set_tx_db m).
(** [state.tx_cache.get_first_page(..)]. *)
Definition cached_page (now : Z) (address : string) : handler (option Page) := λ st,
  let '(page, c) := get_first_page now address (tx_cache st) in (Ok page, set_tx_cache c st).
Definition entry_of (x : StoredTransaction * string) : TransactionEntry := mkEntry x.1 x.2.

Definition list_fresh (e : TransferEnv T) (wallet : WalletMetadata) (wallet_id : string)
    (cursor : option string) (limit : nat) : handler ListTransactionsResponse :=
  _ ← sync_wallet e wallet wallet_id;
  found ← tx_query (list_by_wallet (re_db (te_req e) 0%nat) (w_public_address wallet) cursor limit);
  let '(entries, next_cursor) := found in
  _ ← updating (λ st, match cursor with
                      | None => set_tx_cache (put_first_page (te_cache_put e) (w_public_address wallet)
                                                entries (tx_cache st)) st
                      | Some _ => st
                      end);
  mret (mkTxList (entry_of <$> entries) next_cursor).
Definition list_transactions (e : TransferEnv T) (token : TokenData) (wallet_id : string)
    (query : ListTransactionsQuery) : handler ListTransactionsResponse :=
  wallet ← owned_wallet e token wallet_id;
  let limit := Nat.min (default 20%nat (lt_limit query)) 100 in
  cached ← match lt_cursor query with
           | None => cached_page (te_cache_get e) (w_public_address wallet)
           | Some _ => mret None
           end;
  match cached with
  | Some page => mret (mkTxList (entry_of <$> take limit page) None)
  | None => list_fresh e wallet wallet_id (lt_cursor query) limit
  end.
Definition get_transaction_status (e : TransferEnv T) (token : TokenData) (wallet_id signature : string) :
    handler TransactionStatusResponse :=
  wallet ← owned_wallet e token wallet_id;
  _ ← sync_wallet e wallet wallet_id;
  found ← tx_query (get_transaction (re_db (te_req e) 0%nat) signature);
  tx ← lift (ok_or found (Api.not_found ("transaction " +:+ signature +:+ " not found")));
  _ ← lift (reject_if (negb (bool_decide (tx_wallet_id tx = wallet_id)))
        (Api.not_found ("transaction " +:+ signature +:+ " not found for wallet " +:+ wallet_id)));
  mret (mkTxStatus tx).

Definition get_balance (e : TransferEnv T) (token : TokenData) (wallet_id : string) :
    handler BalanceResponse :=
  wallet ← owned_wallet e token wallet_id;
  sol_balance ← lift (get_native_balance (te_balance e) (w_public_address wallet));
  mret (mkBalances wallet_id (w_public_address wallet) (nc_name (te_net e)) [sol_balance]).
End Transfers.
