(* ===== verification/TransferFacts.v ===== *)
(** * What a transfer guarantees

    A transfer is made only from an active wallet of the caller, with exactly the
    requested instruction, and its record stays readable to the sender whatever
    the indexer does afterwards - and unreadable to the recipient. *)
From S2P Require Import Prelude.
From S2P Require Import RustStr.
From S2P Require Import RustFmt.
From S2P Require Import Errors.
From S2P Require Import Types.
From S2P Require Import Interfaces.
From S2P Require Import TxDatabase.
From S2P Require Import Instances.
From S2P Require Import TxScans.
From S2P Require Import Text.
From S2P Require Import Storage.
From S2P Require Import TxCache.
From S2P Require Import AppState.
From S2P Require Import AuditLog.
From S2P Require Import Wallets.
From S2P Require Import WalletFacts.
From S2P Require Import VerifiedFetch.
From S2P Require Import DrtProgram.
From S2P Require Import DrtProgramFacts.
From S2P Require Import Chain.
From S2P Require Import ChainFacts.
From S2P Require Import PoolExamples.
From S2P Require Import SolanaRpc.
From S2P Require Import Lamports.
From S2P Require Import Indexer.
From S2P Require Import IndexerFacts.
From S2P Require Import Transfers.

Local Open Scope Z_scope.
#[local] Arguments String.append : simpl nomatch.

(** ** Token instructions *)

(** The SPL token program's reading of a [TransferChecked]: tag 12, the amount,
    the decimals; source, mint, destination and the signing authority. *)
Record TokenTransfer := mkTokenTransfer {
  tt_source : string; tt_mint : string; tt_destination : string; tt_authority : string;
  tt_amount : Z; tt_decimals : Z }.
Definition get_transfer_checked : parser (Z * Z) :=
  tag ← get_u8; _ ← of_option (if tag =? 12 then Some () else None);
  amount ← get_u64; decimals ← get_u8; mret (amount, decimals).
Definition decode_transfer (program : string) (ix : Instruction) : option TokenTransfer :=
  if bool_decide (ix_program ix = program) then
    match ix_accounts ix with
    | [source; mint; destination; authority] =>
        if am_writable source && am_writable destination && am_signer authority then
          '(amount, decimals) ← try_from_slice get_transfer_checked (ix_data ix);
          Some (mkTokenTransfer (am_key source) (am_key mint) (am_key destination) (am_key authority)
                  amount decimals)
        else None
    | _ => None
    end
  else None.

Section Transfers.
Context {T C K : Type} `{RedbTableLaws T, RedbTxnLaws (Db T), DbCrates, SolanaCrates, TextCrates}.
Context `{SystemCrates, AuditCrates, SolanaKeys K, LruLaws C CacheEntry}.
Context `{SerdeLaws StoredTransaction, Serde WalletMetadata, Serde (list Z), Serde AuditEvent}.
Abbreviation St := (AppState T C).

Lemma transfer_checked_decodes source mint destination authority amount decimals :
  is_u64 amount → is_u8 decimals →
  decode_transfer spl_token_program_id
    (transfer_checked_instruction source mint destination authority amount decimals) =
  Some (mkTokenTransfer source mint destination authority amount decimals).
Proof.
  intros Ha Hd. unfold decode_transfer, transfer_checked_instruction. cbn [ix_program ix_accounts ix_data].
  rewrite bool_decide_eq_true_2 by done. cbn [am_writable am_signer am_key meta_new meta_readonly andb].
  assert (Hp : parses get_transfer_checked (put_u8 12 +:+ put_u64 amount +:+ put_u8 decimals)
                 (amount, decimals)).
  { eapply parses_bind; [by apply parses_u8|]. change (put_u64 amount +:+ put_u8 decimals) with ("" +:+ (put_u64 amount +:+ put_u8 decimals)).
    eapply parses_bind; [by intros r|]. solve_parses. }
  by rewrite (parses_whole _ _ _ Hp).
Qed.

(** ** What was sent *)

(** The instructions of the requested transfer from [from] to [to]: a system
    transfer, or a checked token transfer between the associated accounts, after
    the creation of the recipient's account unless the node has it. *)
Definition requested (rpc : Rpc) (payload : SendTransactionRequest) (from to : string)
    (ixs : list Instruction) (ty : TokenType) : Prop :=
  sq_token payload = "native" ∧ ty = Native ∧ ixs = [system_transfer from to (sq_amount payload)] ∨
  ∃ mint_text mint decimals pre ix,
    sq_token payload = "spl:" +:+ mint_text ∧ ty = SplToken mint_text ∧
    pubkey_from_str mint_text = Some mint ∧ sq_decimals payload = Some decimals ∧ ixs = pre ++ [ix] ∧
    decode_transfer spl_token_program_id ix =
      Some (mkTokenTransfer (get_associated_token_address from mint) mint
              (get_associated_token_address to mint) from (sq_amount payload) decimals) ∧
    (pre = [] ∧ (∃ data, rpc_account rpc (get_associated_token_address to mint) = Ok (Some data)) ∨
     pre = [create_ata_instruction from to mint]).
(** The request as the JSON body types it. *)
Definition payload_typed (payload : SendTransactionRequest) : Prop :=
  is_u64 (sq_amount payload) ∧ ∀ d, sq_decimals payload = Some d → is_u8 d.

Lemma send_and_confirm_ok net rpc what (kp : K) ixs r :
  send_and_confirm net rpc what kp ixs = Ok r →
  sent_tx rpc "confirmed" ixs (kp_key kp) (sn_signature r) ∧
  sn_explorer_url r = explorer_tx_url net (sn_signature r).
Proof.
  intros (bh & Hb%map_err_ok & Hr)%result_bind_ok.
  apply result_bind_ok in Hr as (s & Hs%map_err_ok & Hr).
  apply result_bind_ok in Hr as ([] & Ha & Hr). injection Hr as <-. split; [by exists bh|done].
Qed.
Lemma dispatch_send_ok net rpc (kp : K) payload r ty to :
  payload_typed payload → pubkey_from_str (sq_recipient payload) = Some to →
  dispatch_send net rpc kp payload = Ok (r, ty) →
  (∃ ixs, requested rpc payload (kp_key kp) to ixs ty ∧
     sent_tx rpc "confirmed" ixs (kp_key kp) (sn_signature r)) ∧
  sn_explorer_url r = explorer_tx_url net (sn_signature r).
Proof.
  intros [Ha Hd] Hto. unfold dispatch_send. case_bool_decide as Hn.
  - intros (r' & Hr & Hx)%result_bind_ok. injection Hx as <- <-. unfold send_native in Hr.
    rewrite Hto in Hr. apply send_and_confirm_ok in Hr as [Hs He]. split; [|done].
    eexists. split; [by left|done].
  - destruct (strip_prefix "spl:" (sq_token payload)) as [mt|] eqn:Hm; [|done].
    apply strip_prefix_spec in Hm.
    intros (d & Hdec%ok_or_ok & Hr)%result_bind_ok.
    apply result_bind_ok in Hr as (r' & Hr & Hx). injection Hx as <- <-.
    unfold send_spl_token in Hr. rewrite Hto in Hr. cbn [ok_or] in Hr.
    apply result_bind_ok in Hr as (t' & Ht & Hr). injection Ht as <-.
    apply result_bind_ok in Hr as (mint & Hmint%ok_or_ok & Hr).
    apply send_and_confirm_ok in Hr as [Hs He]. split; [|done]. eexists. split; [|exact Hs].
    right. unfold spl_instructions. exists mt, mint, d.
    exists (if match rpc_account rpc (get_associated_token_address to mint) with
               | Ok (Some _) => true | _ => false end then []
            else [create_ata_instruction (kp_key kp) to mint]).
    eexists. split_and!; [done..| | ].
    + apply transfer_checked_decodes; [done|by apply Hd].
    + destruct (rpc_account rpc _) as [[data|]|]; eauto.
Qed.

Lemma owned_wallet_ok e token wid (st st' : St) wallet :
  owned_wallet e token wid st = (Ok wallet, st') →
  (wallet_get (re_io (te_req e) 0%nat) wid (storage st)).1 = Ok wallet ∧
  w_owner_user_id wallet = sub token ∧ w_status wallet = WActive ∧ tx_db st' = tx_db st.
Proof.
  intros Ho. apply act_bind_ok in Ho as (w & s1 & Hw & Ho).
  unfold on_storage, act_map_err, zoom in Hw. injection Hw as Hw%map_err_ok <-.
  peel Ho as [] Hown. injection Ho as <- <-. apply result_bind_ok in Hown as ([] & Hv%map_err_ok & Hr).
  apply result_bind_ok in Hr as ([] & Hd%reject_if_ok & Hs%reject_if_ok).
  apply verify_ownership_ok in Hv. apply bool_decide_eq_false in Hd, Hs.
  split_and!; [done..| |done]. by destruct (w_status w).
Qed.
(** What a successful transfer has established. *)
Record transferred (e : TransferEnv T) (token : TokenData) (wid : string)
    (payload : SendTransactionRequest) (st st' : St) (resp : SendTransactionResponse)
    (wallet : WalletMetadata) (from to : string) (ixs : list Instruction) (ty : TokenType) : Prop := {
  tf_wallet : (wallet_get (re_io (te_req e) 0%nat) wid (storage st)).1 = Ok wallet;
  tf_owner : w_owner_user_id wallet = sub token;
  tf_active : w_status wallet = WActive;
  tf_from : from = default "" (pubkey_from_str (w_public_address wallet));
  tf_to : pubkey_from_str (sq_recipient payload) = Some to;
  tf_amount : sq_amount payload ≠ 0;
  tf_requested : requested (te_rpc e) payload from to ixs ty;
  tf_sent : sent_tx (te_rpc e) "confirmed" ixs from (sr_signature resp);
  tf_response : sr_wallet_id resp = wid ∧
    sr_explorer_url resp = explorer_tx_url (te_net e) (sr_signature resp);
}.
(** The record of a transfer. *)
Definition record_of (e : TransferEnv T) (wid : string) (payload : SendTransactionRequest)
    (resp : SendTransactionResponse) (wallet : WalletMetadata) (ty : TokenType) : StoredTransaction :=
  sent_record (te_net e) wallet wid payload (mkSendResult (sr_signature resp) (sr_explorer_url resp)) ty
    (te_now e).

(** A successful send writes its record, or nothing when the database fails. *)
Lemma send_transaction_effect e token wid payload (st st' : St) resp :
  payload_typed payload → send_transaction (K := K) e token wid payload st = (Ok resp, st') →
  ∃ wallet from to ixs ty b,
    transferred e token wid payload st st' resp wallet from to ixs ty ∧
    to_vec (record_of e wid payload resp wallet ty) = Ok b ∧
    (tx_db st' TRANSACTIONS = t_insert (sr_signature resp) b (tx_db st TRANSACTIONS) ∨
     ¬ reliable (re_db (te_req e) 0%nat) ∧ tx_db st' TRANSACTIONS = tx_db st TRANSACTIONS) ∧
    ∀ now, (get_first_page now (w_public_address wallet) (tx_cache st')).1 = None.
Proof.
  intros Hty Hs. unfold send_transaction in Hs.
  apply act_bind_ok in Hs as (wallet & s1 & Hw & Hs).
  apply owned_wallet_ok in Hw as (Hw & Hown & Hact & Hdb1).
  peel Hs as to Hto%ok_or_ok. peel Hs as [] Hnz%reject_if_ok. apply Z.eqb_neq in Hnz.
  apply act_bind_ok in Hs as (kb & s2 & Hkb & Hs).
  assert (Hdb2 : tx_db s2 = tx_db s1) by (rewrite on_storage_run in Hkb; by injection Hkb as _ <-).
  peel Hs as kp Hkp%keypair_verified_ok.
  peel Hs as [r ty] Hr. apply (dispatch_send_ok _ _ _ _ _ _ to) in Hr as [(ixs & Hreq & Hsent) Hex]; [|done..].
  cbv zeta in Hs. apply act_bind_ok in Hs as ([] & s3 & Hu & Hs). injection Hu as <-.
  injection Hs as <- <-.
  destruct (upsert_cases (re_db (te_req e) 0%nat) (sent_record (te_net e) wallet wid payload r ty (te_now e))
    [(w_public_address wallet, "sent"); (sq_recipient payload, "received")] (tx_db s2)) as (b & Hb & Hu).
  exists wallet, (kp_key kp), to, ixs, ty, b. split_and!.
  - split; try done. unfold kp_key. by rewrite Hkp.
  - by destruct r.
  - unfold audit, audit_log. rewrite audit_log_event_tables by set_solver. cbn [tx_db set_tx_cache set_tx_db sr_signature].
    rewrite Hdb2, Hdb1 in *. destruct Hu as [[_ Hu]|[Hn Hu]]; [left|right]; [exact Hu|]. by rewrite Hu.
  - intros now. unfold get_first_page, audit, audit_log, updating. cbn [snd]. rewrite (proj1 (audit_log_event_frame _ _ _ _)). simpl.
    by rewrite lru_peek_pop_eq.
Qed.
Lemma send_transaction_ok e token wid payload (st st' : St) resp :
  payload_typed payload → send_transaction (K := K) e token wid payload st = (Ok resp, st') →
  ∃ wallet from to ixs ty,
    transferred e token wid payload st st' resp wallet from to ixs ty ∧
    (reliable (re_db (te_req e) 0%nat) → ∃ b, to_vec (record_of e wid payload resp wallet ty) = Ok b ∧
       stored_bytes (tx_db st') (sr_signature resp) = Some b) ∧
    ∀ now, (get_first_page now (w_public_address wallet) (tx_cache st')).1 = None.
Proof.
  intros Hty Hs. destruct (send_transaction_effect e token wid payload st st' resp Hty Hs)
    as (wallet & from & to & ixs & ty & b & Ht & Hb & Hst & Hc).
  exists wallet, from, to, ixs, ty. split_and!; [done| |done]. intros Hr. exists b. split; [done|].
  unfold stored_bytes. destruct Hst as [->|[]]; [apply t_get_insert_eq|done].
Qed.

(** C7: a transfer is authorised, exact and recorded.  When a transfer succeeds,
    the wallet is the caller's and active, the recipient is a valid address, the
    amount is positive, and the transaction that was sent and seen confirmed
    under the returned signature is paid by the wallet's key and holds exactly
    the requested transfer (a system transfer, or - after the creation of the
    recipient's token account unless the node reports it - a token instruction
    that decodes to the amount, decimals, mint and associated accounts of the
    request).  If the database works its record is stored, and the sender's
    cached first page is gone. *)
Theorem transfer_authorised (e : TransferEnv T) (token : TokenData) (wid : string)
    (payload : SendTransactionRequest) (st st' : St) (resp : SendTransactionResponse)
    (Htyped : payload_typed payload)
    (Hsend : send_transaction (K := K) e token wid payload st = (Ok resp, st')) :
  ∃ wallet from to ixs ty,
    transferred e token wid payload st st' resp wallet from to ixs ty ∧
    (reliable (re_db (te_req e) 0%nat) → ∃ b, to_vec (record_of e wid payload resp wallet ty) = Ok b ∧
       stored_bytes (tx_db st') (sr_signature resp) = Some b) ∧
    ∀ now, (get_first_page now (w_public_address wallet) (tx_cache st')).1 = None.
Proof. exact (send_transaction_ok e token wid payload st st' resp Htyped Hsend). Qed.

(** The status of a recorded transaction. *)
Lemma status_of_record e token wid sig tx b (st : St) wallet s :
  reliable (re_db (te_req e) 0%nat) → to_vec tx = Ok b → stored_bytes (tx_db st) sig = Some b →
  owned_wallet e token wid st = (Ok wallet, s) →
  (get_transaction_status e token wid sig st).1 =
    if bool_decide (tx_wallet_id tx = wid) then Ok (mkTxStatus tx)
    else Err (Api.not_found ("transaction " +:+ sig +:+ " not found for wallet " +:+ wid)).
Proof.
  intros Hrel Hv Hb Hw. unfold get_transaction_status. rewrite act_bind_eq, Hw.
  apply owned_wallet_ok in Hw as (_ & _ & _ & Hdb). rewrite act_bind_eq. unfold sync_wallet, best_effort at 1.
  cbn [fst snd]. destruct (sync_adding (te_net e) (te_sync e) (te_sync_start e) (te_sync_finish e)
    (w_public_address wallet) wid s) as (Ha & _).
  set (s2 := (sync_address_once _ _ _ _ _ _ s).2) in *.
  assert (Hb2 : stored_bytes (tx_db s2) sig = Some b).
  { rewrite (adds_keeps _ _ _ sig Ha); rewrite Hdb; [done|by eauto]. }
  rewrite act_bind_eq. unfold tx_query, act_map_err, zoom. cbn [fst snd].
  rewrite get_transaction_reliable by done. rewrite Hb2, (from_to _ _ Hv). cbn [map_err].
  unfold mbind at 1. cbn [json_err map_err result_bind]. rewrite act_bind_lift. cbn [ok_or].
  rewrite act_bind_lift. unfold reject_if. by case_bool_decide.
Qed.
Lemma history_keeps (ops : list idx_op) (st : St) sig b :
  stored_bytes (tx_db st) sig = Some b → stored_bytes (tx_db (idx_history ops st)) sig = Some b.
Proof.
  intros Hb. destruct (idx_history_adding ops ops st) as (_ & _ & Ha); [done|].
  rewrite (adds_keeps _ _ _ sig Ha); [done|by eauto].
Qed.
Lemma status_after_send e token wid payload (st st' : St) resp ops e' token' wid' wallet' s :
  payload_typed payload → send_transaction (K := K) e token wid payload st = (Ok resp, st') →
  reliable (re_db (te_req e) 0%nat) → reliable (re_db (te_req e') 0%nat) →
  owned_wallet e' token' wid' (idx_history ops st') = (Ok wallet', s) →
  ∃ wallet ty,
    (get_transaction_status e' token' wid' (sr_signature resp) (idx_history ops st')).1 =
      if bool_decide (wid = wid') then Ok (mkTxStatus (record_of e wid payload resp wallet ty))
      else Err (Api.not_found ("transaction " +:+ sr_signature resp +:+ " not found for wallet " +:+ wid')).
Proof.
  intros Hty Hs Hr Hr' Ho.
  destruct (send_transaction_ok _ _ _ _ _ _ _ Hty Hs) as (wallet & from & to & ixs & ty & _ & Hrec & _).
  destruct (Hrec Hr) as (b & Hv & Hb). exists wallet, ty.
  by apply (status_of_record e' token' wid' _ (record_of e wid payload resp wallet ty) b _ wallet' s);
    [| |apply history_keeps|].
Qed.

(** A sent transfer stays on record.  After a successful transfer and any
    history of the indexer, with any answers of the node and any failures, the
    owner's status request (while the wallet is active and the database can be
    read) returns the transfer as it was sent: its addresses, amount, token,
    signature and time. *)
Theorem sent_transfer_tracked (e : TransferEnv T) (token : TokenData) (wid : string)
    (payload : SendTransactionRequest) (st st' s : St) (resp : SendTransactionResponse)
    (ops : list idx_op) (e' : TransferEnv T) (token' : TokenData) (wallet' : WalletMetadata)
    (Htyped : payload_typed payload)
    (Hsend : send_transaction (K := K) e token wid payload st = (Ok resp, st'))
    (Hstore : reliable (re_db (te_req e) 0%nat)) (Hread : reliable (re_db (te_req e') 0%nat))
    (Howned : owned_wallet e' token' wid (idx_history ops st') = (Ok wallet', s)) :
  ∃ wallet ty,
    (get_transaction_status e' token' wid (sr_signature resp) (idx_history ops st')).1 =
      Ok (mkTxStatus (record_of e wid payload resp wallet ty)).
Proof.
  destruct (status_after_send e token wid payload st st' resp ops e' token' wid wallet' s)
    as (wallet & ty & Hg); [done..|]. exists wallet, ty. by rewrite bool_decide_eq_true_2 in Hg.
Qed.

(** C38: the recipient cannot query a transfer.  A transfer made through the
    server is recorded under the sender's wallet only, and the indexer never
    records it again: for the owner of any other wallet, the one that received
    it included, the status request answers 404 for good. *)
Theorem recipient_cannot_query_transfer (e : TransferEnv T) (token : TokenData) (wid : string)
    (payload : SendTransactionRequest) (st st' s : St) (resp : SendTransactionResponse)
    (ops : list idx_op) (e' : TransferEnv T) (token' : TokenData) (wid' : string)
    (wallet' : WalletMetadata) (Htyped : payload_typed payload)
    (Hsend : send_transaction (K := K) e token wid payload st = (Ok resp, st'))
    (Hstore : reliable (re_db (te_req e) 0%nat)) (Hread : reliable (re_db (te_req e') 0%nat))
    (Howned : owned_wallet e' token' wid' (idx_history ops st') = (Ok wallet', s))
    (Hrecipient : w_public_address wallet' = sq_recipient payload) (Hother : wid ≠ wid') :
  (get_transaction_status e' token' wid' (sr_signature resp) (idx_history ops st')).1 =
    Err (Api.not_found ("transaction " +:+ sr_signature resp +:+ " not found for wallet " +:+ wid')).
Proof.
  destruct (status_after_send e token wid payload st st' resp ops e' token' wid' wallet' s)
    as (wallet & ty & Hg); [done..|]. by rewrite bool_decide_eq_false_2 in Hg.
Qed.

(** ** Balances *)

(** C24: the printed balance is exact.  A successful balance request answers for
    an active wallet of the caller with the node's amount, in lamports and in
    SOL; below [2 ^ 52] lamports (about four and a half million SOL) the SOL
    text, computed through two roundings of a double, is the exact decimal. *)
Theorem balance_exact (e : TransferEnv T) (token : TokenData) (wid : string) (st st' : St)
    (resp : BalanceResponse) (Hget : get_balance e token wid st = (Ok resp, st')) :
  ∃ wallet key lamports,
    (wallet_get (re_io (te_req e) 0%nat) wid (storage st)).1 = Ok wallet ∧
    w_owner_user_id wallet = sub token ∧ w_status wallet = WActive ∧
    pubkey_from_str (w_public_address wallet) = Some key ∧ te_balance e key = Ok lamports ∧
    (tb_raw_amount <$> br_balances resp) = [show_u64 lamports] ∧
    (0 ≤ lamports < 2 ^ 52 →
       (tb_ui_amount <$> br_balances resp) =
         [show_u64 (lamports / 10 ^ 9) +:+ "." +:+ pad_digits 9 (lamports mod 10 ^ 9) ""]).
Proof.
  apply act_bind_ok in Hget as (wallet & s1 & Hw & Hget).
  apply owned_wallet_ok in Hw as (Hw & Hown & Hact & _). peel Hget as bal Hb. injection Hget as <- _.
  apply result_bind_ok in Hb as (key & Hk%ok_or_ok & Hb).
  apply result_bind_ok in Hb as (lam & Hl%map_err_ok & Hb). injection Hb as <-.
  exists wallet, key, lam. split_and!; [done..|]. intros Hlam. cbn [br_balances fmap list_fmap tb_ui_amount].
  by rewrite fmt_sol_exact.
Qed.
End Transfers.

(** ** Examples *)

(** Two keypairs. *)
#[export] Instance keys2 : SolanaKeys bool := {
  kp_try_from b := Ok (bool_decide (b = [1]));
  kp_to_bytes k := if k : bool then [1] else [2];
  kp_pubkey k := if k : bool then "aa" else "bb";
}.
#[export] Instance system0 : SystemCrates := {
  system_transfer from to lamports :=
    mkInstruction system_program_id [meta_new from true; meta_new to false]
      (put_u32 2 +:+ put_u64 lamports);
}.
Definition tenv0 : TransferEnv table0 :=
  mkTransferEnv req0 net0 rpc3 (λ _, Ok 1500000001) (λ _ _ _, Ok 5000) (mkDateTime 9 0)
    (ienv0 []) (mkDateTime 20 0) (mkDateTime 21 0) 30 31.
Definition w_two : AppState table0 lru1 :=
  (create_wallet (K := bool) req0 bob None false "w2"
     (create_wallet (K := bool) req0 alice None true "w1" wst0).2).2.
Definition pay_bob : SendTransactionRequest := mkSendReq "bb" 250 "native" None.
Definition pay_token : SendTransactionRequest := mkSendReq "bb" 250 "spl:cc" (Some 6).
Definition w_paid : AppState table0 lru1 :=
  (send_transaction (K := bool) tenv0 alice "w1" pay_bob w_two).2.
Definition sent0 : SendTransactionResponse := mkSent "sig" (explorer_tx_url net0 "sig") "w1".
Definition later0 : list idx_op := [Cycle net0 env0 (λ _, ienv0 [])].

Lemma pay_typed r t d : (∀ x, d = Some x → is_u8 x) → payload_typed (mkSendReq r 250 t d).
Proof. intros Hd. by split; [vm_compute|]. Qed.
Lemma pay_bob_ok : send_transaction (K := bool) tenv0 alice "w1" pay_bob w_two = (Ok sent0, w_paid).
Proof. unfold w_paid. apply surjective_pairing_with. by vm_compute. Qed.

Lemma transfer_authorised_witness :
  let st' := (send_transaction (K := bool) tenv0 alice "w1" pay_token w_two).2 in
  ∃ wallet from to ixs ty,
    transferred tenv0 alice "w1" pay_token w_two st' sent0 wallet from to ixs ty ∧
    (reliable env0 → ∃ b, to_vec (record_of tenv0 "w1" pay_token sent0 wallet ty) = Ok b ∧
       stored_bytes (tx_db st') "sig" = Some b) ∧
    ∀ now, (get_first_page now (w_public_address wallet) (tx_cache st')).1 = None.
Proof.
  apply (transfer_authorised (K := bool) tenv0 alice "w1" pay_token w_two _ sent0).
  - apply pay_typed. intros x [= <-]. by vm_compute.
  - apply surjective_pairing_with. by vm_compute.
Defined.
Lemma sent_transfer_tracked_witness :
  ∃ wallet ty, (get_transaction_status tenv0 alice "w1" "sig" (idx_history later0 w_paid)).1 =
    Ok (mkTxStatus (record_of tenv0 "w1" pay_bob sent0 wallet ty)).
Proof.
  eapply (sent_transfer_tracked (K := bool) tenv0 alice "w1" pay_bob w_two w_paid _ sent0 later0 tenv0
    alice); [by apply pay_typed|apply pay_bob_ok|done..|].
  apply surjective_pairing_with. vm_compute. reflexivity.
Defined.
Lemma recipient_cannot_query_transfer_witness :
  (get_transaction_status tenv0 bob "w2" "sig" (idx_history later0 w_paid)).1 =
    Err (Api.not_found "transaction sig not found for wallet w2").
Proof.
  eapply (recipient_cannot_query_transfer (K := bool) tenv0 alice "w1" pay_bob w_two w_paid _ sent0 later0
    tenv0 bob "w2"); [by apply pay_typed|apply pay_bob_ok|done..| | |done].
  - apply surjective_pairing_with. vm_compute. reflexivity.
  - reflexivity.
Defined.
Lemma balance_exact_witness :
  ∃ wallet key lamports,
    (wallet_get IoOk "w1" (storage w_two)).1 = Ok wallet ∧
    w_owner_user_id wallet = "al" ∧ w_status wallet = WActive ∧
    pubkey_from_str (w_public_address wallet) = Some key ∧ Ok 1500000001 = Ok (E := string) lamports ∧
    ["1500000001"] = [show_u64 lamports] ∧
    (0 ≤ lamports < 2 ^ 52 →
       ["1.500000001"] = [show_u64 (lamports / 10 ^ 9) +:+ "." +:+ pad_digits 9 (lamports mod 10 ^ 9) ""]).
Proof.
  apply (balance_exact tenv0 alice "w1" w_two (get_balance tenv0 alice "w1" w_two).2
    (mkBalances "w1" "aa" "Solana Devnet" [mkBalance "SOL" "" "1500000001" "1.500000001" 9])).
  apply surjective_pairing_with. by vm_compute.
Defined.
