(* ===== verification/Background.v ===== *)
(** * Background tasks

    What src/src/main.rs leaves running beside the requests: the indexer
    (src/src/indexer/poller.rs, [spawn_indexer]), started only when it is enabled,
    and the purge of old nonces.  A task is the sequence of its ticks; the ticks
    of the two tasks come in any order. *)
From S2P Require Import Prelude.
From S2P Require Import RustStr.
From S2P Require Import RustFmt.
From S2P Require Import Errors.
From S2P Require Import Types.
From S2P Require Import Interfaces.
From S2P Require Import TxDatabase.
From S2P Require Import Text.
From S2P Require Import Instances.
From S2P Require Import TxNonces.
From S2P Require Import Storage.
From S2P Require Import TxCache.
From S2P Require Import AppState.
From S2P Require Import DrtProgram.
From S2P Require Import SolanaRpc.
From S2P Require Import Indexer.
From S2P Require Import IndexerFacts.

Local Open Scope Z_scope.

Definition INDEXER_ENABLED : bool := false.
Definition NONCE_MAX_AGE_SECS : Z := 86400.

Section Tasks.
Context {T C : Type} `{RedbTable T, RedbTxn (Db T), DbCrates, SolanaCrates, TextCrates}.
Context `{Lru C CacheEntry, Serde StoredTransaction}.
Abbreviation St := (AppState T C).

Inductive tick :=
| IndexerTick (env : renv (Db T)) (e : nat → IdxEnv T)
| NonceTick (env : renv (Db T)) (now : Z).
(** One turn of the loop of [spawn_indexer]: a failed cycle is only logged. *)
Definition indexer_turn (net : NetworkConfig) (env : renv (Db T)) (e : nat → IdxEnv T) (st : St) : St :=
  (poll_once net env e st).2.
(** One turn of the purge. *)
Definition purge_turn (env : renv (Db T)) (now : Z) (st : St) : St :=
  set_tx_db (purge_expired_nonces env now NONCE_MAX_AGE_SECS (tx_db st)).2 st.
(** The task of the indexer runs only when [indexer_enabled]. *)
Definition task_turn (indexer_enabled : bool) (net : NetworkConfig) (st : St) (t : tick) : St :=
  match t with
  | IndexerTick env e => if indexer_enabled then indexer_turn net env e st else st
  | NonceTick env now => purge_turn env now st
  end.
Definition run_tasks (indexer_enabled : bool) (net : NetworkConfig) (ticks : list tick) (st : St) : St :=
  foldl (task_turn indexer_enabled net) st ticks.
End Tasks.
Arguments tick T {_}.

(** ** Facts *)

Section TaskFacts.
Context {T C : Type} `{RedbTableLaws T, RedbTxnLaws (Db T), DbCrates, SolanaCrates, TextCrates}.
Context `{Lru C CacheEntry, SerdeLaws StoredTransaction}.
Abbreviation St := (AppState T C).

(** What an operation keeps: the files, the audit key and every table not named. *)
Record confined (names : list TableDefinition) (st st' : St) : Prop := {
  cf_storage : storage st' = storage st;
  cf_key : audit_key st' = audit_key st;
  cf_tables n : n ∉ names → tx_db st' n = tx_db st n;
}.
Lemma confined_refl names st : confined names st st.
Proof. done. Qed.
Lemma confined_trans names st1 st2 st3 :
  confined names st1 st2 → confined names st2 st3 → confined names st1 st3.
Proof. intros [] []. split; [congruence..|]. intros n Hn. rewrite cf_tables1 by done. auto. Qed.
Lemma confined_weaken names names' st st' : names ⊆ names' → confined names st st' → confined names' st st'.
Proof. intros Hs []. split; [done..|]. intros n Hn. apply cf_tables0. set_solver. Qed.

Lemma purge_frame env now age (db : Db T) n :
  n ≠ NONCES → (purge_expired_nonces env now age db).2 n = db n.
Proof.
  intros Hn. unfold purge_expired_nonces.
  apply (run_write_preserves (λ s, s n = db n)); [|done]. intros s a s' Hs Hm.
  unfold mbind, act_bind, reading in Hm.
  match type of Hm with context [remove_keys NONCES ?ks 0 s] =>
    destruct (remove_keys_spec ks 0 s) as (s1 & Hr & _ & Hf) end.
  rewrite Hr in Hm. injection Hm as _ <-. by rewrite Hf.
Qed.
Lemma purge_turn_confined env now st : confined [NONCES] st (purge_turn env now st).
Proof. split; [done..|]. intros n Hn. apply purge_frame. set_solver. Qed.
Lemma indexer_turn_confined net env e st : confined INDEXED st (indexer_turn net env e st).
Proof.
  destruct (idx_run_adding (Cycle net env e) st) as ([Hn _] & Hs & Hk).
  split; [exact Hs|exact Hk|exact Hn].
Qed.
Lemma task_turn_confined enabled net st t : confined (NONCES :: INDEXED) st (task_turn enabled net st t).
Proof.
  destruct t as [env e|env now]; simpl; [destruct enabled|].
  - eapply confined_weaken, indexer_turn_confined. set_solver.
  - apply confined_refl.
  - eapply confined_weaken, purge_turn_confined. set_solver.
Qed.
Lemma run_tasks_confined enabled net ticks st :
  confined (NONCES :: INDEXED) st (run_tasks enabled net ticks st).
Proof.
  unfold run_tasks. revert st. induction ticks as [|t ticks IH]; intros st; [apply confined_refl|].
  eapply confined_trans; [apply task_turn_confined|apply IH].
Qed.

(** A recorded nonce survives the tasks for its maximal age. *)
Definition tick_spares (t : Z) (k : tick T) : Prop :=
  match k with IndexerTick _ _ => True | NonceTick _ now => is_i64 now ∧ 0 ≤ now ≤ t + NONCE_MAX_AGE_SECS end.
Lemma run_tasks_keep_nonce enabled net ticks (st : St) t n :
  is_i64 t → Forall (tick_spares t) ticks →
  t_get (tx_db st NONCES) n = Some (i64_to_le_bytes t) →
  t_get (tx_db (run_tasks enabled net ticks st) NONCES) n = Some (i64_to_le_bytes t).
Proof.
  intros Ht Hk. unfold run_tasks. revert st. induction Hk as [|k ticks Hk _ IH]; intros st Hn; [done|].
  simpl. apply IH. destruct k as [env e|env now]; simpl.
  - destruct enabled; [|done].
    rewrite (cf_tables _ _ _ (indexer_turn_confined net env e st)); [done|]. unfold INDEXED. set_solver.
  - apply (nonce_kept env (OpPurge now NONCE_MAX_AGE_SECS)); [done| |done]. simpl.
    destruct Hk as [Hi Hz]. unfold is_i64, I64_MIN, I64_MAX, NONCE_MAX_AGE_SECS in *.
    rewrite i64_sub_small; unfold is_i64, I64_MIN, I64_MAX; lia.
Qed.
(** A purge turn that works leaves no nonce older than the maximal age. *)
Lemma purge_turn_bounds env now (st : St) n v :
  reliable env → is_i64 (now - NONCE_MAX_AGE_SECS) →
  t_get (tx_db (purge_turn env now st) NONCES) n = Some v →
  t_get (tx_db st NONCES) n = Some v ∧ now - NONCE_MAX_AGE_SECS ≤ i64_from_le_bytes v.
Proof.
  intros Henv Hcut. unfold purge_turn. cbn [tx_db set_tx_db]. unfold purge_expired_nonces.
  rewrite i64_sub_small by done. rewrite (run_write_reliable env _ _ Henv).
  destruct (purge_body (now - NONCE_MAX_AGE_SECS) (tx_db st)) as (db' & m & -> & _ & Hg).
  simpl. apply Hg.
Qed.

(** Background tasks disturb no request.  After any sequence of their ticks, with
    any answers of the node and any failures, the files, the audit key and every
    table but the indexer's three and the nonces are as they were; as the server
    is configured only the nonces can differ; a nonce recorded at [t] is still
    known while no tick is later than its maximal age; and a purge that works
    leaves no older one. *)
Theorem background_tasks_confined (enabled : bool) (net : NetworkConfig) (ticks : list (tick T)) (st : St) :
  let st' := run_tasks enabled net ticks st in
  confined (NONCES :: INDEXED) st st' ∧
  (enabled = INDEXER_ENABLED → confined [NONCES] st st' ∧ tx_cache st' = tx_cache st) ∧
  (∀ n t, is_i64 t → Forall (tick_spares t) ticks → t_get (tx_db st NONCES) n = Some (i64_to_le_bytes t) →
     t_get (tx_db st' NONCES) n = Some (i64_to_le_bytes t)) ∧
  ∀ env now n v, reliable env → is_i64 (now - NONCE_MAX_AGE_SECS) →
    t_get (tx_db (purge_turn env now st') NONCES) n = Some v → now - NONCE_MAX_AGE_SECS ≤ i64_from_le_bytes v.
Proof.
  intros st'. split; [apply run_tasks_confined|]. split; [|split].
  - intros ->. unfold st', run_tasks. clear st'. revert st.
    induction ticks as [|t ticks IH]; intros st; [by split; [apply confined_refl|]|]. simpl.
    destruct (IH (task_turn INDEXER_ENABLED net st t)) as [Hc Ht]. destruct t as [env e|env now].
    + done.
    + split; [|exact Ht]. eapply confined_trans; [apply purge_turn_confined|exact Hc].
  - intros. by apply run_tasks_keep_nonce.
  - intros env now n v Henv Hcut Hv. by eapply purge_turn_bounds in Hv as [_ ?].
Qed.
End TaskFacts.
