(* ===== verification/Server.v ===== *)
(** * Identity, health, start-up and certificates

    src/src/api/users.rs, the status endpoint of src/src/handlers.rs,
    src/src/health.rs, the start of src/src/main.rs, the label rewriting of
    src/src/tls.rs and the network choice of src/src/blockchain/types.rs. *)
From S2P Require Import Prelude.
From S2P Require Import RustStr.
From S2P Require Import RustFmt.
From S2P Require Import Errors.
From S2P Require Import Types.
From S2P Require Import Interfaces.
From S2P Require Import TxDatabase.
From S2P Require Import Storage.
From S2P Require Import TxCache.
From S2P Require Import AppState.
From S2P Require Import VerifiedFetch.
From S2P Require Import Runtime.
From S2P Require Import Auth.
From S2P Require Import Indexer.

Local Open Scope Z_scope.
#[local] Arguments String.append : simpl nomatch.

(** ** Identity *)

Record UserMeResponse := mkUserMe { um_user_id : string; um_role : string }.
Definition get_me (token : TokenData) : UserMeResponse := mkUserMe (sub token) (role token).

Record AdminStatusResponse := mkAdminStatus {
  as_status : string; as_admin_user : string; as_uptime_seconds : Z }.
(** [uptime] is the age of the process, when its start was recorded. *)
Definition admin_status (token : TokenData) (uptime : option Z) : AdminStatusResponse :=
  mkAdminStatus "operational" (sub token) (default 0 uptime).

(** ** Health *)

Record HealthChecks := mkChecks {
  hc_service : string; hc_data_dir : option string; hc_solana_rpc : option string;
  hc_jwks : option string; hc_tx_db : option string }.
Record ReadyResponse := mkReady { rd_status : string; rd_checks : HealthChecks }.
Record HealthResponse := mkHealth { hl_status : string }.

(** [tokio::fs::metadata(DATA_DIR)]: [present] is whether it succeeds. *)
Definition check_data_dir (present : bool) : option string :=
  if present then Some "ok" else Some "missing".
Definition dir_ok (data_dir : option string) : bool :=
  match data_dir with Some s => bool_decide (s = "ok") | None => true end.
Definition http_status (all_ok : bool) : Z := if all_ok then 200 else 503.
Definition status_text (all_ok : bool) : string := if all_ok then "ok" else "degraded".

Definition health (present : bool) : Z * ReadyResponse :=
  let data_dir := check_data_dir present in
  let all_ok := dir_ok data_dir in
  (http_status all_ok, mkReady (status_text all_ok) (mkChecks "ok" data_dir None None None)).
Definition liveness : HealthResponse := mkHealth "ok".

Definition check_text {A} (r : result string A) : string :=
  match r with Ok _ => "ok" | Err e => "error: " +:+ e end.

Section Ready.
Context {T K : Type} `{RedbTxn (Db T)}.
(** [begin_read_txn]. *)
Definition begin_read_txn (env : renv (Db T)) : act (Db T) TxDbError unit :=
  reading (run_read env (λ _, Ok ())).
Definition readiness (present : bool) (rpc_health : result string unit) (jwks_cache : option (JwksCache K))
    (env : renv (Db T)) (db : Db T) : Z * ReadyResponse :=
  let data_dir := check_data_dir present in
  let solana_rpc := check_text rpc_health in
  let jwks := match jwks_cache with Some _ => "ok" | None => "not_loaded" end in
  let tx_db := check_text (map_err display_txdb (begin_read_txn env db).1) in
  let all_ok := dir_ok data_dir && bool_decide (solana_rpc = "ok") && bool_decide (jwks = "ok") &&
                bool_decide (tx_db = "ok") in
  (http_status all_ok,
   mkReady (status_text all_ok) (mkChecks "ok" data_dir (Some solana_rpc) (Some jwks) (Some tx_db))).

Lemma check_text_ok {A} (r : result string A) : check_text r = "ok" ↔ is_ok r = true.
Proof. by destruct r. Qed.
(** The service reports ready exactly when the directory is there, the node is
    healthy, keys were loaded and the database opens a read transaction. *)
Lemma readiness_spec present rpc_health cache env db :
  (readiness present rpc_health cache env db).1 = 200 ↔
  present = true ∧ is_ok rpc_health = true ∧ is_Some cache ∧ is_ok (begin_read_txn env db).1 = true.
Proof.
  unfold readiness. cbn [fst]. set (r := (begin_read_txn env db).1).
  assert (Hm : is_ok (map_err display_txdb r) = is_ok r) by (by destruct r).
  rewrite <-Hm, <-!check_text_ok. unfold http_status.
  destruct present, cache; simpl; repeat case_bool_decide; simpl; split; naive_solver.
Qed.
End Ready.

(** ** The network of the configuration *)

Definition SOLANA_RPC_URL : string := "https://api.devnet.solana.com".
Definition SOLANA_NETWORK : string := "devnet".
Definition network_config (network rpc_url : string) : NetworkConfig :=
  if bool_decide (network = "mainnet") || bool_decide (network = "mainnet-beta")
  then mainnet_config rpc_url else devnet_config rpc_url.
Definition network_config_from_env : NetworkConfig := network_config SOLANA_NETWORK SOLANA_RPC_URL.

(** ** RA-TLS certificates *)

(** [str::replace] with a non-empty pattern: the leftmost occurrences that do not
    overlap; [skip] counts the bytes of the occurrence being passed. *)
Fixpoint replace_from (pat rep : string) (skip : nat) (s : string) : string :=
  match s with
  | EmptyString => EmptyString
  | String c s' =>
      match skip with
      | S n => replace_from pat rep n s'
      | O => if starts_with pat s then rep +:+ replace_from pat rep (String.length pat - 1) s'
             else String c (replace_from pat rep 0 s')
      end
  end.
Definition replace (pat rep s : string) : string := replace_from pat rep 0 s.
Definition TRUSTED_BEGIN : string := "-----BEGIN TRUSTED CERTIFICATE-----".
Definition TRUSTED_END : string := "-----END TRUSTED CERTIFICATE-----".
Definition PEM_BEGIN : string := "-----BEGIN CERTIFICATE-----".
Definition PEM_END : string := "-----END CERTIFICATE-----".
Definition normalize_ratls_pem (cert : string) : string :=
  if utf8_valid cert then
    if str_contains TRUSTED_BEGIN cert then replace TRUSTED_END PEM_END (replace TRUSTED_BEGIN PEM_BEGIN cert)
    else cert
  else cert.

(** [RustlsConfig::from_pem] and [from_der]: a configuration of type [Tls]. *)
Class TlsCrates (Tls : Type) := {
  from_pem : string → string → result string Tls;
  from_der : list string → string → result string Tls;
}.
(** [load_tls_config]; the arguments are what reading the two files gives. *)
Definition load_tls_config {Tls} `{TlsCrates Tls} (cert_file key_file : result string string) :
    result string Tls :=
  cert ← cert_file;
  key ← key_file;
  let cert := normalize_ratls_pem cert in
  match from_pem cert key with
  | Ok config => Ok config
  | Err pem_err =>
      match from_der [cert] key with
      | Ok config => Ok config
      | Err der_err => Err ("failed to parse TLS cert/key as PEM (" +:+ pem_err +:+ ") or DER ("
                              +:+ der_err +:+ ")")
      end
  end.

(** ** Start-up (main.rs) *)

Definition ALLOW_HTTP_JWKS : bool := true.
Definition TX_CACHE_CAPACITY : nat := 128.
Definition TX_CACHE_TTL_SECS : Z := 30.
(** Refuse a plain HTTP address of the attestation service on another host. *)
Definition jwks_guard (allow : bool) (url : string) : result string unit :=
  reject_if (starts_with "http://" url && negb (is_loopback_http_jwks url) && negb allow)
    ("AVS_JWKS_URL is plain HTTP for a remote host: " +:+ url
       +:+ ". Set AVS_JWKS_URL to an https:// endpoint, or flip config::ALLOW_HTTP_JWKS and rebuild.").

Section Boot.
Context {T C Tls : Type} `{RedbTxn (Db T), Lru C CacheEntry, TlsCrates Tls}.
(** What the start finds: the failure of the directories, the variable of the
    JWKS address, the opening of the database, whether the two files of the
    certificate exist and what reading them gives. *)
Record BootEnv := mkBootEnv {
  be_dirs : io_fault; be_url : option string; be_open : renv (Db T);
  be_cert : bool; be_key : bool; be_cert_file : result string string;
  be_key_file : result string string }.
(** [TxDatabase::open]: a transaction that creates the missing tables. *)
Definition open_db (env : renv (Db T)) : act (Db T) TxDbError unit := run_write env (mret ()).
Definition tls_ready (e : BootEnv) : result string Tls :=
  _ ← reject_if (negb (be_cert e && be_key e)) "TLS cert/key not available; RA-TLS requires TLS";
  map_err (λ _, "failed to load TLS cert/key") (load_tls_config (be_cert_file e) (be_key_file e)).
(** The state and the certificate with which the server listens, or the message of the panic (the
    error that [expect] adds to it is left out), from the disk and the disk left. *)
Definition boot (e : BootEnv) : act (Fs * Db T) string (AppState T C * Tls) :=
  _ ← best_effort (zoom fst (λ fs d, (fs, d.2)) (initialize (be_dirs e) DATA_DIR));
  _ ← lift (jwks_guard ALLOW_HTTP_JWKS (avs_jwks_url (be_url e)));
  _ ← act_map_err (λ _, "Failed to open transaction database — cannot start enclave without DB")
        (zoom snd (λ db d, (d.1, db)) (open_db (be_open e)));
  state ← reading (λ d, Ok (mkAppState d.1 d.2 (cache_new TX_CACHE_CAPACITY TX_CACHE_TTL_SECS) None));
  tls ← lift (tls_ready e);
  mret (state, tls).

(** A certificate is used when it reads, after its labels are rewritten, as PEM
    or else as DER. *)
Lemma load_tls_config_ok cert_file key_file tls :
  load_tls_config cert_file key_file = Ok tls ↔
  ∃ cert key, cert_file = Ok cert ∧ key_file = Ok key ∧
    (from_pem (normalize_ratls_pem cert) key = Ok tls ∨
     is_ok (from_pem (Tls := Tls) (normalize_ratls_pem cert) key) = false ∧
     from_der [normalize_ratls_pem cert] key = Ok tls).
Proof.
  unfold load_tls_config. split.
  - intros (cert & Hc & Hr)%result_bind_ok. apply result_bind_ok in Hr as (key & Hk & Hr).
    exists cert, key. split; [done|]. split; [done|]. destruct (from_pem _ _); [by left|].
    right. split; [done|]. by destruct (from_der _ _).
  - intros (cert & key & -> & -> & Hr). simpl. destruct (from_pem _ _) as [t|x].
    + destruct Hr as [Hr|[Hr _]]; [exact Hr|done].
    + destruct Hr as [Hr|[_ Hr]]; [done|]. by rewrite Hr.
Qed.

(** However a start ends, it leaves the files and the tables as they were. *)
Lemma boot_disk `{!RedbTxnLaws (Db T)} e (d : Fs * Db T) :
  files (boot e d).2.1 = files d.1 ∧ (boot e d).2.2 = d.2.
Proof.
  assert (Hp : preserves (λ d', files d'.1 = files d.1 ∧ d'.2 = d.2) (boot e : act _ string (AppState T C * Tls)));
    [|by apply Hp].
  unfold boot. repeat (apply preserves_bind; [|intros ?]); auto with rsdk.
  - apply preserves_best_effort. intros [fs db]. by destruct (be_dirs e).
  - apply preserves_map_err. intros [fs db] [Hf Hd]. split; [done|]. unfold zoom. cbn [snd fst] in *. rewrite <-Hd.
    unfold open_db. by apply (run_write_preserves (λ db', db' = db)); [intros ? ? ? -> [= _ <-]|].
Qed.
(** A server that listens has TLS, the stored files and tables as they were, no
    cached page and an audit key still to be read. *)
Lemma boot_ok `{!RedbTxnLaws (Db T)} e d d' (st : AppState T C) tls :
  boot e d = (Ok (st, tls), d') →
  be_cert e = true ∧ be_key e = true ∧ load_tls_config (be_cert_file e) (be_key_file e) = Ok tls ∧
  files (storage st) = files d.1 ∧ tx_db st = d.2 ∧ audit_key st = None ∧
  tx_cache st = cache_new TX_CACHE_CAPACITY TX_CACHE_TTL_SECS.
Proof.
  intros Hb. destruct (boot_disk e d) as [Hf Hd]. rewrite Hb in Hf, Hd. cbn [snd] in *. unfold boot in Hb.
  apply act_bind_ok in Hb as (u1 & d1 & _ & Hb). apply act_bind_ok in Hb as (u2 & d2 & _ & Hb).
  apply act_bind_ok in Hb as (u3 & d3 & _ & Hb). apply act_bind_ok in Hb as (s4 & d4 & Hs & Hb).
  apply act_bind_ok in Hb as (tls' & d5 & Ht & Hb). unfold lift in Ht. injection Ht as Ht <-.
  injection Hs as <- <-. injection Hb as <- <- <-. cbn [storage tx_db audit_key tx_cache] in *.
  apply result_bind_ok in Ht as ([] & Ht%reject_if_ok & Hl%map_err_ok).
  apply negb_false_iff, andb_true_iff in Ht as [Hc Hk]. by split_and!.
Qed.
End Boot.

(** ** Facts about the labels *)

Definition no_dash (s : string) : bool := string_forallb (λ c, negb (byte c =? 45)) s.
(** A pattern that starts with a dash is not found in text without one. *)
Lemma replace_no_dash pat rep s r :
  no_dash s = true →
  replace_from (String "-" pat) rep 0 (s +:+ r) = s +:+ replace_from (String "-" pat) rep 0 r.
Proof.
  induction s as [|c s IH]; [done|]. intros Hd. unfold no_dash in Hd. cbn [string_forallb] in Hd.
  apply andb_true_iff in Hd as [Hc Hd]. change (String c s +:+ r) with (String c (s +:+ r)).
  cbn [replace_from]. destruct (starts_with _ _) eqn:Hs.
  - apply starts_with_spec in Hs as [x Hx]. injection Hx as -> _. done.
  - by rewrite IH.
Qed.
Lemma replace_skip pat rep p s : replace_from pat rep (String.length p) (p +:+ s) = replace_from pat rep 0 s.
Proof. by induction p as [|c p IH]. Qed.
Lemma replace_here pat rep c s :
  replace_from (String c pat) rep 0 (String c pat +:+ s) = rep +:+ replace_from (String c pat) rep 0 s.
Proof.
  change (String c pat +:+ s) with (String c (pat +:+ s)). cbn [replace_from].
  assert (Hs : starts_with (String c pat) (String c (pat +:+ s)) = true).
  { apply starts_with_spec. by exists s. }
  rewrite Hs. cbn [String.length]. by rewrite Nat.sub_succ, Nat.sub_0_r, replace_skip.
Qed.
Lemma end_label_kept r :
  replace_from TRUSTED_BEGIN PEM_BEGIN 0 (TRUSTED_END +:+ newline +:+ r) =
    TRUSTED_END +:+ newline +:+ replace_from TRUSTED_BEGIN PEM_BEGIN 0 r.
Proof. reflexivity. Qed.
Lemma begin_label_kept r :
  replace_from TRUSTED_END PEM_END 0 (PEM_BEGIN +:+ newline +:+ r) =
    PEM_BEGIN +:+ newline +:+ replace_from TRUSTED_END PEM_END 0 r.
Proof. reflexivity. Qed.
(** The labels of a trusted certificate are rewritten; what is between and after
    them is kept. *)
Lemma normalize_relabels body rest :
  no_dash body = true → no_dash rest = true →
  let pem b e := b +:+ newline +:+ body +:+ e +:+ newline +:+ rest in
  utf8_valid (pem TRUSTED_BEGIN TRUSTED_END) = true →
  normalize_ratls_pem (pem TRUSTED_BEGIN TRUSTED_END) = pem PEM_BEGIN PEM_END.
Proof.
  intros Hb Hr. cbv zeta. intros Hu. unfold normalize_ratls_pem, replace. rewrite Hu.
  assert (Hc : ∀ x, str_contains TRUSTED_BEGIN (TRUSTED_BEGIN +:+ x) = true).
  { intros x. pose proof (starts_with_app TRUSTED_BEGIN x) as Hs.
    destruct (TRUSTED_BEGIN +:+ x); cbn [str_contains]; by rewrite Hs. }
  rewrite Hc. unfold TRUSTED_BEGIN at 1 2. rewrite replace_here. fold TRUSTED_BEGIN.
  unfold TRUSTED_BEGIN at 1. rewrite (replace_no_dash _ _ newline) by done.
  rewrite replace_no_dash by done. fold TRUSTED_BEGIN. rewrite end_label_kept.
  rewrite <-(append_nil_r rest). unfold TRUSTED_BEGIN. rewrite replace_no_dash by done.
  rewrite begin_label_kept. unfold TRUSTED_END at 1. rewrite replace_no_dash by done.
  unfold TRUSTED_END at 1. rewrite replace_here. rewrite (replace_no_dash _ _ newline) by done.
  by rewrite replace_no_dash.
Qed.
