(* ===== verification/Router.v ===== *)
(** * The router

    The route tables of src/src/main.rs and src/src/api/mod.rs, the role that the
    signature of each handler demands, and the way of a request to its handler:
    path, method, then the token extractor.  The matching of paths is that of the
    router crate: a parameter matches one non-empty segment, and a literal
    segment is preferred to a parameter. *)
From S2P Require Import Prelude.
From S2P Require Import RustStr.
From S2P Require Import RustFmt.
From S2P Require Import Errors.
From S2P Require Import Interfaces.
From S2P Require Import Instances.
From S2P Require Import AppState.
From S2P Require Import Http.
From S2P Require Import Auth.
From S2P Require Import AuthFacts.

Local Open Scope Z_scope.

(** ** Routes *)

Inductive http_method := MGet | MHead | MPost | MDelete | MOther.
#[global] Instance http_method_eq_dec : EqDecision http_method.
Proof. solve_decision. Defined.

Inductive endpoint :=
| Health | Liveness | Readiness | GetPublicKey | AdminStatus | DataQuery | OpenapiJson
| GetMe | ListWallets | CreateWallet | GetWallet | DeleteWallet | GetBalance | EstimateFee
| SendTransaction | ListTransactions | GetTransactionStatus
| GetWalletStats | ListAllWallets | QueryAuditLogs | SuspendWallet | ActivateWallet | LogRoleChange
| CreateMaltaPool | CreateIobErpPool | GetPool | GetDrt | GrantRight | RevokeGrant | GetGrantStatus
| ListPoolGrants | ListMyGrants | GetTxEvents | UploadSchema | GetSchema | InitializePool
| IssueCredentials | RevokeCredentials | ListRevocations | PoolAudit | PoolSummary | GetIssuanceLog
| ListPoolsByWallet | ListAllPools.
#[global] Instance endpoint_eq_dec : EqDecision endpoint.
Proof. solve_decision. Defined.

Definition wallet_router : list (http_method * string * endpoint) :=
  [(MGet, "/v1/users/me", GetMe);
   (MGet, "/v1/wallets", ListWallets); (MPost, "/v1/wallets", CreateWallet);
   (MGet, "/v1/wallets/{wallet_id}", GetWallet); (MDelete, "/v1/wallets/{wallet_id}", DeleteWallet);
   (MGet, "/v1/wallets/{wallet_id}/balance", GetBalance);
   (MPost, "/v1/wallets/{wallet_id}/estimate", EstimateFee);
   (MPost, "/v1/wallets/{wallet_id}/send", SendTransaction);
   (MGet, "/v1/wallets/{wallet_id}/transactions", ListTransactions);
   (MGet, "/v1/wallets/{wallet_id}/transactions/{signature}", GetTransactionStatus);
   (MGet, "/v1/admin/wallet-stats", GetWalletStats); (MGet, "/v1/admin/wallets", ListAllWallets);
   (MGet, "/v1/admin/audit/events", QueryAuditLogs);
   (MPost, "/v1/admin/wallets/{wallet_id}/suspend", SuspendWallet);
   (MPost, "/v1/admin/wallets/{wallet_id}/activate", ActivateWallet);
   (MPost, "/v1/admin/log-role-change", LogRoleChange)].
Definition drt_router : list (http_method * string * endpoint) :=
  [(MPost, "/v1/drt/pools/malta", CreateMaltaPool); (MPost, "/v1/drt/pools/iob-erp", CreateIobErpPool);
   (MGet, "/v1/drt/pools/{pool_pda}", GetPool);
   (MGet, "/v1/drt/pools/{pool_pda}/drt/{drt_name}", GetDrt);
   (MPost, "/v1/drt/pools/{pool_pda}/grant", GrantRight);
   (MPost, "/v1/drt/pools/{pool_pda}/revoke-grant", RevokeGrant);
   (MGet, "/v1/drt/pools/{pool_pda}/grant/{analyst_id}/{drt_name}", GetGrantStatus);
   (MGet, "/v1/drt/pools/{pool_pda}/grants", ListPoolGrants);
   (MGet, "/v1/drt/me/grants", ListMyGrants); (MGet, "/v1/drt/events/{signature}", GetTxEvents);
   (MPost, "/v1/drt/pools/{pool_pda}/schema", UploadSchema);
   (MGet, "/v1/drt/pools/{pool_pda}/schema", GetSchema);
   (MPost, "/v1/drt/pools/{pool_pda}/initialize", InitializePool);
   (MPost, "/v1/drt/pools/{pool_pda}/issue", IssueCredentials);
   (MPost, "/v1/drt/pools/{pool_pda}/revoke", RevokeCredentials);
   (MGet, "/v1/drt/pools/{pool_pda}/revocations", ListRevocations);
   (MGet, "/v1/drt/pools/{pool_pda}/audit", PoolAudit);
   (MGet, "/v1/drt/pools/{pool_pda}/summary", PoolSummary);
   (MGet, "/v1/drt/pools/{pool_pda}/issuance-log", GetIssuanceLog);
   (MGet, "/v1/drt/pools/by-wallet/{wallet_id}", ListPoolsByWallet);
   (MGet, "/v1/drt/pools/list", ListAllPools)].
Definition app : list (http_method * string * endpoint) :=
  [(MGet, "/health", Health); (MGet, "/health/live", Liveness); (MGet, "/health/ready", Readiness);
   (MGet, "/v1/attestation/public-key", GetPublicKey); (MGet, "/v1/admin/status", AdminStatus);
   (MPost, "/v1/data/query", DataQuery); (MGet, "/api-doc/openapi.json", OpenapiJson)]
  ++ wallet_router ++ drt_router.

(** The token extractor ([AdminToken], [UserToken], [AnalystToken],
    [ReadOnlyToken]) in the signature of each handler of src/src/handlers.rs and
    src/src/api. *)
Definition guard_of (ep : endpoint) : option string :=
  match ep with
  | Health | Liveness | Readiness | GetPublicKey | OpenapiJson => None
  | GetMe | ListMyGrants | ListAllPools => Some "read_only"
  | DataQuery | GetPool | GetDrt | GetTxEvents | GetSchema | PoolAudit | PoolSummary => Some "analyst"
  | ListWallets | CreateWallet | GetWallet | DeleteWallet | GetBalance | EstimateFee | SendTransaction
  | ListTransactions | GetTransactionStatus | ListPoolsByWallet => Some "user"
  | AdminStatus | GetWalletStats | ListAllWallets | QueryAuditLogs | SuspendWallet | ActivateWallet
  | LogRoleChange | CreateMaltaPool | CreateIobErpPool | GrantRight | RevokeGrant | GetGrantStatus
  | ListPoolGrants | UploadSchema | InitializePool | IssueCredentials | RevokeCredentials
  | ListRevocations | GetIssuanceLog => Some "admin"
  end.

(** ** Matching *)

(** The segments of a path, after the leading slash. *)
Definition segments (path : string) : list string := tail (split_all "/" path).
Definition is_param (seg : string) : bool := starts_with "{" seg.
Definition seg_matches (pat seg : string) : bool :=
  if is_param pat then negb (bool_decide (seg = "")) else bool_decide (pat = seg).
Fixpoint matches (pat path : list string) : bool :=
  match pat, path with
  | [], [] => true
  | p :: ps, s :: ss => seg_matches p s && matches ps ss
  | _, _ => false
  end.
(** [p] has a literal where [q] first has a parameter instead. *)
Fixpoint more_literal (p q : list string) : bool :=
  match p, q with
  | x :: ps, y :: qs =>
      if is_param x then (if is_param y then more_literal ps qs else false)
      else if is_param y then true else more_literal ps qs
  | _, _ => false
  end.
Definition prefer (best : option string) (pat : string) : option string :=
  match best with
  | None => Some pat
  | Some b => Some (if more_literal (segments pat) (segments b) then pat else b)
  end.
(** The pattern that a path selects. *)
Definition select (path : string) : option string :=
  foldl prefer None
    (List.filter (λ pat, matches (segments pat) (segments path)) ((λ r, r.1.2) <$> app)).
(** The segments of the path in the place of the parameters. *)
Fixpoint params (pat path : list string) : list string :=
  match pat, path with
  | p :: ps, s :: ss => if is_param p then s :: params ps ss else params ps ss
  | _, _ => []
  end.
(** A [GET] route also serves [HEAD]. *)
Definition serves (route asked : http_method) : bool :=
  bool_decide (route = asked) || bool_decide (route = MGet) && bool_decide (asked = MHead).
Definition handler_of (m : http_method) (pat : string) : option endpoint :=
  (λ r, r.2) <$> List.find (λ r, bool_decide (r.1.2 = pat) && serves r.1.1 m) app.

(** ** Response headers *)

(** [SetResponseHeaderLayer::if_not_present]. *)
Definition if_not_present (name value : string) (headers : list (string * string)) :
    list (string * string) :=
  if existsb (λ h, bool_decide (h.1 = name)) headers then headers else headers ++ [(name, value)].
(** The three layers around every route. *)
Definition response_headers (headers : list (string * string)) : list (string * string) :=
  if_not_present "cache-control" "no-store"
    (if_not_present "x-frame-options" "DENY"
      (if_not_present "x-content-type-options" "nosniff" headers)).

(** ** Requests *)

Inductive outcome :=
| NoRoute
| MethodNotAllowed
| Refused (code : Z) (msg : string)
| Reached (ep : endpoint) (token : option TokenData).

Section Dispatch.
Context {K : Type} `{JwtCrates K, Serde JwksResponse}.
Abbreviation Cache := (option (JwksCache K)).

Record request := mkRequest {
  rq_method : http_method; rq_path : string; rq_header : option string; rq_env : AuthEnv }.
Definition dispatch (audience : string) (enclave : Jwk) (q : request) (cache : Cache) :
    outcome * Cache :=
  match select (rq_path q) with
  | None => (NoRoute, cache)
  | Some pat =>
      match handler_of (rq_method q) pat with
      | None => (MethodNotAllowed, cache)
      | Some ep =>
          match guard_of ep with
          | None => (Reached ep None, cache)
          | Some role =>
              match require_role role (rq_env q) audience enclave (rq_header q) cache with
              | (Ok token, cache') => (Reached ep (Some token), cache')
              | (Err (code, msg), cache') => (Refused code msg, cache')
              end
          end
      end
  end.
Definition served (audience : string) (enclave : Jwk) (qs : list request) : Cache :=
  foldl (λ c q, (dispatch audience enclave q c).2) None qs.
End Dispatch.
Arguments dispatch {K _ _} _ _ _ _.

(** ** Facts *)

(** No two routes share a path and a method, and every route is reached by its
    own path with plain parameters. *)
Definition route_path (pat : string) : string :=
  String.concat "/" ("" :: ((λ s, if is_param s then "x" else s) <$> segments pat)).
Definition reached (r : http_method * string * endpoint) : bool :=
  bool_decide (select (route_path r.1.2) = Some r.1.2) &&
  bool_decide (handler_of r.1.1 r.1.2 = Some r.2).
Lemma routes_reached : forallb reached app = true.
Proof. vm_compute. reflexivity. Qed.
(** The literal paths below [/v1/drt/pools] are not taken for an address. *)
Lemma literal_first :
  select "/v1/drt/pools/list" = Some "/v1/drt/pools/list" ∧
  select "/v1/drt/pools/by-wallet/w1" = Some "/v1/drt/pools/by-wallet/{wallet_id}" ∧
  select "/v1/drt/pools/9xQe" = Some "/v1/drt/pools/{pool_pda}".
Proof. vm_compute. done. Qed.

Lemma if_not_present_spec name value headers :
  (∃ v, (name, v) ∈ if_not_present name value headers) ∧
  headers ⊆ if_not_present name value headers ∧
  ((∀ v, (name, v) ∉ headers) → (name, value) ∈ if_not_present name value headers).
Proof.
  unfold if_not_present. destruct (existsb _ headers) eqn:He.
  - apply existsb_exists in He as ([n v] & Hin%list_elem_of_In & Hn%bool_decide_eq_true). simpl in Hn.
    subst n. split; [by exists v|]. split; [done|]. intros Hno. by destruct (Hno v).
  - split; [exists value; set_solver|]. split; set_solver.
Qed.
(** No response is cached, framed or sniffed, unless a handler says otherwise,
    and what a handler sets is kept. *)
Lemma response_headers_spec headers :
  headers ⊆ response_headers headers ∧
  ∀ name value, (name, value) ∈ [("x-content-type-options", "nosniff"); ("x-frame-options", "DENY");
                                 ("cache-control", "no-store")] →
    (∃ v, (name, v) ∈ response_headers headers) ∧
    ((∀ v, (name, v) ∉ headers) → (name, value) ∈ response_headers headers).
Proof.
  unfold response_headers.
  destruct (if_not_present_spec "x-content-type-options" "nosniff" headers) as ([v1 He1] & Hs1 & Hd1).
  set (h1 := if_not_present "x-content-type-options" "nosniff" headers) in *.
  destruct (if_not_present_spec "x-frame-options" "DENY" h1) as ([v2 He2] & Hs2 & Hd2).
  assert (Hf : ∀ n v, (n, v) ∈ h1 → (n, v) ∈ headers ∨ n = "x-content-type-options").
  { intros n v. unfold h1, if_not_present. destruct (existsb _ headers); [by left|]. set_solver. }
  set (h2 := if_not_present "x-frame-options" "DENY" h1) in *.
  assert (Hg : ∀ n v, (n, v) ∈ h2 → (n, v) ∈ h1 ∨ n = "x-frame-options").
  { intros n v. unfold h2, if_not_present. destruct (existsb _ h1); [by left|]. set_solver. }
  destruct (if_not_present_spec "cache-control" "no-store" h2) as ([v3 He3] & Hs3 & Hd3).
  split; [set_solver|]. intros name value Hin.
  apply elem_of_cons in Hin as [Hn|Hin]; [|apply elem_of_cons in Hin as [Hn|Hin%list_elem_of_singleton]];
    simplify_eq; (split; [eexists; eauto|intros Hno]); auto.
  - apply Hs3, Hd2. intros v [Hv|Hv]%Hf; [by eapply Hno|done].
  - apply Hd3. intros v [[Hv|Hv]%Hf|Hv]%Hg; [by eapply Hno|done|done].
Qed.

(** The requests that change wallets, pools, rights or funds. *)
Definition manages_pools (ep : endpoint) : bool :=
  bool_decide (ep ∈ [CreateMaltaPool; CreateIobErpPool; GrantRight; RevokeGrant; UploadSchema;
                     InitializePool; IssueCredentials; RevokeCredentials; SuspendWallet;
                     ActivateWallet; LogRoleChange]).
Definition moves_own (ep : endpoint) : bool :=
  bool_decide (ep ∈ [CreateWallet; DeleteWallet; SendTransaction]).
Definition open_endpoint (ep : endpoint) : bool :=
  bool_decide (ep ∈ [Health; Liveness; Readiness; GetPublicKey; OpenapiJson]).
Lemma guards_sound ep :
  (guard_of ep = None → open_endpoint ep = true) ∧
  (manages_pools ep = true → guard_of ep = Some "admin") ∧
  (moves_own ep = true → guard_of ep = Some "user").
Proof. destruct ep; vm_compute; split_and!; intros; congruence. Qed.

Section Gate.
Context {K : Type} `{JwtLaws K, Serde JwksResponse}.
Abbreviation Cache := (option (JwksCache K)).

(** [td] comes from an authentic token of the request with at least the role. *)
Definition authentic (audience : string) (enclave : Jwk) (envs : list AuthEnv) (q : request)
    (td : TokenData) (required : string) : Prop :=
  ∃ token (keys : list (string * K)), rq_header q = Some ("Bearer " +:+ token) ∧
    recent_keys envs (rq_env q) keys ∧ token_valid keys (rq_env q) audience enclave token td ∧
    at_least (role td) required.

Lemma dispatch_spec audience enclave q (cache : Cache) envs :
  cache_from envs cache →
  let '(o, cache') := dispatch audience enclave q cache in
  cache_from (rq_env q :: envs) cache' ∧
  match o with
  | Reached ep tok =>
      (∃ pat, select (rq_path q) = Some pat ∧ handler_of (rq_method q) pat = Some ep) ∧
      match guard_of ep with
      | None => tok = None
      | Some r => ∃ td, tok = Some td ∧ authentic audience enclave envs q td r
      end
  | Refused code _ => code = 401 ∨ code = 403
  | _ => True
  end.
Proof.
  intros Hc. unfold dispatch.
  assert (Hold : cache_from (rq_env q :: envs) cache).
  { intros c Hcc. destruct (Hc c Hcc) as (ae0 & Hin & Hrest). exists ae0. set_solver. }
  destruct (select (rq_path q)) as [pat|] eqn:Hs; [|done].
  destruct (handler_of (rq_method q) pat) as [ep|] eqn:Hh; [|done].
  destruct (guard_of ep) as [r|] eqn:Hg; [|rewrite Hg; by eauto].
  pose proof (require_role_spec r (rq_env q) audience enclave (rq_header q) cache envs Hc) as Hr.
  destruct (require_role r (rq_env q) audience enclave (rq_header q) cache) as [[td|[code msg]] c'];
    destruct Hr as [Hc' Hr]; (split; [done|]).
  - rewrite Hg. split; [by eauto|]. exists td. split; [done|]. exact Hr.
  - destruct Hr as [?|[? _]]; auto.
Qed.
Lemma served_cache audience enclave qs (cache : Cache) envs :
  cache_from envs cache →
  cache_from (reverse (rq_env <$> qs) ++ envs)
    (foldl (λ c q, (dispatch audience enclave q c).2) cache qs).
Proof.
  revert cache envs. induction qs as [|q qs IH]; intros cache envs Hc; [done|].
  cbn [foldl fmap list_fmap]. rewrite reverse_cons, <-app_assoc. apply IH.
  pose proof (dispatch_spec audience enclave q cache envs Hc) as Hd.
  destruct (dispatch audience enclave q cache). by destruct Hd.
Qed.

(** C9: no request reaches a guarded handler without its token.  After any
    history of requests, a request that reaches a handler was routed there by its
    path and method; only the health, public key and API description handlers are
    open; any other one was given the data of an authentic, current token bound
    to this enclave with at least the role of the handler's signature - the admin
    role for everything that manages pools, rights or other users' wallets, the
    user role for one's own wallet and funds.  A refusal is 401 or 403. *)
Theorem handlers_gated (audience : string) (enclave : Jwk) (qs : list request) (q : request) :
  let envs := reverse (rq_env <$> qs) in
  match (dispatch (K := K) audience enclave q (served audience enclave qs)).1 with
  | Reached ep tok =>
      (∃ pat, select (rq_path q) = Some pat ∧ handler_of (rq_method q) pat = Some ep) ∧
      (tok = None → open_endpoint ep = true) ∧
      (∀ td, tok = Some td → ∃ r, guard_of ep = Some r ∧ authentic audience enclave envs q td r) ∧
      (manages_pools ep = true → ∃ td, tok = Some td ∧ authentic audience enclave envs q td "admin") ∧
      (moves_own ep = true → ∃ td, tok = Some td ∧ authentic audience enclave envs q td "user")
  | Refused code _ => code = 401 ∨ code = 403
  | _ => True
  end.
Proof.
  intros envs. assert (Hc : cache_from envs (served audience enclave qs : Cache)).
  { unfold envs. rewrite <-(app_nil_r (reverse _)). by apply served_cache. }
  pose proof (dispatch_spec audience enclave q _ envs Hc) as Hd.
  destruct (dispatch audience enclave q (served audience enclave qs)) as [[| |code msg|ep tok] c'];
    destruct Hd as [_ Hd]; simpl; try done. destruct Hd as [Hroute Hd].
  destruct (guards_sound ep) as (Hopen & Hpools & Hown). split_and!; [done|..].
  - intros ->. destruct (guard_of ep); [|by apply Hopen]. by destruct Hd as (td & ? & _).
  - intros td ->. destruct (guard_of ep) as [r|]; [|done]. exists r. split; [done|].
    destruct Hd as (td' & [= ->] & Ha). done.
  - intros Hm. by rewrite (Hpools Hm) in Hd.
  - intros Hm. by rewrite (Hown Hm) in Hd.
Qed.
End Gate.

(** ** Examples *)

Definition send_request (header : option string) : request :=
  mkRequest MPost "/v1/wallets/w1/send" header auth_env0.
Lemma handlers_gated_witness :
  (dispatch "relational-sdk" enclave0 (send_request None) (None : option (JwksCache string))).1 =
    Refused 401 "missing authorization header" ∧
  ∃ td, (dispatch (K := string) "relational-sdk" enclave0 (send_request (Some "Bearer token")) None).1 =
      Reached SendTransaction (Some td) ∧
    authentic (K := string) "relational-sdk" enclave0 [] (send_request (Some "Bearer token")) td "user".
Proof.
  split; [vm_compute; reflexivity|].
  pose proof (handlers_gated (K := string) "relational-sdk" enclave0 []
    (send_request (Some "Bearer token"))) as Hg.
  assert (Hd : (dispatch (K := string) "relational-sdk" enclave0 (send_request (Some "Bearer token")) None).1 =
    Reached SendTransaction (Some (mkTokenData "alice" "user"))) by (vm_compute; reflexivity).
  exists (mkTokenData "alice" "user"). split; [exact Hd|]. cbn [served foldl] in Hg. rewrite Hd in Hg.
  destruct Hg as (_ & _ & _ & _ & Hown). destruct (Hown eq_refl) as (td & [= <-] & Ha). exact Ha.
Defined.
