(* ===== verification/ApiDocs.v ===== *)
(** * The API document

    The OpenAPI document that src/src/main.rs serves: the operation that the
    [utoipa::path] attribute of each handler describes (its method, path, tag,
    security, path parameters and the statuses of its responses; the prose, query
    parameters and schemas are left out), the handlers that [ApiDoc] lists and the
    security scheme that [SecurityAddon] adds.  The document is compared with what
    the router does. *)
From S2P Require Import Prelude.
From S2P Require Import RustStr.
From S2P Require Import RustFmt.
From S2P Require Import Errors.
From S2P Require Import Interfaces.
From S2P Require Import Instances.
From S2P Require Import AppState.
From S2P Require Import Http.
From S2P Require Import Auth.
From S2P Require Import AuthFacts.
From S2P Require Import Router.

Local Open Scope Z_scope.

Record operation := mkOperation {
  op_method : http_method; op_path : string; op_tag : string; op_security : list string;
  op_params : list string; op_statuses : list Z }.

(** ** The attributes *)

(** src/src/health.rs *)
Definition doc_health : operation :=
  mkOperation MGet "/health" "Health" []
    [] [200; 503].
Definition doc_liveness : operation :=
  mkOperation MGet "/health/live" "Health" []
    [] [200].
Definition doc_readiness : operation :=
  mkOperation MGet "/health/ready" "Health" []
    [] [200; 503].
(** src/src/handlers.rs *)
Definition doc_get_public_key : operation :=
  mkOperation MGet "/v1/attestation/public-key" "Attestation" []
    [] [200].
Definition doc_admin_status : operation :=
  mkOperation MGet "/v1/admin/status" "Admin" ["bearer_auth"]
    [] [200; 401; 403].
Definition doc_data_query : operation :=
  mkOperation MPost "/v1/data/query" "Data" ["bearer_auth"]
    [] [200; 400; 401; 403; 404].
(** src/src/api/users.rs *)
Definition doc_get_me : operation :=
  mkOperation MGet "/v1/users/me" "Users" ["bearer_auth"]
    [] [200; 401].
(** src/src/api/wallets.rs *)
Definition doc_create_wallet : operation :=
  mkOperation MPost "/v1/wallets" "Wallets" ["bearer_auth"]
    [] [201; 400; 401; 503].
Definition doc_list_wallets : operation :=
  mkOperation MGet "/v1/wallets" "Wallets" ["bearer_auth"]
    [] [200; 401].
Definition doc_get_wallet : operation :=
  mkOperation MGet "/v1/wallets/{wallet_id}" "Wallets" ["bearer_auth"]
    ["wallet_id"] [200; 401; 403; 404].
Definition doc_delete_wallet : operation :=
  mkOperation MDelete "/v1/wallets/{wallet_id}" "Wallets" ["bearer_auth"]
    ["wallet_id"] [200; 401; 403; 404].
(** src/src/api/balance.rs *)
Definition doc_get_balance : operation :=
  mkOperation MGet "/v1/wallets/{wallet_id}/balance" "Balance" ["bearer_auth"]
    ["wallet_id"] [200; 401; 403; 404; 503].
(** src/src/api/transactions.rs *)
Definition doc_estimate_fee : operation :=
  mkOperation MPost "/v1/wallets/{wallet_id}/estimate" "Transactions" ["bearer_auth"]
    ["wallet_id"] [200; 401; 403; 404; 422; 503].
Definition doc_send_transaction : operation :=
  mkOperation MPost "/v1/wallets/{wallet_id}/send" "Transactions" ["bearer_auth"]
    ["wallet_id"] [200; 401; 403; 404; 422; 503].
Definition doc_list_transactions : operation :=
  mkOperation MGet "/v1/wallets/{wallet_id}/transactions" "Transactions" ["bearer_auth"]
    ["wallet_id"] [200; 401; 403; 404].
Definition doc_get_transaction_status : operation :=
  mkOperation MGet "/v1/wallets/{wallet_id}/transactions/{signature}" "Transactions" ["bearer_auth"]
    ["wallet_id"; "signature"] [200; 401; 403; 404].
(** src/src/api/admin.rs *)
Definition doc_get_wallet_stats : operation :=
  mkOperation MGet "/v1/admin/wallet-stats" "Admin" ["bearer_auth"]
    [] [200; 401; 403].
Definition doc_list_all_wallets : operation :=
  mkOperation MGet "/v1/admin/wallets" "Admin" ["bearer_auth"]
    [] [200; 401; 403].
Definition doc_query_audit_logs : operation :=
  mkOperation MGet "/v1/admin/audit/events" "Admin" ["bearer_auth"]
    [] [200; 401; 403].
Definition doc_suspend_wallet : operation :=
  mkOperation MPost "/v1/admin/wallets/{wallet_id}/suspend" "Admin" ["bearer_auth"]
    ["wallet_id"] [200; 401; 403; 404].
Definition doc_activate_wallet : operation :=
  mkOperation MPost "/v1/admin/wallets/{wallet_id}/activate" "Admin" ["bearer_auth"]
    ["wallet_id"] [200; 401; 403; 404].
Definition doc_log_role_change : operation :=
  mkOperation MPost "/v1/admin/log-role-change" "Admin" ["bearer_auth"]
    [] [200; 401; 403].
Definition doc_grant_right : operation :=
  mkOperation MPost "/v1/drt/pools/{pool_pda}/grant" "Admin" ["bearer_auth"]
    ["pool_pda"] [200; 400; 401; 403; 404; 503].
Definition doc_get_grant_status : operation :=
  mkOperation MGet "/v1/drt/pools/{pool_pda}/grant/{analyst_id}/{drt_name}" "Admin" ["bearer_auth"]
    ["pool_pda"; "analyst_id"; "drt_name"] [200; 401; 404; 503].
Definition doc_revoke_grant : operation :=
  mkOperation MPost "/v1/drt/pools/{pool_pda}/revoke-grant" "Admin" ["bearer_auth"]
    ["pool_pda"] [200; 400; 401; 403; 404; 503].
Definition doc_list_pool_grants : operation :=
  mkOperation MGet "/v1/drt/pools/{pool_pda}/grants" "drt" []
    ["pool_pda"] [200; 401; 403; 404].
Definition doc_list_my_grants : operation :=
  mkOperation MGet "/v1/drt/me/grants" "drt" []
    [] [200; 401].
(** src/src/api/pools.rs *)
Definition doc_create_malta_pool : operation :=
  mkOperation MPost "/v1/drt/pools/malta" "DRT Pools" ["bearer_auth"]
    [] [201; 400; 401; 403; 503].
Definition doc_create_iob_erp_pool : operation :=
  mkOperation MPost "/v1/drt/pools/iob-erp" "DRT Pools" ["bearer_auth"]
    [] [201; 400; 401; 403; 503].
Definition doc_get_pool : operation :=
  mkOperation MGet "/v1/drt/pools/{pool_pda}" "DRT Pools" ["bearer_auth"]
    ["pool_pda"] [200; 401; 404; 503].
Definition doc_get_drt : operation :=
  mkOperation MGet "/v1/drt/pools/{pool_pda}/drt/{drt_name}" "DRT Pools" ["bearer_auth"]
    ["pool_pda"; "drt_name"] [200; 401; 404; 503].
Definition doc_get_tx_events : operation :=
  mkOperation MGet "/v1/drt/events/{signature}" "DRT Pools" ["bearer_auth"]
    ["signature"] [200; 401; 404; 503].
(** src/src/api/credentials.rs *)
Definition doc_upload_schema : operation :=
  mkOperation MPost "/v1/drt/pools/{pool_pda}/schema" "Credentials" ["bearer_auth"]
    ["pool_pda"] [200; 400; 401; 403; 404].
Definition doc_get_schema : operation :=
  mkOperation MGet "/v1/drt/pools/{pool_pda}/schema" "Credentials" ["bearer_auth"]
    ["pool_pda"] [200; 401; 404].
Definition doc_initialize_pool : operation :=
  mkOperation MPost "/v1/drt/pools/{pool_pda}/initialize" "Credentials" ["bearer_auth"]
    ["pool_pda"] [200; 400; 401; 403; 404].
Definition doc_issue_credentials : operation :=
  mkOperation MPost "/v1/drt/pools/{pool_pda}/issue" "Credentials" ["bearer_auth"]
    ["pool_pda"] [200; 400; 401; 404; 503].
Definition doc_revoke_credentials : operation :=
  mkOperation MPost "/v1/drt/pools/{pool_pda}/revoke" "Credentials" ["bearer_auth"]
    ["pool_pda"] [200; 400; 401; 403; 404].
Definition doc_list_revocations : operation :=
  mkOperation MGet "/v1/drt/pools/{pool_pda}/revocations" "Credentials" ["bearer_auth"]
    ["pool_pda"] [200; 401; 404].
Definition doc_pool_audit : operation :=
  mkOperation MGet "/v1/drt/pools/{pool_pda}/audit" "Credentials" ["bearer_auth"]
    ["pool_pda"] [200; 401; 404].
Definition doc_pool_summary : operation :=
  mkOperation MGet "/v1/drt/pools/{pool_pda}/summary" "Credentials" ["bearer_auth"]
    ["pool_pda"] [200; 401; 404].
Definition doc_list_pools_by_wallet : operation :=
  mkOperation MGet "/v1/drt/pools/by-wallet/{wallet_id}" "Credentials" ["bearer_auth"]
    ["wallet_id"] [200; 401; 403].
Definition doc_list_all_pools : operation :=
  mkOperation MGet "/v1/drt/pools/list" "Credentials" ["bearer_auth"]
    [] [200; 401].
Definition doc_get_issuance_log : operation :=
  mkOperation MGet "/v1/drt/pools/{pool_pda}/issuance-log" "Credentials" ["bearer_auth"]
    ["pool_pda"] [200; 401; 404].
Definition annotation (ep : endpoint) : option operation :=
  match ep with
  | Health => Some doc_health
  | Liveness => Some doc_liveness
  | Readiness => Some doc_readiness
  | GetPublicKey => Some doc_get_public_key
  | AdminStatus => Some doc_admin_status
  | DataQuery => Some doc_data_query
  | GetMe => Some doc_get_me
  | CreateWallet => Some doc_create_wallet
  | ListWallets => Some doc_list_wallets
  | GetWallet => Some doc_get_wallet
  | DeleteWallet => Some doc_delete_wallet
  | GetBalance => Some doc_get_balance
  | EstimateFee => Some doc_estimate_fee
  | SendTransaction => Some doc_send_transaction
  | ListTransactions => Some doc_list_transactions
  | GetTransactionStatus => Some doc_get_transaction_status
  | GetWalletStats => Some doc_get_wallet_stats
  | ListAllWallets => Some doc_list_all_wallets
  | QueryAuditLogs => Some doc_query_audit_logs
  | SuspendWallet => Some doc_suspend_wallet
  | ActivateWallet => Some doc_activate_wallet
  | LogRoleChange => Some doc_log_role_change
  | GrantRight => Some doc_grant_right
  | GetGrantStatus => Some doc_get_grant_status
  | RevokeGrant => Some doc_revoke_grant
  | ListPoolGrants => Some doc_list_pool_grants
  | ListMyGrants => Some doc_list_my_grants
  | CreateMaltaPool => Some doc_create_malta_pool
  | CreateIobErpPool => Some doc_create_iob_erp_pool
  | GetPool => Some doc_get_pool
  | GetDrt => Some doc_get_drt
  | GetTxEvents => Some doc_get_tx_events
  | UploadSchema => Some doc_upload_schema
  | GetSchema => Some doc_get_schema
  | InitializePool => Some doc_initialize_pool
  | IssueCredentials => Some doc_issue_credentials
  | RevokeCredentials => Some doc_revoke_credentials
  | ListRevocations => Some doc_list_revocations
  | PoolAudit => Some doc_pool_audit
  | PoolSummary => Some doc_pool_summary
  | ListPoolsByWallet => Some doc_list_pools_by_wallet
  | ListAllPools => Some doc_list_all_pools
  | GetIssuanceLog => Some doc_get_issuance_log
  | OpenapiJson => None
  end.

(** ** The document *)

Definition api_paths : list endpoint :=   [Health; Liveness; Readiness; GetPublicKey; AdminStatus;
   DataQuery; GetMe; CreateWallet; ListWallets; GetWallet; DeleteWallet; GetBalance; EstimateFee;
   SendTransaction; ListTransactions; GetTransactionStatus; GetWalletStats; ListAllWallets;
   QueryAuditLogs; SuspendWallet; ActivateWallet; CreateMaltaPool; CreateIobErpPool; GetPool;
   GetTxEvents; GetDrt; GrantRight; RevokeGrant; GetGrantStatus; ListPoolGrants; ListMyGrants;
   UploadSchema; GetSchema; InitializePool; IssueCredentials; RevokeCredentials; ListRevocations;
   PoolAudit; PoolSummary; GetIssuanceLog; ListPoolsByWallet; ListAllPools].
(** [SecurityAddon::modify]. *)
Definition security_schemes : list string := ["bearer_auth"].
(** [ApiDoc::openapi]: the operations of the listed handlers. *)
Definition api_document : list (endpoint * operation) :=
  filter_map (λ ep, op ← annotation ep; Some (ep, op)) api_paths.

Definition openapi_json : list (endpoint * operation) := api_document.

(** ** Facts *)

(** The parameters of a path, without their braces. *)
Definition param_name (seg : string) : string := String.substring 1 (String.length seg - 2) seg.
Definition path_params (path : string) : list string := param_name <$> List.filter is_param (segments path).
(** The handlers whose attribute has no security although they take a token, and
    those that can answer 403 without saying so. *)
Definition unsecured_docs : list endpoint := [ListPoolGrants; ListMyGrants].
Definition silent_403 : list endpoint :=
  [GetMe; CreateWallet; ListWallets; GetPool; GetTxEvents; GetDrt; GetGrantStatus; ListMyGrants;
   GetSchema; IssueCredentials; ListRevocations; PoolAudit; PoolSummary; GetIssuanceLog; ListAllPools].
Definition operation_agrees (e : endpoint * operation) : bool :=
  let '(ep, op) := e in
  bool_decide (handler_of (op_method op) (op_path op) = Some ep) &&
  bool_decide (select (route_path (op_path op)) = Some (op_path op)) &&
  bool_decide (op_params op = path_params (op_path op)) &&
  (if bool_decide (ep ∈ unsecured_docs) then bool_decide (op_security op = [])
   else bool_decide (op_security op = match guard_of ep with Some _ => security_schemes | None => [] end)) &&
  (bool_decide (guard_of ep = None) ||
   bool_decide (401 ∈ op_statuses op) &&
   bool_decide (ep ∈ silent_403 ↔ 403 ∉ op_statuses op)).
Lemma operations_agree : forallb operation_agrees api_document = true.
Proof. vm_compute. reflexivity. Qed.
Lemma operation_agree ep op : (ep, op) ∈ api_document → operation_agrees (ep, op) = true.
Proof.
  intros Hin%list_elem_of_In. pose proof operations_agree as Ha. rewrite forallb_forall in Ha. auto.
Qed.
Definition all_endpoints : list endpoint := (λ r, r.2) <$> app.
(** Every handler of the router but two has an operation in the document. *)
Lemma documented_endpoints :
  forallb (λ ep, Bool.eqb (bool_decide (ep ∈ fst <$> api_document))
                     (bool_decide (ep ∉ [LogRoleChange; OpenapiJson]))) all_endpoints = true.
Proof. vm_compute. reflexivity. Qed.
Lemma endpoint_routed ep : ep ∈ all_endpoints.
Proof. apply (bool_decide_eq_true_1 (ep ∈ all_endpoints)). by destruct ep; vm_compute. Qed.

Section Documented.
Context {K : Type} `{JwtCrates K, Serde JwksResponse}.
Abbreviation Cache := (option (JwksCache K)).

Lemma unauthenticated_code ae audience enclave header (cache : Cache) code msg cache' :
  from_request_parts ae audience enclave header cache = (Err (code, msg), cache') → code = 401.
Proof.
  unfold from_request_parts. rewrite act_bind_lift. destruct header as [h|]; cbn [ok_or];
    [|by intros [= <- _ _]].
  rewrite act_bind_lift. destruct (strip_prefix _ h) as [tk|]; cbn [ok_or]; [|by intros [= <- _ _]].
  unfold act_map_err. destruct (validate_token ae audience enclave tk cache) as [[]]; [done|].
  by intros [= <- _ _].
Qed.
Lemma require_role_codes role ae audience enclave header (cache : Cache) code msg cache' :
  require_role role ae audience enclave header cache = (Err (code, msg), cache') →
  code = 401 ∨ code = 403.
Proof.
  unfold require_role. rewrite act_bind_eq.
  destruct (from_request_parts ae audience enclave header cache) as [[token|[c m]] cache1] eqn:Hr;
    cbn [fst snd].
  - rewrite act_bind_lift. unfold reject_if. destruct (negb _); [|done]. intros [= <- _ _]. by right.
  - intros [= <- _ _]. left. by eapply unauthenticated_code.
Qed.

(** C27: the API document describes the router.  A request with the method of a
    documented operation and a path that selects the path of the operation
    reaches the documented handler, with a token exactly when the handler demands
    one, or is refused with 401 or 403 as documented; the operations that can
    answer 403 without saying so, those that take a token without declaring it
    and the handlers without an operation are exactly the listed ones. *)
Theorem api_document_describes_router (audience : string) (enclave : Jwk) (q : request) (cache : Cache)
    (ep : endpoint) (op : operation) (Hdoc : (ep, op) ∈ api_document)
    (Hm : rq_method q = op_method op) (Hp : select (rq_path q) = Some (op_path op)) :
  match (dispatch audience enclave q cache).1 with
  | Reached ep' token => ep' = ep ∧ (is_Some token ↔ is_Some (guard_of ep))
  | Refused code _ => is_Some (guard_of ep) ∧ (code ∈ op_statuses op ∨ code = 403 ∧ ep ∈ silent_403)
  | NoRoute | MethodNotAllowed => False
  end ∧
  op_params op = path_params (op_path op) ∧
  (ep ∉ unsecured_docs → op_security op = match guard_of ep with Some _ => security_schemes | None => [] end) ∧
  ∀ ep', (∃ op', (ep', op') ∈ api_document) ↔ ep' ∉ [LogRoleChange; OpenapiJson].
Proof.
  pose proof (operation_agree ep op Hdoc) as Ha. unfold operation_agrees in Ha. rewrite !andb_true_iff in Ha.
  destruct Ha as [[[[Hh%bool_decide_eq_true _] Hpar%bool_decide_eq_true] Hsec] Hst].
  split; [|split; [done|split]].
  - unfold dispatch. rewrite Hp, Hm, Hh. destruct (guard_of ep) as [role|] eqn:Hg; [|by split; [|split; intros []]].
    destruct (require_role _ _ _ _ _ cache) as [[token|[code msg]] cache'] eqn:Hr; [by eauto|].
    split; [done|]. cbn [orb] in Hst. rewrite bool_decide_eq_false_2 in Hst by done.
    apply andb_true_iff in Hst as [H401%bool_decide_eq_true H403%bool_decide_eq_true].
    apply require_role_codes in Hr as [->| ->]; [by left|].
    destruct (decide (403 ∈ op_statuses op)); [by left|]. right. split; [done|]. by apply H403.
  - intros Hu. rewrite bool_decide_eq_false_2 in Hsec by done. by apply bool_decide_eq_true in Hsec.
  - intros ep'. pose proof documented_endpoints as Hd. rewrite forallb_forall in Hd.
    specialize (Hd ep' (proj1 (list_elem_of_In _ _) (endpoint_routed ep'))).
    apply Bool.eqb_prop in Hd. split.
    + intros [op' Hin]. apply (bool_decide_eq_true_1 (_ ∉ _)). rewrite <-Hd.
      apply bool_decide_eq_true_2, list_elem_of_fmap. by exists (ep', op').
    + intros Hn. assert (He : ep' ∈ fst <$> api_document).
      { apply (bool_decide_eq_true_1 (_ ∈ _)). rewrite Hd. by apply bool_decide_eq_true_2. }
      apply list_elem_of_fmap in He as ([ep2 op'] & -> & Hin). by exists op'.
Qed.
End Documented.

Lemma api_document_describes_router_witness :
  (SendTransaction, doc_send_transaction) ∈ api_document ∧
  (dispatch (K := string) "relational-sdk" enclave0 (send_request None) None).1 =
    Refused 401 "missing authorization header" ∧ 401 ∈ op_statuses doc_send_transaction.
Proof.
  assert (Hin : (SendTransaction, doc_send_transaction) ∈ api_document).
  { apply list_elem_of_In. vm_compute. tauto. }
  assert (Hs : select "/v1/wallets/w1/send" = Some (op_path doc_send_transaction)) by (vm_compute; reflexivity).
  pose proof (api_document_describes_router (K := string) "relational-sdk" enclave0 (send_request None) None
    SendTransaction doc_send_transaction Hin eq_refl Hs) as [Hd _].
  assert (Hr : (dispatch (K := string) "relational-sdk" enclave0 (send_request None) None).1 =
    Refused 401 "missing authorization header") by (vm_compute; reflexivity).
  split; [exact Hin|]. split; [exact Hr|]. rewrite Hr in Hd. destruct Hd as [_ [Hd|[Hd _]]]; [exact Hd|discriminate Hd].
Defined.
