(* ===== verification/Footprint.v ===== *)
(** * Footprints

    Which kinds of files and which tables an action may change, on success and on
    failure, and the footprint of every handler under src/src/api and of
    src/src/handlers.rs.  The kind of a file is read off the end of its path, so
    that it does not depend on the identifiers in it. *)
From S2P Require Import Prelude.
From S2P Require Import RustStr.
From S2P Require Import RustFmt.
From S2P Require Import Errors.
From S2P Require Import Types.
From S2P Require Import Interfaces.
From S2P Require Import TxDatabase.
From S2P Require Import TxScans.
From S2P Require Import Text.
From S2P Require Import Storage.
From S2P Require Import TxCache.
From S2P Require Import AppState.
From S2P Require Import Wallets.
From S2P Require Import DataValidation.
From S2P Require Import Http.
From S2P Require Import VerifiedFetch.
From S2P Require Import FetchFacts.
From S2P Require Import Runtime.
From S2P Require Import Query.
From S2P Require Import DrtProgram.
From S2P Require Import Chain.
From S2P Require Import ChainFacts.
From S2P Require Import PoolFacts.
From S2P Require Import GrantApi.
From S2P Require Import PoolApi.
From S2P Require Import Upload.
From S2P Require Import Credentials.
From S2P Require Import PoolViews.
From S2P Require Import SolanaRpc.
From S2P Require Import Indexer.
From S2P Require Import IndexerFacts.
From S2P Require Import Transfers.
From S2P Require Import Auth.
From S2P Require Import Router.

Local Open Scope Z_scope.
#[local] Arguments String.append : simpl nomatch.

(** ** Kinds of files *)

Inductive FileKind :=
| WalletMeta | WalletKeypair | PoolMeta | PoolSchema | PoolRevocations | PoolDataset | AuditFile | Compiled.
#[export] Instance file_kind_eq_dec : EqDecision FileKind.
Proof. solve_decision. Defined.

Fixpoint ends_with (suf s : string) : bool :=
  bool_decide (s = suf) || match s with String _ s' => ends_with suf s' | EmptyString => false end.
Definition base_name (p : string) : string := rsplit_next "/" p.
Definition in_audit (p : string) : bool := starts_with (DATA_DIR +:+ "/audit/") p.
(** Temporary files and the cache of fetched scripts have no kind. *)
Definition file_kind (p : string) : option FileKind :=
  let b := base_name p in
  if bool_decide (b = "meta.json") then Some WalletMeta
  else if bool_decide (b = "keypair.json") then Some WalletKeypair
  else if bool_decide (b = "pool.meta.json") then Some PoolMeta
  else if bool_decide (b = "schema.json") then Some PoolSchema
  else if ends_with ".csv" b then Some PoolDataset
  else if ends_with ".cwasm" b then Some Compiled
  else if in_audit p then Some AuditFile
  else if bool_decide (b = "revocations.jsonl") then Some PoolRevocations
  else None.

Lemma ends_with_app suf x : ends_with suf (x +:+ suf) = true.
Proof.
  induction x as [|c x IH]; [destruct suf; cbn; by rewrite bool_decide_eq_true_2|].
  change (String c x +:+ suf) with (String c (x +:+ suf)). cbn [ends_with]. rewrite IH. apply orb_true_r.
Qed.
Lemma ends_with_spec suf s : ends_with suf s = true ↔ ∃ x, s = x +:+ suf.
Proof.
  split; [|by intros [x ->]; apply ends_with_app].
  induction s as [|c s IH]; cbn [ends_with]; rewrite orb_true_iff, bool_decide_eq_true.
  - intros [<-|?]; [by exists ""|done].
  - intros [<-|Hs]; [by exists ""|]. destruct (IH Hs) as [x ->]. by exists (String c x).
Qed.
(** Two suffixes of one string: the shorter one ends the longer one. *)
Lemma ends_with_len suf a b : ends_with suf (a +:+ b) = true → (String.length suf ≤ String.length b)%nat →
  ends_with suf b = true.
Proof.
  intros Hs Hl. induction a as [|c a IH]; [done|]. apply IH.
  change (String c a +:+ b) with (String c (a +:+ b)) in Hs. cbn [ends_with] in Hs.
  apply orb_true_iff in Hs as [He%bool_decide_eq_true|]; [|done]. exfalso. subst suf.
  cbn [String.length] in Hl. rewrite length_append in Hl. lia.
Qed.

Lemma base_of_suffix x s : no_char "/" s = true → ∃ y, base_name (x +:+ s) = y +:+ s ∧ no_char "/" (y +:+ s) = true.
Proof.
  intros Hs. unfold base_name, rsplit_next. destruct (rsplit_once "/" (x +:+ s)) as [[a b]|] eqn:Hr.
  - revert a b Hr. induction x as [|c x IH]; intros a b Hr.
    { change ("" +:+ s) with s in Hr. by rewrite rsplit_once_none in Hr. }
    change (String c x +:+ s) with (String c (x +:+ s)) in Hr. cbn [rsplit_once] in Hr.
    destruct (rsplit_once "/" (x +:+ s)) as [[a' b']|] eqn:Hr'.
    + injection Hr as <- <-. by eapply IH.
    + case_decide as Hc; [|done]. injection Hr as <- <-. exists x. split; [done|].
      clear -Hr' Hs. rewrite no_char_append, Hs, andb_true_r. induction x as [|d x IH]; [done|].
      change (String d x +:+ s) with (String d (x +:+ s)) in Hr'. cbn [rsplit_once] in Hr'.
      destruct (rsplit_once "/" (x +:+ s)) as [[? ?]|]; [done|]. case_decide; [done|].
      cbn [no_char]. by rewrite bool_decide_eq_false_2, IH.
  - exists x. split; [done|]. revert Hr. generalize (x +:+ s). clear. intros r.
    induction r as [|c r IH]; [done|]. cbn [rsplit_once no_char].
    destruct (rsplit_once "/" r) as [[? ?]|]; [done|]. case_decide; [done|]. intros _.
    by rewrite bool_decide_eq_false_2, IH.
Qed.
Lemma base_of_slash x s : no_char "/" s = true → base_name (x +:+ "/" +:+ s) = s.
Proof. intros Hs. by apply rsplit_next_app. Qed.
Lemma join_base d s : d ≠ "" → no_char "/" s = true → s ≠ "" → base_name (join d s) = s.
Proof.
  intros Hd Hs Hne. unfold join. assert (Hst : starts_with "/" s = false).
  { apply not_true_iff_false. intros [r ->]%starts_with_spec. done. }
  rewrite Hst, (bool_decide_eq_false_2 (d = "")), orb_false_r by done.
  destruct (ends_slash d) eqn:He; [|by apply base_of_slash].
  assert (Hx : ∃ x, d = x +:+ "/").
  { clear -He. induction d as [|c d IH]; [done|]. destruct d as [|c' d].
    - cbn [ends_slash] in He. apply bool_decide_eq_true in He as ->. by exists "".
    - destruct (IH He) as [x Hx]. exists (String c x). by rewrite Hx. }
  destruct Hx as [x ->]. rewrite append_assoc. by apply base_of_slash.
Qed.
Lemma join_suffix d x s : ∃ y, join d (x +:+ s) = y +:+ s.
Proof.
  unfold join. destruct (starts_with "/" (x +:+ s)); [by exists x|].
  destruct (ends_slash d || _); [exists (d +:+ x)|exists (d +:+ "/" +:+ x)]; by rewrite !append_assoc.
Qed.
Lemma join_not_empty d s : d ≠ "" → join d s ≠ "".
Proof.
  intros Hd. unfold join. destruct (starts_with "/" s) eqn:Hs.
  - intros ->. done.
  - destruct d; [done|]. by destruct (ends_slash _ || _).
Qed.
#[export] Hint Resolve join_not_empty : rsdk.

(** *** The kinds of the paths that are written *)

(** A suffix shared by none of the named files nor by the datasets. *)
Definition neutral (s : string) : bool :=
  no_char "/" s && forallb (λ c, negb (ends_with s c)) ["meta.json"; "keypair.json"; "pool.meta.json"; "schema.json"]
  && negb (ends_with ".csv" s) && negb (ends_with "m" s) && (4 <=? String.length s)%nat.
Lemma ends_last a c y s : ends_with c s = false → s ≠ "" → (String.length c ≤ 1)%nat →
  ends_with (a +:+ c) (y +:+ s) = false.
Proof.
  intros Hs Hne Hl. apply not_true_iff_false. intros [z Hz]%ends_with_spec.
  assert (He : ends_with c (y +:+ s) = true).
  { rewrite Hz, <-append_assoc. apply ends_with_app. }
  apply ends_with_len in He; [congruence|]. destruct s; [done|cbn; lia].
Qed.
Lemma suffix_ne y s c : ends_with s c = false → y +:+ s ≠ c.
Proof. intros He <-. by rewrite ends_with_app in He. Qed.
Lemma neutral_kind x s k :
  neutral s = true → file_kind (x +:+ s) = Some k →
  k = AuditFile ∨ k = PoolRevocations ∧ ends_with s "revocations.jsonl" = true.
Proof.
  unfold neutral. cbn [forallb]. rewrite !andb_true_iff, !negb_true_iff, Nat.leb_le.
  intros [[[[Hs (H1 & H2 & H3 & H4 & _)] H5] Hm] H6]. unfold file_kind.
  destruct (base_of_suffix x s Hs) as (y & -> & _).
  rewrite !bool_decide_eq_false_2 by (by apply suffix_ne).
  destruct (ends_with ".csv" (y +:+ s)) eqn:He; [by rewrite (ends_with_len _ _ _ He) in H5|].
  rewrite (ends_last ".cwas" "m") by (done || by intros ->). destruct (in_audit _); [intros [= <-]; by left|]. case_bool_decide as Hr; [|done]. intros [= <-]. right.
  split; [done|]. rewrite <-Hr. apply ends_with_app.
Qed.

(** The files that are logs: they are only appended to. *)
Definition is_log (p : string) : bool := ends_with ".jsonl" p.
(** A log or a key of it. *)
Definition sealed (p : string) : bool := is_log p || ends_with ".hmac-key" p.
Lemma not_sealed x s :
  ends_with "l" s = false → ends_with "y" s = false → s ≠ "" → sealed (x +:+ s) = false.
Proof.
  intros Hl Hy Hne. unfold sealed, is_log.
  by rewrite (ends_last ".json" "l"), (ends_last ".hmac-ke" "y") by (done || (cbn; lia)).
Qed.
Lemma join_not_sealed d x s :
  ends_with "l" s = false → ends_with "y" s = false → s ≠ "" → sealed (join d (x +:+ s)) = false.
Proof. intros Hl Hy Hne. destruct (join_suffix d x s) as [z ->]. by apply not_sealed. Qed.

(** A path that may be overwritten: it is of one of the kinds, no log and no key. *)
Definition allowed (ks : list FileKind) (p : string) : Prop :=
  (∀ k, file_kind p = Some k → k ∈ ks) ∧ sealed p = false.
Lemma allowed_kind ks p k : file_kind p = Some k → sealed p = false → k ∈ ks → allowed ks p.
Proof. intros Hp Hl Hk. split; [|done]. intros k' Hk'. congruence. Qed.
Lemma allowed_neutral ks x s :
  neutral s = true → ends_with s "revocations.jsonl" = false → AuditFile ∈ ks → sealed (x +:+ s) = false →
  allowed ks (x +:+ s).
Proof.
  intros Hs Hr Ha Hl. split; [|done]. intros k Hk.
  destruct (neutral_kind _ _ _ Hs Hk) as [->|[_ He]]; [done|congruence].
Qed.

Lemma tmp_suffix p : ∃ x, with_extension p "tmp" = x +:+ ".tmp".
Proof.
  unfold with_extension. cbv zeta.
  generalize (match rsplit_once "." (rsplit_next "/" p) with
              | Some (EmptyString, _) | None => rsplit_next "/" p | Some (x, _) => x end). intros stem.
  destruct (rsplit_once "/" p) as [[d r]|]; [|by exists stem].
  exists (d +:+ "/" +:+ stem). by rewrite !append_assoc.
Qed.
Lemma allowed_tmp ks p : AuditFile ∈ ks → allowed ks (with_extension p "tmp").
Proof. intros Ha. destruct (tmp_suffix p) as [x ->]. apply allowed_neutral; [done..|]. by apply not_sealed. Qed.
Lemma kind_by_name p k b :
  base_name p = b →
  (b, k) ∈ [("meta.json", WalletMeta); ("keypair.json", WalletKeypair); ("pool.meta.json", PoolMeta);
            ("schema.json", PoolSchema)] → file_kind p = Some k.
Proof.
  intros Hb Hin. unfold file_kind. rewrite Hb.
  repeat (apply elem_of_cons in Hin as [[= -> ->]|Hin]; [reflexivity|]). by apply elem_of_nil in Hin.
Qed.

Lemma wallets_dir_ne id : wallet_dir DATA_DIR id ≠ "".
Proof. by apply join_not_empty. Qed.
Lemma pool_dir_ne id : pool_dir DATA_DIR id ≠ "".
Proof. by apply join_not_empty. Qed.
Lemma kind_wallet_meta id : file_kind (wallet_meta DATA_DIR id) = Some WalletMeta.
Proof. eapply kind_by_name; [apply join_base; [apply wallets_dir_ne|done..]|set_solver]. Qed.
Lemma kind_wallet_keypair id : file_kind (wallet_keypair DATA_DIR id) = Some WalletKeypair.
Proof. eapply kind_by_name; [apply join_base; [apply wallets_dir_ne|done..]|set_solver]. Qed.
Lemma kind_pool_meta id : file_kind (pool_meta DATA_DIR id) = Some PoolMeta.
Proof. eapply kind_by_name; [apply join_base; [apply pool_dir_ne|done..]|set_solver]. Qed.
Lemma kind_pool_schema id : file_kind (pool_schema DATA_DIR id) = Some PoolSchema.
Proof. eapply kind_by_name; [apply join_base; [apply pool_dir_ne|done..]|set_solver]. Qed.
Lemma kind_revocations id k :
  file_kind (pool_revocations DATA_DIR id) = Some k → k = PoolRevocations ∨ k = AuditFile.
Proof.
  unfold pool_revocations. destruct (join_suffix (pool_dir DATA_DIR id) "" "revocations.jsonl") as [y Hy].
  change ("" +:+ "revocations.jsonl") with "revocations.jsonl" in Hy. rewrite Hy. intros Hk.
  destruct (neutral_kind y "revocations.jsonl" k eq_refl Hk) as [|[]]; auto.
Qed.
Lemma allowed_wallet_meta ks id : WalletMeta ∈ ks → allowed ks (wallet_meta DATA_DIR id).
Proof. intros Hk. eapply allowed_kind; [apply kind_wallet_meta|by apply (join_not_sealed _ "")|done]. Qed.
Lemma allowed_wallet_keypair ks id : WalletKeypair ∈ ks → allowed ks (wallet_keypair DATA_DIR id).
Proof. intros Hk. eapply allowed_kind; [apply kind_wallet_keypair|by apply (join_not_sealed _ "")|done]. Qed.
Lemma allowed_pool_meta ks id : PoolMeta ∈ ks → allowed ks (pool_meta DATA_DIR id).
Proof. intros Hk. eapply allowed_kind; [apply kind_pool_meta|by apply (join_not_sealed _ "")|done]. Qed.
(** A dataset is one, however its record is called, unless its name is one of the
    four above, which do not end so. *)
Lemma kind_dataset id r : file_kind (dataset_file id (r +:+ ".csv")) = Some PoolDataset.
Proof.
  unfold dataset_file. destruct (join_suffix (pool_dataset_dir DATA_DIR id) r ".csv") as [x ->].
  unfold file_kind. destruct (base_of_suffix x ".csv" eq_refl) as (y & -> & _).
  rewrite !bool_decide_eq_false_2 by (by apply suffix_ne). by rewrite ends_with_app.
Qed.
(** The anchor of a record called "pool" would have the name of the metadata. *)
Lemma kind_anchor id r k :
  file_kind (dataset_file id (r +:+ ".meta.json")) = Some k → k = PoolMeta ∨ k = AuditFile.
Proof.
  unfold dataset_file. destruct (join_suffix (pool_dataset_dir DATA_DIR id) r ".meta.json") as [x ->].
  unfold file_kind. destruct (base_of_suffix x ".meta.json" eq_refl) as (y & -> & _).
  rewrite (bool_decide_eq_false_2 (_ = "meta.json")) by (by apply suffix_ne).
  rewrite (bool_decide_eq_false_2 (_ = "keypair.json")) by (by apply suffix_ne).
  rewrite (bool_decide_eq_false_2 (_ = "schema.json")) by (by apply suffix_ne).
  rewrite (bool_decide_eq_false_2 (_ = "revocations.jsonl")) by (by apply suffix_ne).
  case_bool_decide; [intros [= <-]; by left|].
  destruct (ends_with ".csv" _) eqn:He; [by apply ends_with_len in He; [|cbn; lia]|].
  rewrite (ends_last ".cwas" "m") by done.
  destruct (in_audit _); [|done]. intros [= <-]. by right.
Qed.
Lemma kind_audit `{DbCratesLaws} d : file_kind (audit_events_file DATA_DIR (fmt_ymd d)) = Some AuditFile.
Proof.
  unfold audit_events_file, audit_dir. rewrite join_dir; [|done..|].
  2:{ apply not_true_iff_false. intros [r Hr]%starts_with_spec. pose proof (ymd_no_slash d) as Hy.
      destruct (fmt_ymd d); [done|]. injection Hr as -> _. done. }
  set (p := join _ _ +:+ _). assert (Ha : in_audit p = true) by (apply starts_with_spec; by eexists).
  subst p. destruct (file_kind (join DATA_DIR "audit" +:+ "/" +:+ fmt_ymd d +:+ ".jsonl")) as [k|] eqn:Hk.
  - rewrite <-!append_assoc in Hk, Ha.
    destruct (neutral_kind _ ".jsonl" k eq_refl Hk) as [->|[-> _]]; [done|].
    unfold file_kind in Hk. rewrite Ha in Hk. by repeat case_match.
  - unfold file_kind in Hk. rewrite Ha in Hk. by repeat case_match.
Qed.
Lemma kind_audit_key : file_kind audit_key_path = Some AuditFile.
Proof. by vm_compute. Qed.
(** A script is cached under its digest, which has neither slash nor dot. *)
Lemma ends_no_dot suf s : no_char "." s = true → no_char "." suf = false → ends_with suf s = false.
Proof.
  intros Hs Hf. apply not_true_iff_false. intros [x ->]%ends_with_spec.
  rewrite no_char_append, Hf in Hs. by rewrite andb_false_r in Hs.
Qed.
Lemma kind_script `{HashCratesLaws} h b ks :
  decode_hash h = Ok b → AuditFile ∈ ks → allowed ks (cache_path_for DATA_DIR h).
Proof.
  intros [Hd Hl]%decode_hash_ok Ha. destruct (hex_decode_chars _ _ Hd) as [Hs Hp]. split.
  - intros k. unfold cache_path_for, file_kind. rewrite join_base; [|done|done|by intros ->].
    assert (Hne : ∀ c, no_char "." c = false → h ≠ c) by (intros c Hc ->; congruence).
    rewrite !bool_decide_eq_false_2 by (by apply Hne). rewrite !ends_no_dot by done.
    destruct (in_audit _); [by intros [= <-]|done].
  - unfold cache_path_for, sealed, is_log. destruct (join_suffix (join DATA_DIR "drt-scripts") "" h) as [y Hy].
    change ("" +:+ h) with h in Hy. rewrite Hy.
    apply orb_false_iff; split; apply not_true_iff_false; (intros He%ends_with_len; [by rewrite ends_no_dot in He|]);
      unfold len in Hl; cbn; lia.
Qed.

(** ** Actions on files *)

(** What [d] held is still there. *)
Definition grown (a b : option string) : Prop := ∀ d, a = Some d → ∃ x, b = Some (d +:+ x).
#[export] Instance grown_preorder : PreOrder grown.
Proof.
  split; [intros a d ->; exists ""; by rewrite append_nil_r|].
  intros a b c Hab Hbc d Hd. destruct (Hab d Hd) as [x Hx]. destruct (Hbc _ Hx) as [y ->].
  exists (x +:+ y). by rewrite append_assoc.
Qed.
(** From [s] to [s'] no file of a kind outside [ks] changes, and the logs grow. *)
Definition fs_frame (ks : list FileKind) (s s' : Fs) : Prop :=
  (∀ p k, file_kind p = Some k → k ∉ ks → files s' !! p = files s !! p) ∧
  ∀ p, is_log p = true → grown (files s !! p) (files s' !! p).
#[export] Instance fs_frame_preorder ks : PreOrder (fs_frame ks).
Proof.
  split; [by split|]. intros s1 s2 s3 [Hk Hl] [Hk' Hl']. split.
  - intros p k Hp Hn. by rewrite (Hk' p k), (Hk p k).
  - intros p Hp. etrans; [by apply Hl|by apply Hl'].
Qed.
Lemma fs_frame_weaken ks ks' s s' : ks ⊆ ks' → fs_frame ks s s' → fs_frame ks' s s'.
Proof. intros Hs [Hk Hl]. split; [|done]. intros p k Hp Hn. eapply Hk; [done|set_solver]. Qed.
(** The log of audit events and its key are left alone. *)
Definition quiet (s s' : Fs) : Prop :=
  ∀ p, sealed p = true → in_audit p = true → files s' !! p = files s !! p.
Definition fs_step (ks : list FileKind) (s s' : Fs) : Prop := fs_frame ks s s' ∧ quiet s s'.
#[export] Instance fs_step_preorder ks : PreOrder (fs_step ks).
Proof.
  split; [by split|]. intros s1 s2 s3 [Hf Hq] [Hf' Hq']. split; [by etrans|].
  intros p Hp Ha. by rewrite Hq', Hq.
Qed.
Definition writes {E A} (ks : list FileKind) (m : act Fs E A) : Prop := ∀ s, fs_step ks s (m s).2.

Section Files.
Context (ks : list FileKind).
Lemma writes_ret {E A} (a : A) : writes ks (mret a : act Fs E A).
Proof. by intros s. Qed.
Lemma writes_lift {E A} (r : result E A) : writes ks (lift r).
Proof. by intros s. Qed.
Lemma writes_fail {E A} (x : E) : writes ks (fail x : act Fs E A).
Proof. by intros s. Qed.
Lemma writes_reading {E A} (f : Fs → result E A) : writes ks (reading f).
Proof. by intros s. Qed.
Lemma writes_bind {E A B} (m : act Fs E A) (f : A → act Fs E B) :
  writes ks m → (∀ a, writes ks (f a)) → writes ks (m ≫= f).
Proof.
  intros Hm Hf s. rewrite act_bind_eq. specialize (Hm s).
  destruct (m s) as [[a|x] s']; simpl in *; [|done]. etrans; [exact Hm|apply Hf].
Qed.
Lemma writes_bind_lift {E A B} (r : result E A) (f : A → act Fs E B) :
  (∀ a, r = Ok a → writes ks (f a)) → writes ks (lift r ≫= f).
Proof. intros Hf s. rewrite act_bind_lift. destruct r as [a|]; [by eapply Hf|done]. Qed.
Lemma writes_map_err {E F A} (f : F → E) (m : act Fs F A) : writes ks m → writes ks (act_map_err f m).
Proof. intros Hm s. apply Hm. Qed.
Lemma writes_best_effort {E F A} (m : act Fs F A) : writes ks m → writes ks (best_effort m : act Fs E unit).
Proof. intros Hm s. apply Hm. Qed.
Lemma writes_await {A} w (m : act Fs RuntimeError A) : writes ks m → writes ks (await_worker w m).
Proof. intros Hm s. specialize (Hm s). unfold await_worker. destruct (m s), w; apply Hm. Qed.
Lemma writes_same {E A} (m : act Fs E A) : (∀ s, files (m s).2 = files s) → writes ks m.
Proof. intros Hm s. split; [split|]; intros p; by rewrite Hm. Qed.

Lemma fs_step_dirs s d : fs_step ks s (mkFs (files s) d).
Proof. done. Qed.
Lemma fs_step_alter s p f :
  allowed ks p → (∀ p', p' ≠ p → f (files s) !! p' = files s !! p') → fs_step ks s (set_files f s).
Proof.
  intros [Hk Hl] Hf. split; [split|].
  - intros p' k Hp Hn. cbn. apply Hf. intros ->. by apply Hn, Hk.
  - intros p' Hp. cbn. rewrite Hf; [done|]. intros ->. unfold sealed in Hl. by rewrite Hp in Hl.
  - intros p' Hp _. cbn. apply Hf. intros ->. congruence.
Qed.
Lemma fs_step_insert s p x : allowed ks p → fs_step ks s (set_files (insert p x) s).
Proof. intros Ha. eapply fs_step_alter; [exact Ha|]. intros p' Hp. by apply lookup_insert_ne. Qed.
Lemma fs_step_delete s p : allowed ks p → fs_step ks s (set_files (delete p) s).
Proof. intros Ha. eapply fs_step_alter; [exact Ha|]. intros p' Hp. by apply lookup_delete_ne. Qed.
Lemma fs_step_replace s p t x :
  allowed ks p → allowed ks t → fs_step ks s (set_files (λ f, <[p := x]> (delete t f)) s).
Proof. intros Hp Ht. etrans; [by apply (fs_step_delete s t)|exact (fs_step_insert (set_files (delete t) s) p x Hp)]. Qed.

Lemma writes_create_dir io p : writes ks (create_dir io p).
Proof. apply writes_same. intros s. by destruct io. Qed.
Lemma writes_atomic io p data : allowed ks p → AuditFile ∈ ks → writes ks (atomic_write io p data).
Proof.
  intros Hp Ha s. pose proof (allowed_tmp ks p Ha) as Ht. unfold atomic_write.
  assert (Hd : ∀ d, fs_step ks s (match d with Some d => create_dir_all d s | None => s end)) by (by intros []).
  destruct io as [| | |m [x|]|]; cbn [snd]; try done; (etrans; [apply Hd|]);
    first [by apply fs_step_replace | by apply fs_step_insert | done].
Qed.
Lemma writes_json {A} `{Serde A} io p (a : A) : allowed ks p → AuditFile ∈ ks → writes ks (write_json io p a).
Proof. intros Hp Ha. apply writes_bind; [apply writes_lift|]. intros data. by apply writes_atomic. Qed.
Lemma writes_schema `{Serde (list FieldSchema)} io id sc :
  PoolSchema ∈ ks → writes ks (save_pool_schema io DATA_DIR id sc).
Proof.
  intros Hs s. assert (Ha : allowed ks (pool_schema DATA_DIR id)).
  { eapply allowed_kind; [apply kind_pool_schema| |done]. by apply (join_not_sealed _ ""). }
  unfold save_pool_schema. destruct io as [| | |m [x|]|], (to_vec_pretty sc); cbn [snd]; try done;
    (etrans; [apply fs_step_dirs|]; by apply fs_step_insert).
Qed.

(** A line appended to a log. *)
Lemma fs_frame_append io p line s :
  (∀ k, file_kind p = Some k → k ∈ ks) → fs_frame ks s (append_line io p line s).
Proof.
  intros Hk. assert (Hi : ∀ x, fs_frame ks s (set_files (insert p (default "" (files s !! p) +:+ x)) s)).
  { intros x. split.
    - intros p' k Hp Hn. cbn. apply lookup_insert_ne. intros ->. by apply Hn, Hk.
    - intros p' Hp. cbn. destruct (decide (p = p')) as [->|Hne]; [|by rewrite lookup_insert_ne].
      rewrite lookup_insert_eq. intros d ->. by exists x. }
  unfold append_line. destruct io as [| | |m [x|]|]; try done; try apply Hi.
  cbv zeta. rewrite <-(append_nil_r (default "" _)). apply Hi.
Qed.
Lemma append_line_ne io p line s p' : p ≠ p' → files (append_line io p line s) !! p' = files s !! p'.
Proof. intros Hp. by destruct io as [| | |m [x|]|]; simpl; rewrite ?lookup_insert_ne. Qed.
Lemma writes_append io id data :
  safe_name id = true → PoolRevocations ∈ ks → AuditFile ∈ ks →
  writes ks (append_file io (pool_revocations DATA_DIR id) data).
Proof.
  intros Hid Hr Ha s. assert (Hal : ∀ k, file_kind (pool_revocations DATA_DIR id) = Some k → k ∈ ks)
    by (by intros k' [->| ->]%kind_revocations).
  assert (Hq : in_audit (pool_revocations DATA_DIR id) = false).
  { unfold pool_revocations. by rewrite pool_path by done. }
  assert (Hs : ∀ io', fs_step ks s (append_line io' (pool_revocations DATA_DIR id) data s)).
  { intros io'. split; [by apply fs_frame_append|]. intros p _ Hp. apply append_line_ne. intros <-. congruence. }
  unfold append_file. cbv zeta. destruct io; try done;
    (destruct (match parent _ with Some _ => _ | None => _ end); [|done]); apply Hs.
Qed.

Lemma kind_compiled x : file_kind (x +:+ ".cwasm") = Some Compiled.
Proof.
  unfold file_kind. destruct (base_of_suffix x ".cwasm" eq_refl) as (y & -> & _).
  rewrite !bool_decide_eq_false_2 by (by apply suffix_ne). rewrite (ends_last ".cs" "v") by done.
  by rewrite ends_with_app.
Qed.
Lemma writes_publish io tag p' bytes :
  Compiled ∈ ks → AuditFile ∈ ks → writes ks (publish io tag (p' +:+ ".cwasm") bytes).
Proof.
  intros Hc Ha s. unfold publish. cbv zeta. set (x := ".cwasm").
  assert (Hpath : allowed ks (p' +:+ x)).
  { split; [intros k; rewrite kind_compiled; by intros [= <-]|by apply not_sealed]. }
  set (name := "." +:+ _). assert (Ht : allowed ks (with_file_name (p' +:+ x) name)).
  { assert (Hn : ∃ y, name = y +:+ ".tmp").
    { eexists ("." +:+ rsplit_next "/" (p' +:+ x) +:+ "." +:+ tag). unfold name. by rewrite !append_assoc. }
    destruct Hn as [y ->]. unfold with_file_name. destruct (rsplit_once "/" (p' +:+ x)) as [[d r]|].
    - rewrite <-!append_assoc. apply allowed_neutral; [done..|]. by apply not_sealed.
    - apply allowed_neutral; [done..|]. by apply not_sealed. }
  destruct io as [| | |m [z|]|]; cbn [snd]; try done;
    first [by apply fs_step_replace | by apply fs_step_insert | by apply fs_step_delete].
Qed.
End Files.

#[export] Hint Resolve writes_ret writes_lift writes_fail writes_reading writes_bind writes_map_err
  writes_best_effort writes_await writes_create_dir writes_atomic writes_json writes_schema writes_append
  allowed_wallet_meta allowed_wallet_keypair allowed_pool_meta : rsdk.

Section Scripts.
Context `{HashCratesLaws} {M I : Type} `{Wasmtime M I} (ks : list FileKind) (Ha : AuditFile ∈ ks) (Hc : Compiled ∈ ks).

Lemma writes_fetch fe url h : writes ks (fetch_and_verify fe DATA_DIR url h).
Proof.
  unfold fetch_and_verify. apply writes_bind; [apply writes_lift|]. intros _.
  apply writes_bind_lift. intros b Hb. apply writes_bind; [apply writes_reading|].
  intros [bytes|]; [apply writes_ret|]. apply writes_bind; [apply writes_lift|]. intros bytes.
  apply writes_bind; [apply writes_lift|]. intros _. apply writes_bind; [|intros _; apply writes_ret].
  apply writes_map_err, writes_atomic; [by eapply kind_script|done].
Qed.
Lemma cwasm_suffix dir h : ∃ x, precompile_cache_path dir h = x +:+ ".cwasm".
Proof.
  unfold precompile_cache_path.
  destruct (join_suffix dir (h +:+ "." +:+ CWASM_VERSION_TAG) ".cwasm") as [y Hy].
  exists y. rewrite <-Hy. by rewrite !append_assoc.
Qed.
Lemma writes_precompiled re dir h wasm : writes ks (ensure_precompiled re dir h wasm).
Proof.
  unfold ensure_precompiled. destruct (cwasm_suffix dir h) as [x Hx].
  apply writes_bind; [apply writes_lift|]. intros _. apply writes_bind; [apply writes_reading|].
  intros []; [apply writes_ret|]. apply writes_bind; [apply writes_lift|]. intros bytes.
  apply writes_bind; [destruct (parent _); eauto with rsdk|]. intros _.
  apply writes_bind; [|intros _; apply writes_ret]. apply writes_map_err. rewrite Hx.
  by apply writes_publish.
Qed.
Lemma writes_execute `{Serde Json} re w dir h wasm csv args :
  writes ks (execute_cached re w (precompile_cache_path dir h) wasm csv args).
Proof.
  unfold execute_cached, run_with, run_blocking. destruct (cwasm_suffix dir h) as [x ->].
  apply writes_bind; [apply writes_lift|]. intros a. apply writes_bind; [apply writes_reading|]. intros found.
  apply writes_bind; [apply writes_lift|]. intros _. apply writes_await.
  apply writes_bind; [apply writes_lift|]. intros _.
  apply writes_bind.
  { unfold load_module. destruct found; [|apply writes_lift].
    apply writes_bind; [apply writes_reading|]. intros [m|]; [apply writes_ret|].
    apply writes_bind; [apply writes_lift|]. intros m. apply writes_bind; [|intros _; apply writes_ret].
    unfold heal_cwasm. destruct (serialize m); [|apply writes_ret].
    by apply writes_best_effort, writes_publish. }
  intros m. do 2 (apply writes_bind; [apply writes_lift|]; intros _).
  apply writes_bind; [apply writes_lift|]. intros i. apply writes_lift.
Qed.
End Scripts.

(** ** Actions on the state *)

(** The tables and the kinds of files an action may change. *)
Record Scope := mkScope { sc_tables : list TableDefinition; sc_files : list FileKind }.
Definition AUDIT_TABLES : list TableDefinition := [AUDIT_EVENTS; AUDIT_BY_RESOURCE; AUDIT_BY_DATE].
(** [sc], and the audit log. *)
Definition audited (ts : list TableDefinition) (ks : list FileKind) : Scope :=
  mkScope (ts ++ AUDIT_TABLES) (ks ++ [AuditFile]).
Definition nothing : Scope := mkScope [] [].

Section State.
Context {T C : Type} `{RedbTableLaws T, RedbTxnLaws (Db T)}.
Abbreviation St := (AppState T C).

Definition keeps (sc : Scope) (st st' : St) : Prop :=
  (∀ n, n ∉ sc_tables sc → tx_db st' n = tx_db st n) ∧
  fs_frame (sc_files sc) (storage st) (storage st') ∧
  (AuditFile ∉ sc_files sc → audit_key st' = audit_key st).
Definition within {E A} (sc : Scope) (m : act St E A) : Prop := ∀ st, keeps sc st (m st).2.

Lemma keeps_refl sc st : keeps sc st st.
Proof. done. Qed.
Lemma keeps_trans sc st1 st2 st3 : keeps sc st1 st2 → keeps sc st2 st3 → keeps sc st1 st3.
Proof.
  intros (Ht & Hf & Hk) (Ht' & Hf' & Hk'). split; [intros n Hn; by rewrite Ht', Ht|].
  split; [by etrans|]. intros Ha. by rewrite Hk', Hk.
Qed.
Lemma keeps_weaken sc sc' st st' :
  sc_tables sc ⊆ sc_tables sc' → sc_files sc ⊆ sc_files sc' → keeps sc st st' → keeps sc' st st'.
Proof.
  intros Ht Hf (Hdb & Hfs & Hk). split; [intros n Hn; apply Hdb; set_solver|].
  split; [by eapply fs_frame_weaken|]. intros Ha. apply Hk. set_solver.
Qed.

Lemma within_ret {E A} sc (a : A) : within sc (mret a : act St E A).
Proof. by intros st. Qed.
Lemma within_lift {E A} sc (r : result E A) : within sc (lift r : act St E A).
Proof. by intros st. Qed.
Lemma within_fail {E A} sc (x : E) : within sc (fail x : act St E A).
Proof. by intros st. Qed.
Lemma within_reading {E A} sc (f : St → result E A) : within sc (reading f).
Proof. by intros st. Qed.
Lemma within_bind {E A B} sc (m : act St E A) (f : A → act St E B) :
  within sc m → (∀ a, within sc (f a)) → within sc (m ≫= f).
Proof.
  intros Hm Hf st. rewrite act_bind_eq. specialize (Hm st).
  destruct (m st) as [[a|x] st']; simpl in *; [|done]. eapply keeps_trans; [exact Hm|apply Hf].
Qed.
Lemma within_bind_ok {E A B} sc (m : act St E A) (f : A → act St E B) :
  within sc m → (∀ st a, (m st).1 = Ok a → within sc (f a)) → within sc (m ≫= f).
Proof.
  intros Hm Hf st. rewrite act_bind_eq. pose proof (λ a, Hf st a) as Hfa. specialize (Hm st).
  destruct (m st) as [[a|x] st']; simpl in *; [|done]. eapply keeps_trans; [exact Hm|by apply Hfa].
Qed.
Lemma within_map_err {E F A} sc (f : F → E) (m : act St F A) : within sc m → within sc (act_map_err f m).
Proof. intros Hm st. apply Hm. Qed.
Lemma within_best_effort {E F A} sc (m : act St F A) :
  within sc m → within sc (best_effort m : act St E unit).
Proof. intros Hm st. apply Hm. Qed.
Lemma within_caught {E F A} sc (m : act St F A) :
  within sc m → within sc (caught m : act St E (result F A)).
Proof. intros Hm st. apply Hm. Qed.
Lemma within_cache {E} sc (f : St → TxCache C) :
  within sc (updating (λ st, set_tx_cache (f st) st) : act St E unit).
Proof. by intros st. Qed.
Lemma within_fs {E A} sc (m : act Fs E A) :
  writes (sc_files sc) m → within sc (zoom storage set_storage m : act St E A).
Proof. intros Hm st. split; [done|]. split; [apply Hm|done]. Qed.
Lemma within_db {E A} sc (m : act (Db T) E A) :
  touches (sc_tables sc) m → within sc (zoom tx_db set_tx_db m : act St E A).
Proof. intros Hm st. split; [|done]. intros n Hn. by apply Hm. Qed.
Lemma within_reads {E A} sc (m : act St E A) : (∀ st, (m st).2 = st) → within sc m.
Proof. intros Hm st. rewrite Hm. apply keeps_refl. Qed.

Section Audit.
Context `{DbCratesLaws, AuditCrates, Serde AuditEvent}.
(** An audit event adds at most a line to its day's file. *)
Lemma audit_grows ai env ev (st : St) p :
  is_log p = true → grown (files (storage st) !! p) (files (storage (audit_log_event ai env ev st)) !! p).
Proof.
  intros Hp. destruct (decide (p = audit_events_file DATA_DIR (fmt_ymd (a_timestamp ev)))) as [->|Hne].
  2:{ destruct (audit_log_event_frame ai env ev st) as [_ ->]; [done| |done]. by intros ->. }
  unfold audit_log_event. cbv zeta. match goal with |- context [compute_hmac _ _ ?x] => set (st1 := x) end.
  assert (Hst1 : files (storage st1) = files (storage st)) by (unfold st1; by destruct (parent _), (ai_mkdir ai)).
  destruct (to_vec (with_hmac None ev)) as [j|]; [|by rewrite Hst1].
  pose proof (compute_hmac_frame ai j st1) as (_ & _ & Hf).
  destruct (compute_hmac ai j st1) as [tag st2]. simpl in Hf. rewrite <-Hst1.
  rewrite <-(Hf _) by (by intros He; rewrite He in Hp).
  destruct (to_vec (with_hmac (Some tag) ev)) as [line|], env as [env|]; cbn [storage set_storage set_tx_db]; try done;
    apply (fs_frame_append [AuditFile] (ai_append ai)); [|done| |done]; intros k; rewrite kind_audit; set_solver.
Qed.
Lemma keeps_audit sc ai env ev (st : St) :
  AUDIT_TABLES ⊆ sc_tables sc → AuditFile ∈ sc_files sc → keeps sc st (audit_log_event ai env ev st).
Proof.
  intros Ht Hf. split.
  - intros n Hn. apply audit_log_event_tables. unfold AUDIT_TABLES in Ht. set_solver.
  - split; [split|done].
    + intros p k Hp Hk. destruct (audit_log_event_frame ai env ev st) as [_ Hfr].
      apply Hfr; intros ->; [rewrite kind_audit_key in Hp|rewrite kind_audit in Hp]; congruence.
    + intros p Hp. by apply audit_grows.
Qed.
Lemma within_audit {E} ts ks ai env ev :
  within (audited ts ks) (updating (audit_log_event ai env ev) : act St E unit).
Proof. intros st. apply keeps_audit; cbn; set_solver. Qed.
(** Without a database only the file is written. *)
Lemma audit_unattached ai ev (st : St) : tx_db (audit_log_event ai None ev st) = tx_db st.
Proof.
  unfold audit_log_event. cbv zeta. match goal with |- context [compute_hmac _ _ ?x] => set (st1 := x) end.
  assert (Hst1 : tx_db st1 = tx_db st) by (unfold st1; by destruct (parent _), (ai_mkdir ai)).
  destruct (to_vec (with_hmac None ev)) as [j|]; [|done].
  pose proof (compute_hmac_frame ai j st1) as (Hd & _ & _).
  destruct (compute_hmac ai j st1) as [tag st2]. simpl in Hd.
  destruct (to_vec (with_hmac (Some tag) ev)); simpl; congruence.
Qed.
End Audit.
End State.
#[export] Hint Resolve within_ret within_lift within_fail within_reading within_cache within_audit : rsdk.

Ltac in_scope := cbn [sc_files sc_tables audited nothing app]; set_solver.
#[export] Hint Extern 1 (_ ∈ sc_files _) => in_scope : rsdk.
#[export] Hint Extern 1 (_ ∈ sc_tables _) => in_scope : rsdk.

(** Follow the body of a handler; what is left are its calls. *)
Ltac solve_within :=
  repeat first
    [ progress intros
    | apply within_ret | apply within_lift | apply within_fail | apply within_reading
    | apply within_audit | apply within_cache
    | apply within_map_err | apply within_best_effort | apply within_caught
    | solve [apply within_db; cbn [sc_tables audited nothing app]; solve_touches]
    | solve [apply within_fs; eauto with rsdk]
    | apply within_bind
    | match goal with |- within _ (match ?x with _ => _ end) => destruct x end
    | match goal with |- within _ (if ?x then _ else _) => destruct x end ].

(** ** The footprints of the endpoints *)

Definition POOL_TABLES : list TableDefinition := [POOL_METADATA; POOL_BY_OWNER].
Definition footprint (ep : endpoint) : Scope :=
  match ep with
  | CreateWallet => audited [ADDRESS_WALLET_MAP; WALLET_BY_OWNER] [WalletMeta; WalletKeypair]
  | DeleteWallet => audited [WALLET_BY_OWNER] [WalletMeta]
  | SuspendWallet | ActivateWallet => audited [] [WalletMeta]
  | GetWalletStats | ListAllWallets => audited [] []
  | DataQuery => audited [] [Compiled]
  | LogRoleChange => mkScope [] [AuditFile]
  | SendTransaction => audited [TRANSACTIONS; WALLET_TX_INDEX] []
  | ListTransactions | GetTransactionStatus => mkScope INDEXED []
  | GrantRight => audited [GRANTS_BY_POOL; GRANTS_BY_ANALYST] [Compiled]
  | RevokeGrant => audited [GRANTS_BY_POOL; GRANTS_BY_ANALYST] []
  | CreateMaltaPool => audited POOL_TABLES [PoolMeta; PoolSchema]
  | CreateIobErpPool => audited POOL_TABLES [PoolMeta]
  | UploadSchema => audited [] [PoolSchema]
  | InitializePool | IssueCredentials => audited (ISSUANCE_RECORDS :: POOL_TABLES) [PoolMeta; PoolDataset]
  | RevokeCredentials => audited (REVOCATIONS :: POOL_TABLES) [PoolMeta; PoolRevocations]
  | _ => nothing
  end.

(** *** Wallets *)

Section WalletHandlers.
Context {T C K : Type} `{RedbTableLaws T, RedbTxnLaws (Db T), DbCratesLaws, AuditCrates, SolanaKeys K}.
Context `{Serde AuditEvent, Serde WalletMetadata, Serde (list Z)}.
Abbreviation St := (AppState T C).
Abbreviation handler A := (act St ApiError A).

Lemma within_storage_reads {A} sc (m : act Fs StorageError A) :
  (∀ s, (m s).2 = s) → within sc (on_storage m : handler A).
Proof. intros Hm. apply within_map_err, within_fs. intros s. by rewrite Hm. Qed.
Lemma read_json_still {A} `{Serde A} io path s : (read_json (A := A) io path s).2 = s.
Proof.
  unfold read_json. rewrite act_bind_eq. unfold read_raw, reading.
  by destruct (match io with IoRead _ => _ | _ => _ end).
Qed.
Lemma writes_read_json {A} `{Serde A} ks io path : writes ks (read_json (A := A) io path).
Proof. intros s. by rewrite read_json_still. Qed.
Lemma wallet_get_still io id s : (wallet_get io id s).2 = s.
Proof. apply read_json_still. Qed.
Lemma writes_wallet_get ks io id : writes ks (wallet_get io id).
Proof. apply writes_map_err, writes_read_json. Qed.
Lemma writes_wallet_get_owned ks io id u : writes ks (wallet_get_owned io id u).
Proof. apply writes_bind; [apply writes_wallet_get|]. eauto with rsdk. Qed.
Lemma writes_read_keypair ks io id : writes ks (wallet_read_keypair io id).
Proof. apply writes_map_err, writes_read_json. Qed.
Lemma writes_wallets_of_ids ks io ids : writes ks (wallets_of_ids io ids).
Proof.
  revert io. induction ids as [|id ids IH]; intros io s; [done|]. cbn [wallets_of_ids].
  pose proof (wallet_get_still (io 0%nat) id s) as Hs.
  destruct (wallet_get (io 0%nat) id s) as [[m|[]] s']; simpl in Hs; subst s'; try done; [|apply IH].
  eapply (writes_bind ks (wallets_of_ids (λ n, io (S n)) ids)); eauto with rsdk.
Qed.
Lemma writes_list_all ks io : writes ks (wallet_list_all io).
Proof. apply writes_bind; [apply writes_reading|]. intros ids. apply writes_wallets_of_ids. Qed.
Lemma writes_wallet_update io ks m : WalletMeta ∈ ks → AuditFile ∈ ks → writes ks (wallet_update io m).
Proof.
  intros Hw Ha. unfold wallet_update. apply writes_bind; [apply writes_reading|]. intros []; simpl; eauto with rsdk.
Qed.
Lemma writes_wallet_create io ks m kp :
  WalletMeta ∈ ks → WalletKeypair ∈ ks → AuditFile ∈ ks → writes ks (wallet_create io m kp).
Proof.
  intros Hw Hk Ha. unfold wallet_create. apply writes_bind; [apply writes_reading|]. intros []; [eauto with rsdk|].
  apply writes_bind; [eauto with rsdk|]. intros _. apply writes_bind; eauto with rsdk.
Qed.
Lemma writes_soft_delete io ks id : WalletMeta ∈ ks → AuditFile ∈ ks → writes ks (wallet_soft_delete io id).
Proof.
  intros Hw Ha. unfold wallet_soft_delete. apply writes_bind; [apply writes_wallet_get|]. intros m.
  by apply writes_wallet_update.
Qed.
End WalletHandlers.
#[export] Hint Resolve writes_read_json writes_wallet_get writes_wallet_get_owned writes_read_keypair
  writes_wallet_update writes_wallet_create writes_list_all writes_soft_delete : rsdk.

Section WalletEndpoints.
Context {T C K : Type} `{RedbTableLaws T, RedbTxnLaws (Db T), DbCratesLaws, AuditCrates, SolanaKeys K}.
Context `{Serde AuditEvent, Serde WalletMetadata, Serde (list Z)}.
Abbreviation St := (AppState T C).
Abbreviation handler A := (act St ApiError A).

Lemma create_wallet_within e token label kp id :
  within (footprint CreateWallet) (create_wallet (K := K) e token label kp id : handler _).
Proof.
  unfold create_wallet, on_storage, on_db, audit, audit_log, register_address. cbn [footprint].
  solve_within.
  assert (Ht : touches (ADDRESS_WALLET_MAP :: WALLET_BY_OWNER :: AUDIT_TABLES)
    (register_wallet_owner (T := T) (re_db e 1%nat) (sub token) id))
    by (unfold register_wallet_owner; solve_touches).
  match goal with |- within _ ?m => intros st; assert (Hm : (m st).2 =
    set_tx_db (register_wallet_owner (re_db e 1%nat) (sub token) id (tx_db st)).2 st) end.
  { destruct (register_wallet_owner _ _ _ _) as [[|[]] db]; done. }
  rewrite Hm. split; [|done]. intros n Hn. by apply Ht.
Qed.
Lemma active_wallet_within sc io env u : within sc (get_active_wallet_for_user io env u : handler _).
Proof. unfold get_active_wallet_for_user, on_db, on_storage, get_wallet_id_by_owner. solve_within. Qed.
Lemma delete_wallet_within e token id :
  within (footprint DeleteWallet) (delete_wallet e token id : handler _).
Proof. unfold delete_wallet, on_storage, on_db, audit, audit_log, remove_wallet_owner. cbn [footprint]. solve_within. Qed.
Lemma list_wallets_within sc e token : within sc (list_wallets e token : handler _).
Proof. unfold list_wallets, on_db, get_wallet_id_by_owner. solve_within. Qed.
Lemma get_wallet_within sc e token id : within sc (get_wallet e token id : handler _).
Proof. unfold get_wallet, on_storage. solve_within. Qed.
Lemma wallet_stats_within e token : within (footprint GetWalletStats) (get_wallet_stats e token : handler _).
Proof. unfold get_wallet_stats, on_storage, audit, audit_log. cbn [footprint]. solve_within. Qed.
Lemma all_wallets_within e token limit offset :
  within (footprint ListAllWallets) (admin_list_all_wallets e token limit offset : handler _).
Proof. unfold admin_list_all_wallets, on_storage, audit, audit_log. cbn [footprint]. solve_within. Qed.
Lemma audit_logs_within sc e valid date limit offset :
  within sc (query_audit_logs e valid date limit offset : handler _).
Proof. unfold query_audit_logs, list_audit_by_date. solve_within. Qed.
Lemma suspend_within e token id : within (footprint SuspendWallet) (suspend_wallet e token id : handler _).
Proof. unfold suspend_wallet, on_storage, audit, audit_log. cbn [footprint]. solve_within. Qed.
Lemma activate_within e token id : within (footprint ActivateWallet) (activate_wallet e token id : handler _).
Proof. unfold activate_wallet, on_storage, audit, audit_log. cbn [footprint]. solve_within. Qed.
Lemma role_change_within e token u r r' :
  within (footprint LogRoleChange) (log_role_change e token u r r' : handler _).
Proof.
  unfold log_role_change. apply within_bind; [|solve_within]. intros st. split.
  - intros n _. cbn. by rewrite audit_unattached.
  - by apply (keeps_audit (audited [] [])); [cbn; set_solver|set_solver].
Qed.
End WalletEndpoints.
#[export] Hint Resolve active_wallet_within : rsdk.

(** *** Grants and queries *)

Section GrantEndpoints.
Context {T C K M I : Type} `{RedbTableLaws T, RedbTxnLaws (Db T), DbCratesLaws, AuditCrates, HashCratesLaws}.
Context `{SolanaCrates, SolanaKeys K, Wasmtime M I}.
Context `{Serde AuditEvent, Serde PoolMetadata, Serde GrantRecord, Serde WalletMetadata}.
Context `{Serde (list Z), Serde Json}.
Abbreviation St := (AppState T C).
Abbreviation handler A := (act St ApiError A).

Lemma wallet_keypair_within sc io id u : within sc (load_wallet_keypair (K := K) io id u : handler _).
Proof. unfold load_wallet_keypair, on_storage. solve_within. Qed.
Lemma pool_meta_within sc io id : within sc (load_pool_meta io id : handler _).
Proof. unfold load_pool_meta. solve_within. Qed.
Hint Resolve wallet_keypair_within pool_meta_within : rsdk.

Lemma verify_script_within ts ks e drt :
  Compiled ∈ ks → within (audited ts ks) (verify_script e drt : handler _).
Proof.
  intros Hc. unfold verify_script, on_fetch. solve_within.
  - apply within_fs, writes_fetch. in_scope.
  - apply within_fs, writes_precompiled; in_scope.
Qed.
Lemma grant_right_within e token pool payload :
  within (footprint GrantRight) (grant_right (K := K) e token pool payload : handler _).
Proof.
  unfold grant_right, grant_lookup, index_best_effort, audit_grant, is_grant_active. cbn [footprint].
  solve_within; try (by apply verify_script_within; set_solver); eauto with rsdk.
Qed.
Lemma revoke_grant_within e token pool payload :
  within (footprint RevokeGrant) (revoke_grant (K := K) e token pool payload : handler _).
Proof.
  unfold revoke_grant, index_best_effort, audit_grant, revoke_grant_local. cbn [footprint].
  solve_within; eauto with rsdk.
Qed.
Lemma grant_status_within sc e pool analyst name :
  within sc (get_grant_status e pool analyst name : handler _).
Proof. unfold get_grant_status. solve_within; eauto with rsdk. Qed.
Lemma pool_grants_within sc e token pool : within sc (api_list_pool_grants e token pool : handler _).
Proof. unfold api_list_pool_grants, grant_lookup, list_pool_grants. solve_within; eauto with rsdk. Qed.
Lemma my_grants_within sc e io token : within sc (list_my_grants e io token : handler _).
Proof. unfold list_my_grants, grant_lookup, list_grants_by_analyst. solve_within. Qed.

Lemma precompiled_path re dir h wasm s a s' :
  ensure_precompiled re dir h wasm s = (Ok a, s') → a = precompile_cache_path dir h.
Proof.
  unfold ensure_precompiled. intros (u & _ & He)%lift_bind_ok.
  apply act_bind_ok in He as (b & s1 & _ & He). destruct b; [by injection He|].
  apply lift_bind_ok in He as (bytes & _ & He). apply act_bind_ok in He as (? & s2 & _ & He).
  apply act_bind_ok in He as (? & s3 & _ & He). by injection He.
Qed.
Lemma prime_cache_path re dir h wasm (st : St) a :
  (prime_cache re dir h wasm st).1 = Ok a → a = precompile_cache_path dir h.
Proof.
  unfold prime_cache. destruct (ensure_precompiled re dir h wasm (storage st)) as [[p|x] s] eqn:He;
    cbn [fst]; intros [= <-]; [by eapply precompiled_path|done].
Qed.
Lemma prime_cache_within ts ks re dir h wasm :
  Compiled ∈ ks → within (audited ts ks) (prime_cache re dir h wasm : handler _).
Proof.
  intros Hc st. unfold prime_cache.
  pose proof (writes_precompiled (ks ++ [AuditFile]) ltac:(set_solver) ltac:(set_solver) re dir h wasm) as Hw.
  pose proof (proj1 (Hw (storage st))) as Hf. by destruct (ensure_precompiled _ _ _ _ _) as [[] ?].
Qed.
Lemma data_query_within e token payload :
  within (footprint DataQuery) (data_query e token payload : handler _).
Proof.
  assert (Hi : within (audited [] [Compiled]) (data_query_inner e token payload : handler _)).
  { unfold data_query_inner, on_fetch, on_runtime, is_grant_active.
    do 6 (apply within_bind; [solve_within|intros ?]).
    apply within_bind; [apply within_map_err, within_fs, writes_fetch; in_scope|intros wasm].
    do 2 (apply within_bind; [solve_within|intros ?]).
    apply within_bind_ok; [apply prime_cache_within; set_solver|]. intros st path ->%prime_cache_path.
    apply within_bind; [|solve_within]. apply within_map_err, within_fs, writes_execute; in_scope. }
  intros st. unfold data_query. specialize (Hi st).
  destruct (data_query_inner e token payload st) as [r st1]. eapply keeps_trans; [exact Hi|].
  apply keeps_audit; in_scope.
Qed.
End GrantEndpoints.

(** *** Pools and credentials *)

Section PoolEndpoints.
Context {T C K Sec Pub : Type} `{RedbTableLaws T, RedbTxnLaws (Db T), DbCratesLaws, AuditCrates, HashCrates}.
Context `{SolanaLaws, SolanaKeys K, FromValue FieldType, CryptoCrates Sec Pub, CsvCrates, TextCrates}.
Context `{Serde AuditEvent, Serde PoolMetadata, Serde WalletMetadata, Serde (list Z), Serde Json}.
Context `{Serde (list FieldSchema), Serde DatasetFileMeta, Serde DatasetAnchor, Serde RevocationEntry}.
Context `{FromValue RevocationEntry}.
Abbreviation St := (AppState T C).
Abbreviation handler A := (act St ApiError A).

Hint Resolve wallet_keypair_within pool_meta_within : rsdk.

Lemma persist_within ts ks e m :
  POOL_TABLES ⊆ ts → PoolMeta ∈ ks → within (audited ts ks) (persist_pool_metadata e m : handler _).
Proof.
  unfold POOL_TABLES. intros Ht Hk. unfold persist_pool_metadata.
  solve_within.
Qed.
Lemma create_malta_within e token payload :
  within (footprint CreateMaltaPool) (create_malta_pool (K := K) e token payload : handler _).
Proof.
  unfold create_malta_pool, pool_audit_event. cbn [footprint].
  solve_within; first [by apply wallet_keypair_within | apply persist_within; set_solver].
Qed.
Lemma create_iob_within e token payload :
  within (footprint CreateIobErpPool) (create_iob_erp_pool (K := K) e token payload : handler _).
Proof.
  unfold create_iob_erp_pool, pool_audit_event. cbn [footprint].
  solve_within; first [by apply wallet_keypair_within | apply persist_within; set_solver].
Qed.
Lemma pool_info_within sc rpc io pool : within sc (get_pool_info rpc io pool : handler _).
Proof. unfold get_pool_info. solve_within. Qed.
Lemma get_drt_within sc rpc io pool name : within sc (get_drt rpc io pool name : handler _).
Proof. unfold get_drt. solve_within. Qed.
Lemma tx_events_within sc rpc sig : within sc (get_tx_events rpc sig : handler _).
Proof. unfold get_tx_events. solve_within. Qed.

Lemma load_meta_within sc io id : within sc (load_meta io id : handler _).
Proof. unfold load_meta. solve_within. Qed.
Lemma save_meta_within ts ks io id m : PoolMeta ∈ ks → within (audited ts ks) (save_pool_meta io id m : handler _).
Proof. intros Hk. unfold save_pool_meta. solve_within. Qed.
Lemma mirror_within ts ks env m : POOL_TABLES ⊆ ts → within (audited ts ks) (mirror_meta env m : handler _).
Proof. unfold POOL_TABLES. intros Ht. unfold mirror_meta. solve_within. Qed.
Lemma record_within ts ks env now id m :
  ISSUANCE_RECORDS ∈ ts → within (audited ts ks) (record_issuance env now id m : handler _).
Proof. intros Ht. unfold record_issuance. solve_within. Qed.
Lemma mirror_revocations_within ts ks db id entry cids :
  REVOCATIONS ∈ ts → within (audited ts ks) (mirror_revocations db id entry cids : handler _).
Proof. intros Ht. induction cids as [|cid rest IH]; cbn [mirror_revocations]; solve_within; exact IH. Qed.
Lemma check_csv_within sc io id csv mode : within sc (check_csv io id csv mode : handler _).
Proof. unfold check_csv. solve_within. Qed.
Lemma pool_dirs_within sc io1 io2 id : within sc (ensure_pool_dirs io1 io2 id : handler _).
Proof. unfold ensure_pool_dirs. solve_within. Qed.
Lemma writes_dataset ks io id r data :
  PoolDataset ∈ ks → AuditFile ∈ ks → writes ks (write_raw io (dataset_file id (r +:+ ".csv")) data).
Proof.
  intros Hd Ha. apply writes_atomic; [|done].
  eapply allowed_kind; [apply kind_dataset|by apply join_not_sealed|done].
Qed.
Lemma writes_anchor `{Serde A} ks io id r (a : A) :
  PoolMeta ∈ ks → AuditFile ∈ ks → writes ks (write_json io (dataset_file id (r +:+ ".meta.json")) a).
Proof.
  intros Hd Ha. apply writes_json; [|done]. split; [by intros k [->| ->]%kind_anchor|by apply join_not_sealed].
Qed.
Hint Resolve load_meta_within save_meta_within mirror_within record_within mirror_revocations_within
  check_csv_within pool_dirs_within writes_dataset writes_anchor : rsdk.
Hint Extern 1 (_ ∈ _ :: _) => set_solver : rsdk.

Lemma upload_schema_within e token pool payload :
  within (footprint UploadSchema) (upload_schema e token pool payload : handler _).
Proof. unfold upload_schema, log_event. cbn [footprint]. solve_within; eauto with rsdk. Qed.
Lemma get_schema_within sc e pool : within sc (get_schema e pool : handler _).
Proof. unfold get_schema. solve_within. Qed.
Lemma initialize_within enclave e token pool form :
  within (footprint InitializePool) (initialize_pool enclave e token pool form : handler _).
Proof.
  unfold initialize_pool, log_event. cbn [footprint].
  change "initial.csv" with ("initial" +:+ ".csv"). change "initial.meta.json" with ("initial" +:+ ".meta.json").
  solve_within; eauto with rsdk.
Qed.
Lemma issue_checks_within sc enclave e token pool form :
  within sc (issue_checks (K := K) enclave e token pool form : handler _).
Proof. unfold issue_checks. solve_within; eauto with rsdk. Qed.
Lemma issue_within enclave e token pool form :
  within (footprint IssueCredentials) (issue_credentials (K := K) enclave e token pool form : handler _).
Proof.
  unfold issue_credentials. apply within_bind; [apply issue_checks_within|].
  intros [[[[csv pda] meta] append] keypair]. unfold issue_locked, log_event. cbn [footprint]. 
  solve_within; eauto with rsdk.
Qed.
Lemma revoke_within e token pool payload :
  within (footprint RevokeCredentials) (revoke_credentials (K := K) e token pool payload : handler _).
Proof.
  unfold revoke_credentials, log_event. cbn [footprint]. apply within_bind; [solve_within|intros _].
  apply within_bind_ok; [solve_within|]. intros _ pda Hpda%ok_or_ok%pubkey_str_safe.
  solve_within; eauto with rsdk.
Qed.

(** What only reads. *)
Lemma revocations_within sc e pool p : within sc (api_list_revocations e pool p : handler _).
Proof. unfold api_list_revocations, db_query, db_or, list_revocations. solve_within. Qed.
Lemma pool_audit_within sc e pool q : within sc (pool_audit e pool q : handler _).
Proof. unfold pool_audit, db_query, db_or, list_audit_by_resource. solve_within. Qed.
Lemma pool_summary_within sc e pool : within sc (pool_summary e pool : handler _).
Proof. unfold pool_summary, db_or. solve_within. Qed.
Lemma pools_by_wallet_within sc e token id p : within sc (list_pools_by_wallet e token id p : handler _).
Proof. unfold list_pools_by_wallet, on_storage, db_query, list_pools_by_owner. solve_within. Qed.
Lemma all_pools_within sc e q : within sc (list_all_pools e q : handler _).
Proof. unfold list_all_pools, db_query, list_all_pool_metas. solve_within. Qed.
Lemma issuance_log_within sc e pool p : within sc (get_issuance_log e pool p : handler _).
Proof. unfold get_issuance_log, db_query, db_or, list_issuance_records. solve_within. Qed.
End PoolEndpoints.

(** *** Transactions *)

Section TransferEndpoints.
Context {T C K : Type} `{RedbTableLaws T, RedbTxnLaws (Db T), DbCratesLaws, SolanaCrates, TextCrates}.
Context `{SystemCrates, AuditCrates, SolanaKeys K, Lru C CacheEntry}.
Context `{SerdeLaws StoredTransaction, Serde WalletMetadata, Serde (list Z), Serde AuditEvent}.
Abbreviation St := (AppState T C).
Abbreviation handler A := (act St ApiError A).

Lemma within_adding {E A} src (m : act St E A) : adding src m → within (mkScope INDEXED []) m.
Proof.
  intros Hm st. destruct (Hm st) as ([Hn _] & Hs & Hk). split; [exact Hn|]. split; [by rewrite Hs|done].
Qed.
Lemma sync_within e w id : within (mkScope INDEXED []) (sync_wallet e w id : handler _).
Proof. apply within_best_effort. eapply within_adding, sync_adding. Qed.
Lemma owned_within sc e token id : within sc (owned_wallet e token id : handler _).
Proof. unfold owned_wallet, on_storage. solve_within. Qed.
Lemma estimate_within sc e token id payload : within sc (estimate_fee e token id payload : handler _).
Proof. unfold estimate_fee, owned_wallet, on_storage. solve_within. Qed.
Lemma balance_within sc e token id : within sc (get_balance e token id : handler _).
Proof. unfold get_balance, owned_wallet, on_storage. solve_within. Qed.
Lemma send_within e token id payload :
  within (footprint SendTransaction) (send_transaction (K := K) e token id payload : handler _).
Proof.
  unfold send_transaction, owned_wallet, on_storage, audit, audit_log. cbn [footprint]. solve_within.
Qed.
Lemma cached_page_within sc now a : within sc (cached_page now a : handler _).
Proof. intros st. unfold cached_page. by destruct (get_first_page _ _ _). Qed.
Lemma transactions_within e token id q :
  within (footprint ListTransactions) (list_transactions e token id q : handler _).
Proof.
  unfold list_transactions, list_fresh, tx_query. cbn [footprint].
  apply within_bind; [apply owned_within|intros w]. apply within_bind; [|intros [page|]; [apply within_ret|]].
  { destruct (lt_cursor q); [apply within_ret|apply cached_page_within]. }
  apply within_bind; [apply sync_within|intros _]. unfold list_by_wallet. solve_within.
  intros st. by repeat case_match.
Qed.
Lemma tx_status_within e token id sig :
  within (footprint GetTransactionStatus) (get_transaction_status e token id sig : handler _).
Proof.
  unfold get_transaction_status, tx_query. cbn [footprint].
  apply within_bind; [apply owned_within|intros w]. apply within_bind; [apply sync_within|intros _].
  unfold get_transaction. solve_within.
Qed.
End TransferEndpoints.
