(* ===== verification/Service.v ===== *)
(** * The service

    The server as a whole: a request is routed, its token is extracted and its
    handler runs on the shared state; between requests the background tasks take
    their turns, and the process may end and start again, with a new key and with
    what is stored.  The arguments of a handler are a [call]: what axum's extractors
    make of the path, the query and the body, with the environment of the run. *)
From S2P Require Import Prelude.
From S2P Require Import RustStr.
From S2P Require Import RustFmt.
From S2P Require Import Errors.
From S2P Require Import Types.
From S2P Require Import Interfaces.
From S2P Require Import TxDatabase.
From S2P Require Import Text.
From S2P Require Import TxScans.
From S2P Require Import Storage.
From S2P Require Import TxCache.
From S2P Require Import AppState.
From S2P Require Import Wallets.
From S2P Require Import DataValidation.
From S2P Require Import Http.
From S2P Require Import VerifiedFetch.
From S2P Require Import Runtime.
From S2P Require Import Query.
From S2P Require Import Auth.
From S2P Require Import AuthFacts.
From S2P Require Import DrtProgram.
From S2P Require Import Chain.
From S2P Require Import GrantApi.
From S2P Require Import PoolApi.
From S2P Require Import Upload.
From S2P Require Import EnclaveKey.
From S2P Require Import Credentials.
From S2P Require Import PoolViews.
From S2P Require Import SolanaRpc.
From S2P Require Import Indexer.
From S2P Require Import IndexerFacts.
From S2P Require Import Transfers.
From S2P Require Import Background.
From S2P Require Import Server.
From S2P Require Import Router.
From S2P Require Import Footprint.

Local Open Scope Z_scope.
#[local] Arguments String.append : simpl nomatch.

(** ** Calls *)

Section Calls.
Context {T K : Type} `{RedbTxn (Db T)}.

Inductive call :=
| CHealth (present : bool)
| CLiveness
| CReadiness (present : bool) (rpc_health : result string unit) (env : renv (Db T))
| CGetPublicKey
| COpenapiJson
| CAdminStatus (uptime : option Z)
| CGetMe
| CDataQuery (e : QueryEnv T) (payload : DataQueryRequest)
| CListWallets (e : ReqEnv T)
| CCreateWallet (e : ReqEnv T) (label : option string) (fresh_kp : K) (wallet_id : string)
| CGetWallet (e : ReqEnv T) (wallet_id : string)
| CDeleteWallet (e : ReqEnv T) (wallet_id : string)
| CGetBalance (e : TransferEnv T) (wallet_id : string)
| CEstimateFee (e : TransferEnv T) (wallet_id : string) (payload : EstimateFeeRequest)
| CSendTransaction (e : TransferEnv T) (wallet_id : string) (payload : SendTransactionRequest)
| CListTransactions (e : TransferEnv T) (wallet_id : string) (query : ListTransactionsQuery)
| CGetTransactionStatus (e : TransferEnv T) (wallet_id signature : string)
| CGetWalletStats (e : ReqEnv T)
| CListAllWallets (e : ReqEnv T) (limit offset : nat)
| CQueryAuditLogs (e : ReqEnv T) (valid_date : string → bool) (date : option string) (limit offset : nat)
| CSuspendWallet (e : ReqEnv T) (wallet_id : string)
| CActivateWallet (e : ReqEnv T) (wallet_id : string)
| CLogRoleChange (e : ReqEnv T) (target_user_id old_role new_role : string)
| CCreateMaltaPool (e : PoolEnv T) (payload : CreateMaltaPoolRequest)
| CCreateIobErpPool (e : PoolEnv T) (payload : CreateIobErpPoolRequest)
| CGetPool (rpc : Rpc) (io : io_fault) (pool_pda : string)
| CGetDrt (rpc : Rpc) (io : io_fault) (pool_pda drt_name : string)
| CGrantRight (e : GrantEnv T) (pool_pda : string) (payload : GrantRequest)
| CRevokeGrant (e : GrantEnv T) (pool_pda : string) (payload : GrantRequest)
| CGetGrantStatus (e : GrantEnv T) (pool_pda analyst_id drt_name : string)
| CListPoolGrants (e : GrantEnv T) (pool_pda : string)
| CListMyGrants (e : GrantEnv T) (io : string → io_fault)
| CGetTxEvents (rpc : Rpc) (signature : string)
| CUploadSchema (e : CredEnv T) (pool_pda : string) (payload : UploadSchemaRequest)
| CGetSchema (e : CredEnv T) (pool_pda : string)
| CInitializePool (e : CredEnv T) (pool_pda : string) (form : Multipart)
| CIssueCredentials (e : CredEnv T) (pool_pda : string) (form : Multipart)
| CRevokeCredentials (e : CredEnv T) (pool_pda : string) (payload : RevokeCredentialsRequest)
| CListRevocations (e : CredEnv T) (pool_pda : string) (p : PaginationQuery)
| CPoolAudit (e : CredEnv T) (pool_pda : string) (q : PoolAuditQuery)
| CPoolSummary (e : CredEnv T) (pool_pda : string)
| CGetIssuanceLog (e : CredEnv T) (pool_pda : string) (p : PaginationQuery)
| CListPoolsByWallet (e : CredEnv T) (wallet_id : string) (p : PaginationQuery)
| CListAllPools (e : CredEnv T) (q : ListAllPoolsQuery).
End Calls.
Arguments call T K {_}.

Definition endpoint_of {T K} `{RedbTxn (Db T)} (c : call T K) : endpoint :=
  match c with
  | CHealth _ => Health | CLiveness => Liveness | CReadiness _ _ _ => Readiness
  | CGetPublicKey => GetPublicKey | COpenapiJson => OpenapiJson
  | CAdminStatus _ => AdminStatus | CGetMe => GetMe | CDataQuery _ _ => DataQuery
  | CListWallets _ => ListWallets | CCreateWallet _ _ _ _ => CreateWallet
  | CGetWallet _ _ => GetWallet | CDeleteWallet _ _ => DeleteWallet
  | CGetBalance _ _ => GetBalance | CEstimateFee _ _ _ => EstimateFee
  | CSendTransaction _ _ _ => SendTransaction | CListTransactions _ _ _ => ListTransactions
  | CGetTransactionStatus _ _ _ => GetTransactionStatus
  | CGetWalletStats _ => GetWalletStats | CListAllWallets _ _ _ => ListAllWallets
  | CQueryAuditLogs _ _ _ _ _ => QueryAuditLogs
  | CSuspendWallet _ _ => SuspendWallet | CActivateWallet _ _ => ActivateWallet
  | CLogRoleChange _ _ _ _ => LogRoleChange
  | CCreateMaltaPool _ _ => CreateMaltaPool | CCreateIobErpPool _ _ => CreateIobErpPool
  | CGetPool _ _ _ => GetPool | CGetDrt _ _ _ _ => GetDrt
  | CGrantRight _ _ _ => GrantRight | CRevokeGrant _ _ _ => RevokeGrant
  | CGetGrantStatus _ _ _ _ => GetGrantStatus | CListPoolGrants _ _ => ListPoolGrants
  | CListMyGrants _ _ => ListMyGrants | CGetTxEvents _ _ => GetTxEvents
  | CUploadSchema _ _ _ => UploadSchema | CGetSchema _ _ => GetSchema
  | CInitializePool _ _ _ => InitializePool | CIssueCredentials _ _ _ => IssueCredentials
  | CRevokeCredentials _ _ _ => RevokeCredentials | CListRevocations _ _ _ => ListRevocations
  | CPoolAudit _ _ _ => PoolAudit | CPoolSummary _ _ => PoolSummary
  | CGetIssuanceLog _ _ _ => GetIssuanceLog | CListPoolsByWallet _ _ _ => ListPoolsByWallet
  | CListAllPools _ _ => ListAllPools
  end.

(** The parameters of the path, as the [Path] of the handler takes them. *)
Definition path_args {T K} `{RedbTxn (Db T)} (c : call T K) : list string :=
  match c with
  | CGetWallet _ id | CDeleteWallet _ id | CGetBalance _ id | CEstimateFee _ id _ | CSendTransaction _ id _
  | CListTransactions _ id _ | CSuspendWallet _ id | CActivateWallet _ id | CListPoolsByWallet _ id _ => [id]
  | CGetTransactionStatus _ id signature => [id; signature]
  | CGetPool _ _ pool | CGrantRight _ pool _ | CRevokeGrant _ pool _ | CListPoolGrants _ pool
  | CUploadSchema _ pool _ | CGetSchema _ pool | CInitializePool _ pool _ | CIssueCredentials _ pool _
  | CRevokeCredentials _ pool _ | CListRevocations _ pool _ | CPoolAudit _ pool _ | CPoolSummary _ pool
  | CGetIssuanceLog _ pool _ => [pool]
  | CGetDrt _ _ pool drt_name => [pool; drt_name]
  | CGetGrantStatus _ pool analyst drt_name => [pool; analyst; drt_name]
  | CGetTxEvents _ signature => [signature]
  | _ => []
  end.
(** Percent-decoding of a path segment to UTF-8. *)
Class UrlCrates := { percent_decode : string → option string }.
(** The call has the arguments of the path. *)
Definition fits {T K} `{RedbTxn (Db T), UrlCrates} (path : string) (c : call T K) : bool :=
  bool_decide ((select path ≫= λ pat, mapM percent_decode (params (segments pat) (segments path)))
                 = Some (path_args c)).

(** ** The service *)

Section Service.
Context {T C K M I Sec Pub J Tls : Type} `{RedbTable T, RedbTxn (Db T), Lru C CacheEntry, SolanaKeys K}.
Context `{Wasmtime M I, CryptoCrates Sec Pub, JwtCrates J, UrlCrates, TlsCrates Tls}.
Context `{DbCrates, AuditCrates, HashCrates, SolanaCrates, SystemCrates, CsvCrates, TextCrates}.
Context `{Serde AuditEvent, Serde WalletMetadata, Serde PoolMetadata, Serde GrantRecord}.
Context `{Serde StoredTransaction, Serde (list Z), Serde (list FieldSchema), Serde Json}.
Context `{Serde DatasetFileMeta, Serde DatasetAnchor, Serde RevocationEntry, Serde JwksResponse}.
Context `{FromValue FieldType, FromValue RevocationEntry}.
Abbreviation St := (AppState T C).

(** The status of the reply; the body is the handler's. *)
Definition answers {A} (code : Z) (m : act St ApiError A) : act St ApiError Z := _ ← m; mret code.

(** The handler of a call.  [key] is the key of the process and [jwks] the cache
    of the attestation service's keys. *)
Definition run_call (key : EnclaveKey Sec) (jwks : option (JwksCache J)) (c : call T K) (token : TokenData) :
    act St ApiError Z :=
  match c with
  | CHealth present => mret (health present).1
  | CLiveness | CGetPublicKey | COpenapiJson => mret 200
  | CReadiness present rpc_health env => reading (λ st, Ok (readiness present rpc_health jwks env (tx_db st)).1)
  | CAdminStatus _ => mret 200
  | CGetMe => mret 200
  | CDataQuery e payload => answers 200 (data_query e token payload)
  | CListWallets e => answers 200 (list_wallets e token)
  | CCreateWallet e label kp id => answers 201 (create_wallet e token label kp id)
  | CGetWallet e id => answers 200 (get_wallet e token id)
  | CDeleteWallet e id => answers 200 (delete_wallet e token id)
  | CGetBalance e id => answers 200 (get_balance e token id)
  | CEstimateFee e id payload => answers 200 (estimate_fee e token id payload)
  | CSendTransaction e id payload => answers 200 (send_transaction (K := K) e token id payload)
  | CListTransactions e id query => answers 200 (list_transactions e token id query)
  | CGetTransactionStatus e id sig => answers 200 (get_transaction_status e token id sig)
  | CGetWalletStats e => answers 200 (get_wallet_stats e token)
  | CListAllWallets e limit offset => answers 200 (admin_list_all_wallets e token limit offset)
  | CQueryAuditLogs e valid date limit offset => answers 200 (query_audit_logs e valid date limit offset)
  | CSuspendWallet e id => answers 200 (suspend_wallet e token id)
  | CActivateWallet e id => answers 200 (activate_wallet e token id)
  | CLogRoleChange e u r r' => answers 200 (log_role_change e token u r r')
  | CCreateMaltaPool e payload => answers 201 (create_malta_pool (K := K) e token payload)
  | CCreateIobErpPool e payload => answers 201 (create_iob_erp_pool (K := K) e token payload)
  | CGetPool rpc io pool => answers 200 (get_pool_info rpc io pool)
  | CGetDrt rpc io pool name => answers 200 (get_drt rpc io pool name)
  | CGrantRight e pool payload => answers 200 (grant_right (K := K) e token pool payload)
  | CRevokeGrant e pool payload => answers 200 (revoke_grant (K := K) e token pool payload)
  | CGetGrantStatus e pool analyst name => answers 200 (get_grant_status e pool analyst name)
  | CListPoolGrants e pool => answers 200 (api_list_pool_grants e token pool)
  | CListMyGrants e io => answers 200 (list_my_grants e io token)
  | CGetTxEvents rpc sig => answers 200 (get_tx_events rpc sig)
  | CUploadSchema e pool payload => answers 200 (upload_schema e token pool payload)
  | CGetSchema e pool => answers 200 (get_schema e pool)
  | CInitializePool e pool form => answers 200 (initialize_pool (private_key key) e token pool form)
  | CIssueCredentials e pool form => answers 200 (issue_credentials (K := K) (private_key key) e token pool form)
  | CRevokeCredentials e pool payload => answers 200 (revoke_credentials (K := K) e token pool payload)
  | CListRevocations e pool p => answers 200 (api_list_revocations e pool p)
  | CPoolAudit e pool q => answers 200 (pool_audit e pool q)
  | CPoolSummary e pool => answers 200 (pool_summary e pool)
  | CGetIssuanceLog e pool p => answers 200 (get_issuance_log e pool p)
  | CListPoolsByWallet e id p => answers 200 (list_pools_by_wallet e token id p)
  | CListAllPools e q => answers 200 (list_all_pools e q)
  end.

(** The server: its key and the cached keys of the attestation service are in the
    memory of the process; without a key no process runs. *)
Record Server := mkServer {
  sv_state : St; sv_jwks : option (JwksCache J); sv_key : option (EnclaveKey Sec) }.
(** The token of a handler without extractor. *)
Definition no_token : TokenData := mkTokenData "" "".
(** The reply: the status of a handler that ends, or that of an error. *)
Definition reply_of (r : result ApiError Z) : result Z Z := map_err status r.

(** A request: its arguments are a call of the endpoint, or the status with which
    the extractors refuse them; those of another endpoint or path do not fit. *)
Definition serve (audience : string) (key : EnclaveKey Sec) (q : request) (args : result Z (call T K))
    (s : Server) : result Z Z * Server :=
  let '(o, jwks) := dispatch audience (public_jwk key) q (sv_jwks s) in
  match o with
  | NoRoute => (Err 404, mkServer (sv_state s) jwks (sv_key s))
  | MethodNotAllowed => (Err 405, mkServer (sv_state s) jwks (sv_key s))
  | Refused code _ => (Err code, mkServer (sv_state s) jwks (sv_key s))
  | Reached ep token =>
      match args with
      | Err code => (Err code, mkServer (sv_state s) jwks (sv_key s))
      | Ok c =>
          if bool_decide (endpoint_of c = ep) && fits (rq_path q) c then
            let '(r, st) := run_call key jwks c (default no_token token) (sv_state s) in
            (reply_of r, mkServer st jwks (sv_key s))
          else (Err 400, mkServer (sv_state s) jwks (sv_key s))
      end
  end.

(** Whether the request is answered, by a running process and without an error. *)
Definition acknowledged (audience : string) (q : request) (args : result Z (call T K)) (s : Server) : bool :=
  match sv_key s with Some key => is_ok (serve audience key q args s).1 | None => false end.
(** No process: the files and the database are what is left of it. *)
Definition down (fs : Fs) (db : Db T) : Server :=
  mkServer (mkAppState fs db (cache_new TX_CACHE_CAPACITY TX_CACHE_TTL_SECS) None) None None.
(** [main]: the key of the process, then the state that it serves. *)
Definition start (e : BootEnv) (random : Sec) (fs : Fs) (db : Db T) : Server :=
  match (enclave_key random None).1 with
  | Err _ => down fs db
  | Ok key =>
      match boot (Tls := Tls) e (fs, db) with
      | (Ok (st, _), _) => mkServer st None (Some key)
      | (Err _, (fs', db')) => down fs' db'
      end
  end.

(** A process may end, by a shutdown or a crash, between any two of its steps. *)
Inductive event :=
| Request (q : request) (args : result Z (call T K))
| Tick (t : tick T)
| Start (e : BootEnv (T := T)) (random : Sec)
| Stop.
Definition step (audience : string) (net : NetworkConfig) (s : Server) (ev : event) : Server :=
  match ev with
  | Request q args => match sv_key s with Some key => (serve audience key q args s).2 | None => s end
  | Tick t =>
      match sv_key s with
      | Some _ => mkServer (task_turn INDEXER_ENABLED net (sv_state s) t) (sv_jwks s) (sv_key s)
      | None => s
      end
  | Start e random => start e random (storage (sv_state s)) (tx_db (sv_state s))
  | Stop => down (storage (sv_state s)) (tx_db (sv_state s))
  end.
Definition run (audience : string) (net : NetworkConfig) (s : Server) (evs : list event) : Server :=
  foldl (step audience net) s evs.
End Service.
Arguments event T K Sec {_}.

(** ** Who may change what *)

(** An entry of a table of the database, or a file. *)
Inductive item := Entry (n : TableDefinition) (k : string) | File (p : string).
Definition content {T C} `{RedbTable T} (x : item) (st : AppState T C) : option string :=
  match x with
  | Entry n k => t_get (tx_db st n) k
  | File p => files (storage st) !! p
  end.
Definition guarded (x : item) : bool :=
  match x with Entry _ _ => true | File p => bool_decide (is_Some (file_kind p)) end.
Definition kind_role (k : FileKind) : string :=
  match k with
  | WalletMeta | WalletKeypair => "user"
  | PoolMeta | PoolSchema | PoolRevocations | PoolDataset => "admin"
  | AuditFile | Compiled => "analyst"
  end.
(** The role that a change of the item takes.  The nonces are changed by the
    background purge only. *)
Definition table_role (n : TableDefinition) : option string :=
  match n with
  | POOL_METADATA | POOL_BY_OWNER | ISSUANCE_RECORDS | REVOCATIONS | GRANTS_BY_POOL
  | GRANTS_BY_ANALYST => Some "admin"
  | TRANSACTIONS | WALLET_TX_INDEX | ADDRESS_WALLET_MAP | INDEXER_STATE | WALLET_BY_OWNER => Some "user"
  | AUDIT_EVENTS | AUDIT_BY_RESOURCE | AUDIT_BY_DATE => Some "analyst"
  | NONCES => None
  end.
Definition minimum_role (x : item) : option string :=
  match x with
  | Entry n _ => table_role n
  | File p => kind_role <$> file_kind p
  end.
Definition may_change (ep : endpoint) (x : item) : Prop :=
  match x with
  | Entry n _ => n ∈ sc_tables (footprint ep)
  | File p => ∃ k, file_kind p = Some k ∧ k ∈ sc_files (footprint ep)
  end.

(** The role of an endpoint covers what it may change. *)
Definition covers (ep : endpoint) (x : item) : Prop :=
  ∃ have need, guard_of ep = Some have ∧ minimum_role x = Some need ∧ at_least have need.
Lemma at_least_trans r a b : at_least r a → at_least a b → at_least r b.
Proof. intros (x & y & ? & ? & ?) (y' & z & ? & ? & ?). simplify_eq. exists x, z. split_and!; [done..|lia]. Qed.
Definition rank_leb (need have : string) : bool :=
  match rank need, rank have with Some a, Some b => (a <=? b)%nat | _, _ => false end.
Lemma rank_leb_at_least need have : rank_leb need have = true → at_least have need.
Proof.
  unfold rank_leb, at_least. destruct (rank need) as [a|], (rank have) as [b|]; try done.
  intros Hl%Nat.leb_le. by exists b, a.
Qed.
Definition table_ok (have : string) (n : TableDefinition) : bool :=
  match table_role n with Some need => rank_leb need have | None => false end.
Definition footprint_ok (ep : endpoint) : bool :=
  match guard_of ep with
  | Some have => forallb (table_ok have) (sc_tables (footprint ep)) &&
                 forallb (λ k, rank_leb (kind_role k) have) (sc_files (footprint ep))
  | None => match sc_tables (footprint ep), sc_files (footprint ep) with [], [] => true | _, _ => false end
  end.
Lemma footprints_ok ep : footprint_ok ep = true.
Proof. by destruct ep; vm_compute. Qed.
Lemma may_change_covers ep x : may_change ep x → covers ep x.
Proof.
  intros Hm. pose proof (footprints_ok ep) as Hf. unfold footprint_ok in Hf. unfold covers.
  destruct (guard_of ep) as [have|].
  - apply andb_true_iff in Hf as [Ht Hk]. rewrite forallb_forall in Ht. rewrite forallb_forall in Hk.
    exists have. destruct x as [n k|p]; cbn [may_change] in Hm.
    + specialize (Ht n (proj1 (list_elem_of_In _ _) Hm)). unfold table_ok in Ht.
      cbn [minimum_role]. destruct (table_role n) as [need|]; [|done]. exists need. auto using rank_leb_at_least.
    + destruct Hm as (k & Hp & Hin). specialize (Hk k (proj1 (list_elem_of_In _ _) Hin)).
      exists (kind_role k). cbn [minimum_role]. rewrite Hp. auto using rank_leb_at_least.
  - destruct x as [n k|p]; cbn [may_change] in Hm.
    + destruct (sc_tables (footprint ep)); [set_solver|done].
    + destruct Hm as (k & _ & Hin). destruct (sc_tables (footprint ep)); [|done].
      destruct (sc_files (footprint ep)); [set_solver|done].
Qed.

Section Policy.
Context {T C K M I Sec Pub J Tls : Type} `{RedbTableLaws T, RedbTxnLaws (Db T), Lru C CacheEntry, SolanaKeys K}.
Context `{Wasmtime M I, CryptoCrates Sec Pub, JwtLaws J, UrlCrates, TlsCrates Tls}.
Context `{DbCratesLaws, AuditCrates, HashCratesLaws, SolanaLaws, SystemCrates, CsvCrates, TextCrates}.
Context `{Serde AuditEvent, Serde WalletMetadata, Serde PoolMetadata, Serde GrantRecord}.
Context `{SerdeLaws StoredTransaction, Serde (list Z), Serde (list FieldSchema), Serde Json}.
Context `{Serde DatasetFileMeta, Serde DatasetAnchor, Serde RevocationEntry, Serde JwksResponse}.
Context `{FromValue FieldType, FromValue RevocationEntry}.
Abbreviation St := (AppState T C).
Abbreviation Server := (Server (T := T) (C := C) (Sec := Sec) (J := J)).

Lemma answers_within {A} sc code (m : act St ApiError A) : within sc m → within sc (answers code m).
Proof. intros Hm. apply within_bind; [done|]. intros _. apply within_ret. Qed.
Lemma run_call_within (key : EnclaveKey Sec) (jwks : option (JwksCache J)) (c : call T K) token :
  within (footprint (endpoint_of c)) (run_call key jwks c token : act St ApiError Z).
Proof.
  destruct c; cbn [run_call endpoint_of]; try apply within_ret; try apply within_reading; apply answers_within.
  - apply data_query_within.
  - apply list_wallets_within.
  - apply create_wallet_within.
  - apply get_wallet_within.
  - apply delete_wallet_within.
  - apply balance_within.
  - apply estimate_within.
  - apply send_within.
  - apply transactions_within.
  - apply tx_status_within.
  - apply wallet_stats_within.
  - apply all_wallets_within.
  - apply audit_logs_within.
  - apply suspend_within.
  - apply activate_within.
  - apply role_change_within.
  - apply create_malta_within.
  - apply create_iob_within.
  - apply pool_info_within.
  - apply get_drt_within.
  - apply grant_right_within.
  - apply revoke_grant_within.
  - apply grant_status_within.
  - apply pool_grants_within.
  - apply my_grants_within.
  - apply tx_events_within.
  - apply upload_schema_within.
  - apply get_schema_within.
  - apply initialize_within.
  - apply issue_within.
  - apply revoke_within.
  - apply revocations_within.
  - apply pool_audit_within.
  - apply pool_summary_within.
  - apply issuance_log_within.
  - apply pools_by_wallet_within.
  - apply all_pools_within.
Qed.
#[local] Instance may_change_dec ep x : Decision (may_change ep x).
Proof.
  destruct x as [n k|p]; cbn [may_change]; [apply _|]. destruct (file_kind p) as [k|].
  - destruct (decide (k ∈ sc_files (footprint ep))) as [Hk|Hk]; [left; eauto|right].
    intros (k' & [= <-] & ?). done.
  - right. by intros (k & ? & _).
Defined.
Lemma within_content ep (st st' : St) x :
  keeps (footprint ep) st st' → guarded x = true → ¬ may_change ep x → content x st' = content x st.
Proof.
  intros (Ht & Hf & _) Hg Hx. destruct x as [n k|p]; cbn in *; [by rewrite Ht|].
  apply bool_decide_eq_true in Hg as [k Hk]. apply (proj1 Hf p k Hk). eauto.
Qed.
Lemma tick_content net (st : St) t x :
  guarded x = true → content x (task_turn INDEXER_ENABLED net st t) ≠ content x st →
  ∃ env now k, t = NonceTick env now ∧ x = Entry NONCES k.
Proof.
  intros _ Hx. destruct t as [env e|env now]; [done|]. exists env, now.
  destruct (purge_turn_confined env now st) as [Hs _ Ht]. cbn [task_turn] in Hx.
  destruct x as [n k|p]; cbn [content] in Hx; [|by rewrite Hs in Hx].
  destruct (decide (n = NONCES)) as [->|Hn]; [by exists k|]. rewrite Ht in Hx; [done|set_solver].
Qed.

(** The end of a process, and a start whether it succeeds or not, keep what is
    stored and nothing else. *)
Record restarted (s s' : Server) : Prop := {
  rt_files : files (storage (sv_state s')) = files (storage (sv_state s));
  rt_db : tx_db (sv_state s') = tx_db (sv_state s);
  rt_audit : audit_key (sv_state s') = None;
  rt_jwks : sv_jwks s' = None }.
Lemma down_restarted (s : Server) fs :
  files fs = files (storage (sv_state s)) → restarted s (down fs (tx_db (sv_state s))).
Proof. intros Hf. by split. Qed.
Lemma start_restarted e random (s : Server) :
  restarted s (start (Tls := Tls) e random (storage (sv_state s)) (tx_db (sv_state s))).
Proof.
  unfold start. destruct (enclave_key random None).1 as [k|]; [|by apply down_restarted].
  pose proof (boot_disk (C := C) (Tls := Tls) e (storage (sv_state s), tx_db (sv_state s))) as [Hf Hd].
  destruct (boot e _) as [[[st tls]|x] [fs db]] eqn:Hb; cbn [fst snd] in *; [|subst db; by apply down_restarted].
  apply boot_ok in Hb as (_ & _ & _ & Hf' & Hd' & Hk & _). by split.
Qed.

Lemma restarted_content x (s s' : Server) :
  restarted s s' → content x (sv_state s') = content x (sv_state s).
Proof. intros [Hf Hd _ _]. destruct x as [n k|p]; cbn [content]; [by rewrite Hd|by rewrite Hf]. Qed.

Context (audience : string) (net : NetworkConfig).
(** The environments of the requests since the start of the process, the last one
    first. *)
Definition auth_envs (evs : list (event T K Sec)) : list AuthEnv :=
  foldl (λ envs ev, match ev with
                    | Request q _ => rq_env q :: envs
                    | Tick _ => envs
                    | Start _ _ | Stop => []
                    end) [] evs.
(** The call runs with the token's data, authentic for the role of its endpoint. *)
Definition caller (key : EnclaveKey Sec) (envs : list AuthEnv) (q : request) (c : call T K) (tok : option TokenData) : Prop :=
  match guard_of (endpoint_of c) with
  | Some need => ∃ td, tok = Some td ∧ authentic (K := J) audience (public_jwk key) envs q td need
  | None => tok = None
  end.
(** What a request comes to: an error that leaves the state alone, or the run of
    the call of its arguments. *)
Inductive outcome (key : EnclaveKey Sec) (envs : list AuthEnv) (s : Server) (q : request) (args : result Z (call T K)) :
    result Z Z * Server → Prop :=
| OutcomeError code jwks :
    cache_from (rq_env q :: envs) jwks → outcome key envs s q args (Err code, mkServer (sv_state s) jwks (sv_key s))
| OutcomeRun c tok jwks r st :
    cache_from (rq_env q :: envs) jwks → args = Ok c → fits (rq_path q) c = true →
    (dispatch audience (public_jwk key) q (sv_jwks s)).1 = Reached (endpoint_of c) tok →
    caller key envs q c tok → run_call key jwks c (default no_token tok) (sv_state s) = (r, st) →
    outcome key envs s q args (reply_of r, mkServer st jwks (sv_key s)).
Lemma serve_outcome key envs (s : Server) q args :
  cache_from envs (sv_jwks s) → outcome key envs s q args (serve audience key q args s).
Proof.
  intros Hc. unfold serve. pose proof (dispatch_spec audience (public_jwk key) q (sv_jwks s) envs Hc) as Hd.
  destruct (dispatch audience (public_jwk key) q (sv_jwks s)) as [o jwks] eqn:Ho. destruct Hd as [Hj Hd].
  destruct o as [| |code msg|ep tok]; try by constructor. destruct args as [c|n]; [|by constructor].
  case_bool_decide as He; [|by constructor]. subst ep. destruct (fits (rq_path q) c) eqn:Hf; [|by constructor].
  destruct (run_call key jwks c (default no_token tok) (sv_state s)) as [r st] eqn:Hr.
  eapply OutcomeRun; [done..|by rewrite Ho|exact (proj2 Hd)|done].
Qed.

(** The request [q], after the requests with [envs], is one that may change [x]:
    the router hands it, with the arguments of its path, to a handler with [x] in
    its footprint, with the data of
    an authentic token of the role that [x] takes. *)
Definition authorised (key : EnclaveKey Sec) (envs : list AuthEnv) (jwks : option (JwksCache J)) (q : request)
    (args : result Z (call T K)) (x : item) : Prop :=
  ∃ c td need, args = Ok c ∧ fits (rq_path q) c = true ∧ (dispatch audience (public_jwk key) q jwks).1 = Reached (endpoint_of c) (Some td) ∧
    may_change (endpoint_of c) x ∧ minimum_role x = Some need ∧
    authentic (K := J) audience (public_jwk key) envs q td need.

Lemma serve_content key envs (s : Server) q args x :
  cache_from envs (sv_jwks s) → guarded x = true →
  content x (sv_state (serve audience key q args s).2) ≠ content x (sv_state s) →
  authorised key envs (sv_jwks s) q args x.
Proof.
  intros Hc Hg. destruct (serve_outcome key envs s q args Hc) as [|c tok jwks r st _ -> Hfit Hd Hcall Hr]; [done|].
  cbn [snd sv_state]. intros Hx.
  pose proof (run_call_within key jwks c (default no_token tok) (sv_state s)) as Hw.
  rewrite Hr in Hw. cbn [snd] in Hw.
  destruct (decide (may_change (endpoint_of c) x)) as [Hm|Hm];
    [|by rewrite (within_content _ _ _ _ Hw Hg Hm) in Hx].
  destruct (may_change_covers _ _ Hm) as (have & need & Hh & Hn & Hl). unfold caller in Hcall. rewrite Hh in Hcall.
  destruct Hcall as (td & -> & token & keys & Ha & Hk & Hv & Hrole). exists c, td, need.
  split_and!; [done..|]. exists token, keys. split_and!; [done..|]. by eapply at_least_trans.
Qed.
Lemma serve_jwks key envs (s : Server) q args :
  cache_from envs (sv_jwks s) → cache_from (rq_env q :: envs) (sv_jwks (serve audience key q args s).2).
Proof. intros Hc. by destruct (serve_outcome key envs s q args Hc). Qed.
Lemma serve_key key (s : Server) q args : sv_key (serve audience key q args s).2 = sv_key s.
Proof.
  unfold serve. destruct (dispatch _ _ _ _) as [[| |code msg|ep tok] jwks]; [done..|].
  destruct args as [c|n]; [|done]. destruct (_ && _); [|done]. by destruct (run_call _ _ _ _ _).
Qed.
Lemma run_snoc (s : Server) evs ev : run audience net s (evs ++ [ev]) = step audience net (run audience net s evs) ev.
Proof. unfold run. by rewrite foldl_app. Qed.
Lemma run_jwks (s : Server) evs :
  sv_jwks s = None → cache_from (auth_envs evs) (sv_jwks (run audience net s evs)).
Proof.
  intros Hs. induction evs as [|ev evs IH] using rev_ind; [by intros c; cbn; rewrite Hs|].
  rewrite run_snoc. unfold auth_envs in *. rewrite foldl_app. cbn [foldl].
  destruct ev as [q args|t|e r|]; cbn [step].
  - destruct (sv_key _) as [key|]; [by apply serve_jwks|]. intros c Hc. destruct (IH c Hc) as (x & Hx & Hk).
    exists x. split; [by right|done].
  - by destruct (sv_key _).
  - intros c. rewrite (rt_jwks _ _ (start_restarted e r _)). done.
  - by intros c.
Qed.
(** An event is a turn, a start or an end, a request that leaves the state alone,
    or the run of a call. *)
Lemma event_cases (s : Server) evs ev :
  sv_jwks s = None →
  let before := run audience net s evs in
  let after := step audience net before ev in
  (∃ t, ev = Tick t ∧ sv_state after = task_turn INDEXER_ENABLED net (sv_state before) t) ∨
  sv_state after = sv_state before ∨
  (ev = Stop ∨ ∃ e r, ev = Start e r) ∧ restarted before after ∨
  ∃ key q c tok jwks, ev = Request q (Ok c) ∧ sv_key before = Some key ∧
    caller key (auth_envs evs) q c tok ∧ fits (rq_path q) c = true ∧
    (dispatch audience (public_jwk key) q (sv_jwks before)).1 = Reached (endpoint_of c) tok ∧
    sv_state after = (run_call (M := M) (I := I) key (jwks : option (JwksCache J)) c (default no_token tok) (sv_state before)).2.
Proof.
  intros Hj. cbv zeta. pose proof (run_jwks s evs Hj) as Hc. set (before := run audience net s evs) in *.
  destruct ev as [q args|t|e r|]; cbn [step].
  - destruct (sv_key before) as [key|] eqn:Hk; [|by right; left]. right.
    destruct (serve_outcome key _ _ q args Hc) as [|c tok jwks r st _ -> Hfit Hd Hcall Hr]; [by left|right; right].
    exists key, q, c, tok, jwks. by rewrite Hr.
  - destruct (sv_key before); [left; by exists t|by right; left].
  - right; right; left. split; [right; eauto|apply start_restarted].
  - right; right; left. split; [by left|by apply down_restarted].
Qed.

(** C3: every change is authorised.  Take any history of requests, with any
    arguments and any failures, turns of the background tasks, ends of the process
    and new starts.  If a wallet's
    or a pool's file, a compiled script, the audit log or an entry of a table is not what it was, the
    history has an event that changed it: a turn of the purge, for a nonce, or a
    request that the router gave to a handler whose footprint has it, with the data
    of an authentic and current token bound to this enclave of the role it takes -
    the admin role for pools, datasets, revocations and rights, the user role for
    wallets, keys and transactions, the analyst role for the audit log. *)
Theorem changes_authorised (s : Server) (evs : list (event T K Sec)) (x : item) (Hg : guarded x = true)
    (Hs : sv_jwks s = None)
    (Hx : content x (sv_state (run audience net s evs)) ≠ content x (sv_state s)) :
  ∃ pre ev post, evs = pre ++ ev :: post ∧
    let before := run audience net s pre in
    content x (sv_state (step audience net before ev)) ≠ content x (sv_state before) ∧
    match ev with
    | Request q args =>
        ∃ key, sv_key before = Some key ∧ authorised key (auth_envs pre) (sv_jwks before) q args x
    | Tick t => ∃ env now k, t = NonceTick env now ∧ x = Entry NONCES k
    | Start _ _ | Stop => False
    end.
Proof.
  induction evs as [|ev evs IH] using rev_ind; [done|].
  destruct (decide (content x (sv_state (run audience net s evs)) = content x (sv_state s))) as [He|He].
  - exists evs, ev, []. split; [done|]. cbv zeta. rewrite run_snoc, <-He in Hx. split; [exact Hx|].
    pose proof (run_jwks s evs Hs) as Hc. destruct ev as [q args|t|e r|]; cbn [step] in Hx.
    + destruct (sv_key (run audience net s evs)) as [key|] eqn:Hk; [|done]. exists key. split; [done|].
      by eapply serve_content.
    + destruct (sv_key _); [|done]. cbn [sv_state] in Hx. by apply (tick_content net _ t x Hg Hx).
    + by apply Hx, restarted_content, start_restarted.
    + by apply Hx, restarted_content, down_restarted.
  - destruct (IH He) as (pre & ev' & post & -> & Hrest). exists pre, ev', (post ++ [ev]).
    split; [by rewrite <-app_assoc|exact Hrest].
Qed.
End Policy.

(** ** Examples *)

From S2P Require Import Instances.
From S2P Require Import AuditLog.
From S2P Require Import WalletFacts.
From S2P Require Import FetchFacts.
From S2P Require Import Mean.
From S2P Require Import MeanFacts.
From S2P Require Import MeanHost.
From S2P Require Import QueryFacts.
From S2P Require Import DrtProgramFacts.
From S2P Require Import PoolFacts.
From S2P Require Import PoolExamples.
From S2P Require Import TransferFacts.

#[export] Instance url0 : UrlCrates := { percent_decode s := if no_char "%" s then Some s else None }.
#[export] Instance tls0 : TlsCrates unit := { from_pem _ _ := Ok (); from_der _ _ := Ok () }.
Definition boot0 : BootEnv (T := table0) := mkBootEnv IoOk None env0 true true (Ok "cert") (Ok "key").
#[local] Instance wasm_mean : Wasmtime unit Guest := mean_wasmtime guest1.
Definition key0 : EnclaveKey ascii := mkEnclaveKey "k"%char enclave0.
(** The key of a process that draws the secret "k". *)
Definition key1 : EnclaveKey ascii :=
  match (enclave_key "k"%char None).1 with Ok key => key | Err _ => key0 end.
Definition server0 : Service.Server (T := table0) (C := lru1) (Sec := ascii) (J := string) := mkServer wst0 None (Some key0).
Definition create_request : request := mkRequest MPost "/v1/wallets" (Some "Bearer token") auth_env0.
Definition create_call : call table0 bool := CCreateWallet req0 None true "w1".
Definition history0 : list (event table0 bool ascii) :=
  [Tick (NonceTick env0 5); Request create_request (Ok create_call); Stop; Start boot0 "k"%char].
Definition anonymous : request := mkRequest MPost "/v1/wallets" None auth_env0.
Definition keypair0 : item := File "/data/wallets/w1/keypair.json".
Abbreviation run0 := (run (C := lru1) (M := unit) (I := Guest) (J := string) "relational-sdk" network_config_from_env server0).

(** A request without a token is refused, and changes nothing. *)
Lemma anonymous_refused :
  (serve (M := unit) (I := Guest) "relational-sdk" key0 anonymous (Ok create_call) server0).1 = Err 401 ∧
  (serve (M := unit) (I := Guest) "relational-sdk" key0 create_request (Ok create_call) server0).1 = Ok 201.
Proof. split; vm_compute; reflexivity. Qed.
Lemma changes_authorised_witness :
  guarded keypair0 = true ∧
  ∃ pre ev post, history0 = pre ++ ev :: post ∧
    content keypair0 (sv_state (step (M := unit) (I := Guest) "relational-sdk" network_config_from_env (run0 pre) ev)) ≠
      content keypair0 (sv_state (run0 pre)) ∧
    match ev with
    | Request q args =>
        ∃ key, sv_key (run0 pre) = Some key ∧
          authorised "relational-sdk" key (auth_envs pre) (sv_jwks (run0 pre)) q args keypair0
    | Tick t => ∃ env now k, t = NonceTick env now ∧ keypair0 = Entry NONCES k
    | Start _ _ | Stop => False
    end.
Proof.
  assert (Hg : guarded keypair0 = true) by (vm_compute; reflexivity). split; [exact Hg|].
  assert (Hx : bool_decide (content keypair0 (sv_state (run0 history0)) ≠ content keypair0 (sv_state server0)) = true)
    by (vm_compute; reflexivity).
  exact (changes_authorised (M := unit) (I := Guest) "relational-sdk" network_config_from_env server0 history0 keypair0 Hg
    eq_refl (bool_decide_eq_true_1 _ Hx)).
Defined.
