(* ===== verification/Trail.v ===== *)
(** * The audit trail of the handlers

    What the handlers under src/src/api add to the audit log: a handler leaves the
    log alone but for at most one event, recorded when the rest is done, which
    names the caller.  [rule] says which events the code promises of an endpoint. *)
From S2P Require Import Prelude.
From S2P Require Import RustStr.
From S2P Require Import RustFmt.
From S2P Require Import Errors.
From S2P Require Import Types.
From S2P Require Import Interfaces.
From S2P Require Import TxDatabase.
From S2P Require Import TxScans.
From S2P Require Import Text.
From S2P Require Import Storage.
From S2P Require Import TxCache.
From S2P Require Import AppState.
From S2P Require Import Wallets.
From S2P Require Import DataValidation.
From S2P Require Import Http.
From S2P Require Import VerifiedFetch.
From S2P Require Import Runtime.
From S2P Require Import Query.
From S2P Require Import DrtProgram.
From S2P Require Import Chain.
From S2P Require Import GrantApi.
From S2P Require Import PoolApi.
From S2P Require Import Upload.
From S2P Require Import Credentials.
From S2P Require Import PoolViews.
From S2P Require Import SolanaRpc.
From S2P Require Import Indexer.
From S2P Require Import IndexerFacts.
From S2P Require Import Transfers.
From S2P Require Import Router.
From S2P Require Import Footprint.

Local Open Scope Z_scope.
#[local] Arguments String.append : simpl nomatch.

(** ** Runs *)

Section Runs.
Context {T C : Type} `{RedbTableLaws T, RedbTxnLaws (Db T), DbCratesLaws, AuditCrates, Serde AuditEvent}.
Abbreviation St := (AppState T C).

(** A call of [AuditRepository::log]. *)
Definition Entry : Type := AuditIo * option (renv (Db T)) * AuditEvent.
(** Neither the log nor its key changes. *)
Definition still (st st' : St) : Prop :=
  quiet (storage st) (storage st') ∧ audit_key st' = audit_key st.
#[export] Instance still_preorder : PreOrder still.
Proof.
  split; [by split|]. intros st1 st2 st3 [Hq Hk] [Hq' Hk']. split; [|congruence].
  intros p Hp Ha. by rewrite Hq', Hq.
Qed.
(** From [st] to [st'] the entries are appended to the log, in this order. *)
Inductive audits : list Entry → St → St → Prop :=
| AuditsNone st st' : still st st' → audits [] st st'
| AuditsOne ai db ev st : audits [(ai, db, ev)] st (audit_log_event ai db ev st)
| AuditsApp tr tr' st1 st2 st3 : audits tr st1 st2 → audits tr' st2 st3 → audits (tr ++ tr') st1 st3.

Definition silent {E A} (m : act St E A) : Prop := ∀ st, still st (m st).2.
(** An action and the entries of its successes and of its failures. *)
Definition logs {E A} (P : bool → list Entry → Prop) (m : act St E A) : Prop :=
  ∀ st, ∃ tr, audits tr st (m st).2 ∧ P (is_ok (m st).1) tr.

Section Silence.
Context {E F : Type}.
Lemma silent_ret {A} (a : A) : silent (mret a : act St E A).
Proof. by intros st. Qed.
Lemma silent_lift {A} (r : result E A) : silent (lift r : act St E A).
Proof. by intros st. Qed.
Lemma silent_fail {A} (x : E) : silent (fail x : act St E A).
Proof. by intros st. Qed.
Lemma silent_reading {A} (f : St → result E A) : silent (reading f).
Proof. by intros st. Qed.
Lemma silent_bind_ok {A B} (m : act St E A) (f : A → act St E B) :
  silent m → (∀ st a, (m st).1 = Ok a → silent (f a)) → silent (m ≫= f).
Proof.
  intros Hm Hf st. rewrite act_bind_eq. specialize (Hm st). pose proof (λ a, Hf st a) as Hfa.
  destruct (m st) as [[a|x] st']; simpl in *; [|done]. etrans; [exact Hm|by apply Hfa].
Qed.
Lemma silent_bind {A B} (m : act St E A) (f : A → act St E B) :
  silent m → (∀ a, silent (f a)) → silent (m ≫= f).
Proof. intros Hm Hf. by apply silent_bind_ok. Qed.
Lemma silent_map_err {A} (f : F → E) (m : act St F A) : silent m → silent (act_map_err f m).
Proof. intros Hm st. apply Hm. Qed.
Lemma silent_best_effort {A} (m : act St F A) : silent m → silent (best_effort m : act St E unit).
Proof. intros Hm st. apply Hm. Qed.
Lemma silent_caught {A} (m : act St F A) : silent m → silent (caught m : act St E (result F A)).
Proof. intros Hm st. apply Hm. Qed.
Lemma silent_db {A} (m : act (Db T) E A) : silent (zoom tx_db set_tx_db m : act St E A).
Proof. by intros st. Qed.
Lemma silent_cache (f : St → TxCache C) : silent (updating (λ st, set_tx_cache (f st) st) : act St E unit).
Proof. by intros st. Qed.
Lemma silent_fs {A} ks (m : act Fs E A) : writes ks m → silent (zoom storage set_storage m : act St E A).
Proof. intros Hm st. split; [apply Hm|done]. Qed.
(** What changes no kind of file leaves the log alone. *)
Lemma silent_within {A} ts (m : act St E A) : within (mkScope ts []) m → silent m.
Proof.
  intros Hm st. destruct (Hm st) as (_ & [Hf _] & Hk). split; [|apply Hk; cbn; set_solver].
  intros p _ Hp. assert (Hs : is_Some (file_kind p)).
  { unfold file_kind. rewrite Hp. repeat case_match; by eexists. }
  destruct Hs as [k Hs]. apply (Hf p k Hs). cbn. set_solver.
Qed.
Lemma silent_reader {A} (m : act St E A) : within nothing m → silent m.
Proof. apply silent_within. Qed.
End Silence.

Section Logs.
Context {E : Type} (P : bool → list Entry → Prop).
Lemma logs_silent {A} (m : act St E A) : silent m → P true [] → P false [] → logs P m.
Proof. intros Hm Ht Hf st. exists []. split; [by apply AuditsNone|]. by destruct (is_ok _). Qed.
Lemma logs_ret {A} (a : A) : P true [] → logs P (mret a : act St E A).
Proof. intros Ht st. exists []. split; [by apply AuditsNone|done]. Qed.
Lemma logs_bind_ok {A B} (m : act St E A) (f : A → act St E B) :
  silent m → P false [] → (∀ st a, (m st).1 = Ok a → logs P (f a)) → logs P (m ≫= f).
Proof.
  intros Hm Hp Hf st. rewrite act_bind_eq. specialize (Hm st). pose proof (λ a, Hf st a) as Hfa.
  destruct (m st) as [[a|x] st'].
  - destruct (Hfa a eq_refl st') as (tr & Ha & Ho). exists tr. split; [|done].
    apply (AuditsApp [] tr st st'); [by apply AuditsNone|done].
  - exists []. split; [by apply AuditsNone|done].
Qed.
Lemma logs_bind {A B} (m : act St E A) (f : A → act St E B) :
  silent m → P false [] → (∀ a, logs P (f a)) → logs P (m ≫= f).
Proof. intros Hm Hp Hf. by apply logs_bind_ok. Qed.
Lemma logs_audit {A} ai db ev (a : A) :
  P true [(ai, db, ev)] → logs P (_ ← updating (audit_log_event ai db ev); mret a : act St E A).
Proof. intros Hp st. eexists. split; [apply AuditsOne|done]. Qed.
Lemma logs_audit_fail {A} ai db ev (x : E) :
  P false [(ai, db, ev)] → logs P (_ ← updating (audit_log_event ai db ev); fail x : act St E A).
Proof. intros Hp st. eexists. split; [apply AuditsOne|done]. Qed.
End Logs.

(** ** Rules *)

Inductive rule :=
| Never
| OnSuccess (ai : AuditIo) (ty : AuditEventType) (res : option (string * string))
| Always (ai : AuditIo) (ty : AuditEventType) (res : option (string * string))
| OrFailure (ai : AuditIo) (ty failed : AuditEventType) (res : option (string * string)).
(** An event of the caller about the resource. *)
Definition describes (user : string) (ty : AuditEventType) (res : option (string * string))
    (ev : AuditEvent) : Prop :=
  a_user_id ev = Some user ∧ a_event_type ev = ty ∧
  match res with
  | Some (rt, ri) => a_resource_type ev = Some rt ∧ a_resource_id ev = Some ri
  | None => True
  end.
Definition one_event (user : string) (ai : AuditIo) (ty : AuditEventType) (res : option (string * string))
    (tr : list Entry) : Prop :=
  ∃ db ev, tr = [(ai, db, ev)] ∧ describes user ty res ev.
Definition obeys (user : string) (r : rule) (ok : bool) (tr : list Entry) : Prop :=
  match r with
  | Never => tr = []
  | OnSuccess ai ty res => if ok then one_event user ai ty res tr else tr = []
  | Always ai ty res => one_event user ai ty res tr
  | OrFailure ai ty failed res =>
      if ok then one_event user ai ty res tr else tr = [] ∨ one_event user ai failed res tr
  end.
End Runs.
Arguments Entry T {_}.
#[export] Hint Resolve silent_ret silent_lift silent_fail silent_reading silent_db silent_cache : rsdk.

Definition all_kinds : list FileKind :=
  [WalletMeta; WalletKeypair; PoolMeta; PoolSchema; PoolRevocations; PoolDataset; AuditFile; Compiled].
#[export] Hint Extern 1 (_ ∈ all_kinds) => (unfold all_kinds; set_solver) : rsdk.

(** Follow an action that leaves the log alone. *)
Ltac solve_silent :=
  repeat first
    [ match goal with |- ∀ _, _ => intro end
    | apply silent_ret | apply silent_lift | apply silent_fail | apply silent_reading
    | apply silent_cache | apply silent_db
    | apply silent_map_err | apply silent_best_effort | apply silent_caught
    | solve [apply (silent_fs all_kinds); eauto with rsdk]
    | solve [eauto with rsdk]
    | apply silent_bind
    | match goal with |- silent (match ?x with _ => _ end) => destruct x end
    | match goal with |- silent (if ?x then _ else _) => destruct x end ].
(** The event that ends a handler. *)
Ltac the_event := solve [repeat (eexists || split); reflexivity].
(** Follow a handler up to its event. *)
Ltac solve_logs :=
  repeat first
    [ match goal with |- ∀ _, _ => intro end
    | apply logs_audit; the_event
    | apply logs_audit_fail; right; the_event
    | apply logs_bind; [solve_silent|first [reflexivity|by left]|]
    | match goal with |- logs _ (match ?x with _ => _ end) => destruct x end ].

(** ** The handlers *)

Section Wallets.
Context {T C K : Type} `{RedbTableLaws T, RedbTxnLaws (Db T), DbCratesLaws, AuditCrates, SolanaKeys K}.
Context `{Serde AuditEvent, Serde WalletMetadata, Serde (list Z)}.
Abbreviation St := (AppState T C).
Abbreviation handler A := (act St ApiError A).

Lemma create_wallet_logs e token label kp id :
  logs (obeys (sub token) (OnSuccess (re_audit e) WalletCreated (Some ("wallet", id))))
    (create_wallet (K := K) e token label kp id : handler _).
Proof.
  unfold create_wallet, on_storage, on_db, audit, audit_log. solve_logs.
  intros st. by destruct (register_wallet_owner _ _ _ _) as [[|[]] db].
Qed.
Lemma delete_wallet_logs e token id :
  logs (obeys (sub token) (OnSuccess (re_audit e) WalletDeleted (Some ("wallet", id))))
    (delete_wallet e token id : handler _).
Proof. unfold delete_wallet, on_storage, on_db, audit, audit_log. solve_logs. Qed.
Lemma wallet_stats_logs e token :
  logs (obeys (sub token) (OnSuccess (re_audit e) AdminAccess (Some ("system", "wallet-stats"))))
    (get_wallet_stats e token : handler _).
Proof. unfold get_wallet_stats, on_storage, audit, audit_log. solve_logs. Qed.
Lemma all_wallets_logs e token limit offset :
  logs (obeys (sub token) (OnSuccess (re_audit e) AdminAccess (Some ("system", "list-all-wallets"))))
    (admin_list_all_wallets e token limit offset : handler _).
Proof. unfold admin_list_all_wallets, on_storage, audit, audit_log. solve_logs. Qed.
Lemma suspend_logs e token id :
  logs (obeys (sub token) (OnSuccess (re_audit e) AdminAccess (Some ("wallet", id))))
    (suspend_wallet e token id : handler _).
Proof. unfold suspend_wallet, on_storage, audit, audit_log. solve_logs. Qed.
Lemma activate_logs e token id :
  logs (obeys (sub token) (OnSuccess (re_audit e) AdminAccess (Some ("wallet", id))))
    (activate_wallet e token id : handler _).
Proof. unfold activate_wallet, on_storage, audit, audit_log. solve_logs. Qed.
Lemma role_change_logs e token u r r' :
  logs (obeys (sub token) (OnSuccess (re_audit e) RoleAssigned (Some ("user", u))))
    (log_role_change e token u r r' : handler _).
Proof. unfold log_role_change. cbv zeta. solve_logs. Qed.
Lemma active_wallet_silent io env u : silent (get_active_wallet_for_user io env u : handler _).
Proof. apply silent_reader, active_wallet_within. Qed.
Lemma wallet_keypair_silent io id u : silent (load_wallet_keypair (K := K) io id u : handler _).
Proof. apply silent_reader, wallet_keypair_within. Qed.
End Wallets.
#[export] Hint Resolve active_wallet_silent wallet_keypair_silent : rsdk.

Section Grants.
Context {T C K M I : Type} `{RedbTableLaws T, RedbTxnLaws (Db T), DbCratesLaws, AuditCrates, HashCratesLaws}.
Context `{SolanaCrates, SolanaKeys K, Wasmtime M I}.
Context `{Serde AuditEvent, Serde PoolMetadata, Serde GrantRecord, Serde WalletMetadata}.
Context `{Serde (list Z), Serde Json}.
Abbreviation St := (AppState T C).
Abbreviation handler A := (act St ApiError A).

Lemma pool_meta_silent io id : silent (load_pool_meta io id : handler _).
Proof. apply silent_reader, pool_meta_within. Qed.
Lemma verify_script_silent e drt : silent (verify_script e drt : handler _).
Proof.
  unfold verify_script, on_fetch. solve_silent.
  - apply (silent_fs all_kinds), writes_fetch. auto with rsdk.
  - apply (silent_fs all_kinds), writes_precompiled; auto with rsdk.
Qed.
Hint Resolve pool_meta_silent verify_script_silent : rsdk.
Lemma grant_right_logs e token pool payload :
  logs (obeys (sub token) (OnSuccess (ge_audit e) Types.RightGranted (Some ("drt_pool", pool))))
    (grant_right (K := K) e token pool payload : handler _).
Proof. unfold grant_right, grant_lookup, index_best_effort, audit_grant, is_grant_active. solve_logs. Qed.
Lemma revoke_grant_logs e token pool payload :
  logs (obeys (sub token) (OnSuccess (ge_audit e) Types.RightRevoked (Some ("drt_pool", pool))))
    (revoke_grant (K := K) e token pool payload : handler _).
Proof. unfold revoke_grant, index_best_effort, audit_grant, revoke_grant_local. solve_logs. Qed.

Lemma prime_cache_silent re dir h wasm : silent (prime_cache re dir h wasm : handler _).
Proof.
  intros st. unfold prime_cache.
  destruct (writes_precompiled all_kinds ltac:(auto with rsdk) ltac:(auto with rsdk) re dir h wasm (storage st)) as [_ Hq].
  by destruct (ensure_precompiled _ _ _ _ _) as [[] ?].
Qed.
Lemma query_inner_silent e token payload : silent (data_query_inner e token payload : handler _).
Proof.
  unfold data_query_inner, on_fetch, on_runtime, is_grant_active.
  do 6 (apply silent_bind; [solve_silent|intros ?]).
  apply silent_bind; [apply silent_map_err, (silent_fs all_kinds), writes_fetch; auto with rsdk|intros wasm].
  do 2 (apply silent_bind; [solve_silent|intros ?]).
  apply silent_bind_ok; [apply prime_cache_silent|]. intros st path ->%prime_cache_path.
  apply silent_bind; [|solve_silent]. apply silent_map_err, (silent_fs all_kinds), writes_execute; auto with rsdk.
Qed.
Lemma data_query_logs e token payload :
  logs (obeys (sub token) (Always (qe_audit e) DrtExecuted (Some ("drt_pool", q_pool_pda payload))))
    (data_query e token payload : handler _).
Proof.
  intros st. unfold data_query. pose proof (query_inner_silent e token payload st) as Hq.
  destruct (data_query_inner e token payload st) as [r st1]. eexists.
  split; [by eapply (AuditsApp []); [by apply AuditsNone|apply AuditsOne]|]. the_event.
Qed.
End Grants.
#[export] Hint Resolve pool_meta_silent : rsdk.

Section Pools.
Context {T C K Sec Pub : Type} `{RedbTableLaws T, RedbTxnLaws (Db T), DbCratesLaws, AuditCrates, HashCrates}.
Context `{SolanaLaws, SolanaKeys K, FromValue FieldType, CryptoCrates Sec Pub, CsvCrates, TextCrates}.
Context `{Serde AuditEvent, Serde PoolMetadata, Serde WalletMetadata, Serde (list Z), Serde Json}.
Context `{Serde (list FieldSchema), Serde DatasetFileMeta, Serde DatasetAnchor, Serde RevocationEntry}.
Context `{FromValue RevocationEntry}.
Abbreviation St := (AppState T C).
Abbreviation handler A := (act St ApiError A).

Lemma persist_silent e m : silent (persist_pool_metadata e m : handler _).
Proof. unfold persist_pool_metadata. solve_silent. Qed.
Hint Resolve persist_silent : rsdk.
Lemma create_malta_logs e token payload :
  logs (obeys (sub token) (OnSuccess (pe_audit e) Types.PoolCreated None))
    (create_malta_pool (K := K) e token payload : handler _).
Proof. unfold create_malta_pool, pool_audit_event. solve_logs. Qed.
Lemma create_iob_logs e token payload :
  logs (obeys (sub token) (OnSuccess (pe_audit e) Types.PoolCreated None))
    (create_iob_erp_pool (K := K) e token payload : handler _).
Proof. unfold create_iob_erp_pool, pool_audit_event. solve_logs. Qed.

Lemma load_meta_silent io id : silent (load_meta io id : handler _).
Proof. apply silent_reader, load_meta_within. Qed.
Lemma save_meta_silent io id m : silent (save_pool_meta io id m : handler _).
Proof. unfold save_pool_meta. solve_silent. Qed.
Lemma mirror_silent env m : silent (mirror_meta env m : handler _).
Proof. unfold mirror_meta. solve_silent. Qed.
Lemma record_silent env now id m : silent (record_issuance env now id m : handler _).
Proof. unfold record_issuance. solve_silent. Qed.
Lemma mirror_revocations_silent db id entry cids : silent (mirror_revocations db id entry cids : handler _).
Proof. induction cids as [|cid rest IH]; cbn [mirror_revocations]; solve_silent. Qed.
Lemma check_csv_silent io id csv mode : silent (check_csv io id csv mode : handler _).
Proof. apply silent_reader, check_csv_within. Qed.
Lemma pool_dirs_silent io1 io2 id : silent (ensure_pool_dirs io1 io2 id : handler _).
Proof. apply silent_reader, pool_dirs_within. Qed.
Hint Resolve load_meta_silent save_meta_silent mirror_silent record_silent mirror_revocations_silent
  check_csv_silent pool_dirs_silent writes_dataset writes_anchor : rsdk.

Lemma upload_schema_logs e token pool payload :
  logs (obeys (sub token) (OnSuccess (ce_audit e) SchemaUploaded (Some ("schema", us_schema_id payload))))
    (upload_schema e token pool payload : handler _).
Proof. unfold upload_schema, log_event. solve_logs. Qed.
Lemma initialize_logs enclave e token pool form :
  logs (obeys (sub token) (OnSuccess (ce_audit e) DatasetInitialized (Some ("drt_pool", pool))))
    (initialize_pool enclave e token pool form : handler _).
Proof.
  unfold initialize_pool, log_event.
  change "initial.csv" with ("initial" +:+ ".csv"). change "initial.meta.json" with ("initial" +:+ ".meta.json").
  solve_logs.
Qed.
Lemma issue_checks_silent enclave e token pool form :
  silent (issue_checks (K := K) enclave e token pool form : handler _).
Proof. apply silent_reader, issue_checks_within. Qed.
Lemma issue_logs enclave e token pool form :
  logs (obeys (sub token) (OrFailure (ce_audit e) CredentialIssued CredentialIssuanceFailed (Some ("drt_pool", pool))))
    (issue_credentials (K := K) enclave e token pool form : handler _).
Proof.
  unfold issue_credentials. apply logs_bind; [apply issue_checks_silent|by left|].
  intros [[[[csv pda] meta] append] keypair]. unfold issue_locked, log_event.
  solve_logs.
Qed.
Lemma revoke_logs e token pool payload :
  logs (obeys (sub token) (OnSuccess (ce_audit e) CredentialRevoked (Some ("drt_pool", pool))))
    (revoke_credentials (K := K) e token pool payload : handler _).
Proof.
  unfold revoke_credentials, log_event. apply logs_bind; [solve_silent|done|intros _].
  apply logs_bind_ok; [solve_silent|done|]. intros _ pda Hpda%ok_or_ok%pubkey_str_safe. solve_logs.
Qed.
End Pools.

Section Transfers.
Context {T C K : Type} `{RedbTableLaws T, RedbTxnLaws (Db T), DbCratesLaws, SolanaCrates, TextCrates}.
Context `{SystemCrates, AuditCrates, SolanaKeys K, Lru C CacheEntry}.
Context `{SerdeLaws StoredTransaction, Serde WalletMetadata, Serde (list Z), Serde AuditEvent}.
Abbreviation St := (AppState T C).
Abbreviation handler A := (act St ApiError A).

Lemma send_logs e token id payload :
  logs (obeys (sub token) (OnSuccess (re_audit (te_req e)) TransactionBroadcast (Some ("wallet", id))))
    (send_transaction (K := K) e token id payload : handler _).
Proof. unfold send_transaction, owned_wallet, on_storage, audit, audit_log. solve_logs. Qed.
Lemma transactions_silent e token id q : silent (list_transactions e token id q : handler _).
Proof. eapply silent_within, transactions_within. Qed.
Lemma tx_status_silent e token id sig : silent (get_transaction_status e token id sig : handler _).
Proof. eapply silent_within, tx_status_within. Qed.
End Transfers.
