(* ===== verification/AuditTrail.v ===== *)
(** * The audit trail of the service

    The audit log over whole histories of the service: which events a request
    leaves, and that the day's file, read back and verified as the code does, is
    exactly the events of the requests that were served, in their order. *)
From S2P Require Import Prelude.
From S2P Require Import RustStr.
From S2P Require Import RustFmt.
From S2P Require Import Errors.
From S2P Require Import Types.
From S2P Require Import Interfaces.
From S2P Require Import TxDatabase.
From S2P Require Import Text.
From S2P Require Import TxScans.
From S2P Require Import Storage.
From S2P Require Import TxCache.
From S2P Require Import AppState.
From S2P Require Import Wallets.
From S2P Require Import DataValidation.
From S2P Require Import Http.
From S2P Require Import VerifiedFetch.
From S2P Require Import Runtime.
From S2P Require Import Query.
From S2P Require Import Auth.
From S2P Require Import AuthFacts.
From S2P Require Import DrtProgram.
From S2P Require Import Chain.
From S2P Require Import GrantApi.
From S2P Require Import PoolApi.
From S2P Require Import Upload.
From S2P Require Import EnclaveKey.
From S2P Require Import Credentials.
From S2P Require Import PoolViews.
From S2P Require Import SolanaRpc.
From S2P Require Import Indexer.
From S2P Require Import IndexerFacts.
From S2P Require Import Transfers.
From S2P Require Import Background.
From S2P Require Import Server.
From S2P Require Import Router.
From S2P Require Import Footprint.
From S2P Require Import Service.
From S2P Require Import Trail.
From S2P Require Import AuditLog.

Local Open Scope Z_scope.
#[local] Arguments String.append : simpl nomatch.

(** ** The events of a call *)

Definition rule_of {T K} `{RedbTxn (Db T)} (c : call T K) : rule :=
  match c with
  | CDataQuery e payload => Always (qe_audit e) DrtExecuted (Some ("drt_pool", q_pool_pda payload))
  | CCreateWallet e _ _ id => OnSuccess (re_audit e) WalletCreated (Some ("wallet", id))
  | CDeleteWallet e id => OnSuccess (re_audit e) WalletDeleted (Some ("wallet", id))
  | CSendTransaction e id _ => OnSuccess (re_audit (te_req e)) TransactionBroadcast (Some ("wallet", id))
  | CGetWalletStats e => OnSuccess (re_audit e) AdminAccess (Some ("system", "wallet-stats"))
  | CListAllWallets e _ _ => OnSuccess (re_audit e) AdminAccess (Some ("system", "list-all-wallets"))
  | CSuspendWallet e id | CActivateWallet e id => OnSuccess (re_audit e) AdminAccess (Some ("wallet", id))
  | CLogRoleChange e u _ _ => OnSuccess (re_audit e) RoleAssigned (Some ("user", u))
  | CCreateMaltaPool e _ | CCreateIobErpPool e _ => OnSuccess (pe_audit e) Types.PoolCreated None
  | CGrantRight e pool _ => OnSuccess (ge_audit e) Types.RightGranted (Some ("drt_pool", pool))
  | CRevokeGrant e pool _ => OnSuccess (ge_audit e) Types.RightRevoked (Some ("drt_pool", pool))
  | CUploadSchema e _ payload => OnSuccess (ce_audit e) SchemaUploaded (Some ("schema", us_schema_id payload))
  | CInitializePool e pool _ => OnSuccess (ce_audit e) DatasetInitialized (Some ("drt_pool", pool))
  | CIssueCredentials e pool _ =>
      OrFailure (ce_audit e) CredentialIssued CredentialIssuanceFailed (Some ("drt_pool", pool))
  | CRevokeCredentials e pool _ => OnSuccess (ce_audit e) CredentialRevoked (Some ("drt_pool", pool))
  | _ => Never
  end.
(** The system calls of its audit. *)
Definition rule_io (r : rule) : option AuditIo :=
  match r with
  | Never => None
  | OnSuccess ai _ _ | Always ai _ _ | OrFailure ai _ _ _ => Some ai
  end.
Lemma obeys_io {T} `{RedbTable T, RedbTxn (Db T)} u r ok (tr : list (Entry T)) :
  obeys u r ok tr → Forall (λ x, Some x.1.1 = rule_io r) tr.
Proof.
  assert (Ho : ∀ ai ty res, one_event u ai ty res tr → Forall (λ x, Some x.1.1 = Some ai) tr)
    by (intros ai ty res (db & ev & -> & _); by repeat constructor).
  destruct r, ok; cbn [obeys rule_io]; try (intros ->; constructor); try apply Ho.
  intros [->|Hf]; [constructor|by eapply Ho].
Qed.

Section Trail.
Context {T C K M I Sec Pub J Tls : Type} `{RedbTableLaws T, RedbTxnLaws (Db T), Lru C CacheEntry, SolanaKeys K}.
Context `{Wasmtime M I, CryptoCrates Sec Pub, JwtLaws J, UrlCrates, TlsCrates Tls}.
Context `{DbCratesLaws, AuditCrates, HashCratesLaws, SolanaLaws, SystemCrates, CsvCrates, TextCrates}.
Context `{SerdeLaws AuditEvent, Serde WalletMetadata, Serde PoolMetadata, Serde GrantRecord}.
Context `{SerdeLaws StoredTransaction, Serde (list Z), Serde (list FieldSchema), Serde Json}.
Context `{Serde DatasetFileMeta, Serde DatasetAnchor, Serde RevocationEntry, Serde JwksResponse}.
Context `{FromValue FieldType, FromValue RevocationEntry}.
Abbreviation St := (AppState T C).
Abbreviation Server := (Server (T := T) (C := C) (Sec := Sec) (J := J)).

Lemma answers_logs {A} P code (m : act St ApiError A) : logs P m → logs P (answers code m).
Proof.
  intros Hm st. destruct (Hm st) as (tr & Ha & Hp). exists tr. unfold answers. rewrite act_bind_eq.
  by destruct (m st) as [[a|x] st'].
Qed.
Lemma never_logs {A} u (m : act St ApiError A) : silent m → logs (obeys u Never) m.
Proof. intros Hm. by apply logs_silent. Qed.
Lemma run_call_logs (key : EnclaveKey Sec) (jwks : option (JwksCache J)) (c : call T K) token :
  logs (obeys (sub token) (rule_of c)) (run_call key jwks c token : act St ApiError Z).
Proof.
  destruct c; cbn [run_call rule_of];
    try (apply never_logs; first [apply silent_ret|apply silent_reading]); apply answers_logs;
    try (apply never_logs; first [apply transactions_silent|apply tx_status_silent|apply silent_reader]).
  - apply data_query_logs.
  - apply list_wallets_within.
  - apply create_wallet_logs.
  - apply get_wallet_within.
  - apply delete_wallet_logs.
  - apply balance_within.
  - apply estimate_within.
  - apply send_logs.
  - apply wallet_stats_logs.
  - apply all_wallets_logs.
  - apply audit_logs_within.
  - apply suspend_logs.
  - apply activate_logs.
  - apply role_change_logs.
  - apply create_malta_logs.
  - apply create_iob_logs.
  - apply pool_info_within.
  - apply get_drt_within.
  - apply grant_right_logs.
  - apply revoke_grant_logs.
  - apply grant_status_within.
  - apply pool_grants_within.
  - apply my_grants_within.
  - apply tx_events_within.
  - apply upload_schema_logs.
  - apply get_schema_within.
  - apply initialize_logs.
  - apply issue_logs.
  - apply revoke_logs.
  - apply revocations_within.
  - apply pool_audit_within.
  - apply pool_summary_within.
  - apply issuance_log_within.
  - apply pools_by_wallet_within.
  - apply all_pools_within.
Qed.
Lemma turn_still net (st : St) t : still st (task_turn INDEXER_ENABLED net st t).
Proof.
  destruct t as [env e|env now]; [done|]. destruct (purge_turn_confined env now st) as [Hs Hk _].
  cbn [task_turn]. split; [|done]. intros p _ _. by rewrite Hs.
Qed.

(** ** The file of a day *)

(** The day's file holds the events, signed with the key of the log. *)
Definition kept (d : string) (evs : list AuditEvent) (st : St) : Prop :=
  ∃ k, (key_kept k st ∨ audit_key st = None ∧ evs = []) ∧ day_file d k evs st.
Lemma files_kept d evs (st st' : St) :
  (∀ p, sealed p = true → in_audit p = true → files (storage st') !! p = files (storage st) !! p) →
  audit_key st' = audit_key st ∨ audit_key st' = None →
  no_char "/" d = true → kept d evs st → kept d evs st'.
Proof.
  intros Hq Hk Hd (k & Hkey & ls & Hls & Hall). exists k. split.
  - destruct Hkey as [(Hf & Hl & Hc)|[Hn He]]; [left|right; split; [by destruct Hk as [->| ->]|done]].
    split; [by rewrite Hq|]. split; [done|]. intros k' Hk'. destruct Hk as [Hk|Hk]; [apply Hc|]; congruence.
  - exists ls. split; [|done]. rewrite Hq; [done|..]; rewrite audit_file_path by done.
    + apply orb_true_iff. left. apply (ends_with_app ".jsonl" ("/data/audit/" +:+ d)).
    + apply starts_with_spec. by eexists.
Qed.
Lemma still_kept d evs (st st' : St) : no_char "/" d = true → still st st' → kept d evs st → kept d evs st'.
Proof. intros Hd [Hq Hk]. apply files_kept; [exact Hq|by left|done]. Qed.
Lemma restarted_kept d evs (s s' : Server) :
  no_char "/" d = true → restarted s s' → kept d evs (sv_state s) → kept d evs (sv_state s').
Proof. intros Hd [Hf _ Hk _]. apply files_kept; [by rewrite Hf|by right|done]. Qed.
Lemma audits_kept d tr (st st' : St) :
  no_char "/" d = true → audits tr st st' → ∀ evs, Forall (λ x : Entry T, works x.1.1) tr →
  kept d evs st → kept d (evs ++ of_day d tr) st'.
Proof.
  intros Hd. induction 1 as [st st' Hs|ai db ev st|tr tr' st1 st2 st3 _ IH1 _ IH2]; intros evs Hio Hk.
  - unfold of_day. cbn. rewrite app_nil_r. by eapply still_kept.
  - rewrite Forall_singleton in Hio. cbn in Hio. destruct Hk as (k & Hkey & Hf).
    destruct (log_key_kept ai db ev st Hio) as (k1 & Hk1 & Hkept & Hsame);
      [destruct Hkey as [|[]]; eauto|].
    assert (Hf1 : day_file d k1 evs st).
    { destruct Hkey as [Hkey|[_ ->]]; [by rewrite (Hsame k Hkey)|]. destruct Hf as (ls & Hls & Hall).
      inversion Hall; subst. by exists []. }
    exists k1. split; [by left|]. replace (of_day d [(ai, db, ev)]) with
      (if decide (fmt_ymd (a_timestamp ev) = d) then [ev] else [])
      by (unfold of_day; cbn; by destruct (decide _)).
    apply log_step_day; [done|by destruct Hio as (_ & _ & _ & ?)|done|done].
  - apply Forall_app in Hio as [Hio1 Hio2]. unfold of_day in *. rewrite fmap_app, filter_app, app_assoc. auto.
Qed.
Lemma kept_read ai d evs (st : St) :
  works ai → kept d evs st → ∃ k, (evs ≠ [] → key_kept k st) ∧
    (read_verified_events IoOk ai d st).1 = signed k <$> evs.
Proof.
  intros Hai (k & [Hk|[Hk ->]] & Hf).
  - exists k. split; [done|]. apply day_file_read; [|done]. by rewrite (key_kept_loaded ai k st Hai Hk).
  - exists k. split; [done|].
    destruct Hf as (ls & Hls & Hall). inversion Hall; subst. cbn in Hls. unfold read_verified_events.
    destruct (files (storage st) !! _) as [data|]; [|done]. cbn in Hls. by subst data.
Qed.

(** ** Histories *)

Context (audience : string) (net : NetworkConfig).
(** The audit of a request can write its log and keep its key. *)
Definition healthy (ev : event T K Sec) : Prop :=
  match ev with
  | Request _ (Ok c) => ∀ ai, rule_io (rule_of c) = Some ai → works ai
  | _ => True
  end.
(** What an event of a history, at [s] and after requests with [envs], leaves in
    the log: either an authentic token takes it to its handler and it leaves what
    the rule of the call says, in the caller's name; or it leaves nothing, and if
    it is served its call has no event. *)
Definition accounts (envs : list AuthEnv) (s : Server) (ev : event T K Sec) (es : list AuditEvent) : Prop :=
  match ev, sv_key s with
  | Request q args, Some key =>
      let ok := is_ok (serve audience key q args s).1 in
      (∃ c td need (tr : list (Entry T)), args = Ok c ∧
         (dispatch audience (public_jwk key) q (sv_jwks s)).1 = Reached (endpoint_of c) (Some td) ∧
         guard_of (endpoint_of c) = Some need ∧
         authentic (K := J) audience (public_jwk key) envs q td need ∧
         obeys (sub td) (rule_of c) ok tr ∧ es = tr.*2) ∨
      es = [] ∧ (ok = true → ∃ c, args = Ok c ∧ rule_of c = Never)
  | _, _ => es = []
  end.
Lemma unguarded_never (c : call T K) : guard_of (endpoint_of c) = None → rule_of c = Never.
Proof. by destruct c. Qed.
Lemma serve_accounts key envs (s : Server) q args :
  cache_from envs (sv_jwks s) → sv_key s = Some key → healthy (Request q args) →
  ∃ tr, audits tr (sv_state s) (sv_state (serve audience key q args s).2) ∧
    Forall (λ x : Entry T, works x.1.1) tr ∧ accounts envs s (Request q args) tr.*2.
Proof.
  intros Hc Hkey Hh. cbn [accounts healthy] in *. rewrite Hkey.
  destruct (serve_outcome audience key envs s q args Hc) as [code jwks _|c tok jwks r st _ -> Hfit Hd Hcall Hr].
  { exists []. split; [by apply AuditsNone|]. split; [constructor|by right]. }
  destruct (run_call_logs key jwks c (default no_token tok) (sv_state s)) as (tr & Ha & Ho).
  rewrite Hr in Ha, Ho. cbn [fst snd sv_state] in *. exists tr. split; [exact Ha|]. split.
  { eapply Forall_impl; [by eapply obeys_io|]. intros x Hx. by apply Hh. }
  assert (Hok : is_ok (reply_of r) = is_ok r) by (by destruct r). rewrite Hok. unfold caller in Hcall.
  destruct (guard_of (endpoint_of c)) as [need|] eqn:Hg.
  - destruct Hcall as (td & -> & Hauth). left. by exists c, td, need, tr.
  - right. rewrite (unguarded_never c Hg) in Ho. cbn in Ho. subst tr. split; [done|]. intros _.
    exists c. auto using unguarded_never.
Qed.
Lemma step_accounts d evs envs (s : Server) ev :
  no_char "/" d = true → cache_from envs (sv_jwks s) → healthy ev → kept d evs (sv_state s) →
  ∃ es, accounts envs s ev es ∧
    kept d (evs ++ filter (λ e, fmt_ymd (a_timestamp e) = d) es) (sv_state (step audience net s ev)).
Proof.
  intros Hd Hc Hh Hk. assert (Hno : ∀ s' : Server, kept d evs (sv_state s') →
    kept d (evs ++ filter (λ e, fmt_ymd (a_timestamp e) = d) []) (sv_state s')) by (intros s'; by rewrite app_nil_r).
  destruct ev as [q args|t|e r|]; cbn [step accounts].
  - destruct (sv_key s) as [key|] eqn:Hkey; [|exists []; auto].
    destruct (serve_accounts key envs s q args Hc Hkey Hh) as (tr & Ha & Hok & Hat). cbn [accounts] in Hat. rewrite Hkey in Hat.
    exists (tr.*2). split; [exact Hat|]. by eapply audits_kept.
  - exists []. split; [done|]. apply Hno. destruct (sv_key s); [|done]. eapply still_kept; [done|apply turn_still|done].
  - exists []. split; [done|]. apply Hno. eapply restarted_kept; [done|apply start_restarted|done].
  - exists []. split; [done|]. apply Hno. eapply restarted_kept; [done|by apply down_restarted|done].
Qed.

End Trail.

(** ** Examples *)

From S2P Require Import Instances.
From S2P Require Import WalletFacts.
From S2P Require Import FetchFacts.
From S2P Require Import Mean.
From S2P Require Import MeanFacts.
From S2P Require Import MeanHost.
From S2P Require Import QueryFacts.
From S2P Require Import DrtProgramFacts.
From S2P Require Import PoolFacts.
From S2P Require Import PoolExamples.
From S2P Require Import TransferFacts.

#[local] Existing Instance Service.wasm_mean.
(** A user's token for the process that starts with the secret "k". *)
#[local] Instance jwt1 : JwtCrates string := {
  from_ec_components x _ := Ok x;
  decode_header t := if bool_decide (t = "token") then Ok (Some "k1") else Err "bad";
  jwt_decode key aud iss now t :=
    if bool_decide (key = "X" ∧ t = "token") then
      Ok (mkClaims iss "al" (Some aud) now now (Some "admin") None (Some (public_jwk key1)))
    else Err "bad";
  es256_signed key t := key = "X" ∧ t = "token";
  status_display z := show_u64 z;
}.
#[local] Instance jwt1_laws : JwtLaws string.
Proof.
  split. simpl. intros key aud iss now t c. case_bool_decide as Hk; [|done]. intros [= <-]. simpl.
  destruct Hk. split_and!; auto; lia.
Qed.
(** Two processes, one after the other. *)
Definition server1 : Service.Server (T := table0) (C := lru1) (Sec := ascii) (J := string) :=
  down (storage wst0) (tx_db wst0).
Definition suspend1 : request := mkRequest MPost "/v1/admin/wallets/w1/suspend" (Some "Bearer token") auth_env0.
Definition history1 : list (event table0 bool ascii) :=
  [Request create_request (Ok create_call); Start boot0 "k"%char; Request anonymous (Ok create_call);
   Tick (NonceTick env0 5); Request create_request (Ok create_call); Stop; Start boot0 "k"%char;
   Request create_request (Ok create_call); Request suspend1 (Ok (CSuspendWallet req0 "w1"))].
Abbreviation run1 := (run (C := lru1) (M := unit) (I := Guest) (J := string) "relational-sdk" network_config_from_env server1).
Definition day1 : string := fmt_ymd (re_now req0).

(** The request before the start, the one without a token and the second creation,
    which finds a wallet, leave nothing; the key of the log outlives the process. *)
Lemma history1_log :
  a_event_type <$> (read_verified_events IoOk ai0 day1 (sv_state (run1 history1))).1 = [WalletCreated; AdminAccess].
Proof. vm_compute. reflexivity. Qed.
