(* ===== verification/Access.v ===== *)
(** * Access over the life of the service

    The rights and the compiled scripts along whole histories: every request of
    any endpoint and every background turn keeps the stored artifacts sound and
    changes the rights only as the acknowledged grants and revocations say.  So an
    answered query can be traced back to its grant. *)
From S2P Require Import Prelude.
From S2P Require Import RustStr.
From S2P Require Import RustFmt.
From S2P Require Import Errors.
From S2P Require Import Types.
From S2P Require Import Interfaces.
From S2P Require Import TxDatabase.
From S2P Require Import Text.
From S2P Require Import TxScans.
From S2P Require Import Storage.
From S2P Require Import TxCache.
From S2P Require Import AppState.
From S2P Require Import Wallets.
From S2P Require Import DataValidation.
From S2P Require Import Http.
From S2P Require Import VerifiedFetch.
From S2P Require Import Runtime.
From S2P Require Import Query.
From S2P Require Import Auth.
From S2P Require Import AuthFacts.
From S2P Require Import DrtProgram.
From S2P Require Import Chain.
From S2P Require Import GrantApi.
From S2P Require Import PoolApi.
From S2P Require Import Upload.
From S2P Require Import EnclaveKey.
From S2P Require Import Credentials.
From S2P Require Import PoolViews.
From S2P Require Import SolanaRpc.
From S2P Require Import Indexer.
From S2P Require Import IndexerFacts.
From S2P Require Import Transfers.
From S2P Require Import Background.
From S2P Require Import Server.
From S2P Require Import Router.
From S2P Require Import Footprint.
From S2P Require Import Service.
From S2P Require Import TxGrants.
From S2P Require Import AuditLog.
From S2P Require Import FetchFacts.
From S2P Require Import RuntimeFacts.
From S2P Require Import QueryFacts.
From S2P Require Import ChainFacts.
From S2P Require Import GrantFacts.

Local Open Scope Z_scope.
#[local] Arguments String.append : simpl nomatch.

Section Access.
Context {T C K M I Sec Pub J Tls : Type} `{RedbTableLaws T, RedbTxnLaws (Db T), Lru C CacheEntry, SolanaKeys K}.
Context `{WasmtimeLaws M I, CryptoCrates Sec Pub, JwtLaws J, UrlCrates, TlsCrates Tls}.
Context `{DbCratesLaws, AuditCrates, HashCratesLaws, SolanaLaws, SystemCrates, CsvCrates, TextCrates}.
Context `{SerdeLaws AuditEvent, Serde WalletMetadata, Serde PoolMetadata, SerdeLaws GrantRecord}.
Context `{SerdeLaws StoredTransaction, Serde (list Z), Serde (list FieldSchema), Serde Json}.
Context `{Serde DatasetFileMeta, Serde DatasetAnchor, Serde RevocationEntry, Serde JwksResponse}.
Context `{FromValue FieldType, FromValue RevocationEntry}.
Abbreviation St := (AppState T C).
Abbreviation Server := (Server (T := T) (C := C) (Sec := Sec) (J := J)).

(** ** The compiled scripts *)

Definition sound (st : St) : Prop := artifacts_sound (storage st).
Lemma kept_sound sc (st st' : St) : keeps sc st st' → Compiled ∉ sc_files sc → sound st → sound st'.
Proof.
  intros (_ & [Hf _] & _) Hc Hs h c Hh Hl. apply (Hs h c Hh). rewrite <-Hl. symmetry.
  apply (Hf _ Compiled); [|done]. unfold artifact_path.
  destruct (cwasm_suffix scripts_dir h) as [x ->]. apply kind_compiled.
Qed.
Lemma within_sound {E A} sc (m : act St E A) : Compiled ∉ sc_files sc → within sc m → preserves sound m.
Proof. intros Hc Hm st Hs. by apply (kept_sound sc st). Qed.
Lemma verify_script_sound e drt : preserves sound (verify_script e drt : act St _ _).
Proof.
  intros st Hs. unfold verify_script. case_bool_decide; [done|]. rewrite act_bind_eq.
  unfold on_fetch, act_map_err, zoom.
  pose proof (fetch_spec (ge_fetch e) DATA_DIR (d_code_repo_url drt) (d_code_hash_hex drt) (storage st)) as Hf.
  pose proof (fetch_sound (ge_fetch e) (d_code_repo_url drt) (d_code_hash_hex drt) _ Hs) as Hsf.
  destruct (fetch_and_verify _ _ _ _ (storage st)) as [[w|x] fs]; [|exact Hsf]. destruct Hf as [(_ & Hhash & _) _].
  assert (Hh : hash_text (d_code_hash_hex drt)).
  { exists (sha256 w). apply decode_hash_ok. split; [done|]. rewrite (hex_decode_len _ _ Hhash), sha256_len. done. }
  cbn [map_err]. eapply wrote_sound; [exact Hh|exact Hhash| |exact Hsf].
  exact (proj1 (ensure_wrote (ge_pre e) (d_code_hash_hex drt) w fs)).
Qed.
Hint Resolve verify_script_sound : rsdk.
Lemma grant_right_sound e token p payload :
  preserves sound (grant_right (K := K) e token p payload : act St _ _).
Proof.
  unfold grant_right, grant_lookup, index_best_effort, audit_grant, is_grant_active.
  repeat match goal with
  | |- preserves _ (verify_script _ _ ≫= _) => apply preserves_bind; [apply verify_script_sound|intros ?]
  | |- preserves _ (load_pool_meta _ _ ≫= _) =>
      apply preserves_bind; [by apply (within_sound nothing), pool_meta_within|intros ?]
  | |- preserves _ (load_wallet_keypair _ _ _ ≫= _) =>
      apply preserves_bind; [by apply (within_sound nothing), wallet_keypair_within|intros [? ?]]
  | |- preserves _ (_ ≫= _) => apply preserves_bind; [|intros ?]
  | |- preserves _ (match ?x with _ => _ end) => destruct x
  | |- preserves _ (lift _) => apply preserves_lift
  | |- preserves _ (mret _) => apply preserves_ret
  end; try (apply (within_sound (audited [GRANTS_BY_POOL; GRANTS_BY_ANALYST] [])); [set_solver|solve_within]).
Qed.
Lemma run_call_sound (key : EnclaveKey Sec) (jwks : option (JwksCache J)) (c : call T K) token :
  preserves sound (run_call key jwks c token : act St ApiError Z).
Proof.
  destruct (decide (Compiled ∈ sc_files (footprint (endpoint_of c)))) as [Hc|Hc].
  2:{ eapply within_sound; [exact Hc|apply run_call_within]. }
  apply (bool_decide_eq_true_2 _) in Hc. destruct c; try discriminate Hc; cbn [run_call]; (apply preserves_bind; [|intros ?; apply preserves_ret]).
  - intros st Hs. destruct (data_query e token payload st) as [r st'] eqn:Hq.
    by destruct (data_query_sound e token payload st r st' Hs Hq).
  - apply grant_right_sound.
Qed.

(** ** The rights *)

(** What an acknowledged call decides about a right. *)
Definition settles (k : gkey) (c : call T K) : option bool :=
  match c with
  | CGrantRight _ p payload => if decide ((p, gq_analyst_id payload, gq_drt_name payload) = k) then Some true else None
  | CRevokeGrant _ p payload => if decide ((p, gq_analyst_id payload, gq_drt_name payload) = k) then Some false else None
  | _ => None
  end.
(** Identifiers are plain and the local index can be written. *)
Definition call_wf (c : call T K) : Prop :=
  match c with
  | CGrantRight e p payload | CRevokeGrant e p payload =>
      plain p = true ∧ plain (gq_analyst_id payload) = true ∧ reliable (ge_index e)
  | _ => True
  end.
Definition request_wf (ev : event T K Sec) : Prop := match ev with Request _ (Ok c) => call_wf c | _ => True end.

Lemma kept_rep sc m (st st' : St) :
  keeps sc st st' → GRANTS_BY_POOL ∉ sc_tables sc → GRANTS_BY_ANALYST ∉ sc_tables sc →
  grants_rep (tx_db st) m → grants_rep (tx_db st') m.
Proof. intros [Ht _] Hp Ha. by apply rep_frame; apply Ht. Qed.
Lemma run_call_rep (key : EnclaveKey Sec) (jwks : option (JwksCache J)) (c : call T K) token (st : St) m :
  grants_rep (tx_db st) m → call_wf c →
  let '(r, st') := run_call key jwks c token st in
  ∃ m', grants_rep (tx_db st') m' ∧
    ∀ k, active_in m' k = if is_ok r then default (active_in m k) (settles k c) else active_in m k.
Proof.
  intros Hrep Hwf.
  destruct (decide (GRANTS_BY_POOL ∈ sc_tables (footprint (endpoint_of c)) ∨
                    GRANTS_BY_ANALYST ∈ sc_tables (footprint (endpoint_of c)))) as [Hc|Hc].
  2:{ pose proof (run_call_within key jwks c token st) as Hw. destruct (run_call key jwks c token st) as [r st'].
      exists m. split; [eapply kept_rep; [exact Hw|tauto..|exact Hrep]|]. intros k.
      assert (settles k c = None) as -> by (destruct c; try done; cbn in Hc; set_solver). by destruct (is_ok r). }
  apply (bool_decide_eq_true_2 _) in Hc. destruct c; try discriminate Hc; cbn [run_call call_wf settles] in *; unfold answers; rewrite act_bind_eq.
  - destruct (run_req_rep (K := K) (ReqGrant e token pool_pda payload) st m Hrep Hwf) as (m' & Hr & Hk).
    cbn [run_req] in Hr, Hk. destruct (grant_right e token pool_pda payload st) as [[a|x] st'];
      exists m'; (split; [exact Hr|]); intros k; rewrite Hk; cbn; [by case_decide|done].
  - destruct (run_req_rep (K := K) (ReqRevoke e token pool_pda payload) st m Hrep Hwf) as (m' & Hr & Hk).
    cbn [run_req] in Hr, Hk. destruct (revoke_grant e token pool_pda payload st) as [[a|x] st'];
      exists m'; (split; [exact Hr|]); intros k; rewrite Hk; cbn; [by case_decide|done].
Qed.

(** ** Histories *)

Context (audience : string) (net : NetworkConfig).
Abbreviation served := (acknowledged audience).
Abbreviation run_from := (run audience net).

(** Whether the event is an acknowledged decision about the right. *)
Definition verdict (k : gkey) (s : Server) (ev : event T K Sec) : option bool :=
  match ev with
  | Request q (Ok c) => if served q (Ok c) s then settles k c else None
  | _ => None
  end.
(** The last acknowledged decision of the history; there is no right before it. *)
Definition last_decision (k : gkey) (s : Server) (evs : list (event T K Sec)) : bool :=
  (foldl (λ x ev, (default x.1 (verdict k x.2 ev), step audience net x.2 ev)) (false, s) evs).1.
Lemma decision_snoc k (s : Server) evs ev :
  last_decision k s (evs ++ [ev]) = default (last_decision k s evs) (verdict k (run_from s evs) ev).
Proof.
  unfold last_decision. rewrite foldl_app. cbn [foldl].
  assert (Hs : ∀ x : bool * Server, (foldl (λ x ev, (default x.1 (verdict k x.2 ev), step audience net x.2 ev)) x evs).2
             = run_from x.2 evs).
  { clear. induction evs as [|ev evs IH]; intros x; [done|]. cbn [foldl]. by rewrite IH. }
  by rewrite Hs.
Qed.
Lemma turn_rep m (st : St) t : grants_rep (tx_db st) m → grants_rep (tx_db (task_turn INDEXER_ENABLED net st t)) m.
Proof.
  destruct t as [env e|env now]; [done|]. destruct (purge_turn_confined env now st) as [_ _ Ht].
  cbn [task_turn]. apply rep_frame; apply Ht; set_solver.
Qed.
Lemma turn_sound (st : St) t : sound st → sound (task_turn INDEXER_ENABLED net st t).
Proof.
  destruct t as [env e|env now]; [done|]. destruct (purge_turn_confined env now st) as [Hs _ _].
  cbn [task_turn]. unfold sound. by rewrite Hs.
Qed.
(** A request keeps the rights as it decides. *)
Lemma request_rep (s : Server) evs q args m :
  let before := run_from s evs in
  sv_jwks s = None → grants_rep (tx_db (sv_state before)) m → request_wf (Request q args) →
  ∃ m', grants_rep (tx_db (sv_state (step audience net before (Request q args)))) m' ∧
    ∀ k, active_in m' k = default (active_in m k) (verdict k before (Request q args)).
Proof.
  intros before Hj Hr Hwf. cbn [step verdict request_wf] in *. unfold acknowledged.
  destruct (sv_key before) as [key|]; [|exists m; split; [exact Hr|]; intros k; by destruct args].
  pose proof (serve_outcome audience key _ _ q args (run_jwks audience net s evs Hj)) as Ho. fold before in Ho.
  remember (serve audience key q args before) as out eqn:Hout.
  destruct Ho as [code jwks _|c tok jwks r st _ -> Hfit _ _ Hrun].
  - exists m. split; [exact Hr|]. intros k. destruct args as [c|]; [|done]. by rewrite <-Hout.
  - pose proof (run_call_rep key jwks c (default no_token tok) _ m Hr Hwf) as Hc. rewrite Hrun in Hc.
    destruct Hc as (m2 & Hr2 & Hk2). exists m2. split; [exact Hr2|]. intros k. rewrite <-Hout, Hk2. by destruct r.
Qed.
Lemma history_rep (s : Server) evs m :
  sv_jwks s = None → grants_rep (tx_db (sv_state s)) m → (∀ k, active_in m k = false) → Forall request_wf evs →
  ∃ m', grants_rep (tx_db (sv_state (run_from s evs))) m' ∧ ∀ k, active_in m' k = last_decision k s evs.
Proof.
  intros Hj Hrep Hno Hwf. induction evs as [|ev evs IH] using rev_ind; [by exists m|].
  apply Forall_app in Hwf as [Hwf Hev]. rewrite Forall_singleton in Hev. destruct (IH Hwf) as (m1 & Hr & Hk).
  rewrite run_snoc. destruct ev as [q args|t|e r|].
  - destruct (request_rep s evs q args m1 Hj Hr Hev) as (m2 & Hr2 & Hk2). exists m2. split; [exact Hr2|].
    intros k. by rewrite decision_snoc, Hk2, Hk.
  - exists m1. split; [|intros k; by rewrite decision_snoc]. cbn [step]. destruct (sv_key _); [by apply turn_rep|exact Hr].
  - exists m1. split; [|intros k; by rewrite decision_snoc]. cbn [step]. by rewrite (rt_db _ _ (start_restarted e r _)).
  - exists m1. split; [exact Hr|]. intros k. by rewrite decision_snoc.
Qed.
Lemma restarted_sound (s s' : Server) : restarted s s' → sound (sv_state s) → sound (sv_state s').
Proof. intros [Hf _ _ _] Hs h c Hh Hl. apply (Hs h c Hh). by rewrite <-Hf. Qed.
Lemma history_sound (s : Server) evs :
  sv_jwks s = None → sound (sv_state s) → sound (sv_state (run_from s evs)).
Proof.
  intros Hj Hs. induction evs as [|ev evs IH] using rev_ind; [done|]. rewrite run_snoc.
  destruct (event_cases audience net s evs ev Hj) as [(t & _ & ->)|[->|[[_ Hr]|(key & q & c & tok & jwks & _ & _ & _ & _ & _ & ->)]]].
  - by apply turn_sound.
  - done.
  - by eapply restarted_sound.
  - by apply run_call_sound.
Qed.
(** A served call of a guarded endpoint. *)
Lemma served_ok need (s : Server) evs q (c : call T K) :
  sv_jwks s = None → served q (Ok c) (run_from s evs) = true →
  match guard_of (endpoint_of c) with Some r => r = need | None => False end →
  ∃ key td jwks code st, sv_key (run_from s evs) = Some key ∧
    authentic (K := J) audience (public_jwk key) (auth_envs evs) q td need ∧
    run_call key (jwks : option (JwksCache J)) c td (sv_state (run_from s evs)) = (Ok code, st).
Proof.
  intros Hj Hok Hg. unfold acknowledged in Hok. destruct (sv_key (run_from s evs)) as [key|]; [|done].
  destruct (serve_outcome audience key _ _ q (Ok c) (run_jwks audience net s evs Hj))
    as [|c' tok jwks r st _ [= <-] Hfit _ Hcall Hrun]; [done|]. unfold caller in Hcall.
  destruct (guard_of (endpoint_of c)) as [r'|]; [|done]. subst r'. destruct Hcall as (td & -> & Htd).
  cbn [fst] in Hok. destruct r as [code|x]; [|done]. by exists key, td, jwks, code, st.
Qed.
Lemma verdict_granted k (s : Server) ev :
  verdict k s ev = Some true →
  ∃ q e pl, ev = Request q (Ok (CGrantRight e k.1.1 pl)) ∧ (gq_analyst_id pl, gq_drt_name pl) = (k.1.2, k.2) ∧
    served q (Ok (CGrantRight e k.1.1 pl)) s = true.
Proof.
  destruct ev as [q [c|]| | |]; try done. cbn [verdict]. destruct (served _ _ _) eqn:Hok; [|done].
  destruct c; try done; cbn [settles]; case_decide as Hk; try done. intros _. subst k. by exists q, e, payload.
Qed.
(** The event that gave the access, and no later one took it. *)
Lemma decision_true k (s : Server) evs :
  last_decision k s evs = true →
  ∃ pre ev post, evs = pre ++ ev :: post ∧ verdict k (run_from s pre) ev = Some true ∧
    ∀ mid ev' post', post = mid ++ ev' :: post' → verdict k (run_from s (pre ++ ev :: mid)) ev' ≠ Some false.
Proof.
  induction evs as [|ev evs IH] using rev_ind; [done|]. rewrite decision_snoc.
  destruct (verdict k (run_from s evs) ev) as [[]|] eqn:Hv; [|done|].
  - intros _. exists evs, ev, []. split_and!; [done..|]. intros mid ev' post' Hp. by destruct mid.
  - intros Ha. destruct (IH Ha) as (pre & ev0 & post & -> & Hv0 & Hno). exists pre, ev0, (post ++ [ev]).
    split; [by rewrite <-app_assoc|]. split; [done|]. intros mid ev' post' Hp.
    destruct (decide (post' = [])) as [->|Hne].
    + apply app_inj_tail in Hp as [-> ->]. congruence.
    + destruct (exists_last Hne) as (post1 & x & ->). rewrite app_comm_cons, app_assoc in Hp.
      apply app_inj_tail in Hp as [-> _]. by eapply Hno.
Qed.


End Access.

(** ** Examples *)

From S2P Require Import Instances.
From S2P Require Import WalletFacts.
From S2P Require Import Mean.
From S2P Require Import MeanFacts.
From S2P Require Import MeanHost.
From S2P Require Import DrtProgramFacts.
From S2P Require Import PoolFacts.
From S2P Require Import PoolExamples.
From S2P Require Import TransferFacts.

#[local] Instance wasm5 : Wasmtime unit Guest := mean_wasmtime guest1.
#[local] Instance wasm5_laws : WasmtimeLaws unit Guest := mean_wasmtime_laws guest1.
(** Tokens of the owner, an administrator, and of an analyst. *)
#[local] Instance jwt5 : JwtCrates string := {
  from_ec_components x _ := Ok x;
  decode_header t := if bool_decide (t ∈ ["owner"; "ana"]) then Ok (Some "k1") else Err "bad";
  jwt_decode key aud iss now t :=
    if bool_decide (key = "X" ∧ t ∈ ["owner"; "ana"]) then
      Ok (mkClaims iss (if bool_decide (t = "owner") then "al" else "ana") (Some aud) now now
            (Some (if bool_decide (t = "owner") then "admin" else "analyst")) None (Some (public_jwk key1)))
    else Err "bad";
  es256_signed key t := key = "X" ∧ t ∈ ["owner"; "ana"];
  status_display z := show_u64 z;
}.
#[local] Instance jwt5_laws : JwtLaws string.
Proof.
  split. simpl. intros key aud iss now t c. case_bool_decide as Hk; [|done]. intros [= <-]. simpl.
  destruct Hk. split_and!; auto; lia.
Qed.

(** The pool "P", whose address is written "50". *)
Definition meta5 : PoolMetadata :=
  mkPoolMetadata "50" "pool" Malta "000102030405060708090a0b0c0d0e0f"
    {["mean" := mkDrtMetadata "f0f1f2f3f4f5f6f7f8f9fafbfcfdfeff" "6d" 1 url0 hash_hex0]} "w1" None
    "s" VNone NeedsInit (mkDateTime 0 0) None None 0 0.
Definition fs5 : Fs := mkFs
  (files (storage w_wallet) ∪
   {[pool_meta DATA_DIR "50" := match to_vec_pretty meta5 with Ok b => b | Err _ => "" end;
     join (pool_dataset_dir DATA_DIR "50") "initial.csv" := csv1;
     cache_path_for DATA_DIR hash_hex0 := "wasm"]})
  {[pool_dataset_dir DATA_DIR "50"]}.
Definition server5 : Service.Server (T := table0) (C := lru1) (Sec := ascii) (J := string) :=
  mkServer (mkAppState fs5 open_fresh (cache_new 1 60) None) None (Some key1).
Definition rpc5 : Rpc :=
  mkRpc (Ok "bh") (λ _, Ok "sig") (λ _, Ok [Some (mkStatus false (Some "finalized"))])
    (λ n, 1000 * Z.of_nat n) (Ok [])
    (λ k, if bool_decide (k = "P")
          then Ok (Some (DISC_POOL_ACCOUNT +:+ put_pool (mkPool (fit 16 "u") owner3 0 false 1)))
          else Ok None).
Definition genv5 : GrantEnv table0 :=
  mkGrantEnv IoOk env0 (mkFetchEnv IoOk IoOk IoOk net_down) re1 (λ _, IoOk) rpc5 env0 7 ai0 env0
    "e2" (mkDateTime 7 0) (λ s, s).
Definition right5 : GrantRequest := mkGrantRequest "w1" "mean" "ana".
Definition post5 (path token : string) : request := mkRequest MPost path (Some ("Bearer " +:+ token)) auth_env0.
Definition grant5 : event table0 unit ascii :=
  Request (post5 "/v1/drt/pools/50/grant" "owner") (Ok (CGrantRight genv5 "50" right5)).
Definition query5 : DataQueryRequest := mkQuery "50" "mean" JNull.
Definition ask5 : request := post5 "/v1/data/query" "ana".
Definition history5 : list (event table0 unit ascii) := [grant5; Tick (NonceTick env0 5); Stop; Start boot0 "k"%char].
Abbreviation served5 := (acknowledged (M := unit) (I := Guest) (C := lru1) "relational-sdk").
Abbreviation run5 := (run (C := lru1) (M := unit) (I := Guest) (J := string) "relational-sdk" network_config_from_env).

(** The query is refused before the grant and answered after it, by the next
    process. *)
Lemma query5_follows :
  (serve (M := unit) (I := Guest) "relational-sdk" key1 ask5 (Ok (CDataQuery qe0 query5)) server5).1 = Err 403 ∧
  served5 ask5 (Ok (CDataQuery qe0 query5)) (run5 server5 history5) = true.
Proof. split; vm_compute; reflexivity. Qed.

Lemma server5_sound : artifacts_sound (M := unit) (I := Guest) fs5.
Proof.
  intros h c Hh Hc. exfalso. pose proof (artifact_last h Hh) as Hl.
  apply elem_of_map_to_list, (list_elem_of_fmap_2 fst) in Hc. cbn [fst] in Hc. revert Hc Hl.
  generalize (artifact_path h). intros p Hc Hl.
  assert (Hk : forallb (λ p, negb (bool_decide (last_char p = Some "m"%char))) (map_to_list (files fs5)).*1 = true)
    by (vm_compute; reflexivity).
  rewrite forallb_forall in Hk. specialize (Hk p (proj1 (list_elem_of_In _ _) Hc)).
  by rewrite bool_decide_eq_true_2 in Hk.
Qed.
Lemma history5_wf : Forall request_wf history5.
Proof. repeat constructor. Qed.
