(* ===== verification/Lifecycle.v ===== *)
(** * Pools and wallets over the life of the service

    Whole histories of the service refine the abstract registry of pools, keep the
    wallets, and change the status of a wallet only for who may do so. *)
From S2P Require Import Prelude.
From S2P Require Import RustStr.
From S2P Require Import RustFmt.
From S2P Require Import Errors.
From S2P Require Import Types.
From S2P Require Import Interfaces.
From S2P Require Import TxDatabase.
From S2P Require Import Text.
From S2P Require Import TxScans.
From S2P Require Import Storage.
From S2P Require Import TxCache.
From S2P Require Import AppState.
From S2P Require Import Wallets.
From S2P Require Import DataValidation.
From S2P Require Import Http.
From S2P Require Import VerifiedFetch.
From S2P Require Import Runtime.
From S2P Require Import Query.
From S2P Require Import Auth.
From S2P Require Import AuthFacts.
From S2P Require Import DrtProgram.
From S2P Require Import Chain.
From S2P Require Import GrantApi.
From S2P Require Import PoolApi.
From S2P Require Import Upload.
From S2P Require Import EnclaveKey.
From S2P Require Import Credentials.
From S2P Require Import PoolViews.
From S2P Require Import SolanaRpc.
From S2P Require Import Indexer.
From S2P Require Import IndexerFacts.
From S2P Require Import Transfers.
From S2P Require Import Background.
From S2P Require Import Server.
From S2P Require Import Router.
From S2P Require Import AuditLog.
From S2P Require Import WalletFacts.
From S2P Require Import PoolFacts.
From S2P Require Import PoolRegistry.
From S2P Require Import PoolLife.
From S2P Require Import CredFacts.
From S2P Require Import Footprint.
From S2P Require Import Service.

Local Open Scope Z_scope.
#[local] Arguments String.append : simpl nomatch.

Section Lifecycle.
Context {T C K M I Sec Pub J Tls : Type} `{RedbTableLaws T, RedbTxnLaws (Db T), Lru C CacheEntry, SolanaKeysLaws K}.
Context `{Wasmtime M I, CryptoCrates Sec Pub, JwtLaws J, UrlCrates, TlsCrates Tls}.
Context `{DbCratesLaws, AuditCrates, HashCratesLaws, SolanaLaws, SystemCrates, CsvCrates, TextCrates}.
Context `{SerdeLaws AuditEvent, SerdeLaws WalletMetadata, SerdeLaws PoolMetadata, Serde GrantRecord}.
Context `{SerdeLaws StoredTransaction, SerdeLaws (list Z), SerdeLaws (list FieldSchema), Serde Json}.
Context `{Serde DatasetFileMeta, Serde DatasetAnchor, Serde RevocationEntry, Serde JwksResponse}.
Context `{FromValue FieldType, FromValue RevocationEntry}.
Abbreviation St := (AppState T C).
Abbreviation Server := (Server (T := T) (C := C) (Sec := Sec) (J := J)).

(** The identifiers that a call brings: generated ones are not in use, and those
    of its path name a directory. *)
Definition ids_ok (c : call T K) (st : St) : Prop :=
  match c with
  | CCreateMaltaPool e _ | CCreateIobErpPool e _ => registry st (new_pool_id e) = None
  | CIssueCredentials e id _ =>
      safe_name (ce_record_id e) = true ∧ files (storage st) !! dataset_csv id (ce_record_id e) = None
  | CCreateWallet _ _ _ id => safe_name id = true ∧ mf (storage st) id = None
  | CDeleteWallet _ id | CSuspendWallet _ id | CActivateWallet _ id => safe_name id = true
  | _ => True
  end.

(** ** Pools *)

Lemma meta_path id : safe_name id = true → pool_meta DATA_DIR id = meta_file id.
Proof. intros Hid. by apply pool_path. Qed.
Lemma keeps_registry sc (st st' : St) :
  Footprint.keeps sc st st' → PoolMeta ∉ sc_files sc → reg_eq (registry st') (registry st).
Proof.
  intros (_ & [Hf _] & _) Hp id Hid. unfold registry. rewrite <-meta_path by done.
  by rewrite (Hf _ _ (kind_pool_meta id) Hp).
Qed.
Lemma call_registry (key : EnclaveKey Sec) (jwks : option (JwksCache J)) (c : call T K) token (st : St) :
  ids_ok c st → reg_step (registry st) (registry (run_call key jwks c token st).2).
Proof.
  intros Hids. destruct (decide (PoolMeta ∈ sc_files (footprint (endpoint_of c)))) as [Hp|Hp].
  2:{ apply reg_same. eapply keeps_registry; [apply run_call_within|exact Hp]. }
  apply (bool_decide_eq_true_2 _) in Hp. destruct c; try discriminate Hp; cbn [run_call ids_ok] in *; unfold answers; rewrite act_bind_eq.
  - pose proof (create_malta_step (registry st) e token payload Hids st ltac:(done)) as Hs.
    by destruct (create_malta_pool e token payload st) as [[] ?].
  - pose proof (create_iob_erp_step (registry st) e token payload Hids st ltac:(done)) as Hs.
    by destruct (create_iob_erp_pool e token payload st) as [[] ?].
  - pose proof (initialize_step (registry st) (private_key key) e token pool_pda form st ltac:(done)) as Hs.
    by destruct (initialize_pool _ e token pool_pda form st) as [[] ?].
  - pose proof (issue_step (registry st) (private_key key) e token pool_pda form (proj1 Hids) st ltac:(done)) as Hs.
    by destruct (issue_credentials _ e token pool_pda form st) as [[] ?].
  - pose proof (revoke_step (registry st) e token pool_pda payload st ltac:(done)) as Hs.
    by destruct (revoke_credentials e token pool_pda payload st) as [[] ?].
Qed.

(** *** Datasets *)

Lemma dataset_kind id r : file_kind (dataset_csv id r) = Some PoolDataset.
Proof.
  assert (Hx : ∃ x, dataset_csv id r = x +:+ ".csv").
  { exists ("/data/pools/" +:+ id +:+ "/dataset/" +:+ r). unfold dataset_csv, pool_file. by rewrite !append_assoc. }
  destruct Hx as [x ->]. unfold file_kind. destruct (base_of_suffix x ".csv" eq_refl) as (y & -> & _).
  rewrite !bool_decide_eq_false_2 by (by apply suffix_ne). by rewrite ends_with_app.
Qed.
Lemma within_csv {E A} sc (m : act St E A) id r :
  PoolDataset ∉ sc_files sc → within sc m → keeps_file (dataset_csv id r) m.
Proof. intros Hd Hw st. destruct (Hw st) as (_ & [Hf _] & _). by apply (Hf _ _ (dataset_kind id r)). Qed.
(** The scope of the bookkeeping around a dataset. *)
Definition books : Scope := audited (ISSUANCE_RECORDS :: POOL_TABLES) [PoolMeta].
Lemma books_csv {E A} (m : act St E A) id r : within books m → keeps_file (dataset_csv id r) m.
Proof. apply within_csv. cbn. set_solver. Qed.
Lemma write_csv_other io id r j n data :
  safe_name id = true → safe_name n = true → safe_name j = true → (j, n) ≠ (id, r) →
  keeps_file (dataset_csv id r)
    (zoom storage set_storage (write_raw io (dataset_file j (n +:+ ".csv")) data) : act St _ _).
Proof.
  intros Hid Hn Hj Hne. rewrite dataset_csv_path by done. apply keeps_file_raw; [apply csv_no_tmp|].
  intros [-> ->]%csv_inj; [|done..]. done.
Qed.
Hint Resolve load_meta_within save_meta_within mirror_within record_within writes_anchor check_csv_within
  pool_dirs_within : rsdk.
Hint Extern 1 (_ ⊆ _) => set_solver : rsdk.
Hint Extern 1 (_ ∈ _ :: _) => set_solver : rsdk.
(** Follow the bookkeeping; what is left are the writes of datasets. *)
Ltac solve_books := apply books_csv; unfold books; solve [solve_within; eauto with rsdk].
Ltac solve_csv :=
  repeat first
    [ match goal with |- ∀ _, _ => intro end
    | apply keeps_file_ret
    | solve_books
    | apply keeps_file_bind
    | apply keeps_file_map_err
    | apply keeps_file_caught
    | match goal with |- keeps_file _ (match ?x with _ => _ end) => destruct x end ].
Lemma issue_csv (enclave : Sec) e token j form id r (st : St) :
  safe_name id = true → safe_name (ce_record_id e) = true → (j, ce_record_id e) ≠ (id, r) →
  files (storage (issue_credentials (K := K) enclave e token j form st).2) !! dataset_csv id r =
    files (storage st) !! dataset_csv id r.
Proof.
  intros Hid Hn Hne. unfold issue_credentials. rewrite act_bind_eq.
  pose proof (issue_checks_reads (K := K) enclave e token j form st) as Hs.
  destruct (issue_checks enclave e token j form st) as [[x|x] s1] eqn:Hc; simpl in Hs; subst s1; [|done].
  destruct x as [[[[csv pda] meta] [[rid mint] uuid]] kp]. apply issue_checks_ok in Hc.
  pose proof (pubkey_str_safe _ _ (iy_pda _ _ _ _ _ _ _ _ _ _ _ _ _ Hc)) as Hj.
  match goal with |- files (storage (?m st).2) !! _ = _ => cut (keeps_file (dataset_csv id r) m); [by intros ?|] end.
  unfold issue_locked, log_event. cbv zeta. solve_csv. by apply write_csv_other.
Qed.

(** What an action does to a file from a state with a given registry. *)
Definition keeps_file_on {E A} (R : Registry) (p : string) (m : act St E A) : Prop :=
  ∀ st, reg_eq (registry st) R → files (storage (m st).2) !! p = files (storage st) !! p.
Lemma keeps_on_all {E A} R p (m : act St E A) : keeps_file p m → keeps_file_on R p m.
Proof. by intros Hm st _. Qed.
Lemma keeps_on_lift {E A B} R p (x : result E A) (f : A → act St E B) :
  (∀ a, x = Ok a → keeps_file_on R p (f a)) → keeps_file_on R p (lift x ≫= f).
Proof. intros Hf st Hr. rewrite act_bind_lift. destruct x as [a|]; [by apply Hf|done]. Qed.
Lemma keeps_on_bind {E A B} R p (m : act St E A) (f : A → act St E B) :
  PoolRegistry.still m → keeps_file p m → (∀ a, keeps_file_on R p (f a)) → keeps_file_on R p (m ≫= f).
Proof.
  intros Hs Hm Hf st Hr. specialize (Hs st). specialize (Hm st). rewrite act_bind_eq.
  destruct (m st) as [[a|x] s1]; [|done]. cbn [snd] in *. rewrite <-Hm. apply Hf. by rewrite Hs.
Qed.
Lemma keeps_on_load {B} R p io id (f : PoolMetadata → act St ApiError B) :
  safe_name id = true → (∀ m, R id = Some m → keeps_file_on R p (f m)) →
  keeps_file_on R p (load_meta io id ≫= f).
Proof.
  intros Hid Hf st Hr. rewrite act_bind_eq. pose proof (load_meta_reads io id st) as Hs.
  destruct (load_meta io id st) as [[m|x] s1] eqn:Hl; simpl in Hs; subst s1; [|done]. apply Hf; [|done].
  rewrite <-Hr by done. apply (load_meta_ok io); [done|by rewrite Hl].
Qed.
Lemma initialize_csv (enclave : Sec) e token j form id r (st : St) m :
  safe_name id = true → registry st id = Some m → p_state m = Ready →
  files (storage (initialize_pool enclave e token j form st).2) !! dataset_csv id r =
    files (storage st) !! dataset_csv id r.
Proof.
  intros Hid Hm Hst. match goal with |- files (storage (?f st).2) !! _ = _ =>
    cut (keeps_file_on (registry st) (dataset_csv id r) f); [intros Hk; by apply Hk|] end.
  unfold initialize_pool, log_event. cbv zeta. apply keeps_on_lift. intros csv _.
  apply keeps_on_lift. intros pda Hj%pubkey_arg_safe. apply keeps_on_lift. intros pool _.
  apply keeps_on_bind; [auto with rsdk|solve_books|]. intros wallet. apply keeps_on_lift. intros _ _.
  apply keeps_on_bind; [auto with rsdk|solve_books|]. intros _.
  apply keeps_on_load; [done|]. intros mj Hmj. apply keeps_on_lift.
  intros _ Hneeds%reject_if_ok%negb_false_iff%bool_decide_eq_true.
  assert (Hne : j ≠ id) by (intros ->; congruence). apply keeps_on_all.
  change "initial.csv" with ("initial" +:+ ".csv"). change "initial.meta.json" with ("initial" +:+ ".meta.json").
  solve_csv. apply write_csv_other; [done..|]. congruence.
Qed.
(** Stored datasets of a pool that is ready stay as they are. *)
Lemma call_csv (key : EnclaveKey Sec) (jwks : option (JwksCache J)) (c : call T K) token (st : St) id r m :
  ids_ok c st → safe_name id = true → registry st id = Some m → p_state m = Ready →
  is_Some (files (storage st) !! dataset_csv id r) →
  files (storage (run_call key jwks c token st).2) !! dataset_csv id r = files (storage st) !! dataset_csv id r.
Proof.
  intros Hids Hid Hm Hst Hf. destruct (decide (PoolDataset ∈ sc_files (footprint (endpoint_of c)))) as [Hd|Hd].
  2:{ by apply (within_csv _ _ id r Hd (run_call_within key jwks c token)). }
  apply (bool_decide_eq_true_2 _) in Hd. destruct c; try discriminate Hd; cbn [run_call ids_ok] in *; unfold answers;
    rewrite act_bind_eq.
  - pose proof (initialize_csv (private_key key) e token pool_pda form id r st m Hid Hm Hst) as Hi.
    by destruct (initialize_pool _ e token pool_pda form st) as [[] ?].
  - destruct Hids as [Hn Hno].
    assert (Hne : (pool_pda, ce_record_id e) ≠ (id, r)) by (intros [= -> <-]; rewrite Hno in Hf; by destruct Hf).
    pose proof (issue_csv (private_key key) e token pool_pda form id r st Hid Hn Hne) as Hi.
    by destruct (issue_credentials _ e token pool_pda form st) as [[] ?].
Qed.

(** ** Wallets *)

Lemma keeps_wallets sc (st st' : St) :
  Footprint.keeps sc st st' → WalletMeta ∉ sc_files sc → WalletKeypair ∉ sc_files sc →
  WALLET_BY_OWNER ∉ sc_tables sc → wallets_ok st →
  wallets_ok st' ∧ same_view (storage st) (storage st').
Proof.
  intros (Ht & [Hf _] & _) Hm Hk Ho Hok.
  assert (Hv : same_view (storage st) (storage st')).
  { intros j Hj. unfold mf, kf. rewrite <-wallet_meta_file, <-wallet_keypair_file by done.
    split; [apply (Hf _ _ (kind_wallet_meta j) Hm)|apply (Hf _ _ (kind_wallet_keypair j) Hk)]. }
  split; [|done]. apply (evolves_owner st); [done|by apply same_view_evolves|by eapply same_view_wf, Hok|].
  intros u w. unfold owner_at. rewrite Ht by done. by left.
Qed.
(** The calls that touch wallets. *)
Definition on_wallets (c : call T K) : bool :=
  match c with CCreateWallet _ _ _ _ | CDeleteWallet _ _ | CSuspendWallet _ _ | CActivateWallet _ _ => true | _ => false end.
Lemma other_wallets (key : EnclaveKey Sec) (jwks : option (JwksCache J)) (c : call T K) token (st : St) :
  on_wallets c = false → wallets_ok st →
  wallets_ok (run_call key jwks c token st).2 ∧ same_view (storage st) (storage (run_call key jwks c token st).2).
Proof.
  intros Hc Hok. eapply keeps_wallets; [apply run_call_within|..|exact Hok];
    (apply (bool_decide_eq_false_1 _); destruct c; first [discriminate Hc|reflexivity]).
Qed.
Lemma call_wallets (key : EnclaveKey Sec) (jwks : option (JwksCache J)) (c : call T K) token (st : St) :
  ids_ok c st → wallets_ok st →
  wallets_ok (run_call key jwks c token st).2 ∧
  WalletFacts.evolves (storage st) (storage (run_call key jwks c token st).2).
Proof.
  intros Hids Hok. destruct (on_wallets c) eqn:Hc.
  2:{ destruct (other_wallets key jwks c token st Hc Hok). split; [done|by apply same_view_evolves]. }
  destruct c; try done; cbn [run_call ids_ok] in *; unfold answers; rewrite act_bind_eq.
  - destruct Hids as [Hid Hf].
    pose proof (wallet_step_ok _ _ (StepCreate e token label fresh_kp wallet_id st Hid Hf) Hok) as Hs.
    by destruct (create_wallet e token label fresh_kp wallet_id st) as [[] ?].
  - pose proof (wallet_step_ok (K := K) _ _ (StepDelete e token wallet_id st Hids) Hok) as Hs.
    by destruct (delete_wallet e token wallet_id st) as [[] ?].
  - pose proof (wallet_step_ok (K := K) _ _ (StepSuspend e token wallet_id st Hids) Hok) as Hs.
    by destruct (suspend_wallet e token wallet_id st) as [[] ?].
  - pose proof (wallet_step_ok (K := K) _ _ (StepActivate e token wallet_id st Hids) Hok) as Hs.
    by destruct (activate_wallet e token wallet_id st) as [[] ?].
Qed.

(** *** Who changes the status of a wallet *)

(** The action changes at most the status of the wallet, to [new]. *)
Definition sets {E A} (id : string) (new : WalletStatus) (m : act St E A) : Prop := ∀ st, fs_wf (storage st) →
  (∀ j, safe_name j = true → j ≠ id → mf (storage (m st).2) j = mf (storage st) j) ∧
  (mf (storage (m st).2) id = mf (storage st) id ∨ ∃ m', on_disk (storage (m st).2) id m' ∧ w_status m' = new).
Definition keeps_meta {E A} (m : act St E A) : Prop :=
  ∀ st j, safe_name j = true → mf (storage (m st).2) j = mf (storage st) j.
Lemma within_meta {E A} sc (m : act St E A) : WalletMeta ∉ sc_files sc → within sc m → keeps_meta m.
Proof.
  intros Hm Hw st j Hj. destruct (Hw st) as (_ & [Hf _] & _). unfold mf. rewrite <-wallet_meta_file by done.
  apply (Hf _ _ (kind_wallet_meta j) Hm).
Qed.
Lemma sets_then {E A B} id new (m : act St E A) (f : A → act St E B) :
  safe_name id = true → sets id new m → (∀ a, keeps_meta (f a)) → sets id new (m ≫= f).
Proof.
  intros Hid Hm Hf st Hwf. destruct (Hm st Hwf) as [Hj Hn]. rewrite act_bind_eq.
  destruct (m st) as [[a|x] st1]; [|done]. cbn [snd] in *. split.
  - intros j Hjs Hne. by rewrite Hf, Hj.
  - unfold on_disk. rewrite (Hf a st1 id Hid). exact Hn.
Qed.
Lemma sets_get {B} io id new (f : WalletMetadata → act St ApiError B) :
  safe_name id = true → (∀ m, w_wallet_id m = id → sets id new (f m)) →
  sets id new (on_storage (wallet_get io id) ≫= f).
Proof.
  intros Hid Hf st Hwf. rewrite act_bind_eq, on_storage_run.
  rewrite (proj1 (wallet_get_spec io id (storage st) Hid)), set_storage_id.
  destruct (wallet_get io id (storage st)).1 as [m|x] eqn:Hg; [|by split; [|left]].
  destruct (wallet_get_wf _ _ _ _ Hid Hwf Hg) as [_ Hm]. by apply Hf.
Qed.
Lemma sets_update io id new m :
  safe_name id = true → w_wallet_id m = id →
  sets id new (on_storage (wallet_update io (with_status new m)) : act St ApiError unit).
Proof.
  intros Hid Hm st _. rewrite on_storage_run. cbn [snd storage set_storage].
  destruct (wallet_update_spec io (with_status new m) (storage st)) as ([_ Hj] & Hn & _); [by cbn; rewrite Hm|].
  cbn in Hj, Hn. rewrite Hm in Hj, Hn. split; [exact Hj|]. destruct Hn as [|Hd]; [by left|right; by eexists].
Qed.
Lemma sets_reject {B} id new (b : bool) x (f : unit → act St ApiError B) :
  sets id new (f ()) → sets id new (lift (reject_if b x) ≫= f).
Proof. intros Hf st Hwf. rewrite act_bind_lift. destruct b; [by split; [|left]|by apply Hf]. Qed.
Lemma audit_meta {A} e env ty u rt ri (a : A) :
  keeps_meta (audit e env ty u rt ri ≫= λ _, mret a : act St ApiError A).
Proof. intros st j _. rewrite audit_then. exact (proj1 (audit_view e env ty u rt ri st j)). Qed.
Lemma suspend_sets e token id : safe_name id = true → sets id WSuspended (suspend_wallet e token id : act St ApiError _).
Proof.
  intros Hid. unfold suspend_wallet. apply sets_get; [done|]. intros m Hm. apply sets_reject.
  apply sets_then; [exact Hid|exact (sets_update _ id _ m Hid Hm)|]. intros _. apply audit_meta.
Qed.
Lemma activate_sets e token id : safe_name id = true → sets id WActive (activate_wallet e token id : act St ApiError _).
Proof.
  intros Hid. unfold activate_wallet. apply sets_get; [done|]. intros m Hm. apply sets_reject.
  apply sets_then; [exact Hid|exact (sets_update _ id _ m Hid Hm)|]. intros _. apply audit_meta.
Qed.
(** A deletion comes this far for the owner only. *)
Lemma delete_sets e token id (st : St) :
  safe_name id = true → fs_wf (storage st) →
  let st' := (delete_wallet e token id st).2 in
  (∀ j, safe_name j = true → j ≠ id → mf (storage st') j = mf (storage st) j) ∧
  (mf (storage st') id = mf (storage st) id ∨
   (∃ m, on_disk (storage st) id m ∧ w_owner_user_id m = sub token) ∧
   ∃ m', on_disk (storage st') id m' ∧ w_status m' = WDeleted).
Proof.
  intros Hid Hwf st'. unfold st', delete_wallet. rewrite act_bind_eq, on_storage_run.
  rewrite (get_owned_same _ id _ _ Hid), set_storage_id.
  destruct (wallet_get_owned _ id _ (storage st)).1 as [m|x] eqn:Hg; [|by split; [|left]].
  assert (Hown : on_disk (storage st) id m ∧ w_owner_user_id m = sub token).
  { unfold wallet_get_owned in Hg. rewrite act_bind_eq in Hg.
    destruct (wallet_get_spec (re_io e 0%nat) id (storage st) Hid) as [_ Hd].
    destruct (wallet_get _ _ _) as [[m1|] s1]; [|done]. cbn in Hg. unfold verify_ownership in Hg.
    case_bool_decide as Hu; [|done]. injection Hg as ->. split; [by apply Hd|done]. }
  cbn [map_err].
  assert (Hs : sets id WDeleted (on_storage (wallet_soft_delete (λ n, re_io e (1 + n)%nat) id) ≫= λ _,
    best_effort (on_db (remove_wallet_owner (re_db e 0%nat) (sub token))) ≫= λ _,
    audit e (re_db e 1%nat) WalletDeleted (sub token) "wallet" id ≫= λ _,
    mret ("deleted", id) : act St ApiError (string * string))).
  { apply sets_then; [done| |].
    - intros s1 Hwf1. pose proof (sets_get (re_io e 1%nat) id WDeleted
        (λ m, on_storage (wallet_update (λ n, re_io e (2 + n)%nat) (with_status WDeleted m))) Hid) as Hget.
      assert (Heq : (on_storage (wallet_soft_delete (λ n, re_io e (1 + n)%nat) id) : act St ApiError unit) s1 =
        (on_storage (wallet_get (re_io e 1%nat) id) ≫= λ m,
           on_storage (wallet_update (λ n, re_io e (2 + n)%nat) (with_status WDeleted m))) s1).
      { rewrite act_bind_eq, !on_storage_run. unfold wallet_soft_delete. rewrite act_bind_eq.
        destruct (wallet_get _ id (storage s1)) as [[m1|] s2]; [|done]. cbn [fst snd map_err].
        by rewrite on_storage_run. }
      rewrite Heq. apply Hget; [|done]. intros m1 Hm1. exact (sets_update _ id _ m1 Hid Hm1).
    - intros _ s1 j Hj. rewrite act_bind_eq. unfold best_effort. rewrite on_db_run. cbn [snd].
      by rewrite audit_meta. }
  destruct (Hs st Hwf) as [Hj Hn]. split; [exact Hj|]. destruct Hn as [|Hd]; [by left|right; eauto].
Qed.
Lemma create_meta e token label kp id (st : St) j :
  safe_name id = true → safe_name j = true → j ≠ id →
  mf (storage (create_wallet (K := K) e token label kp id st).2) j = mf (storage st) j.
Proof.
  intros Hid Hj Hne. unfold create_wallet. rewrite act_bind_eq. unfold lift at 1.
  destruct (match label with Some l => _ | None => _ end); [|done].
  rewrite act_bind_eq. cbn [lift generate_solana_keypair]. set (m := mkWalletMetadata id (sub token) _ _ _ _).
  rewrite act_bind_eq, on_storage_run.
  pose proof (wallet_create_spec (re_io e) m (kp_to_bytes kp) (storage st) Hid) as (Hs & _). cbn in Hs.
  destruct (Hs j Hj Hne) as [Hm _]. clear Hs.
  destruct (wallet_create _ _ _ (storage st)) as [[[]|er] s']; cbn [fst snd map_err] in *; [|done].
  rewrite act_bind_eq. unfold best_effort. rewrite on_db_run. cbn [snd]. rewrite act_bind_eq.
  destruct (register_wallet_owner _ _ _ _) as [[[]|er] db2]; [|destruct er]; cbn [storage set_tx_db set_storage snd fst];
    first [exact Hm|by rewrite audit_meta].
Qed.

Lemma call_status (key : EnclaveKey Sec) (jwks : option (JwksCache J)) (c : call T K) token (st : St) id m m' :
  ids_ok c st → wallets_ok st → safe_name id = true → on_disk (storage st) id m →
  on_disk (storage (run_call key jwks c token st).2) id m' → w_status m' ≠ w_status m →
  (∃ e, c = CDeleteWallet e id) ∧ w_status m' = WDeleted ∧ sub token = w_owner_user_id m ∨
  (∃ e, c = CSuspendWallet e id) ∧ w_status m' = WSuspended ∨
  (∃ e, c = CActivateWallet e id) ∧ w_status m' = WActive.
Proof.
  intros Hids Hok Hid Hm Hm' Hne.
  assert (Hsame : mf (storage (run_call key jwks c token st).2) id ≠ mf (storage st) id).
  { intros Heq. apply Hne. f_equal. apply (on_disk_det (storage st) id); [|exact Hm].
    destruct Hm' as (d & Hd & Hf). exists d. by rewrite <-Heq. }
  destruct (on_wallets c) eqn:Hc.
  2:{ destruct (other_wallets key jwks c token st Hc Hok) as [_ Hv]. by destruct (Hsame (proj1 (Hv id Hid))). }
  assert (Hans : ∀ A code (x : act St ApiError A), (answers code x st).2 = (x st).2).
  { intros A code x. unfold answers. rewrite act_bind_eq. by destruct (x st) as [[] ?]. }
  destruct c as [| | | | | | | | |e label kp w| |e w| | | | | | | | |e w|e w| | | | | | | | | | | | | | | | | | | | | |];
    try done; cbn [run_call ids_ok] in *; rewrite Hans in Hsame, Hm'.
  - destruct Hids as [Hw Hf]. destruct (decide (id = w)) as [->|Hneq].
    + destruct Hm as (d & Hd & _). congruence.
    + by destruct (Hsame (create_meta e token label kp w st id Hw Hid Hneq)).
  - destruct (delete_sets e token w st Hids (ok_wf _ Hok)) as [Hj Hn].
    destruct (decide (id = w)) as [->|Hneq]; [|by destruct (Hsame (Hj id Hid Hneq))]. left.
    destruct Hn as [|((m0 & Hm0 & Ho) & m1 & Hm1 & Hst)]; [done|].
    rewrite (on_disk_det _ _ _ _ Hm' Hm1), (on_disk_det _ _ _ _ Hm Hm0). eauto.
  - destruct (suspend_sets e token w Hids st (ok_wf _ Hok)) as [Hj Hn].
    destruct (decide (id = w)) as [->|Hneq]; [|by destruct (Hsame (Hj id Hid Hneq))]. right. left.
    destruct Hn as [|(m1 & Hm1 & Hst)]; [done|]. rewrite (on_disk_det _ _ _ _ Hm' Hm1). eauto.
  - destruct (activate_sets e token w Hids st (ok_wf _ Hok)) as [Hj Hn].
    destruct (decide (id = w)) as [->|Hneq]; [|by destruct (Hsame (Hj id Hid Hneq))]. right. right.
    destruct Hn as [|(m1 & Hm1 & Hst)]; [done|]. rewrite (on_disk_det _ _ _ _ Hm' Hm1). eauto.
Qed.

(** ** Histories *)

Context (audience : string) (net : NetworkConfig).
Abbreviation run_from := (run audience net).
Abbreviation step_from := (step audience net).

(** The identifiers of a history are in order when they come. *)
Definition ids_fresh (s : Server) (evs : list (event T K Sec)) : Prop :=
  ∀ pre q c post, evs = pre ++ Request q (Ok c) :: post → ids_ok c (sv_state (run_from s pre)).
Lemma ids_fresh_snoc (s : Server) evs ev :
  ids_fresh s (evs ++ [ev]) →
  ids_fresh s evs ∧ ∀ q c, ev = Request q (Ok c) → ids_ok c (sv_state (run_from s evs)).
Proof.
  intros Hf. split; [|intros q c ->; by eapply Hf].
  intros pre q c post ->. apply (Hf pre q c (post ++ [ev])). by rewrite <-app_assoc.
Qed.
Lemma turn_storage t (st : St) :
  storage (task_turn INDEXER_ENABLED net st t) = storage st ∧
  tx_db (task_turn INDEXER_ENABLED net st t) WALLET_BY_OWNER = tx_db st WALLET_BY_OWNER.
Proof.
  destruct t as [env e|env now]; [done|]. destruct (purge_turn_confined env now st) as [Hs _ Ht].
  cbn [task_turn]. split; [done|]. apply Ht. set_solver.
Qed.
(** What the turns, the starts and the ends of a process keep. *)
Lemma restarted_storage (s s' : Server) :
  restarted s s' →
  files (storage (sv_state s')) = files (storage (sv_state s)) ∧
  tx_db (sv_state s') WALLET_BY_OWNER = tx_db (sv_state s) WALLET_BY_OWNER.
Proof. intros [Hf Hd _ _]. by rewrite Hd. Qed.
(** An event leaves the stored files and the owners alone, or runs a call. *)
Lemma stored_cases (s : Server) evs ev :
  sv_jwks s = None → ids_fresh s (evs ++ [ev]) →
  let before := run_from s evs in
  let after := step_from before ev in
  (files (storage (sv_state after)) = files (storage (sv_state before)) ∧
   tx_db (sv_state after) WALLET_BY_OWNER = tx_db (sv_state before) WALLET_BY_OWNER) ∨
  ∃ key q c tok jwks, ev = Request q (Ok c) ∧ sv_key before = Some key ∧
    caller audience key (auth_envs evs) q c tok ∧ fits (rq_path q) c = true ∧ ids_ok c (sv_state before) ∧
    sv_state after = (run_call (M := M) (I := I) key (jwks : option (JwksCache J)) c (default no_token tok) (sv_state before)).2.
Proof.
  intros Hj [_ Hids]%ids_fresh_snoc. cbv zeta.
  destruct (event_cases audience net s evs ev Hj) as [(t & _ & ->)|[->|[[_ Hr]|(key & q & c & tok & jwks & -> & Hk & Hc & Hf & _ & ->)]]].
  - left. destruct (turn_storage t (sv_state (run_from s evs))) as [-> ->]. done.
  - by left.
  - left. by apply restarted_storage.
  - right. exists key, q, c, tok, jwks. split_and!; [done..|by eapply Hids|done].
Qed.
Lemma same_registry (st st' : St) : files (storage st') = files (storage st) → registry st' = registry st.
Proof. intros Hf. unfold registry. by rewrite Hf. Qed.
Lemma step_registry (s : Server) evs ev :
  sv_jwks s = None → ids_fresh s (evs ++ [ev]) →
  reg_step (registry (sv_state (run_from s evs))) (registry (sv_state (step_from (run_from s evs) ev))).
Proof.
  intros Hj Hids. destruct (stored_cases s evs ev Hj Hids) as [[Hf _]|(key & q & c & tok & jwks & -> & _ & _ & _ & Hi & ->)].
  - apply reg_same. intros id _. by rewrite (same_registry _ _ Hf).
  - by apply call_registry.
Qed.
Lemma step_csv (s : Server) evs ev id r m csv :
  sv_jwks s = None → ids_fresh s (evs ++ [ev]) → safe_name id = true →
  registry (sv_state (run_from s evs)) id = Some m → p_state m = Ready →
  files (storage (sv_state (run_from s evs))) !! dataset_csv id r = Some csv →
  files (storage (sv_state (step_from (run_from s evs) ev))) !! dataset_csv id r =
    files (storage (sv_state (run_from s evs))) !! dataset_csv id r.
Proof.
  intros Hj Hids Hid Hm Hst Hf.
  destruct (stored_cases s evs ev Hj Hids) as [[-> _]|(key & q & c & tok & jwks & -> & _ & _ & _ & Hi & ->)]; [done|].
  eapply call_csv; [exact Hi|done..|by exists csv].
Qed.
Lemma step_logs (s : Server) evs ev p :
  sv_jwks s = None → ids_fresh s (evs ++ [ev]) → is_log p = true →
  grown (files (storage (sv_state (run_from s evs))) !! p)
    (files (storage (sv_state (step_from (run_from s evs) ev))) !! p).
Proof.
  intros Hj Hids Hp.
  destruct (stored_cases s evs ev Hj Hids) as [[-> _]|(key & q & c & tok & jwks & -> & _ & _ & _ & _ & ->)]; [done|].
  by apply (run_call_within key jwks c (default no_token tok) (sv_state (run_from s evs))).
Qed.
Lemma step_wallets (s : Server) evs ev :
  sv_jwks s = None → ids_fresh s (evs ++ [ev]) → wallets_ok (sv_state (run_from s evs)) →
  wallets_ok (sv_state (step_from (run_from s evs) ev)) ∧
  WalletFacts.evolves (storage (sv_state (run_from s evs))) (storage (sv_state (step_from (run_from s evs) ev))).
Proof.
  intros Hj Hids Hok.
  destruct (stored_cases s evs ev Hj Hids) as [[Hf Ho]|(key & q & c & tok & jwks & -> & _ & _ & _ & Hi & ->)];
    [|by apply call_wallets].
  assert (Hv : same_view (storage (sv_state (run_from s evs))) (storage (sv_state (step_from (run_from s evs) ev))))
    by (intros j _; unfold mf, kf; by rewrite Hf).
  split; [|by apply same_view_evolves].
  apply (evolves_owner (sv_state (run_from s evs))); [done|by apply same_view_evolves|by eapply same_view_wf, Hok|].
  intros u w. unfold owner_at. rewrite Ho. by left.
Qed.
Lemma history_wallets (s : Server) evs :
  sv_jwks s = None → ids_fresh s evs → wallets_ok (sv_state s) →
  wallets_ok (sv_state (run_from s evs)) ∧
  WalletFacts.evolves (storage (sv_state s)) (storage (sv_state (run_from s evs))).
Proof.
  intros Hj Hids Hok. induction evs as [|ev evs IH] using rev_ind; [by apply WalletFacts.keeps_same|].
  destruct (IH (proj1 (ids_fresh_snoc _ _ _ Hids))) as [Hok1 Hev1]. rewrite run_snoc.
  destruct (step_wallets s evs ev Hj Hids Hok1) as [Hok2 Hev2]. split; [done|].
  intros id m Hid Hm. destruct (Hev1 id m Hid Hm) as (Hk & m1 & Hm1 & He1 & Hd1).
  destruct (Hev2 id m1 Hid Hm1) as (Hk2 & m2 & Hm2 & He2 & Hd2). split; [congruence|].
  exists m2. split; [done|]. split; [|auto]. rewrite He2, He1. by destruct m, m2.
Qed.

(** C2: the service refines the registry of pools.  Along any history of the whole
    service - requests of every endpoint, with any arguments, tokens and failures,
    background turns, ends and starts of the process - each event changes the stored
    pool metadata by one
    transition of the abstract registry or not at all: a new entry under a fresh
    address; a MALTA pool made ready with the rows of its dataset; a ready MALTA
    pool with an issuance counted; a revocation counted.  Where an entry changes,
    the event is a request with an authentic admin token. *)
Theorem service_refines_registry (s : Server) (evs pre post : list (event T K Sec)) (ev : event T K Sec)
    (Hj : sv_jwks s = None) (Hids : ids_fresh s evs) (Hevs : evs = pre ++ ev :: post) :
  let before := run_from s pre in
  let after := step_from before ev in
  reg_step (registry (sv_state before)) (registry (sv_state after)) ∧
  ∀ id, safe_name id = true → registry (sv_state after) id ≠ registry (sv_state before) id →
    ∃ key q c td, ev = Request q (Ok c) ∧ sv_key before = Some key ∧ PoolMeta ∈ sc_files (footprint (endpoint_of c)) ∧
      authentic (K := J) audience (public_jwk key) (auth_envs pre) q td "admin".
Proof.
  intros before after. assert (Hpre : ids_fresh s (pre ++ [ev])).
  { intros pre' q c post' He. apply (Hids pre' q c (post' ++ post)).
    rewrite Hevs. change (ev :: post) with ([ev] ++ post). by rewrite app_assoc, He, <-app_assoc. }
  split; [by apply step_registry|]. intros id Hid Hne.
  destruct (stored_cases s pre ev Hj Hpre) as [[Hf _]|(key & q & c & tok & jwks & -> & Hk & Hc & _ & _ & Hs)].
  { destruct Hne. unfold after, before. by rewrite (same_registry _ _ Hf). }
  destruct (decide (PoolMeta ∈ sc_files (footprint (endpoint_of c)))) as [Hp|Hp].
  - assert (Hg : guard_of (endpoint_of c) = Some "admin") by (apply (bool_decide_eq_true_2 _) in Hp; destruct c; first [reflexivity|discriminate Hp]).
    unfold caller in Hc. rewrite Hg in Hc. destruct Hc as (td & _ & Htd). by exists key, q, c, td.
  - destruct Hne. unfold after, before. rewrite Hs. eapply keeps_registry; [apply run_call_within|exact Hp|exact Hid].
Qed.

(** C17: stored pools stay, keep their identity and are well typed.  Over any
    history of the whole service, across restarts, every stored pool is filed under its own address;
    its counters are 64-bit values; a pool that is not ready has no rows, no
    initialisation and no issuance; a ready pool is a MALTA pool with its
    initialisation time; the MALTA pools are exactly those with the append right.
    A pool's address, name, kind, UUID, DRTs, owner, schema, validation mode and
    creation time never change, and it is initialised at most once; the datasets of
    a pool that is ready are never altered, and the logs of revocations and of
    audit events only grow. *)
Theorem pools_live_on (s : Server) (evs : list (event T K Sec)) (Hj : sv_jwks s = None) (Hids : ids_fresh s evs)
    (Hwf : reg_wf (registry (sv_state s))) :
  let before := sv_state s in
  let after := sv_state (run_from s evs) in
  reg_wf (registry after) ∧
  (∀ id m, safe_name id = true → registry before id = Some m →
     ∃ m', registry after id = Some m' ∧ PoolLife.evolves m m') ∧
  (∀ id m r csv, safe_name id = true → registry before id = Some m → p_state m = Ready →
     files (storage before) !! dataset_csv id r = Some csv →
     files (storage after) !! dataset_csv id r = Some csv) ∧
  ∀ p, is_log p = true → grown (files (storage before) !! p) (files (storage after) !! p).
Proof.
  induction evs as [|ev evs IH] using rev_ind; cbv zeta in *.
  { split_and!; [done|intros id m _ Hm; by exists m|done|done]. }
  destruct (IH (proj1 (ids_fresh_snoc _ _ _ Hids))) as (Hwf1 & Hev1 & Hcsv1 & Hlog1). rewrite run_snoc.
  pose proof (step_registry s evs ev Hj Hids) as Hs. split_and!.
  - by eapply reg_step_wf.
  - intros id m Hid Hm. destruct (Hev1 id m Hid Hm) as (m1 & Hm1 & He1).
    destruct (reg_step_evolves _ _ id m1 Hs Hid Hm1) as (m2 & Hm2 & He2). exists m2. split; [done|]. by etrans.
  - intros id m r csv Hid Hm Hst Hf. rewrite <-(Hcsv1 id m r csv Hid Hm Hst Hf).
    destruct (Hev1 id m Hid Hm) as (m1 & Hm1 & _ & Hr). destruct (Hr Hst) as [Hst1 _].
    by apply (step_csv s evs ev id r m1 csv Hj Hids Hid Hm1 Hst1), (Hcsv1 id m).
  - intros p Hp. etrans; [by apply Hlog1|by apply (step_logs s evs ev p Hj Hids)].
Qed.

(** C30: wallets are never lost, deletion is final, and users act on wallets of
    theirs.  Along any history of the whole service, across restarts, a stored wallet keeps its id,
    owner, address and label, its key file keeps its content, and once deleted it
    stays deleted; and the wallet that the server resolves for a user belongs to
    that user and is active. *)
Theorem wallets_live_on (s : Server) (evs : list (event T K Sec)) (Hj : sv_jwks s = None) (Hids : ids_fresh s evs)
    (Hok : wallets_ok (sv_state s)) :
  let st := sv_state (run_from s evs) in
  (∀ id m, safe_name id = true → on_disk (storage (sv_state s)) id m →
     kf (storage st) id = kf (storage (sv_state s)) id ∧
     ∃ m', on_disk (storage st) id m' ∧ m' = with_status (w_status m') m ∧
       (w_status m = WDeleted → w_status m' = WDeleted)) ∧
  (∀ io env u m st', get_active_wallet_for_user io env u st = (Ok m, st') →
     w_owner_user_id m = u ∧ w_status m = WActive ∧ st' = st).
Proof.
  destruct (history_wallets s evs Hj Hids Hok) as [Hok1 Hev]. split; [exact Hev|].
  intros io env u m st' Hg. by eapply active_wallet_owned.
Qed.

End Lifecycle.

(** ** Examples *)

From S2P Require Import Instances.
From S2P Require Import FetchFacts.
From S2P Require Import Mean.
From S2P Require Import MeanFacts.
From S2P Require Import MeanHost.
From S2P Require Import QueryFacts.
From S2P Require Import DrtProgramFacts.
From S2P Require Import PoolExamples.
From S2P Require Import TransferFacts.

#[local] Existing Instance Service.wasm_mean.
#[local] Instance keys3_laws : SolanaKeysLaws unit.
Proof. split. by intros []. Qed.
(** The token of an administrator who owns the wallet. *)
#[local] Instance jwt6 : JwtCrates string := {
  from_ec_components x _ := Ok x;
  decode_header t := if bool_decide (t = "token") then Ok (Some "k1") else Err "bad";
  jwt_decode key aud iss now t :=
    if bool_decide (key = "X" ∧ t = "token") then
      Ok (mkClaims iss "al" (Some aud) now now (Some "admin") None (Some (public_jwk key1)))
    else Err "bad";
  es256_signed key t := key = "X" ∧ t = "token";
  status_display z := show_u64 z;
}.
#[local] Instance jwt6_laws : JwtLaws string.
Proof.
  split. simpl. intros key aud iss now t c. case_bool_decide as Hk; [|done]. intros [= <-]. simpl.
  destruct Hk. split_and!; auto; lia.
Qed.

Definition server6 : Service.Server (T := table0) (C := lru1) (Sec := ascii) (J := string) :=
  mkServer w_wallet None (Some key1).
Definition post6 (path : string) : request := mkRequest MPost path (Some "Bearer token") auth_env0.
Definition create6 : event table0 unit ascii := Request (post6 "/v1/drt/pools/malta") (Ok (CCreateMaltaPool penv3 malta0)).
Definition suspend6 : event table0 unit ascii := Request (post6 "/v1/admin/wallets/w1/suspend") (Ok (CSuspendWallet req0 "w1")).
Definition history6 : list (event table0 unit ascii) := [create6; Tick (NonceTick env0 5); Start boot0 "k"%char; suspend6].
Abbreviation run6 := (run (C := lru1) (M := unit) (I := Guest) (J := string) "relational-sdk" network_config_from_env).
Abbreviation step6 := (step (C := lru1) (M := unit) (I := Guest) (J := string) "relational-sdk" network_config_from_env).
Definition wallet6 (s : WalletStatus) : WalletMetadata :=
  mkWalletMetadata "w1" "al" (hex_pairs owner3) (mkDateTime 5 0) s None.

Lemma history6_runs :
  (p_state <$> registry (sv_state (run6 server6 history6)) pool3) = Some NeedsInit ∧
  registry (sv_state server6) pool3 = None.
Proof. split; vm_compute; reflexivity. Qed.
Lemma history6_fresh : ids_fresh (M := unit) (I := Guest) "relational-sdk" network_config_from_env server6 history6.
Proof.
  intros pre q c post He. destruct pre as [|x [|y [|z [|u pre]]]]; cbn [app] in He.
  - injection He as <- <- <-. exact fresh3.
  - discriminate He.
  - discriminate He.
  - injection He as _ _ _ <- <- <-. reflexivity.
  - injection He as _ _ _ _ He. by destruct pre.
Qed.
Lemma server6_ok : wallets_ok (sv_state server6).
Proof. by apply (create_wallet_ok (K := unit)); [..|apply wst0_ok]. Qed.
Lemma server6_disk : on_disk (storage (sv_state server6)) "w1" (wallet6 WActive).
Proof. eexists. split; vm_compute; reflexivity. Qed.
Lemma run6_disk : on_disk (storage (sv_state (run6 server6 history6))) "w1" (wallet6 WSuspended).
Proof. eexists. split; vm_compute; reflexivity. Qed.

Lemma service_refines_registry_witness :
  reg_step (registry (sv_state (run6 server6 []))) (registry (sv_state (step6 (run6 server6 []) create6))) ∧
  ∃ key q c td, create6 = Request q (Ok c) ∧ sv_key server6 = Some key ∧
    PoolMeta ∈ sc_files (footprint (endpoint_of c)) ∧
    authentic (K := string) "relational-sdk" (public_jwk key) [] q td "admin".
Proof.
  pose proof (service_refines_registry (M := unit) (I := Guest) "relational-sdk" network_config_from_env
    server6 history6 [] [Tick (NonceTick env0 5); Start boot0 "k"%char; suspend6] create6 eq_refl history6_fresh eq_refl) as [Hs Hc].
  split; [exact Hs|]. apply (Hc pool3); [vm_compute; reflexivity|].
  intros He. apply (f_equal (λ o, match o with None => true | Some _ => false end)) in He.
  vm_compute in He. discriminate He.
Defined.
Lemma pools_live_on_witness : reg_wf (registry (sv_state (run6 server6 history6))).
Proof.
  exact (proj1 (pools_live_on (M := unit) (I := Guest) "relational-sdk" network_config_from_env
    server6 history6 eq_refl history6_fresh registry_wallet3)).
Defined.
Lemma wallets_live_on_witness :
  ∃ m', on_disk (storage (sv_state (run6 server6 history6))) "w1" m' ∧ m' = with_status (w_status m') (wallet6 WActive).
Proof.
  destruct (proj1 (wallets_live_on (M := unit) (I := Guest) "relational-sdk" network_config_from_env
    server6 history6 eq_refl history6_fresh server6_ok) "w1" _ eq_refl server6_disk) as (_ & m' & Hm & He & _).
  exists m'. split; [exact Hm|exact He].
Defined.
