(* ===== verification/Ledger.v ===== *)
(** * The ledger over the life of the service

    The recorded transactions along whole histories: every record is accounted for
    by a request of its wallet's owner - a transfer that was sent, or a listing or a
    status request that read the chain - and none is lost or altered. *)
From S2P Require Import Prelude.
From S2P Require Import RustStr.
From S2P Require Import RustFmt.
From S2P Require Import Errors.
From S2P Require Import Types.
From S2P Require Import Interfaces.
From S2P Require Import TxDatabase.
From S2P Require Import Text.
From S2P Require Import TxScans.
From S2P Require Import Storage.
From S2P Require Import TxCache.
From S2P Require Import AppState.
From S2P Require Import Wallets.
From S2P Require Import DataValidation.
From S2P Require Import Http.
From S2P Require Import VerifiedFetch.
From S2P Require Import Runtime.
From S2P Require Import Query.
From S2P Require Import Auth.
From S2P Require Import AuthFacts.
From S2P Require Import DrtProgram.
From S2P Require Import Chain.
From S2P Require Import GrantApi.
From S2P Require Import PoolApi.
From S2P Require Import Upload.
From S2P Require Import EnclaveKey.
From S2P Require Import Credentials.
From S2P Require Import PoolViews.
From S2P Require Import SolanaRpc.
From S2P Require Import Indexer.
From S2P Require Import IndexerFacts.
From S2P Require Import Transfers.
From S2P Require Import Background.
From S2P Require Import Server.
From S2P Require Import Router.
From S2P Require Import AuditLog.
From S2P Require Import Footprint.
From S2P Require Import Service.
From S2P Require Import TransferFacts.

Local Open Scope Z_scope.
#[local] Arguments String.append : simpl nomatch.

Lemma act_bind_err {S E A B} (m : act S E A) (f : A → act S E B) s x s' :
  (m ≫= f) s = (Err x, s') → m s = (Err x, s') ∨ ∃ a s1, m s = (Ok a, s1) ∧ f a s1 = (Err x, s').
Proof. rewrite act_bind_eq. destruct (m s) as [[a|y] s1]; [right; by exists a, s1|left; congruence]. Qed.

Section Ledger.
Context {T C K M I Sec Pub J Tls : Type} `{RedbTableLaws T, RedbTxnLaws (Db T), LruLaws C CacheEntry, SolanaKeys K}.
Context `{Wasmtime M I, CryptoCrates Sec Pub, JwtLaws J, UrlCrates, TlsCrates Tls}.
Context `{DbCratesLaws, AuditCrates, HashCratesLaws, SolanaLaws, SystemCrates, CsvCrates, TextCrates}.
Context `{Serde AuditEvent, Serde WalletMetadata, Serde PoolMetadata, Serde GrantRecord}.
Context `{SerdeLaws StoredTransaction, Serde (list Z), Serde (list FieldSchema), Serde Json}.
Context `{Serde DatasetFileMeta, Serde DatasetAnchor, Serde RevocationEntry, Serde JwksResponse}.
Context `{FromValue FieldType, FromValue RevocationEntry}.
Abbreviation St := (AppState T C).
Abbreviation Server := (Server (T := T) (C := C) (Sec := Sec) (J := J)).

(** ** The records of a call *)

(** From [db] to [db'] the records stay, and each new one is one of [P]. *)
Definition gained (P : string → StoredTransaction → Prop) (db db' : Db T) : Prop :=
  ∀ sig, stored_bytes db' sig = stored_bytes db sig ∨
    stored_bytes db sig = None ∧ ∃ tx b, P sig tx ∧ to_vec tx = Ok b ∧ stored_bytes db' sig = Some b.
Lemma gained_same P (db db' : Db T) : db' TRANSACTIONS = db TRANSACTIONS → gained P db db'.
Proof. intros He sig. left. unfold stored_bytes. by rewrite He. Qed.
Lemma adds_gained src (db db' : Db T) : adds src db db' → gained (src db) db db'.
Proof. by intros [_ Ha]. Qed.
Lemma gained_mono (P Q : string → StoredTransaction → Prop) (db db' : Db T) :
  (∀ sig tx, P sig tx → Q sig tx) → gained P db db' → gained Q db db'.
Proof.
  intros Hpq Hg sig. destruct (Hg sig) as [|(? & tx & b & ? & ?)]; [by left|right]. split; [done|].
  exists tx, b. auto.
Qed.

(** The transactions that a call of the caller [td] may record: the transfer that
    it sends from the caller's wallet, or what the node returns for the address of
    the caller's wallet. *)
Definition records (c : call T K) (td : TokenData) (st : St) (sig : string) (tx : StoredTransaction) : Prop :=
  match c with
  | CSendTransaction e wid payload =>
      ∃ resp wallet from to ixs ty st', sr_signature resp = sig ∧
        transferred e td wid payload st st' resp wallet from to ixs ty ∧ tx = record_of e wid payload resp wallet ty
  | CListTransactions e wid _ | CGetTransactionStatus e wid _ =>
      ∃ wallet, (wallet_get (re_io (te_req e) 0%nat) wid (storage st)).1 = Ok wallet ∧
        w_owner_user_id wallet = sub td ∧ w_status wallet = WActive ∧
        from_node (te_net e) (te_sync e) (w_public_address wallet) wid (tx_db st) sig tx
  | _ => False
  end.
(** A transfer is typed, and the node gives its transaction a signature of its own. *)
Definition sends_anew (c : call T K) (st : St) : Prop :=
  match c with
  | CSendTransaction e wid payload =>
      payload_typed payload ∧
      ∀ td resp st', send_transaction (K := K) e td wid payload st = (Ok resp, st') →
        stored_bytes (tx_db st) (sr_signature resp) = None
  | _ => True
  end.

Lemma owned_db e td wid (st : St) : tx_db (owned_wallet e td wid st).2 = tx_db st.
Proof.
  unfold owned_wallet. rewrite act_bind_eq, on_storage_run. destruct (map_err _ _) as [w|x]; [|done].
  rewrite act_bind_lift. by destruct (enforce_owner_active w (sub td)).
Qed.
Lemma send_err e td wid payload (st st' : St) x :
  send_transaction (K := K) e td wid payload st = (Err x, st') → tx_db st' = tx_db st.
Proof.
  unfold send_transaction. intros Hs. pose proof (owned_db e td wid st) as Ho.
  apply act_bind_err in Hs as [Hs|(w & s1 & Hw & Hs)]; [by rewrite Hs in Ho|]. rewrite Hw in Ho. cbn [snd] in Ho.
  rewrite <-Ho. cbv beta in Hs; rewrite act_bind_lift in Hs. destruct (ok_or _ _) as [to|]; [|by injection Hs as _ <-].
  cbv beta in Hs; rewrite act_bind_lift in Hs. destruct (reject_if _ _); [|by injection Hs as _ <-].
  apply act_bind_err in Hs as [Hs|(kb & s2 & Hk & Hs)];
    [rewrite on_storage_run in Hs; by injection Hs as _ <-|].
  rewrite on_storage_run in Hk. injection Hk as _ <-. cbv beta in Hs; rewrite act_bind_lift in Hs.
  destruct (keypair_from_bytes_verified _ _ : result ApiError K) as [kp|]; [|by injection Hs as _ <-].
  cbv beta in Hs; rewrite act_bind_lift in Hs. destruct (dispatch_send _ _ _ _) as [[r ty]|]; [|by injection Hs as _ <-].
  cbv zeta in Hs. apply act_bind_err in Hs as [Hs|([] & s3 & _ & Hs)]; [discriminate Hs|].
  apply act_bind_err in Hs as [Hs|([] & s4 & _ & Hs)]; [discriminate Hs|].
  apply act_bind_err in Hs as [Hs|([] & s5 & _ & Hs)]; discriminate Hs.
Qed.
Lemma send_gains e td wid payload (st : St) :
  sends_anew (CSendTransaction e wid payload) st →
  gained (records (CSendTransaction e wid payload) td st) (tx_db st)
    (tx_db (send_transaction (K := K) e td wid payload st).2).
Proof.
  intros [Hty Hnew]. destruct (send_transaction e td wid payload st) as [[resp|x] st'] eqn:Hs; cbn [snd].
  2:{ apply send_err in Hs as ->. by apply gained_same. }
  destruct (send_transaction_effect e td wid payload st st' resp Hty Hs)
    as (wallet & from & to & ixs & ty & b & Ht & Hb & [Hdb|[_ Hdb]] & _); [|by apply gained_same].
  intros sig. unfold stored_bytes at 1 4. rewrite Hdb, t_get_insert. case_decide as He; [|by left]. subst sig. right.
  split; [by eapply Hnew|]. exists (record_of e wid payload resp wallet ty), b. split_and!; [|done..].
  by exists resp, wallet, from, to, ixs, ty, st'.
Qed.

(** A sync between the wallet's check and the answer. *)
Lemma synced_gains {A} e td wid (f : WalletMetadata → act St ApiError A) (P : string → StoredTransaction → Prop) (st : St) :
  (∀ w, adding (from_node (te_net e) (te_sync e) (w_public_address w) wid) (f w)) →
  (∀ w sig tx, (wallet_get (re_io (te_req e) 0%nat) wid (storage st)).1 = Ok w → w_owner_user_id w = sub td →
     w_status w = WActive → from_node (te_net e) (te_sync e) (w_public_address w) wid (tx_db st) sig tx → P sig tx) →
  gained P (tx_db st) (tx_db ((owned_wallet e td wid ≫= f) st).2).
Proof.
  intros Hf Hp. pose proof (owned_db e td wid st) as Ho. rewrite act_bind_eq.
  destruct (owned_wallet e td wid st) as [[w|x] s] eqn:Hw; cbn [snd] in *; [|rewrite Ho; by apply gained_same].
  apply owned_wallet_ok in Hw as (Hw & Hown & Hact & _). rewrite <-Ho.
  eapply gained_mono; [|apply adds_gained, Hf]. intros sig tx Hsrc. apply (Hp w); [done..|]. by rewrite <-Ho.
Qed.
Lemma sync_wallet_adding e w wid :
  adding (from_node (te_net e) (te_sync e) (w_public_address w) wid) (sync_wallet e w wid : act St ApiError unit).
Proof. apply adding_best_effort, sync_adding. Qed.
Lemma query_adding {A} src (m : act (Db T) TxDbError A) : (∀ db, (m db).2 = db) → adding src (tx_query m : act St ApiError A).
Proof.
  intros Hm. apply adding_still. intros st. unfold tx_query, act_map_err, zoom. cbn [snd]. by rewrite Hm, set_tx_db_id.
Qed.
Lemma list_gains e td wid query (st : St) :
  gained (records (CListTransactions e wid query) td st) (tx_db st) (tx_db (list_transactions e td wid query st).2).
Proof.
  unfold list_transactions. cbv zeta. apply synced_gains.
  2:{ intros w sig tx Hw Ho Ha Hn. by exists w. }
  intros w. apply adding_bind; [apply from_node_framed| |].
  { destruct (lt_cursor query); [apply adding_ret|]. intros s. unfold cached_page.
    destruct (get_first_page _ _ _). cbn. auto using adds_refl. }
  intros [page|]; [apply adding_ret|]. unfold list_fresh.
  apply adding_bind; [apply from_node_framed|apply sync_wallet_adding|]. intros _.
  apply adding_bind; [apply from_node_framed|by apply query_adding|]. intros [entries next].
  apply adding_bind; [apply from_node_framed| |intros _; apply adding_ret].
  intros s. cbn. destruct (lt_cursor query); cbn; auto using adds_refl.
Qed.
Lemma status_gains e td wid sig (st : St) :
  gained (records (CGetTransactionStatus e wid sig) td st) (tx_db st) (tx_db (get_transaction_status e td wid sig st).2).
Proof.
  unfold get_transaction_status. apply synced_gains.
  2:{ intros w sig' tx Hw Ho Ha Hn. by exists w. }
  intros w. apply adding_bind; [apply from_node_framed|apply sync_wallet_adding|]. intros _.
  apply adding_bind; [apply from_node_framed|by apply query_adding|]. intros found.
  apply adding_bind; [apply from_node_framed|apply adding_lift|]. intros tx.
  apply adding_bind; [apply from_node_framed|apply adding_lift|]. intros _. apply adding_ret.
Qed.
Lemma run_call_gains (key : EnclaveKey Sec) (jwks : option (JwksCache J)) (c : call T K) td (st : St) :
  sends_anew c st → gained (records c td st) (tx_db st) (tx_db (run_call key jwks c td st).2).
Proof.
  intros Hnew. destruct (decide (TRANSACTIONS ∈ sc_tables (footprint (endpoint_of c)))) as [Hc|Hc].
  2:{ apply gained_same. by apply (run_call_within key jwks c td st). }
  apply (bool_decide_eq_true_2 _) in Hc. destruct c; try discriminate Hc; cbn [run_call]; unfold answers; rewrite act_bind_eq.
  - pose proof (send_gains e td wallet_id payload st Hnew) as Hg. by destruct (send_transaction e td wallet_id payload st) as [[] ?].
  - pose proof (list_gains e td wallet_id query st) as Hg. by destruct (list_transactions e td wallet_id query st) as [[] ?].
  - pose proof (status_gains e td wallet_id signature st) as Hg. by destruct (get_transaction_status e td wallet_id signature st) as [[] ?].
Qed.
Lemma recorder_user (c : call T K) td st sig tx : records c td st sig tx → guard_of (endpoint_of c) = Some "user".
Proof. by destruct c. Qed.

(** ** Histories *)

Context (audience : string) (net : NetworkConfig).
Abbreviation run_from := (run audience net).
Abbreviation recorded s sig := (stored_bytes (tx_db (sv_state s)) sig).

(** Every transfer of a history is sent with a signature of its own. *)
Definition sent_anew (s : Server) (evs : list (event T K Sec)) : Prop :=
  ∀ pre q c post, evs = pre ++ Request q (Ok c) :: post → sends_anew c (sv_state (run_from s pre)).
Lemma sent_anew_snoc (s : Server) evs ev :
  sent_anew s (evs ++ [ev]) →
  sent_anew s evs ∧ ∀ q c, ev = Request q (Ok c) → sends_anew c (sv_state (run_from s evs)).
Proof.
  intros Hf. split; [|intros q c ->; by eapply Hf].
  intros pre q c post ->. apply (Hf pre q c (post ++ [ev])). by rewrite <-app_assoc.
Qed.
(** The record [tx] of [sig] comes from the event [ev], a request of the owner of a
    wallet, which the path names. *)
Definition recorded_by (s : Server) (pre : list (event T K Sec)) (ev : event T K Sec) (sig : string)
    (tx : StoredTransaction) : Prop :=
  ∃ q c key td, ev = Request q (Ok c) ∧ sv_key (run_from s pre) = Some key ∧ fits (rq_path q) c = true ∧
    authentic (K := J) audience (public_jwk key) (auth_envs pre) q td "user" ∧
    records c td (sv_state (run_from s pre)) sig tx.
Lemma turn_transactions (st : St) t : tx_db (task_turn INDEXER_ENABLED net st t) TRANSACTIONS = tx_db st TRANSACTIONS.
Proof.
  destruct t as [env e|env now]; [done|]. destruct (purge_turn_confined env now st) as [_ _ Ht]. apply Ht. set_solver.
Qed.
Lemma event_records (s : Server) evs ev :
  sv_jwks s = None → sent_anew s (evs ++ [ev]) →
  gained (recorded_by s evs ev) (tx_db (sv_state (run_from s evs))) (tx_db (sv_state (run_from s (evs ++ [ev])))).
Proof.
  intros Hj [_ Hnew]%sent_anew_snoc. rewrite run_snoc.
  destruct (event_cases audience net s evs ev Hj)
    as [(t & _ & ->)|[->|[[_ Hr]|(key & q & c & tok & jwks & -> & Hk & Hc & Hf & _ & ->)]]].
  - apply gained_same, turn_transactions.
  - by apply gained_same.
  - apply gained_same. by rewrite (rt_db _ _ Hr).
  - eapply gained_mono; [|apply run_call_gains; by eapply Hnew]. intros sig tx Htx.
    unfold caller in Hc. rewrite (recorder_user _ _ _ _ _ Htx) in Hc. destruct Hc as (td & -> & Ha).
    by exists q, c, key, td.
Qed.
Lemma records_stay (s : Server) pre evs sig b :
  sv_jwks s = None → sent_anew s (pre ++ evs) → recorded (run_from s pre) sig = Some b →
  recorded (run_from s (pre ++ evs)) sig = Some b.
Proof.
  intros Hj Hnew Hb. induction evs as [|ev evs IH] using rev_ind; [by rewrite app_nil_r|].
  rewrite app_assoc in *. destruct (sent_anew_snoc _ _ _ Hnew) as [Hnew1 _]. specialize (IH Hnew1).
  destruct (event_records s (pre ++ evs) ev Hj Hnew sig) as [->|[Hno _]]; [exact IH|congruence].
Qed.
(** An answered request has run its call. *)
Lemma acknowledged_run (s : Server) evs q (c : call T K) :
  sv_jwks s = None → acknowledged audience q (Ok c) (run_from s evs) = true →
  ∃ key tok jwks code, sv_key (run_from s evs) = Some key ∧ caller audience key (auth_envs evs) q c tok ∧
    run_call key (jwks : option (JwksCache J)) c (default no_token tok) (sv_state (run_from s evs)) =
      (Ok code, sv_state (run_from s (evs ++ [Request q (Ok c)]))).
Proof.
  intros Hj. rewrite run_snoc. unfold acknowledged. cbn [step].
  destruct (sv_key (run_from s evs)) as [key|]; [|done].
  destruct (serve_outcome audience key _ _ q (Ok c) (run_jwks audience net s evs Hj))
    as [|c' tok jwks r st _ [= <-] _ _ Hcall Hrun]; [done|]. cbn [fst snd sv_state].
  destruct r as [code|x]; [|done]. intros _. by exists key, tok, jwks, code.
Qed.


End Ledger.

(** ** Examples *)

From S2P Require Import Instances.
From S2P Require Import WalletFacts.
From S2P Require Import FetchFacts.
From S2P Require Import Mean.
From S2P Require Import MeanFacts.
From S2P Require Import MeanHost.
From S2P Require Import QueryFacts.
From S2P Require Import DrtProgramFacts.
From S2P Require Import PoolFacts.
From S2P Require Import PoolExamples.

#[local] Existing Instance Service.wasm_mean.
(** The token of the owner of the wallet "w1". *)
#[local] Instance jwt7 : JwtCrates string := {
  from_ec_components x _ := Ok x;
  decode_header t := if bool_decide (t = "token") then Ok (Some "k1") else Err "bad";
  jwt_decode key aud iss now t :=
    if bool_decide (key = "X" ∧ t = "token") then
      Ok (mkClaims iss "al" (Some aud) now now (Some "user") None (Some (public_jwk key1)))
    else Err "bad";
  es256_signed key t := key = "X" ∧ t = "token";
  status_display z := show_u64 z;
}.
#[local] Instance jwt7_laws : JwtLaws string.
Proof.
  split. simpl. intros key aud iss now t c. case_bool_decide as Hk; [|done]. intros [= <-]. simpl.
  destruct Hk. split_and!; auto; lia.
Qed.

Definition server7 : Service.Server (T := table0) (C := lru1) (Sec := ascii) (J := string) :=
  mkServer w_two None (Some key1).
Definition send7 : request := mkRequest MPost "/v1/wallets/w1/send" (Some "Bearer token") auth_env0.
Definition status7 : request := mkRequest MGet "/v1/wallets/w1/transactions/sig" (Some "Bearer token") auth_env0.
Definition transfer7 : call table0 bool := CSendTransaction tenv0 "w1" pay_bob.
Definition later7 : list (event table0 bool ascii) :=
  [Stop; Start boot0 "k"%char; Request status7 (Ok (CGetTransactionStatus tenv0 "w1" "sig"))].
Definition history7 : list (event table0 bool ascii) := Request send7 (Ok transfer7) :: later7.
Abbreviation run7 := (run (C := lru1) (M := unit) (I := Guest) (J := string) "relational-sdk" network_config_from_env server7).

(** The transfer is answered, and so is the owner's request to the next process. *)
Lemma history7_served :
  acknowledged (M := unit) (I := Guest) "relational-sdk" send7 (Ok transfer7) server7 = true ∧
  acknowledged (M := unit) (I := Guest) (C := lru1) "relational-sdk" status7
    (Ok (CGetTransactionStatus tenv0 "w1" "sig" : call table0 bool)) (run7 (take 3 history7)) = true.
Proof. split; vm_compute; reflexivity. Qed.

Lemma history7_anew : sent_anew (M := unit) (I := Guest) "relational-sdk" network_config_from_env server7 history7.
Proof.
  intros pre q c post He. destruct pre as [|x [|y [|z [|u pre]]]]; cbn [app] in He; try discriminate He.
  - injection He as <- <- _. split; [by apply pay_typed|]. intros td resp st' _. by vm_compute.
  - injection He as _ _ _ <- <- _. exact I.
  - injection He as _ _ _ _ He. by destruct pre.
Qed.
Definition paid7 : string := default "" (stored_bytes (tx_db (sv_state (run7 history7))) "sig").
Lemma paid7_stored :
  stored_bytes (tx_db (sv_state server7)) "sig" = None ∧
  stored_bytes (tx_db (sv_state (run7 history7))) "sig" = Some paid7.
Proof. split; vm_compute; reflexivity. Qed.
